(* ===== verification/_CoqProject ===== *)
-Q . S2P
Prelude.v
Hex.v
Text.v
Btree.v
Uint.v
UintFacts.v
UintArith.v
UintShift.v
UintProps.v
Hash.v
Address.v
Impls.v
Bincode.v
Core.v
Trie.v
TrieFacts.v
TrieProps.v
State.v
StateProps.v
Crypto.v
Keccak.v
Vectors.v
Vm.v
Executor.v
ExecutorProps.v
TxPool.v
Consensus.v
Store.v
StoreProps.v
StoreSpec.v
Producer.v
Apply.v
ProducerProps.v
ApplyProps.v
Concurrent.v
Persist.v
PersistProps.v
PersistSpec.v
Network.v
Config.v
ConfigProps.v
Path.v
Json.v
Metrics.v
Rpc.v
Light.v
RpcServer.v
RpcProps.v
LightProps.v
RpcServerProps.v
Node.v
NodeProps.v
NodeOrder.v
NodeStart.v
NodeAgree.v
Sockets.v
NodeRun.v
NodeRestart.v
Datadir.v
Contracts.v
Deploy.v
Dev.v
ContractProps.v
DeployProps.v
DevProps.v
DatadirProps.v
Cli.v
CliProps.v
Testing.v
PrimitiveTests.v
CoreTests.v
StateTests.v
ExecutionTests.v
ChainTests.v
LedgerTests.v
RpcTests.v
HttpTests.v
ToolTests.v
NodeTests.v
