(* ===== verification/Prelude.v ===== *)
(** * Ivory: a verification development

    Ivory is a permissioned ledger: a proof-of-authority chain whose blocks carry
    signed transfers, contract creations and WebAssembly calls, with a node binary
    (JSON-RPC, libp2p gossip, RocksDB), a light client and a developer tool.  This
    development is a shallow embedding of its Rust sources under [src/]: functions
    are functions, [Result] is [result], a [&mut self] method or a lock-protected
    structure is a [smonad] (state in, state and result out), a [HashMap] is a
    [gmap], a fixed-width integer is a [Z] with its overflow behaviour written out
    ([checked_*64], [saturating_*64], [mod M64]).

    ** From the code to the files

    Each component is one file of definitions, which requires the components it
    calls, and one or more files of theorems ([...Facts], [...Props], [...Spec]).

    - Values.  [crates/ivory-primitives]: [Uint] ([uint.rs]: U256, U128, U512 on
      64-bit limbs), [Hash] ([hash.rs], [keccak.rs]: the [impl_hash!] types), [Hex]
      and [Address] ([address.rs], [signature.rs], [bytes.rs]); [Impls] their trait
      implementations (views, conversions, indexing, texts, serde).  [Text], [Btree],
      [Json] and [Path] hold what the sources use of the standard library and of
      [serde_json::Value]: number and string text, [BTreeMap], JSON trees, [std::path]
      and [std::fs].  [Bincode] is serde and the byte format, as a class.
    - Ledger.  [crates/ivory-core]: [Core] (accounts, headers, transactions, receipts,
      blocks, their hashes, [Block::validate], the application envelope).
      [crates/ivory-state]: [Trie] (the Patricia trie: root, proofs, verification) and
      [State] ([StateDB]).  [crates/ivory-crypto]: [Crypto].
    - Execution.  [crates/ivory-vm]: [Vm] (host functions and fuel around the
      interpreter).  [crates/ivory-executor]: [Executor].
    - Chain.  [crates/ivory-txpool]: [TxPool].  [crates/ivory-consensus]: [Consensus]
      (seals, proof-of-authority checks, the class [ConsensusEngine]).
      [crates/ivory-chain]: [Store] ([store.rs]: blocks, fork choice, canonical index,
      snapshots, pruning), [Producer] ([producer.rs]), [Apply] ([apply.rs]) and
      [Concurrent] (the calls of several imports on several threads).
    - Node.  [crates/ivory-storage] and [bin/ivory/src/persist.rs]: [Persist].
      [crates/ivory-network]: [Network].  [crates/ivory-rpc]: [Rpc] (methods), [Metrics],
      [RpcServer] (HTTP routes, token, WebSocket subscriptions).  [bin/ivory/src]:
      [Config] and [Datadir] ([config.rs]), [Node] (the ledger, the handlers) and
      [NodeRun] (all of [run_node]) for [node.rs], with socket addresses in [Sockets],
      [Contracts] ([contract.rs]), [Deploy] ([deploy.rs]).
    - Tools.  [tools/ivory-light]: [Light].  [tools/ivory-dev]: [Dev].  [Cli] is the
      [main] of the binaries: [ivory init] and [ivory run], [ivory-dev] and
      [tools/ivory-keygen].
    - Tests.  [Keccak] is Keccak-256 itself, an instance of the class [Sha3Crate].
      [Vectors] evaluates the model on the frozen vectors of [ivory-core/tests] (a
      test of the encodings; Ed25519 is not evaluated).
      [Testing], [PrimitiveTests], [CoreTests], [StateTests], [ExecutionTests],
      [ChainTests], [LedgerTests], [RpcTests], [HttpTests], [ToolTests] and [NodeTests]
      (which runs nodes end to end) translate the repository's unit and integration tests: each test is a boolean under its Rust
      name, computed by the definitions of the model, and each suite evaluates to [true].

    The state of the node is [Node.Node]: an RPC context (ledger, pool, live state,
    gossip side, metrics, events), the persistence handle and the orphans.  The ledger
    is [Apply.Ledger]: [BlockStore], live [StateDB], [TransactionPool].  The node's
    handlers compose the components as the code does: [handle_event] and [tick] call
    [import_and_apply], which validates with [Core], executes with [Executor], inserts
    with [Store] and repairs the pool; an accepted block is then persisted, announced
    and pruned, and the orphans waiting for it are imported.

    ** The theorems

    - [Uint*], [ConfigProps], [Text], [Btree], [Bincode]: integer operations compute the
      number or overflow exactly when it does not fit; encodings and texts are read
      back.  These laws are the interface the other files use ([HexLaws],
      [BincodeLaws], [SerdeLaws], [OrdKeyLaws]).
    - [TrieFacts], [TrieProps], [StateProps]: a trie denotes the map it was built from,
      proofs are complete, and sound when the strings hashed for proof and trie do not
      collide; the state root commits to every account and slot under the same kind of
      hypothesis; [state_inv] is kept by every operation.
    - [Crypto], [Consensus]: signatures are attributed to their key; an accepted header
      carries signatures of the required number of distinct validators.
    - [ExecutorProps], [ProducerProps], [ApplyProps]: [execute_transaction] implements
      its specification branch by branch and creates no money; a produced block
      validates and is imported by another node with the same state; import is exact
      on every branch; the ledger invariant ties head, snapshots, store and live state.
      [Concurrent]: what overlapping imports keep, and the race they can lose.
    - [StoreProps], [StoreSpec], [TxPool]: for every reachable store the canonical index
      is the chain of the head, walks along parents are complete, pruning keeps its
      window; the pool's counters, nonces and capacity are invariants.
    - [PersistProps], [PersistSpec], [NodeStart], [NodeRun], [NodeRestart], [DatadirProps]:
      what is saved is reloaded, under hypotheses on what the database held before; a
      freshly initialised node comes up exactly when the machine lets it, and two of
      them agree; an archive node that started fresh can be stopped after any sequence
      of handlers and resumes the chain it stopped at (and forgets the pool's nonces);
      a data directory is read back as it was initialised.  [CliProps]: [ivory init]
      and then [ivory run] on a new machine.
    - [Network], [NodeProps], [NodeOrder], [NodeAgree]: published messages reach the
      subscribers; importing always settles; handler by handler, any event, tick or
      request keeps the node consistent; blocks can arrive in any order; no peer message
      breaks the node.  The node refines an abstract ledger that only imports blocks,
      forgets states and changes its pool; two nodes that hold a state for the same
      block agree about every account in it, code and storage included, when the
      strings hashed for the two blocks and for the account do not collide.
    - [RpcProps], [RpcServerProps], [LightProps], [DeployProps], [DevProps],
      [ContractProps]: what each front end may change and answers, composed with the
      node: a light client follows an honest endpoint, and the last hash it saw fixes
      the headers before it when their encodings do not collide; a deployment reaches the pool of the node it is sent
      to, and its code the state; loading packages ends exactly when sources do not
      form a cycle.

    Where the code does something it should not, the theorem states what it does:
    [failed_call_breaks_block], [pruned_branch_is_stuck],
    [widened_archive_blocks_restart], [restart_forgets_nonces],
    [metrics_line_injection], [contract_load_terminates], [install_copies],
    [overlapping_imports].

    ** Fuel

    Recursion that is not structural runs on fuel, and a theorem says the fuel is
    enough or that the result does not depend on it.  Parent walks take one step per
    stored block ([walk_fuel], one more than the number of blocks; StoreSpec); building a trie
    takes one step per nibble of the longest key ([trie_fuel]; TrieFacts); a proof walk takes one
    step per nibble left; number texts have at most 40 digits ([radix_loop]; Text);
    importing a block settles within two more steps than there are orphans
    ([import_bound]; NodeProps); a client polls for a receipt 40 times because the code does
    ([wait_loop]); looking for a project takes one step per byte of the path
    ([find_loop]; DevProps).  [load_contract_file] has no bound in the code: [None] is
    running out of fuel, and ContractProps characterises when every fuel runs out.

    ** Parameters

    Third-party crates are classes, with the behaviour the sources rely on as laws:
    [HexCrate], [BincodeCrate], [Sha3Crate] (no law: a theorem that rests on collision
    resistance assumes [coll_free] of the finite list of strings it names, which is
    decidable and which its witness computes), [Ed25519Crate], [WasmiCrate] (fuel metering), [DashMapCrate] and
    [HashMapIter] (an iteration order, any), [RocksDbCrate], [Libp2pCrate], [Libp2pHost], [FloatText],
    [ErrorTexts], [SerdeJson], [ConfigText], [ContractCrates], [TomlCrate].  Witnesses
    instantiate them with small concrete functions (the [..._toy] and [sample_...]
    instances), and evaluate the theorems' hypotheses on them.

    ** Not modelled

    - The parsing of command lines by [clap], process start, logging, timers and signals;
      the web panel, the Python client, benches; the operating system's random generator
      (a drawn key is an argument).
    - Threads: in [Node] a handler (an event, a producer turn, a request) runs to its
      end before the next.  [Concurrent] splits imports at their calls on the store, the
      live state and the pool, and shows that a race loses the tie between live state
      and head; the locks inside one call are not considered.  A
      panic of a third-party crate and running out of memory or stack are not values of
      the model.
    - The [Arbitrary] generators of the fuzzing feature, [Hash] for hash tables, and
      [Display] of error types beyond the texts clients see.
    - The tests that go through a JSON text, compile WebAssembly or YAML with a
      third-party crate, run threads, or look at what libp2p and the sockets do.
    - Links and permissions of the file system ([Path]). *)

(** ** The prelude: results, the state monad, machine integers, lists and bytes *)

From Stdlib Require Export ZArith Lia.
From Stdlib Require Export Strings.Byte.
From stdpp Require Export base tactics list gmap fin_maps countable sorting sets.

Declare Scope ivory_scope.
Delimit Scope ivory_scope with ivory.
#[global] Open Scope ivory_scope.
#[local] Open Scope Z_scope.

Create HintDb ivory.

(** ** Results

    Rust's [Result<A, E>].  [let?] is the [?] operator. *)

Inductive result (A E : Type) : Type :=
| Ok (a : A)
| Err (e : E).
Arguments Ok {A E} a.
Arguments Err {A E} e.

Definition rbind {A B E} (c : result A E) (k : A -> result B E) : result B E :=
  match c with Ok a => k a | Err e => Err e end.

Definition ok_or {A E} (o : option A) (e : E) : result A E :=
  match o with Some a => Ok a | None => Err e end.

Definition map_err {A E F} (f : E -> F) (c : result A E) : result A F :=
  match c with Ok a => Ok a | Err e => Err (f e) end.

Definition is_ok {A E} (c : result A E) : bool :=
  match c with Ok _ => true | Err _ => false end.

Notation "'let?' x ':=' c 'in' k" := (rbind c (fun x => k))
  (at level 10, x pattern, c at level 100, k at level 200)
  : ivory_scope.

#[export] Instance result_eq_dec {A E} `{EqDecision A} `{EqDecision E} :
  EqDecision (result A E).
Proof. solve_decision. Defined.

Lemma rbind_ok {A B E} (c : result A E) (k : A -> result B E) b :
  rbind c k = Ok b <-> exists a, c = Ok a /\ k a = Ok b.
Proof. destruct c; simpl; naive_solver. Qed.

Lemma ok_or_ok {A E} (o : option A) (e : E) a : ok_or o e = Ok a <-> o = Some a.
Proof. destruct o; simpl; naive_solver. Qed.

(** ** Operations that mutate shared state and may fail

    A method taking [&self] over interior-mutable maps and returning [Result]:
    the state it leaves behind on the error path is part of its behaviour, so
    an error keeps the state reached so far. *)

Definition smonad (S E A : Type) : Type := S -> S * result A E.

Definition sret {S E A} (a : A) : smonad S E A := fun s => (s, Ok a).
Definition sfail {S E A} (e : E) : smonad S E A := fun s => (s, Err e).
Definition sbind {S E A B} (c : smonad S E A) (k : A -> smonad S E B) : smonad S E B :=
  fun s => match c s with
           | (s', Ok a) => k a s'
           | (s', Err e) => (s', Err e)
           end.
Definition slift {S E A} (r : result A E) : smonad S E A := fun s => (s, r).
Definition sget {S E A} (f : S -> A) : smonad S E A := fun s => (s, Ok (f s)).
Definition smodify {S E} (f : S -> S) : smonad S E unit := fun s => (f s, Ok tt).
Definition sguard {S E} (b : bool) (e : E) : smonad S E unit :=
  fun s => (s, if b then Ok tt else Err e).

Notation "x <-! c ;; k" := (sbind c (fun x => k))
  (at level 100, c at level 99, k at level 200, right associativity) : ivory_scope.
Notation "c ;;; k" := (sbind c (fun _ => k))
  (at level 100, k at level 200, right associativity) : ivory_scope.

Definition smap_err {S E F A} (f : E -> F) (c : smonad S E A) : smonad S F A :=
  fun s => let '(s, r) := c s in (s, map_err f r).

(** [for x in l { body(x)?; }] *)
Fixpoint sfor {S E A} (l : list A) (body : A -> smonad S E unit) : smonad S E unit :=
  match l with
  | [] => sret tt
  | x :: l => body x ;;; sfor l body
  end.

Lemma sbind_ok {S E A B} (c : smonad S E A) (k : A -> smonad S E B) s s' b :
  sbind c k s = (s', Ok b) <->
  exists a s1, c s = (s1, Ok a) /\ k a s1 = (s', Ok b).
Proof.
  unfold sbind. destruct (c s) as [s1 [a|e]]; split.
  - intros H. eauto.
  - intros (a' & s1' & Heq & H). by simplify_eq.
  - intros. simplify_eq.
  - intros (a' & s1' & Heq & H). by simplify_eq.
Qed.

(** One step of a monadic block, by its first command. *)
Lemma sbind_get {S E A B} (f : S -> A) (k : A -> smonad S E B) s : sbind (sget f) k s = k (f s) s.
Proof. done. Qed.
Lemma sbind_modify {S E B} (f : S -> S) (k : unit -> smonad S E B) s :
  sbind (smodify f) k s = k tt (f s).
Proof. done. Qed.
Lemma sbind_lift {S E A B} (r : result A E) (k : A -> smonad S E B) s :
  sbind (slift r) k s = match r with Ok a => k a s | Err e => (s, Err e) end.
Proof. done. Qed.
Lemma sbind_guard {S E B} b (e : E) (k : unit -> smonad S E B) s :
  sbind (sguard b e) k s = if b then k tt s else (s, Err e).
Proof. by destruct b. Qed.
Lemma sbind_run {S E A B} (c : smonad S E A) (k : A -> smonad S E B) s s' r :
  c s = (s', r) -> sbind c k s = match r with Ok a => k a s' | Err e => (s', Err e) end.
Proof. intros H. unfold sbind. rewrite H. by destruct r. Qed.

(** A loop that maintains an invariant indexed by the elements done so far. *)
Lemma sfor_ind {S E A} (body : A -> smonad S E unit) (P : list A -> S -> Prop) l s :
  P [] s ->
  (forall done x rest s, l = done ++ x :: rest -> P done s ->
     exists s', body x s = (s', Ok tt) /\ P (done ++ [x]) s') ->
  exists s', sfor l body s = (s', Ok tt) /\ P l s'.
Proof.
  intros H0 Hstep.
  cut (forall done rest s, l = done ++ rest -> P done s ->
         exists s', sfor rest body s = (s', Ok tt) /\ P l s'); [by intros Hc; apply (Hc [])|].
  intros pre rest; revert pre; induction rest as [|x rest IH]; intros pre s1 El Hs.
  - rewrite app_nil_r in El. subst. by exists s1.
  - destruct (Hstep pre x rest s1 El Hs) as (s2 & Hx & Hs2). simpl.
    rewrite (sbind_run _ _ _ _ _ Hx). apply (IH (pre ++ [x])); [by rewrite <- app_assoc | done].
Qed.

Lemma sfor_app {S E A} (body : A -> smonad S E unit) l1 l2 s :
  sfor (l1 ++ l2) body s = (sfor l1 body ;;; sfor l2 body) s.
Proof.
  revert s; induction l1 as [|x l1 IH]; intros s; [done |]. simpl. unfold sbind in *.
  destruct (body x s) as [s' [[]|e]]; [apply IH | done].
Qed.

(** Decompose a successful run of a monadic block. *)
Ltac smonad_inv :=
  repeat match goal with
  | H : sbind _ _ _ = (_, Ok _) |- _ =>
      apply sbind_ok in H; destruct H as (? & ? & ? & ?)
  | H : rbind _ _ = Ok _ |- _ =>
      apply rbind_ok in H; destruct H as (? & ? & ?)
  | H : ok_or _ _ = Ok _ |- _ => apply ok_or_ok in H
  | H : slift _ _ = (_, Ok _) |- _ => unfold slift in H; simplify_eq
  | H : sret _ _ = (_, _) |- _ => unfold sret in H; simplify_eq
  | H : sget _ _ = (_, _) |- _ => unfold sget in H; simplify_eq
  | H : smodify _ _ = (_, _) |- _ => unfold smodify in H; simplify_eq
  | H : sguard ?b _ _ = (_, Ok _) |- _ =>
      unfold sguard in H; destruct b eqn:?; simplify_eq
  end.

(** ** Machine integers

    A [u64] is a [Z] in [[0, 2^64)]; the operations of the standard library
    that the sources use are written with their wrap-around or saturation. *)

Abbreviation M64 := 18446744073709551616.
Abbreviation M32 := 4294967296.
Abbreviation M256 :=
  115792089237316195423570985008687907853269984665640564039457584007913129639936.

Definition u64_max : Z := M64 - 1.
Definition u64_ok (x : Z) : Prop := 0 <= x < M64.
Definition u64_okb (x : Z) : bool := (0 <=? x) && (x <? M64).

Definition overflowing_add (a b : Z) : Z * bool := ((a + b) mod M64, M64 <=? a + b).
Definition overflowing_sub (a b : Z) : Z * bool := ((a - b) mod M64, a <? b).
Definition checked_add64 (a b : Z) : option Z :=
  if a + b <? M64 then Some (a + b) else None.
Definition checked_sub64 (a b : Z) : option Z :=
  if b <=? a then Some (a - b) else None.
Definition saturating_add64 (a b : Z) : Z := Z.min (a + b) u64_max.
Definition saturating_sub64 (a b : Z) : Z := Z.max (a - b) 0.
Definition saturating_mul64 (a b : Z) : Z := Z.min (a * b) u64_max.
Definition u64_from_bool (b : bool) : Z := if b then 1 else 0.

(** [u64::leading_zeros] and [u64::trailing_zeros]. *)
Definition u64_leading_zeros (x : Z) : Z := if x =? 0 then 64 else 63 - Z.log2 x.
Fixpoint pos_trailing_zeros (p : positive) : Z :=
  match p with xO q => 1 + pos_trailing_zeros q | _ => 0 end.
Definition u64_trailing_zeros (x : Z) : Z :=
  match x with Zpos p => pos_trailing_zeros p | _ => 64 end.

Lemma u64_okb_ok x : u64_okb x = true <-> u64_ok x.
Proof. unfold u64_okb, u64_ok. rewrite andb_true_iff. lia. Qed.

Lemma saturating_add64_ok a b : u64_ok a -> u64_ok b -> u64_ok (saturating_add64 a b).
Proof. unfold u64_ok, saturating_add64, u64_max. lia. Qed.
Lemma saturating_sub64_ok a b : u64_ok a -> u64_ok b -> u64_ok (saturating_sub64 a b).
Proof. unfold u64_ok, saturating_sub64. lia. Qed.
Lemma saturating_mul64_ok a b : u64_ok a -> u64_ok b -> u64_ok (saturating_mul64 a b).
Proof. unfold u64_ok, saturating_mul64, u64_max. nia. Qed.
Lemma checked_sub64_some a b c :
  checked_sub64 a b = Some c <-> b <= a /\ c = a - b.
Proof. unfold checked_sub64. destruct (b <=? a) eqn:?; naive_solver lia. Qed.
Lemma checked_add64_some a b c :
  checked_add64 a b = Some c <-> a + b < M64 /\ c = a + b.
Proof. unfold checked_add64. destruct (a + b <? M64) eqn:?; naive_solver lia. Qed.
#[export] Hint Resolve saturating_add64_ok saturating_sub64_ok saturating_mul64_ok : ivory.

(** Boolean comparisons of the code, as propositions. *)
Ltac zbool :=
  repeat match goal with
  | H : (_ <? _) = true |- _ => apply Z.ltb_lt in H
  | H : (_ <? _) = false |- _ => apply Z.ltb_ge in H
  | H : (_ <=? _) = true |- _ => apply Z.leb_le in H
  | H : (_ <=? _) = false |- _ => apply Z.leb_gt in H
  | H : (_ =? _) = true |- _ => apply Z.eqb_eq in H
  | H : (_ =? _) = false |- _ => apply Z.eqb_neq in H
  end.

(** ** Bytes *)

Definition bytes : Type := list byte.

#[export] Instance byte_eq_dec : EqDecision byte := Byte.byte_eq_dec.
#[export] Instance byte_countable : Countable byte :=
  inj_countable Byte.to_N Byte.of_N Byte.of_to_N.

Definition byte_val (b : byte) : Z := Z.of_N (Byte.to_N b).
Definition byte_of_Z (z : Z) : byte :=
  match Byte.of_N (Z.to_N (z mod 256)) with Some b => b | None => x00 end.

Lemma byte_val_range b : 0 <= byte_val b < 256.
Proof. unfold byte_val. pose proof (Byte.to_N_bounded b). lia. Qed.

Lemma byte_val_of_Z z : byte_val (byte_of_Z z) = z mod 256.
Proof.
  unfold byte_val, byte_of_Z.
  pose proof (Z.mod_pos_bound z 256 ltac:(lia)).
  destruct (Byte.of_N (Z.to_N (z mod 256))) as [b|] eqn:E.
  - apply Byte.to_of_N in E. rewrite E. lia.
  - apply Byte.of_N_None_iff in E. lia.
Qed.

Lemma byte_val_inj b1 b2 : byte_val b1 = byte_val b2 -> b1 = b2.
Proof.
  unfold byte_val. intros H%N2Z.inj.
  pose proof (Byte.of_to_N b1) as E1. pose proof (Byte.of_to_N b2) as E2.
  rewrite H in E1. congruence.
Qed.

Lemma byte_of_val b : byte_of_Z (byte_val b) = b.
Proof.
  apply byte_val_inj. rewrite byte_val_of_Z.
  apply Z.mod_small, byte_val_range.
Qed.

(** [uN::to_le_bytes] / [from_le_bytes] for [N = 8 * n], and the big-endian forms. *)
Fixpoint le_bytes (n : nat) (z : Z) : bytes :=
  match n with O => [] | S n => byte_of_Z z :: le_bytes n (z / 256) end.
Fixpoint le_val (bs : bytes) : Z :=
  match bs with [] => 0 | b :: bs => byte_val b + 256 * le_val bs end.
Definition be_bytes (n : nat) (z : Z) : bytes := rev (le_bytes n z).
Definition be_val (bs : bytes) : Z := le_val (rev bs).

Lemma le_bytes_length n z : length (le_bytes n z) = n.
Proof. revert z; induction n as [|n IH]; intros z; simpl; [done | by rewrite IH]. Qed.

Lemma be_bytes_length n z : length (be_bytes n z) = n.
Proof. unfold be_bytes. by rewrite length_rev, le_bytes_length. Qed.

Lemma le_val_bound bs : 0 <= le_val bs < 256 ^ Z.of_nat (length bs).
Proof.
  induction bs as [|b bs IH]; simpl length; [done |].
  rewrite Nat2Z.inj_succ, Z.pow_succ_r by lia. simpl.
  pose proof (byte_val_range b). nia.
Qed.

Lemma be_val_bound bs : 0 <= be_val bs < 256 ^ Z.of_nat (length bs).
Proof. unfold be_val. rewrite <- length_rev. apply le_val_bound. Qed.

Lemma le_val_bytes n z : le_val (le_bytes n z) = z mod 256 ^ Z.of_nat n.
Proof.
  revert z; induction n as [|n IH]; intros z; simpl le_bytes; simpl le_val.
  - by rewrite Z.mod_1_r.
  - rewrite IH, byte_val_of_Z, Nat2Z.inj_succ, Z.pow_succ_r by lia.
    rewrite Z.rem_mul_r; lia.
Qed.

Lemma le_bytes_val n bs : length bs = n -> le_bytes n (le_val bs) = bs.
Proof.
  intros <-. induction bs as [|b bs IH]; [done |]. simpl.
  pose proof (byte_val_range b). f_equal.
  - apply byte_val_inj. rewrite byte_val_of_Z.
    rewrite Z.mul_comm, Z_mod_plus_full. by apply Z.mod_small.
  - rewrite Z.mul_comm, Z_div_plus_full by lia.
    by rewrite (Z.div_small (byte_val b)) by lia.
Qed.

Lemma be_val_bytes n z : be_val (be_bytes n z) = z mod 256 ^ Z.of_nat n.
Proof. unfold be_val, be_bytes. by rewrite rev_involutive, le_val_bytes. Qed.

Lemma be_bytes_val n bs : length bs = n -> be_bytes n (be_val bs) = bs.
Proof.
  intros H. unfold be_val, be_bytes. rewrite le_bytes_val.
  - apply rev_involutive.
  - by rewrite length_rev.
Qed.

(** ** Sequences *)

(** Rust's [Ord] on byte sequences: lexicographic, shorter prefix first. *)
Fixpoint bytes_compare (a b : bytes) : comparison :=
  match a, b with
  | [], [] => Eq
  | [], _ :: _ => Lt
  | _ :: _, [] => Gt
  | x :: a, y :: b =>
      match Z.compare (byte_val x) (byte_val y) with
      | Eq => bytes_compare a b
      | c => c
      end
  end.

Lemma bytes_compare_eq a b : bytes_compare a b = Eq <-> a = b.
Proof.
  revert b; induction a as [|x a IH]; intros [|y b]; simpl; try done.
  destruct (Z.compare_spec (byte_val x) (byte_val y)) as [H|H|H].
  - apply byte_val_inj in H as ->. rewrite IH. naive_solver.
  - split; [done | intros [= -> ->]; lia].
  - split; [done | intros [= -> ->]; lia].
Qed.

Lemma bytes_compare_refl a : bytes_compare a a = Eq.
Proof. by apply bytes_compare_eq. Qed.

Lemma bytes_compare_antisym a b : bytes_compare b a = CompOpp (bytes_compare a b).
Proof.
  revert b; induction a as [|x a IH]; intros [|y b]; simpl; try done.
  rewrite (Z.compare_antisym (byte_val x) (byte_val y)).
  destruct (Z.compare (byte_val x) (byte_val y)); simpl; auto.
Qed.

Lemma bytes_compare_lt_trans a b c :
  bytes_compare a b = Lt -> bytes_compare b c = Lt -> bytes_compare a c = Lt.
Proof.
  revert b c; induction a as [|x a IH]; intros [|y b] [|z c]; simpl; try done.
  destruct (Z.compare_spec (byte_val x) (byte_val y)) as [H|H|H]; try done;
  destruct (Z.compare_spec (byte_val y) (byte_val z)) as [H'|H'|H']; try done;
  intros; destruct (Z.compare_spec (byte_val x) (byte_val z)); try done; try lia.
  eauto.
Qed.

Lemma bytes_compare_not_lt_gt a b :
  bytes_compare a b = Gt <-> bytes_compare b a = Lt.
Proof.
  rewrite (bytes_compare_antisym a b). destruct (bytes_compare a b); simpl; done.
Qed.

Lemma elem_of_flat_map {A B} (f : A -> list B) l y : y ∈ flat_map f l <-> exists x, x ∈ l /\ y ∈ f x.
Proof.
  rewrite list_elem_of_In, in_flat_map. by setoid_rewrite list_elem_of_In.
Qed.
