(* ===== verification/Hex.v ===== *)
(** * Strings and the [hex] crate

    A Rust [&str] is its UTF-8 byte sequence.  The [hex] crate is not part of
    the repository: it is the parameter [HexCrate], and [HexLaws] states its
    documented behaviour (lower-case pairs of digits out, pairs of digits of
    either case in, anything else an error).  [hex_reference] is an instance. *)

From Stdlib Require Import String.
Export String.StringSyntax.
From S2P Require Import Prelude.
#[local] Open Scope Z_scope.

(** String literals as byte sequences. *)
Definition str (s : string) : bytes := list_byte_of_string s.
Arguments str s%_string_scope.

(** [str::strip_prefix]. *)
Fixpoint strip_prefix (p s : bytes) : option bytes :=
  match p, s with
  | [], _ => Some s
  | a :: p, b :: s => if decide (a = b) then strip_prefix p s else None
  | _ :: _, [] => None
  end.

(** [str::trim_start_matches] for one character. *)
Fixpoint trim_start_matches (c : byte) (s : bytes) : bytes :=
  match s with
  | [] => []
  | b :: s' => if decide (b = c) then trim_start_matches c s' else s
  end.

(** [format!("{:0>n}", s)]. *)
Definition pad_left (c : byte) (n : nat) (s : bytes) : bytes :=
  replicate (n - List.length s) c ++ s.

(** The idiom [s.strip_prefix("0x").or_else(|| s.strip_prefix("0X")).unwrap_or(s)]. *)
Definition strip_0x (s : bytes) : bytes :=
  match strip_prefix (str "0x") s with
  | Some r => r
  | None => match strip_prefix (str "0X") s with Some r => r | None => s end
  end.

(** ** Digits *)

Definition hex_digit (n : Z) : byte :=
  byte_of_Z (if n <? 10 then 48 + n else 87 + n).

Definition hex_digit_val (c : byte) : option Z :=
  let v := byte_val c in
  if (48 <=? v) && (v <=? 57) then Some (v - 48)
  else if (97 <=? v) && (v <=? 102) then Some (v - 87)
  else if (65 <=? v) && (v <=? 70) then Some (v - 55)
  else None.

Definition hex_pair (b : byte) : bytes :=
  [hex_digit (byte_val b / 16); hex_digit (byte_val b mod 16)].

Definition spec_encode (bs : bytes) : bytes := flat_map hex_pair bs.

Fixpoint spec_decode (s : bytes) : option bytes :=
  match s with
  | [] => Some []
  | a :: b :: r =>
      hi ← hex_digit_val a; lo ← hex_digit_val b; bs ← spec_decode r;
      Some (byte_of_Z (16 * hi + lo) :: bs)
  | [_] => None
  end.

(** ** The crate *)

Class HexCrate := {
  hex_encode : bytes -> bytes;
  hex_decode : bytes -> option bytes }.

Class HexLaws `{HexCrate} : Prop := {
  hex_encode_spec bs : hex_encode bs = spec_encode bs;
  hex_decode_spec s : hex_decode s = spec_decode s }.

#[export] Instance hex_reference : HexCrate :=
  {| hex_encode := spec_encode; hex_decode := spec_decode |}.
#[export] Instance hex_reference_laws : HexLaws.
Proof. by split. Qed.

(** ** Lemmas *)

Lemma hex_digit_val_digit n : 0 <= n < 16 -> hex_digit_val (hex_digit n) = Some n.
Proof.
  intros H. assert (n ∈ [0;1;2;3;4;5;6;7;8;9;10;11;12;13;14;15]) as Hn.
  { rewrite !elem_of_cons. lia. }
  repeat (apply elem_of_cons in Hn as [->|Hn]; [by vm_compute |]).
  by apply elem_of_nil in Hn.
Qed.

Lemma spec_encode_length bs : List.length (spec_encode bs) = (2 * List.length bs)%nat.
Proof. induction bs as [|b bs IH]; simpl; [done |]. rewrite IH. lia. Qed.

Lemma spec_decode_encode bs : spec_decode (spec_encode bs) = Some bs.
Proof.
  induction bs as [|b bs IH]; [done |]. simpl.
  pose proof (byte_val_range b).
  rewrite !hex_digit_val_digit by (split; [apply Z.div_pos || apply Z.mod_pos_bound
    | apply Z.div_lt_upper_bound || apply Z.mod_pos_bound]; lia).
  simpl. rewrite IH. simpl.
  rewrite <- Z.div_mod by lia. by rewrite byte_of_val.
Qed.

Lemma spec_decode_length s bs :
  spec_decode s = Some bs -> List.length s = (2 * List.length bs)%nat.
Proof.
  revert bs.
  cut (forall n bs, (List.length s <= n)%nat -> spec_decode s = Some bs ->
                    List.length s = (2 * List.length bs)%nat).
  { intros H bs. by apply (H (List.length s)). }
  intros n. revert s. induction n as [|n IH]; intros [|a [|b s]] bs Hn; simpl in *;
    try lia; try (intros; simplify_eq/=; lia).
  intros Hd. destruct (hex_digit_val a), (hex_digit_val b); simplify_eq/=.
  destruct (spec_decode s) as [bs'|] eqn:E; simplify_eq/=.
  apply IH in E; lia.
Qed.

Lemma strip_0x_prefixed s : strip_0x (str "0x" ++ s) = s.
Proof. done. Qed.

Lemma trim_pad c n s :
  List.length s = n -> pad_left c n (trim_start_matches c s) = s.
Proof.
  intros <-. unfold pad_left. induction s as [|b s IH]; [done |]. simpl.
  destruct (decide (b = c)) as [->|Hb].
  - assert (List.length (trim_start_matches c s) <= List.length s)%nat as Hle.
    { clear IH. induction s as [|d s IH]; simpl; [done |].
      destruct (decide (d = c)); simpl; lia. }
    rewrite Nat.sub_succ_l by done. simpl. by rewrite IH.
  - by replace (S (List.length s) - List.length (b :: s))%nat with 0%nat by (simpl; lia).
Qed.

Lemma trim_length_le c s :
  (List.length (trim_start_matches c s) <= List.length s)%nat.
Proof.
  induction s as [|d s IH]; simpl; [done |]. destruct (decide (d = c)); simpl; lia.
Qed.

Lemma trim_nil c s :
  trim_start_matches c s = [] <-> s = replicate (List.length s) c.
Proof.
  induction s as [|d s IH]; simpl; [done |].
  destruct (decide (d = c)) as [->|H]; [rewrite IH |]; split; congruence.
Qed.
