(* ===== verification/Text.v ===== *)
(** * Text: the string operations of the standard library the node uses

    Decimal printing and parsing of unsigned integers, [str::trim] and
    [to_ascii_lowercase], on UTF-8 byte sequences. *)

From S2P Require Import Prelude Hex.
#[local] Open Scope Z_scope.

(** ** Numbers

    [format!("{n}")], [format!("{n:x}")], [str::parse] and [from_str_radix],
    for one base and its digits. *)

Section Radix.
Context (base : Z) (digit : Z -> byte) (digit_val : byte -> option Z).

(** Forty digits cover every [u128] in base ten or more. *)
Fixpoint radix_loop (fuel : nat) (n : Z) (acc : bytes) : bytes :=
  match fuel with
  | O => acc
  | S fuel =>
      let acc := digit (n mod base) :: acc in
      if n / base =? 0 then acc else radix_loop fuel (n / base) acc
  end.
Definition fmt_radix (n : Z) : bytes := radix_loop 40 n [].

(** The digits of [s] after the number [acc]. *)
Fixpoint radix_value (acc : Z) (s : bytes) : option Z :=
  match s with
  | [] => Some acc
  | c :: s => d ← digit_val c; radix_value (acc * base + d) s
  end.

(** [uN::from_str_radix(s, base)] for a type of [max + 1] values: at least one
    digit, a leading [+] allowed, out of range refused. *)
Definition parse_radix (max : Z) (s : bytes) : option Z :=
  let digits := match s with x2b :: (c :: r) => c :: r | _ => s end in
  match digits with
  | [] => None
  | _ => n ← radix_value 0 digits; if n <=? max then Some n else None
  end.

Context (Hbase : 10 <= base).
Context (digit_val_digit : forall d, 0 <= d < base -> digit_val (digit d) = Some d).
Context (digit_not_plus : forall d, 0 <= d < base -> digit d ≠ x2b).

Lemma radix_loop_value fuel n acc a :
  0 <= n < base ^ Z.of_nat fuel ->
  exists ds, radix_loop fuel n acc = ds ++ acc /\
             radix_value a (ds ++ acc) = radix_value (a * base ^ Z.of_nat (length ds) + n) acc.
Proof.
  revert n acc; induction fuel as [|fuel IH]; intros n acc Hn.
  { exists []. simpl in *. split; [done |]. f_equal. lia. }
  cbn [radix_loop]. rewrite Nat2Z.inj_succ, Z.pow_succ_r in Hn by lia.
  pose proof (Z.mod_pos_bound n base ltac:(lia)) as Hm. pose proof (Z_div_mod_eq_full n base) as Hd.
  destruct (Z.eqb_spec (n / base) 0) as [E|E].
  - exists [digit (n mod base)]. split; [done |]. simpl.
    rewrite digit_val_digit by lia. simpl. f_equal. nia.
  - destruct (IH (n / base) (digit (n mod base) :: acc)) as (ds & E1 & E2).
    { split; [apply Z.div_pos; lia | apply Z.div_lt_upper_bound; lia]. }
    exists (ds ++ [digit (n mod base)]). rewrite <- app_assoc. split; [done |].
    simpl app. rewrite E2. simpl. rewrite digit_val_digit by lia. simpl.
    rewrite length_app, Nat2Z.inj_add, Z.pow_add_r by lia. simpl. f_equal. nia.
Qed.

Lemma radix_loop_head fuel n acc :
  0 <= n -> exists d ds, 0 <= d < base /\ radix_loop (S fuel) n acc = digit d :: ds.
Proof.
  revert n acc; induction fuel as [|fuel IH]; intros n acc Hn;
    cbn [radix_loop]; pose proof (Z.mod_pos_bound n base ltac:(lia)) as Hm.
  - destruct (n / base =? 0); eauto.
  - destruct (n / base =? 0); [eauto |]. apply IH. apply Z.div_pos; lia.
Qed.

(** A number prints to digits that parse back. *)
Lemma parse_fmt_radix max n :
  0 <= n <= max -> max < base ^ 40 -> parse_radix max (fmt_radix n) = Some n.
Proof.
  intros Hn Hmax. unfold parse_radix, fmt_radix.
  destruct (radix_loop_value 40 n [] 0) as (ds & E1 & E2).
  { split; [lia |]. change (Z.of_nat 40) with 40. lia. }
  rewrite app_nil_r in E1, E2.
  destruct (radix_loop_head 39 n [] ltac:(lia)) as (d & ds' & Hd & E3).
  rewrite E1 in E3. rewrite E3 in E2. rewrite E1, E3. clear E1 E3.
  pose proof (digit_not_plus d Hd) as Hplus.
  assert (forall A (c : byte) (a b : A), c ≠ x2b -> match c with x2b => a | _ => b end = b) as Hm.
  { intros A c a b Hc. destruct c; try reflexivity. by destruct Hc. }
  rewrite (Hm _ _ _ _ Hplus), E2, Z.mul_0_l, Z.add_0_l. cbn.
  by rewrite (proj2 (Z.leb_le n max)) by lia.
Qed.

Lemma radix_loop_digits fuel n acc :
  0 <= n -> Forall (fun c => exists d, 0 <= d < base /\ c = digit d) acc ->
  Forall (fun c => exists d, 0 <= d < base /\ c = digit d) (radix_loop fuel n acc).
Proof.
  revert n acc; induction fuel as [|fuel IH]; intros n acc Hn Hacc; [done |]. cbn [radix_loop].
  pose proof (Z.mod_pos_bound n base ltac:(lia)) as Hm.
  assert (Forall (fun c => exists d, 0 <= d < base /\ c = digit d) (digit (n mod base) :: acc)) by (constructor; eauto).
  destruct (n / base =? 0); [done |]. apply IH; [| done]. apply Z.div_pos; lia.
Qed.

Lemma fmt_radix_digits n : 0 <= n -> Forall (fun c => exists d, 0 <= d < base /\ c = digit d) (fmt_radix n).
Proof. intros Hn. apply radix_loop_digits; [done | constructor]. Qed.

Lemma fmt_radix_head n : 0 <= n -> exists d ds, 0 <= d < base /\ fmt_radix n = digit d :: ds.
Proof. apply radix_loop_head. Qed.
End Radix.

(** ** Decimal *)

Definition dec_digit (d : Z) : byte := byte_of_Z (48 + d).
Definition dec_digit_val (c : byte) : option Z :=
  let v := byte_val c in if (48 <=? v) && (v <=? 57) then Some (v - 48) else None.
Definition fmt_dec : Z -> bytes := fmt_radix 10 dec_digit.
(** [format!("{n}")] of a signed integer. *)
Definition fmt_i64 (n : Z) : bytes := if n <? 0 then str "-" ++ fmt_dec (- n) else fmt_dec n.
Definition parse_dec (max : Z) : bytes -> option Z := parse_radix 10 dec_digit_val max.
Definition u128_max : Z := 2 ^ 128 - 1.
Definition parse_u128 : bytes -> option Z := parse_dec u128_max.
Definition parse_u64 : bytes -> option Z := parse_dec u64_max.

Lemma dec_digit_val_digit d : 0 <= d < 10 -> dec_digit_val (dec_digit d) = Some d.
Proof.
  intros H. unfold dec_digit_val, dec_digit. rewrite byte_val_of_Z, Z.mod_small by lia.
  replace (48 <=? 48 + d) with true by (symmetry; apply Z.leb_le; lia).
  replace (48 + d <=? 57) with true by (symmetry; apply Z.leb_le; lia). simpl. f_equal. lia.
Qed.

Lemma dec_digit_not_plus d : 0 <= d < 10 -> dec_digit d ≠ x2b.
Proof.
  intros Hd E. apply (f_equal byte_val) in E. unfold dec_digit in E.
  rewrite byte_val_of_Z, Z.mod_small in E by lia. change (byte_val x2b) with 43 in E. lia.
Qed.

Lemma parse_fmt_dec max n :
  0 <= n <= max -> max < 10 ^ 40 -> parse_dec max (fmt_dec n) = Some n.
Proof.
  apply parse_fmt_radix; [done | apply dec_digit_val_digit | apply dec_digit_not_plus].
Qed.

(** ** Hexadecimal *)

(** [format!("{n:x}")] and [u64::from_str_radix(s, 16)]. *)
Definition fmt_hex : Z -> bytes := fmt_radix 16 hex_digit.
Definition parse_hex_u64 : bytes -> option Z := parse_radix 16 hex_digit_val u64_max.

Lemma hex_digit_not_plus d : 0 <= d < 16 -> hex_digit d ≠ x2b.
Proof.
  intros Hd E. apply (f_equal hex_digit_val) in E. by rewrite hex_digit_val_digit in E.
Qed.

Lemma parse_fmt_hex n : u64_ok n -> parse_hex_u64 (fmt_hex n) = Some n.
Proof.
  intros Hn. unfold u64_ok in Hn. apply parse_fmt_radix; [done | | | unfold u64_max; lia | done].
  - intros d Hd. by apply hex_digit_val_digit.
  - apply hex_digit_not_plus.
Qed.

(** ** Trimming and case *)

(** The encodings of the characters with the Unicode property [White_Space]. *)
Definition white_space : list bytes :=
  map (fun b => [b]) [x09; x0a; x0b; x0c; x0d; x20] ++
  [[xc2; x85]; [xc2; xa0]; [xe1; x9a; x80]] ++
  map (fun b => [xe2; x80; b]) [x80; x81; x82; x83; x84; x85; x86; x87; x88; x89; x8a; xa8; xa9; xaf] ++
  [[xe2; x81; x9f]; [xe3; x80; x80]].

(** Strip the first pattern that is a prefix, as often as possible. *)
Definition strip_any (ps : list bytes) (s : bytes) : option bytes :=
  foldr (fun p acc => match strip_prefix p s with Some r => Some r | None => acc end) None ps.
Fixpoint trim_loop (ps : list bytes) (fuel : nat) (s : bytes) : bytes :=
  match fuel with
  | O => s
  | S fuel => match strip_any ps s with Some r => trim_loop ps fuel r | None => s end
  end.
Definition trim_start (s : bytes) : bytes := trim_loop white_space (length s) s.
Definition trim_end (s : bytes) : bytes :=
  rev (trim_loop (map (@rev byte) white_space) (length s) (rev s)).
Definition trim (s : bytes) : bytes := trim_end (trim_start s).

Definition to_ascii_lowercase (s : bytes) : bytes :=
  map (fun c => if (65 <=? byte_val c) && (byte_val c <=? 90) then byte_of_Z (byte_val c + 32) else c) s.

Lemma trim_loop_id ps fuel s : strip_any ps s = None -> trim_loop ps fuel s = s.
Proof. intros H. destruct fuel; [done |]. simpl. by rewrite H. Qed.

(** A string between two printable ASCII characters is left alone. *)
Lemma trim_id s :
  strip_any white_space s = None -> strip_any (map (@rev byte) white_space) (rev s) = None -> trim s = s.
Proof.
  intros H1 H2. unfold trim, trim_start. rewrite trim_loop_id by done.
  unfold trim_end. by rewrite trim_loop_id, rev_involutive.
Qed.

Lemma hex_digit_not_space d s :
  0 <= d < 16 ->
  strip_any white_space (hex_digit d :: s) = None /\
  strip_any (map (@rev byte) white_space) (hex_digit d :: s) = None.
Proof.
  intros Hd. assert (d ∈ [0;1;2;3;4;5;6;7;8;9;10;11;12;13;14;15]) as Hin by (rewrite !elem_of_cons; lia).
  repeat (apply elem_of_cons in Hin as [->|Hin]; [by split |]). by apply elem_of_nil in Hin.
Qed.

Example trim_example : trim (str "  master ") = str "master".
Proof. reflexivity. Qed.
Example parse_example : (parse_u128 (fmt_dec 1000000000000000000), parse_u64 (str "+7"),
  parse_u64 (str "+"), parse_u64 (str "18446744073709551616")) = (Some 1000000000000000000, Some 7, None, None).
Proof. vm_compute. reflexivity. Qed.
