(* ===== verification/Btree.v ===== *)
(** * Ordered maps of the standard library

    A [BTreeMap] is the list of its entries in ascending key order, so that its
    iteration order is the list's.  [serde_json] keeps its objects, and the
    metrics their counters, in such maps. *)

From S2P Require Import Prelude.
#[local] Open Scope Z_scope.

(** The [Ord] of a key type: a total order. *)
Class OrdKey (K : Type) := { ord_cmp : K -> K -> comparison }.
Class OrdKeyLaws (K : Type) `{OrdKey K} : Prop := {
  ord_eq a b : ord_cmp a b = Eq <-> a = b;
  ord_antisym a b : ord_cmp b a = CompOpp (ord_cmp a b);
  ord_lt_trans a b c : ord_cmp a b = Lt -> ord_cmp b c = Lt -> ord_cmp a c = Lt }.

#[export] Instance ord_bytes : OrdKey bytes := {| ord_cmp := bytes_compare |}.
#[export] Instance ord_bytes_laws : OrdKeyLaws bytes.
Proof.
  split; [apply bytes_compare_eq | apply bytes_compare_antisym | apply bytes_compare_lt_trans].
Qed.

#[export] Instance ord_i64 : OrdKey Z := {| ord_cmp := Z.compare |}.
#[export] Instance ord_i64_laws : OrdKeyLaws Z.
Proof.
  split; simpl; intros.
  - apply Z.compare_eq_iff.
  - apply Z.compare_antisym.
  - rewrite Z.compare_lt_iff in *. lia.
Qed.

(** Tuples compare lexicographically. *)
#[export] Instance ord_pair {K1 K2} `{OrdKey K1} `{OrdKey K2} : OrdKey (K1 * K2) := {|
  ord_cmp a b := match ord_cmp a.1 b.1 with Eq => ord_cmp a.2 b.2 | c => c end |}.
#[export] Instance ord_pair_laws {K1 K2} `{OrdKeyLaws K1} `{OrdKeyLaws K2} : OrdKeyLaws (K1 * K2).
Proof.
  split; simpl.
  - intros [a1 a2] [b1 b2]; simpl. destruct (ord_cmp a1 b1) eqn:E.
    + apply ord_eq in E as ->. rewrite ord_eq. naive_solver.
    + split; [done |]. intros [= -> ->]. by rewrite (proj2 (ord_eq b1 b1)) in E.
    + split; [done |]. intros [= -> ->]. by rewrite (proj2 (ord_eq b1 b1)) in E.
  - intros [a1 a2] [b1 b2]; simpl. rewrite (ord_antisym a1 b1).
    destruct (ord_cmp a1 b1); simpl; [apply ord_antisym | done..].
  - intros [a1 a2] [b1 b2] [c1 c2]; simpl.
    destruct (ord_cmp a1 b1) eqn:E1; try done; destruct (ord_cmp b1 c1) eqn:E2; try done; intros H3 H4.
    + apply ord_eq in E1 as ->. rewrite E2. by eapply ord_lt_trans.
    + apply ord_eq in E1 as ->. by rewrite E2.
    + apply ord_eq in E2 as ->. by rewrite E1.
    + by rewrite (ord_lt_trans _ _ _ E1 E2).
Qed.

Definition btree (K A : Type) : Type := list (K * A).

Section Btree.
Context {K A : Type} `{OrdKey K}.
Implicit Types m : btree K A.

Fixpoint btree_get (k : K) (m : btree K A) : option A :=
  match m with
  | [] => None
  | (k', a) :: m =>
      match ord_cmp k k' with Lt => None | Eq => Some a | Gt => btree_get k m end
  end.

Fixpoint btree_insert (k : K) (a : A) (m : btree K A) : btree K A :=
  match m with
  | [] => [(k, a)]
  | (k', a') :: m' =>
      match ord_cmp k k' with
      | Lt => (k, a) :: m
      | Eq => (k, a) :: m'
      | Gt => (k', a') :: btree_insert k a m'
      end
  end.

Definition btree_lt (x y : K * A) : Prop := ord_cmp x.1 y.1 = Lt.
Definition btree_wf (m : btree K A) : Prop := StronglySorted btree_lt m.

Context `{!OrdKeyLaws K}.

Lemma ord_refl k : ord_cmp k k = Eq.
Proof. by apply ord_eq. Qed.
Lemma ord_gt k k' : ord_cmp k k' = Gt <-> ord_cmp k' k = Lt.
Proof. rewrite (ord_antisym k k'). by destruct (ord_cmp k k'). Qed.

Lemma btree_get_above k m : Forall (fun x => ord_cmp k x.1 = Lt) m -> btree_get k m = None.
Proof. by intros [|[k' a] m' E _]; [| simpl in *; rewrite E]. Qed.

Lemma btree_get_insert_eq k a m : btree_get k (btree_insert k a m) = Some a.
Proof.
  induction m as [|[k' a'] m IH]; simpl; [by rewrite ord_refl |].
  destruct (ord_cmp k k') eqn:E; simpl; rewrite ?ord_refl, ?E; done.
Qed.

Lemma btree_get_insert_ne k k' a m :
  k ≠ k' -> btree_wf m -> btree_get k' (btree_insert k a m) = btree_get k' m.
Proof.
  intros Hk Hm. induction Hm as [|[k1 a1] m Hm IH Hall]; simpl.
  - destruct (ord_cmp k' k) eqn:E; try done. by apply ord_eq in E.
  - destruct (ord_cmp k k1) eqn:E; simpl.
    + apply ord_eq in E as ->. destruct (ord_cmp k' k1) eqn:E2; try done. by apply ord_eq in E2.
    + destruct (ord_cmp k' k) eqn:E2; try done.
      * by apply ord_eq in E2.
      * by rewrite (ord_lt_trans _ _ _ E2 E).
    + destruct (ord_cmp k' k1); try done.
Qed.

Lemma btree_insert_above k k' a m :
  Forall (fun x => ord_cmp k' x.1 = Lt) m -> ord_cmp k' k = Lt ->
  Forall (fun x => ord_cmp k' x.1 = Lt) (btree_insert k a m).
Proof.
  intros Hm Hk. induction Hm as [|[k1 a1] m Hx Hm IH]; simpl; [by repeat constructor |].
  destruct (ord_cmp k k1); by repeat constructor.
Qed.

Lemma btree_insert_wf k a m : btree_wf m -> btree_wf (btree_insert k a m).
Proof.
  unfold btree_wf. induction 1 as [|[k1 a1] m Hm IH Hall]; simpl; [by repeat constructor |].
  destruct (ord_cmp k k1) eqn:E.
  - apply ord_eq in E as ->. by constructor.
  - constructor; [by constructor |]. constructor; [done |].
    eapply Forall_impl; [exact Hall |]. intros [k2 a2] H2. by apply (ord_lt_trans k k1 k2).
  - constructor; [done |]. apply btree_insert_above; [exact Hall | by apply ord_gt].
Qed.

Lemma btree_get_elem k a m : btree_wf m -> btree_get k m = Some a <-> (k, a) ∈ m.
Proof.
  induction 1 as [|[k1 a1] m Hm IH Hall]; simpl; [by rewrite elem_of_nil |].
  rewrite elem_of_cons. rewrite Forall_forall in Hall. destruct (ord_cmp k k1) eqn:E.
  - apply ord_eq in E as ->. split; [intros [= ->]; by left |].
    intros [[= ->]|Hin]; [done |]. apply Hall in Hin. unfold btree_lt in Hin. simpl in Hin.
    by rewrite ord_refl in Hin.
  - split; [done |]. intros [[= -> ->]|Hin]; [by rewrite ord_refl in E |].
    apply Hall in Hin. unfold btree_lt in Hin. simpl in Hin.
    rewrite ord_antisym, E in Hin. done.
  - rewrite IH. split; [by right |]. intros [[= -> ->]|?]; [by rewrite ord_refl in E | done].
Qed.
End Btree.

(** [entry(k).or_insert(0) += 1] on a [u64] counter, which wraps. *)
Definition btree_incr {K} `{OrdKey K} (k : K) (m : btree K Z) : btree K Z :=
  btree_insert k ((default 0 (btree_get k m) + 1) mod M64) m.
