(* ===== verification/Uint.v ===== *)
(** * Large unsigned integers: [crates/ivory-primitives/src/uint.rs]

    [U256] is four [u64] limbs, least significant first, and its operations are
    the limb loops of the source.  [u256_val] is the number the limbs denote
    and [u256_of_Z] its inverse; the theorems relate every operation to the
    arithmetic on [Z] it implements, overflow included. *)

From S2P Require Import Prelude Hex.
#[local] Open Scope Z_scope.

(** [ivory_primitives::PrimitiveError] *)
Inductive PrimitiveError : Type :=
| Overflow
| InvalidHex
| InvalidLength (expected got : nat).

#[export] Instance PrimitiveError_eq_dec : EqDecision PrimitiveError.
Proof. solve_decision. Defined.

Record U256 : Type := mkU256 { limbs : list Z }.

#[export] Instance U256_eq_dec : EqDecision U256.
Proof. solve_decision. Defined.

(** The invariant of the Rust type [[u64; 4]]. *)
Definition u256_wf (x : U256) : Prop := length (limbs x) = 4%nat /\ Forall u64_ok (limbs x).
#[export] Instance u256_wf_dec x : Decision (u256_wf x).
Proof. unfold u256_wf, u64_ok. apply _. Defined.

Module U256.

(** [self.0[i]] *)
Definition limb (x : U256) (i : nat) : Z := nth i (limbs x) 0.

Definition ZERO : U256 := mkU256 [0; 0; 0; 0].
Definition ONE : U256 := mkU256 [1; 0; 0; 0].
Definition MAX : U256 := mkU256 [u64_max; u64_max; u64_max; u64_max].
Definition zero : U256 := ZERO.
Definition one : U256 := ONE.

Definition from_u64 (v : Z) : U256 := mkU256 [v; 0; 0; 0].
Definition from_u128 (v : Z) : U256 :=
  mkU256 [v mod M64; Z.shiftr v 64 mod M64; 0; 0].

(** [&bytes[offset..offset + 8]] *)
Definition word_at (bs : bytes) (offset : nat) : bytes := take 8 (drop offset bs).

Definition from_be_bytes (bs : bytes) : U256 :=
  mkU256 (map (fun i => be_val (word_at bs ((3 - i) * 8))) (seq 0 4)).
Definition from_le_bytes (bs : bytes) : U256 :=
  mkU256 (map (fun i => le_val (word_at bs (i * 8))) (seq 0 4)).
Definition to_be_bytes (x : U256) : bytes :=
  concat (map (fun i => be_bytes 8 (limb x (3 - i))) (seq 0 4)).
Definition to_le_bytes (x : U256) : bytes :=
  concat (map (fun i => le_bytes 8 (limb x i)) (seq 0 4)).

Definition low_u64 (x : U256) : Z := limb x 0.
Definition low_u128 (x : U256) : Z := Z.lor (Z.shiftl (limb x 1) 64) (limb x 0).

Definition is_zero (x : U256) : bool :=
  (limb x 0 =? 0) && (limb x 1 =? 0) && (limb x 2 =? 0) && (limb x 3 =? 0).

(** ** Hexadecimal *)

Section Hexadecimal.
Context `{HexCrate}.

Definition from_hex (s : bytes) : result U256 PrimitiveError :=
  let s := strip_0x s in
  if decide (s = []) then Ok ZERO
  else if (64 <? length s)%nat then Err Overflow
  else let padded := pad_left x30 64 s in
       let? bs := ok_or (hex_decode padded) InvalidHex in
       Ok (from_be_bytes bs).

Definition to_hex (x : U256) : bytes :=
  if is_zero x then str "0x0"
  else let trimmed := trim_start_matches x30 (hex_encode (to_be_bytes x)) in
       if decide (trimmed = []) then str "0x0" else str "0x" ++ trimmed.

Definition from_str (s : bytes) : result U256 PrimitiveError := from_hex s.

(** [fmt::Debug], [fmt::Display] and [fmt::LowerHex] *)
Definition fmt_debug (x : U256) : bytes := str "U256(" ++ to_hex x ++ str ")".
Definition fmt_display (x : U256) : bytes := to_hex x.
Definition fmt_lower_hex (alternate : bool) (x : U256) : bytes :=
  let h := to_hex x in
  let h := default h (strip_prefix (str "0x") h) in
  if alternate then str "0x" ++ h else h.

End Hexadecimal.

(** ** Bit counts *)

Fixpoint leading_zeros_loop (idx : list nat) (x : U256) : Z :=
  match idx with
  | [] => 256
  | i :: idx =>
      if negb (limb x i =? 0)
      then (3 - Z.of_nat i) * 64 + u64_leading_zeros (limb x i)
      else leading_zeros_loop idx x
  end.
Definition leading_zeros (x : U256) : Z := leading_zeros_loop [3; 2; 1; 0]%nat x.

Fixpoint trailing_zeros_loop (idx : list nat) (x : U256) : Z :=
  match idx with
  | [] => 256
  | i :: idx =>
      if negb (limb x i =? 0)
      then Z.of_nat i * 64 + u64_trailing_zeros (limb x i)
      else trailing_zeros_loop idx x
  end.
Definition trailing_zeros (x : U256) : Z := trailing_zeros_loop [0; 1; 2; 3]%nat x.

Definition bits (x : U256) : Z := 256 - leading_zeros x.

(** ** Comparison *)

Fixpoint cmp_loop (idx : list nat) (a b : U256) : comparison :=
  match idx with
  | [] => Eq
  | i :: idx =>
      match Z.compare (limb a i) (limb b i) with
      | Eq => cmp_loop idx a b
      | c => c
      end
  end.
Definition cmp (a b : U256) : comparison := cmp_loop [3; 2; 1; 0]%nat a b.
Definition ltb (a b : U256) : bool := match cmp a b with Lt => true | _ => false end.
Definition geb (a b : U256) : bool := negb (ltb a b).
Definition gtb (a b : U256) : bool := ltb b a.
Definition eqb (a b : U256) : bool := bool_decide (a = b).

(** ** Bit operations *)

Definition bitand (a b : U256) : U256 :=
  mkU256 (map (fun i => Z.land (limb a i) (limb b i)) (seq 0 4)).
Definition bitor (a b : U256) : U256 :=
  mkU256 (map (fun i => Z.lor (limb a i) (limb b i)) (seq 0 4)).
Definition bitxor (a b : U256) : U256 :=
  mkU256 (map (fun i => Z.lxor (limb a i) (limb b i)) (seq 0 4)).
(** [!x] on [u64] is [u64::MAX - x]. *)
Definition bitnot (a : U256) : U256 :=
  mkU256 (map (fun i => u64_max - limb a i) (seq 0 4)).

Definition shl (x : U256) (shift : Z) : U256 :=
  if 256 <=? shift then ZERO
  else if shift =? 0 then x
  else
    let limb_shift := Z.to_nat (shift / 64) in
    let bit_shift := shift mod 64 in
    let range := seq limb_shift (4 - limb_shift) in
    mkU256
      (if bit_shift =? 0 then
         fold_left (fun r i => <[i := limb x (i - limb_shift)]> r) range [0; 0; 0; 0]
       else
         fold_left
           (fun r i =>
              let v := Z.shiftl (limb x (i - limb_shift)) bit_shift mod M64 in
              let v := if (limb_shift <? i)%nat
                       then Z.lor v (Z.shiftr (limb x (i - limb_shift - 1)) (64 - bit_shift))
                       else v in
              <[i := v]> r) range [0; 0; 0; 0]).

Definition shr (x : U256) (shift : Z) : U256 :=
  if 256 <=? shift then ZERO
  else if shift =? 0 then x
  else
    let limb_shift := Z.to_nat (shift / 64) in
    let bit_shift := shift mod 64 in
    let range := seq 0 (4 - limb_shift) in
    mkU256
      (if bit_shift =? 0 then
         fold_left (fun r i => <[i := limb x (i + limb_shift)]> r) range [0; 0; 0; 0]
       else
         fold_left
           (fun r i =>
              let v := Z.shiftr (limb x (i + limb_shift)) bit_shift in
              let v := if (i + limb_shift + 1 <? 4)%nat
                       then Z.lor v (Z.shiftl (limb x (i + limb_shift + 1)) (64 - bit_shift) mod M64)
                       else v in
              <[i := v]> r) range [0; 0; 0; 0]).

(** ** Addition and subtraction *)

(** The carry loop shared by [checked_add] and [wrapping_add]. *)
Definition add_loop (a b : U256) : list Z * Z :=
  fold_left
    (fun '(r, carry) i =>
       let '(sum1, c1) := overflowing_add (limb a i) (limb b i) in
       let '(sum2, c2) := overflowing_add sum1 carry in
       (<[i := sum2]> r, u64_from_bool c1 + u64_from_bool c2))
    (seq 0 4) ([0; 0; 0; 0], 0).

(** The borrow loop shared by [checked_sub] and [wrapping_sub]. *)
Definition sub_loop (a b : U256) : list Z * Z :=
  fold_left
    (fun '(r, borrow) i =>
       let '(diff1, b1) := overflowing_sub (limb a i) (limb b i) in
       let '(diff2, b2) := overflowing_sub diff1 borrow in
       (<[i := diff2]> r, u64_from_bool b1 + u64_from_bool b2))
    (seq 0 4) ([0; 0; 0; 0], 0).

Definition checked_add (a b : U256) : option U256 :=
  let '(r, carry) := add_loop a b in
  if 0 <? carry then None else Some (mkU256 r).
Definition wrapping_add (a b : U256) : U256 := mkU256 (fst (add_loop a b)).
Definition checked_sub (a b : U256) : option U256 :=
  if ltb a b then None else Some (mkU256 (fst (sub_loop a b))).
Definition wrapping_sub (a b : U256) : U256 := mkU256 (fst (sub_loop a b)).

(** ** Multiplication *)

(** [for j in 0..4]: [None] is [return None], [Some] without the remaining
    indices is [break].  Products and carries are [u128] in the source. *)
Fixpoint mul_inner (a b : U256) (i : nat) (js : list nat) (r : list Z) (carry : Z)
    : option (list Z * Z) :=
  match js with
  | [] => Some (r, carry)
  | j :: js =>
      if (4 <=? i + j)%nat then
        if 0 <? limb a i * limb b j + carry then None else Some (r, carry)
      else
        let product := limb a i * limb b j + nth (i + j) r 0 + carry in
        mul_inner a b i js (<[(i + j)%nat := product mod M64]> r) (Z.shiftr product 64)
  end.

Fixpoint mul_outer (a b : U256) (idx : list nat) (r : list Z) : option (list Z) :=
  match idx with
  | [] => Some r
  | i :: idx =>
      if limb a i =? 0 then mul_outer a b idx r
      else
        '(r, carry) ← mul_inner a b i (seq 0 4) r 0;
        if (0 <? carry) && (i + 4 <=? 4)%nat then None else mul_outer a b idx r
  end.

Definition checked_mul (a b : U256) : option U256 :=
  if is_zero a || is_zero b then Some ZERO
  else if eqb a ONE then Some b
  else if eqb b ONE then Some a
  else if 257 <? bits a + bits b then None
  else r ← mul_outer a b (seq 0 4) [0; 0; 0; 0]; Some (mkU256 r).

(** ** Division *)

(** The iterations [i = n - 1, ..., 0] of the long-division loop. *)
Fixpoint div_loop (n : nat) (quotient remainder divisor : U256) : option U256 :=
  match n with
  | O => Some quotient
  | S i =>
      if geb remainder divisor then
        remainder ← checked_sub remainder divisor;
        div_loop i (bitor quotient (shl ONE (Z.of_nat i))) remainder (shr divisor 1)
      else div_loop i quotient remainder (shr divisor 1)
  end.

Definition checked_div (a b : U256) : option U256 :=
  if is_zero b then None
  else if is_zero a then Some ZERO
  else if ltb a b then Some ZERO
  else if eqb b ONE then Some a
  else
    let shift := leading_zeros b - leading_zeros a in
    div_loop (S (Z.to_nat shift)) ZERO a (shl b shift).

Definition checked_rem (a b : U256) : option U256 :=
  if is_zero b then None
  else
    quotient ← checked_div a b;
    product ← checked_mul quotient b;
    checked_sub a product.

(** ** Saturation and powers *)

Definition saturating_add (a b : U256) : U256 := default MAX (checked_add a b).
Definition saturating_sub (a b : U256) : U256 := default ZERO (checked_sub a b).
Definition saturating_mul (a b : U256) : U256 := default MAX (checked_mul a b).

(** [while exp > 0] for a [u32] exponent: 32 rounds empty it. *)
Fixpoint pow_loop (fuel : nat) (base : U256) (exp : Z) (acc : U256) : option U256 :=
  match fuel with
  | O => None
  | S fuel =>
      if 0 <? exp then
        acc ← (if Z.land exp 1 =? 1 then checked_mul acc base else Some acc);
        let exp := Z.shiftr exp 1 in
        base ← (if 0 <? exp then checked_mul base base else Some base);
        pow_loop fuel base exp acc
      else Some acc
  end.
Definition checked_pow (a : U256) (exp : Z) : option U256 :=
  if exp =? 0 then Some ONE else pow_loop 33 a exp ONE.

(** ** Conversions *)

Definition from_bool (v : bool) : U256 := if v then ONE else ZERO.
Definition try_into_u64 (x : U256) : result Z PrimitiveError :=
  if negb (limb x 1 =? 0) || negb (limb x 2 =? 0) || negb (limb x 3 =? 0)
  then Err Overflow else Ok (limb x 0).
Definition try_into_u128 (x : U256) : result Z PrimitiveError :=
  if negb (limb x 2 =? 0) || negb (limb x 3 =? 0)
  then Err Overflow else Ok (low_u128 x).

End U256.

(** ** [U128] and [U512] *)

Record U128 : Type := mkU128 { u128 : Z }.
Module U128.
Definition ZERO : U128 := mkU128 0.
Definition ONE : U128 := mkU128 1.
Definition MAX : U128 := mkU128 (2 ^ 128 - 1).
Definition from_u64 (v : Z) : U128 := mkU128 v.
Definition from_u128 (v : Z) : U128 := mkU128 v.
Definition is_zero (x : U128) : bool := u128 x =? 0.
End U128.

Record U512 : Type := mkU512 { limbs512 : list Z }.
Module U512.
Definition limb (x : U512) (i : nat) : Z := nth i (limbs512 x) 0.
Definition ZERO : U512 := mkU512 (replicate 8 0).
Definition ONE : U512 := mkU512 (1 :: replicate 7 0).
Definition is_zero (x : U512) : bool := forallb (fun i => limb x i =? 0) (seq 0 8).
Definition to_u256 (x : U512) : U256 :=
  mkU256 [limb x 0; limb x 1; limb x 2; limb x 3].
Definition from_u256 (v : U256) : U512 :=
  mkU512 [U256.limb v 0; U256.limb v 1; U256.limb v 2; U256.limb v 3; 0; 0; 0; 0].
End U512.

(** ** Values *)

Definition u256_val (x : U256) : Z :=
  U256.limb x 0 + M64 * (U256.limb x 1 + M64 * (U256.limb x 2 + M64 * U256.limb x 3)).

Definition u256_of_Z (z : Z) : U256 :=
  mkU256 [z mod M64; z / M64 mod M64; z / M64 / M64 mod M64; z / M64 / M64 / M64 mod M64].

(** The specification of the checked operations. *)
Definition u256_checked (z : Z) : option U256 :=
  if (0 <=? z) && (z <? M256) then Some (u256_of_Z z) else None.
