(* ===== verification/UintFacts.v ===== *)
(** * [U256] refines bounded arithmetic on [Z]

    Every limb loop of [Uint] is related to the operation on [Z] it computes;
    [u256_of_Z] and [u256_val] are inverse on [[0, 2^256)]. *)

From S2P Require Import Prelude Hex Uint.
#[local] Open Scope Z_scope.

(** ** Representation *)

Lemma u256_cases x :
  u256_wf x -> exists a b c d,
    x = mkU256 [a; b; c; d] /\ u64_ok a /\ u64_ok b /\ u64_ok c /\ u64_ok d.
Proof.
  intros [Hlen Hok]. destruct x as [[|a [|b [|c [|d [|]]]]]]; simpl in *; try lia.
  repeat match goal with H : Forall _ (_ :: _) |- _ => apply Forall_cons in H as [? H] end.
  by exists a, b, c, d.
Qed.

Lemma u256_wf_mk a b c d :
  u64_ok a -> u64_ok b -> u64_ok c -> u64_ok d -> u256_wf (mkU256 [a; b; c; d]).
Proof. intros. split; [done |]. simpl. auto using Forall_nil_2, Forall_cons_2. Qed.
#[export] Hint Resolve u256_wf_mk : ivory.

(** Destruct well-formed operands into their limbs. *)
Ltac u256_destruct :=
  repeat match goal with
  | H : u256_wf ?x |- _ =>
      is_var x; apply u256_cases in H; destruct H as (? & ? & ? & ? & -> & ? & ? & ? & ?)
  end; unfold u64_ok in *.

Lemma u256_val_bound x : u256_wf x -> 0 <= u256_val x < M256.
Proof. intros. u256_destruct. unfold u256_val, U256.limb; simpl. lia. Qed.

Lemma u256_val_inj x y : u256_wf x -> u256_wf y -> u256_val x = u256_val y -> x = y.
Proof.
  intros. u256_destruct. unfold u256_val, U256.limb in *; simpl in *.
  repeat f_equal; lia.
Qed.

Lemma u256_of_Z_wf z : u256_wf (u256_of_Z z).
Proof. apply u256_wf_mk; apply Z.mod_pos_bound; lia. Qed.
#[export] Hint Resolve u256_of_Z_wf : ivory.

Lemma u256_val_of_Z z : 0 <= z < M256 -> u256_val (u256_of_Z z) = z.
Proof.
  intros H. unfold u256_val, u256_of_Z, U256.limb; simpl.
  pose proof (Z.div_mod z M64 ltac:(lia)).
  pose proof (Z.div_mod (z / M64) M64 ltac:(lia)).
  pose proof (Z.div_mod (z / M64 / M64) M64 ltac:(lia)).
  assert (0 <= z / M64 / M64 / M64 < M64) as Htop.
  { rewrite !Z.div_div by lia. split; [apply Z.div_pos | apply Z.div_lt_upper_bound]; lia. }
  rewrite (Z.mod_small _ _ Htop). lia.
Qed.

Lemma u256_of_val x : u256_wf x -> u256_of_Z (u256_val x) = x.
Proof.
  intros H. apply u256_val_inj; auto with ivory.
  by apply u256_val_of_Z, u256_val_bound.
Qed.

Lemma u256_eq_of_Z x z : u256_wf x -> u256_val x = z -> x = u256_of_Z z.
Proof. intros ? <-. by rewrite u256_of_val. Qed.

Lemma u256_of_Z_inj a b :
  0 <= a < M256 -> 0 <= b < M256 -> u256_of_Z a = u256_of_Z b -> a = b.
Proof.
  intros Ha Hb H%(f_equal u256_val). by rewrite !u256_val_of_Z in H.
Qed.

Lemma u256_checked_some z r :
  u256_checked z = Some r <-> 0 <= z < M256 /\ r = u256_of_Z z.
Proof.
  unfold u256_checked. destruct (0 <=? z) eqn:?, (z <? M256) eqn:?; simpl; zbool;
    split; intros; destruct_and?; simplify_eq; try lia; auto.
Qed.

Lemma u256_checked_none z : u256_checked z = None <-> ~ (0 <= z < M256).
Proof.
  unfold u256_checked. destruct (0 <=? z) eqn:?, (z <? M256) eqn:?; simpl; zbool;
    split; intros; try done; lia.
Qed.

Lemma u256_checked_small z : 0 <= z < M256 -> u256_checked z = Some (u256_of_Z z).
Proof. intros. by apply u256_checked_some. Qed.

Lemma u256_zero_wf : u256_wf U256.ZERO.
Proof. apply u256_wf_mk; unfold u64_ok; lia. Qed.
Lemma u256_one_wf : u256_wf U256.ONE.
Proof. apply u256_wf_mk; unfold u64_ok; lia. Qed.
Lemma u256_max_wf : u256_wf U256.MAX.
Proof. apply u256_wf_mk; unfold u64_ok, u64_max; lia. Qed.
Lemma u256_from_u64_wf v : u64_ok v -> u256_wf (U256.from_u64 v).
Proof. intros. apply u256_wf_mk; unfold u64_ok in *; lia. Qed.
Lemma u256_from_u64_val v : u256_val (U256.from_u64 v) = v.
Proof. unfold u256_val, U256.limb; simpl. lia. Qed.
#[export] Hint Resolve u256_zero_wf u256_one_wf u256_max_wf u256_from_u64_wf : ivory.

Lemma u256_val_zero : u256_val U256.ZERO = 0. Proof. done. Qed.
Lemma u256_val_one : u256_val U256.ONE = 1. Proof. done. Qed.
Lemma u256_val_max : u256_val U256.MAX = M256 - 1. Proof. done. Qed.

Lemma is_zero_spec x : u256_wf x -> U256.is_zero x = (u256_val x =? 0).
Proof.
  intros. u256_destruct. unfold U256.is_zero, u256_val, U256.limb; simpl.
  apply eq_iff_eq_true. rewrite !andb_true_iff, !Z.eqb_eq. lia.
Qed.

Lemma eqb_spec x y : u256_wf x -> u256_wf y -> U256.eqb x y = (u256_val x =? u256_val y).
Proof.
  intros. unfold U256.eqb. apply eq_iff_eq_true.
  rewrite bool_decide_eq_true, Z.eqb_eq.
  split; [by intros -> | by apply u256_val_inj].
Qed.

(** ** Comparison *)

Lemma cmp_spec x y : u256_wf x -> u256_wf y -> U256.cmp x y = Z.compare (u256_val x) (u256_val y).
Proof.
  intros. u256_destruct. unfold U256.cmp, U256.cmp_loop, u256_val, U256.limb; simpl.
  repeat match goal with
  | |- context [match Z.compare ?a ?b with _ => _ end] =>
      destruct (Z.compare_spec a b); subst
  end; symmetry;
  match goal with
  | |- _ = Eq => apply Z.compare_eq_iff
  | |- _ = Lt => apply Z.compare_lt_iff
  | |- _ = Gt => apply Z.compare_gt_iff
  end; lia.
Qed.

Lemma ltb_spec x y : u256_wf x -> u256_wf y -> U256.ltb x y = (u256_val x <? u256_val y).
Proof. intros. unfold U256.ltb. rewrite cmp_spec by done. done. Qed.

Lemma geb_spec x y : u256_wf x -> u256_wf y -> U256.geb x y = (u256_val y <=? u256_val x).
Proof. intros. unfold U256.geb. rewrite ltb_spec by done. lia. Qed.

(** ** Addition and subtraction *)

Lemma add_step_spec a b c :
  u64_ok a -> u64_ok b -> 0 <= c <= 1 ->
  let '(s1, c1) := overflowing_add a b in
  let '(s2, c2) := overflowing_add s1 c in
  let c' := u64_from_bool c1 + u64_from_bool c2 in
  a + b + c = s2 + M64 * c' /\ u64_ok s2 /\ 0 <= c' <= 1.
Proof.
  unfold u64_ok, overflowing_add, u64_from_bool. intros.
  pose proof (Z.div_mod (a + b) M64 ltac:(lia)).
  pose proof (Z.mod_pos_bound (a + b) M64 ltac:(lia)).
  pose proof (Z.div_mod ((a + b) mod M64 + c) M64 ltac:(lia)).
  pose proof (Z.mod_pos_bound ((a + b) mod M64 + c) M64 ltac:(lia)).
  destruct (M64 <=? a + b) eqn:?, (M64 <=? (a + b) mod M64 + c) eqn:?; zbool; lia.
Qed.

Lemma sub_step_spec a b c :
  u64_ok a -> u64_ok b -> 0 <= c <= 1 ->
  let '(d1, b1) := overflowing_sub a b in
  let '(d2, b2) := overflowing_sub d1 c in
  let c' := u64_from_bool b1 + u64_from_bool b2 in
  a - b - c = d2 - M64 * c' /\ u64_ok d2 /\ 0 <= c' <= 1.
Proof.
  unfold u64_ok, overflowing_sub, u64_from_bool. intros.
  pose proof (Z.div_mod (a - b) M64 ltac:(lia)).
  pose proof (Z.mod_pos_bound (a - b) M64 ltac:(lia)).
  pose proof (Z.div_mod ((a - b) mod M64 - c) M64 ltac:(lia)).
  pose proof (Z.mod_pos_bound ((a - b) mod M64 - c) M64 ltac:(lia)).
  destruct (a <? b) eqn:?, ((a - b) mod M64 <? c) eqn:?; zbool; lia.
Qed.

(** Run one iteration of a carry loop with its step lemma. *)
Ltac run_step op lem :=
  match goal with
  | |- context [op ?a ?b] =>
      match goal with
      | |- context [op (fst (op a b)) ?c] => fail 1
      | _ => idtac
      end;
      let H := fresh "Hstep" in
      match goal with
      | |- context [let '(_, _) := op a b in let '(_, _) := op _ ?c in _] =>
          pose proof (lem a b c) as H;
          specialize (H ltac:(unfold u64_ok in *; lia) ltac:(unfold u64_ok in *; lia)
                        ltac:(lia));
          destruct (op a b) as [? ?];
          match type of H with
          | context [op ?s c] => destruct (op s c) as [? ?]
          end; simpl in H; destruct H as (? & ? & ?)
      end
  end.

Lemma add_loop_spec x y r c :
  u256_wf x -> u256_wf y -> U256.add_loop x y = (r, c) ->
  u256_wf (mkU256 r) /\ u256_val x + u256_val y = u256_val (mkU256 r) + M256 * c /\ 0 <= c <= 1.
Proof.
  intros. u256_destruct. revert H1.
  unfold U256.add_loop, U256.limb. cbn [limbs seq fold_left nth].
  do 4 run_step overflowing_add add_step_spec.
  intros [= <- <-]. split; [| unfold u256_val, U256.limb; simpl; lia].
  by apply u256_wf_mk.
Qed.

Lemma sub_loop_spec x y r c :
  u256_wf x -> u256_wf y -> U256.sub_loop x y = (r, c) ->
  u256_wf (mkU256 r) /\ u256_val x - u256_val y = u256_val (mkU256 r) - M256 * c /\ 0 <= c <= 1.
Proof.
  intros. u256_destruct. revert H1.
  unfold U256.sub_loop, U256.limb. cbn [limbs seq fold_left nth].
  do 4 run_step overflowing_sub sub_step_spec.
  intros [= <- <-]. split; [| unfold u256_val, U256.limb; simpl; lia].
  by apply u256_wf_mk.
Qed.

Lemma checked_add_eq x y :
  u256_wf x -> u256_wf y -> U256.checked_add x y = u256_checked (u256_val x + u256_val y).
Proof.
  intros Hx Hy. unfold U256.checked_add.
  destruct (U256.add_loop x y) as [r c] eqn:E.
  apply add_loop_spec in E as (Hr & Hv & Hc); [| done..].
  pose proof (u256_val_bound _ Hr). pose proof (u256_val_bound _ Hx).
  pose proof (u256_val_bound _ Hy). symmetry.
  destruct (0 <? c) eqn:?; zbool.
  - apply u256_checked_none. lia.
  - apply u256_checked_some. split; [lia |]. apply u256_eq_of_Z; [done | lia].
Qed.

Lemma checked_sub_eq x y :
  u256_wf x -> u256_wf y -> U256.checked_sub x y = u256_checked (u256_val x - u256_val y).
Proof.
  intros Hx Hy. unfold U256.checked_sub. rewrite ltb_spec by done.
  pose proof (u256_val_bound _ Hx). pose proof (u256_val_bound _ Hy). symmetry.
  destruct (u256_val x <? u256_val y) eqn:?; zbool.
  - apply u256_checked_none. lia.
  - destruct (U256.sub_loop x y) as [r c] eqn:E.
    apply sub_loop_spec in E as (Hr & Hv & Hc); [| done..].
    pose proof (u256_val_bound _ Hr).
    apply u256_checked_some. split; [lia |]. apply u256_eq_of_Z; [done |]. simpl. lia.
Qed.
