(* ===== verification/UintArith.v ===== *)
(** * [U256]: multiplication, division, shifts, powers and encodings *)

From S2P Require Import Prelude Hex Uint UintFacts.
#[local] Open Scope Z_scope.

(** ** Bits of a concatenation *)

Lemma high_bits n a i : 0 <= n -> 0 <= a < 2 ^ n -> n <= i -> Z.testbit a i = false.
Proof.
  intros Hn Ha Hi. rewrite <- (Z.mod_small a (2 ^ n)) by done.
  by apply Z.mod_pow2_bits_high.
Qed.

Lemma bits_bound n a :
  0 <= n -> 0 <= a -> (forall i, n <= i -> Z.testbit a i = false) -> a < 2 ^ n.
Proof.
  intros Hn Ha Hb. replace a with (a mod 2 ^ n).
  - apply Z.mod_pos_bound. by apply Z.pow_pos_nonneg.
  - apply Z.bits_inj'. intros i Hi. destruct (Z.ltb_spec i n).
    + by apply Z.mod_pow2_bits_low.
    + rewrite Z.mod_pow2_bits_high by lia. symmetry. by apply Hb.
Qed.

Lemma lor_disjoint a b : Z.land a b = 0 -> Z.lor a b = a + b.
Proof. intros H. rewrite <- Z.add_lor_land, H. lia. Qed.

Lemma land_shiftl_disjoint n a h : 0 <= n -> 0 <= a < 2 ^ n -> Z.land a (h * 2 ^ n) = 0.
Proof.
  intros Hn Ha. rewrite <- Z.shiftl_mul_pow2 by done.
  apply Z.bits_inj'. intros k Hk. rewrite Z.land_spec, Z.bits_0.
  destruct (Z.ltb_spec k n).
  - rewrite Z.shiftl_spec_low by done. apply andb_false_r.
  - by rewrite (high_bits n a).
Qed.

Lemma concat_testbit n a h i :
  0 <= n -> 0 <= a < 2 ^ n -> 0 <= i ->
  Z.testbit (a + 2 ^ n * h) i = if i <? n then Z.testbit a i else Z.testbit h (i - n).
Proof.
  intros Hn Ha Hi. rewrite (Z.mul_comm (2 ^ n)).
  rewrite <- lor_disjoint, Z.lor_spec, <- Z.shiftl_mul_pow2 by (done || by apply land_shiftl_disjoint).
  destruct (Z.ltb_spec i n).
  - rewrite Z.shiftl_spec_low by done. apply orb_false_r.
  - by rewrite Z.shiftl_spec, (high_bits n a).
Qed.

(** A bitwise operation works limb by limb. *)
Section Bitwise.
Context (op : Z -> Z -> Z) (f : bool -> bool -> bool).
Context (Hop : forall x y i, Z.testbit (op x y) i = f (Z.testbit x i) (Z.testbit y i)).
Context (Hf : f false false = false) (Hpos : forall x y, 0 <= x -> 0 <= y -> 0 <= op x y).

Lemma bitwise_ok x y : u64_ok x -> u64_ok y -> u64_ok (op x y).
Proof.
  unfold u64_ok. intros Hx Hy. split; [apply Hpos; lia |].
  change M64 with (2 ^ 64) in *. apply bits_bound; [lia | apply Hpos; lia |].
  intros i Hi. by rewrite Hop, !(high_bits 64) by lia.
Qed.

Lemma bitwise_concat a b h k :
  u64_ok a -> u64_ok b -> op (a + M64 * h) (b + M64 * k) = op a b + M64 * op h k.
Proof.
  intros Ha Hb. pose proof (bitwise_ok a b Ha Hb) as Hab.
  unfold u64_ok in *. apply Z.bits_inj'. intros i Hi.
  change M64 with (2 ^ 64) in *. rewrite Hop, !concat_testbit by lia.
  destruct (Z.ltb_spec i 64); by rewrite Hop.
Qed.

Lemma bitwise_val x y :
  u256_wf x -> u256_wf y ->
  let r := mkU256 (map (fun i => op (U256.limb x i) (U256.limb y i)) (seq 0 4)) in
  u256_wf r /\ u256_val r = op (u256_val x) (u256_val y).
Proof.
  intros Hx Hy. u256_destruct. unfold U256.limb, u256_val. simpl. split.
  - apply u256_wf_mk; by apply bitwise_ok.
  - by rewrite !bitwise_concat.
Qed.
End Bitwise.

Lemma bitor_spec x y :
  u256_wf x -> u256_wf y ->
  u256_wf (U256.bitor x y) /\ u256_val (U256.bitor x y) = Z.lor (u256_val x) (u256_val y).
Proof.
  apply (bitwise_val _ orb Z.lor_spec eq_refl). intros. by apply Z.lor_nonneg.
Qed.
Lemma bitand_spec x y :
  u256_wf x -> u256_wf y ->
  u256_wf (U256.bitand x y) /\ u256_val (U256.bitand x y) = Z.land (u256_val x) (u256_val y).
Proof.
  apply (bitwise_val _ andb Z.land_spec eq_refl). intros. apply Z.land_nonneg. by left.
Qed.
Lemma bitxor_spec x y :
  u256_wf x -> u256_wf y ->
  u256_wf (U256.bitxor x y) /\ u256_val (U256.bitxor x y) = Z.lxor (u256_val x) (u256_val y).
Proof.
  apply (bitwise_val _ xorb Z.lxor_spec eq_refl). intros. by apply Z.lxor_nonneg.
Qed.

(** ** Bit length *)

Lemma log2_concat n l h : 0 <= n -> 0 <= l < 2 ^ n -> 0 < h -> Z.log2 (l + 2 ^ n * h) = n + Z.log2 h.
Proof.
  intros Hn Hl Hh. pose proof (Z.log2_nonneg h). pose proof (Z.log2_spec h Hh).
  apply Z.log2_unique; [lia |]. rewrite <- Z.add_succ_r, !Z.pow_add_r by lia.
  assert (0 < 2 ^ n) by (by apply Z.pow_pos_nonneg). nia.
Qed.

Lemma leading_zeros_spec x :
  u256_wf x -> 0 < u256_val x -> U256.leading_zeros x = 255 - Z.log2 (u256_val x).
Proof.
  intros Hx Hv. apply u256_cases in Hx as (a & b & c & d & -> & Ha & Hb & Hc & Hd).
  revert Hv. unfold u64_ok in *.
  unfold U256.leading_zeros, U256.leading_zeros_loop, u256_val, U256.limb, u64_leading_zeros.
  cbn [limbs nth]. change M64 with (2 ^ 64) in *. intros Hv.
  destruct (d =? 0) eqn:Ed; cbn [negb]; zbool; [subst d; rewrite Z.mul_0_r, Z.add_0_r in *|].
  2: { rewrite !log2_concat by lia. lia. }
  destruct (c =? 0) eqn:Ec; cbn [negb]; zbool; [subst c; rewrite Z.mul_0_r, Z.add_0_r in *|].
  2: { rewrite !log2_concat by lia. lia. }
  destruct (b =? 0) eqn:Eb; cbn [negb]; zbool; [subst b; rewrite Z.mul_0_r, Z.add_0_r in *|].
  2: { rewrite !log2_concat by lia. lia. }
  destruct (a =? 0) eqn:Ea; cbn [negb]; zbool; lia.
Qed.

Lemma leading_zeros_zero : U256.leading_zeros U256.ZERO = 256.
Proof. done. Qed.

Lemma bits_spec x :
  u256_wf x -> 0 < u256_val x ->
  2 ^ (U256.bits x - 1) <= u256_val x < 2 ^ U256.bits x.
Proof.
  intros Hx Hv. unfold U256.bits. rewrite leading_zeros_spec by done.
  pose proof (Z.log2_spec _ Hv).
  replace (256 - (255 - Z.log2 (u256_val x)) - 1) with (Z.log2 (u256_val x)) by lia.
  by replace (256 - (255 - Z.log2 (u256_val x))) with (Z.succ (Z.log2 (u256_val x))) by lia.
Qed.

Lemma bits_bounds x : u256_wf x -> 0 < u256_val x -> 1 <= U256.bits x <= 256.
Proof.
  intros Hx Hv. unfold U256.bits. rewrite leading_zeros_spec by done.
  pose proof (Z.log2_nonneg (u256_val x)).
  assert (Z.log2 (u256_val x) < 256); [| lia].
  apply (proj1 (Z.log2_lt_pow2 _ 256 Hv)). change (2 ^ 256) with M256.
  by apply u256_val_bound.
Qed.

(** ** Multiplication *)

Lemma mul_step_spec a b r c :
  u64_ok a -> u64_ok b -> u64_ok r -> u64_ok c ->
  let p := a * b + r + c in
  p = p mod M64 + M64 * Z.shiftr p 64 /\ u64_ok (p mod M64) /\ u64_ok (Z.shiftr p 64).
Proof.
  intros Ha Hb Hr Hc p. unfold u64_ok in *. rewrite Z.shiftr_div_pow2 by lia.
  change (2 ^ 64) with M64.
  assert (0 <= p <= (M64 - 1) * (M64 - 1) + 2 * (M64 - 1)) as Hp by (unfold p; nia).
  pose proof (Z.div_mod p M64 ltac:(lia)). pose proof (Z.mod_pos_bound p M64 ltac:(lia)).
  split; [lia |]. split; [lia |].
  split; [apply Z.div_pos; lia | apply Z.div_lt_upper_bound; lia].
Qed.

(** One row of the schoolbook product, with the overflow test that ends it. *)
Definition mul_row (a b : U256) (i : nat) (r : list Z) : option (list Z) :=
  '(r, carry) ← U256.mul_inner a b i (seq 0 4) r 0;
  if (0 <? carry) && (i + 4 <=? 4)%nat then None else Some r.

Ltac mul_steps :=
  repeat match goal with
  | |- context [Z.shiftr (?a * ?b + ?r + ?c) 64] =>
      let H := fresh "Hmul" in
      pose proof (mul_step_spec a b r c ltac:(done) ltac:(done) ltac:(done) ltac:(done)) as H;
      cbv zeta in H; destruct H as (? & ? & ?);
      let q := fresh "q" in let m := fresh "m" in
      set (q := Z.shiftr (a * b + r + c) 64) in *;
      set (m := (a * b + r + c) mod M64) in *;
      clearbody q m
  end.

Lemma row_finish r c z :
  u256_wf (mkU256 r) -> 0 <= c -> z = u256_val (mkU256 r) + M256 * c ->
  (if 0 <? c then None else Some r) = limbs <$> u256_checked z.
Proof.
  intros Hr Hc ->. pose proof (u256_val_bound _ Hr).
  destruct (0 <? c) eqn:?; zbool.
  - by rewrite (proj2 (u256_checked_none _)) by lia.
  - replace (u256_val (mkU256 r) + M256 * c) with (u256_val (mkU256 r)) by lia.
    by rewrite u256_checked_small, u256_of_val by done.
Qed.

(** The rows after the first leave the inner loop by [break]. *)
Ltac row_break :=
  match goal with
  | |- context [if 0 <? ?q then None else Some (?r, _)] =>
      transitivity (if 0 <? q then None else Some r);
      [destruct (0 <? q); cbn; [done | by rewrite andb_false_r] |]
  end;
  apply row_finish; [by apply u256_wf_mk | unfold u64_ok in *; lia |];
  unfold u256_val, U256.limb; cbn; lia.

Lemma mul_row_spec a b i r :
  u256_wf a -> u256_wf b -> u256_wf (mkU256 r) -> (i < 4)%nat ->
  (forall j, (4 <= i + j)%nat -> U256.limb b j = 0) ->
  mul_row a b i r =
  limbs <$> u256_checked (u256_val (mkU256 r) + U256.limb a i * M64 ^ Z.of_nat i * u256_val b).
Proof.
  intros Ha Hb Hr Hi Hz.
  apply u256_cases in Ha as (a0 & a1 & a2 & a3 & -> & Ha0 & Ha1 & Ha2 & Ha3).
  apply u256_cases in Hb as (b0 & b1 & b2 & b3 & -> & Hb0 & Hb1 & Hb2 & Hb3).
  apply u256_cases in Hr as (r0 & r1 & r2 & r3 & [= ->] & Hr0 & Hr1 & Hr2 & Hr3).
  assert (u64_ok 0) as H0 by done.
  pose proof (Hz 1%nat) as Hz1. pose proof (Hz 2%nat) as Hz2. pose proof (Hz 3%nat) as Hz3.
  unfold mul_row, u256_val, U256.limb in *.
  destruct i as [|[|[|[|]]]]; try lia;
    cbn [seq U256.mul_inner Nat.leb Nat.add nth limbs insert list_insert mbind option_bind] in *;
    unfold U256.limb in *; cbn [nth limbs] in *.
  - mul_steps. cbn [mbind option_bind]. rewrite andb_true_r.
    apply row_finish; [by apply u256_wf_mk | unfold u64_ok in *; lia |].
    unfold u256_val, U256.limb; cbn. lia.
  - rewrite Hz3 in * by lia. mul_steps. rewrite Z.mul_0_r, Z.add_0_l.
    row_break.
  - rewrite Hz3, Hz2 in * by lia. mul_steps. rewrite Z.mul_0_r, Z.add_0_l.
    row_break.
  - rewrite Hz3, Hz2, Hz1 in * by lia. mul_steps. rewrite Z.mul_0_r, Z.add_0_l.
    row_break.
Qed.

(** The contribution of the rows [idx] to the product. *)
Definition rows_sum (a b : U256) (idx : list nat) : Z :=
  foldr (fun i s => U256.limb a i * M64 ^ Z.of_nat i * u256_val b + s) 0 idx.

Lemma limb_ok x i : u256_wf x -> u64_ok (U256.limb x i).
Proof.
  intros (a & b & c & d & -> & ? & ? & ? & ?)%u256_cases.
  destruct i as [|[|[|[|[|]]]]]; done.
Qed.
#[export] Hint Resolve limb_ok : ivory.

Lemma rows_sum_nonneg a b idx : u256_wf a -> u256_wf b -> 0 <= rows_sum a b idx.
Proof.
  intros Ha Hb. induction idx as [|i idx IH]; [done |]. simpl.
  pose proof (limb_ok a i Ha) as [? _]. pose proof (u256_val_bound _ Hb) as [? _].
  assert (0 <= M64 ^ Z.of_nat i) by (apply Z.pow_nonneg; lia). nia.
Qed.

Lemma mul_outer_spec a b idx r :
  u256_wf a -> u256_wf b -> u256_wf (mkU256 r) -> Forall (fun i => (i < 4)%nat) idx ->
  (forall i j, (4 <= i + j)%nat -> U256.limb a i <> 0 -> U256.limb b j = 0) ->
  U256.mul_outer a b idx r =
  limbs <$> u256_checked (u256_val (mkU256 r) + rows_sum a b idx).
Proof.
  intros Ha Hb Hr Hidx Hz. revert r Hr.
  induction Hidx as [|i idx Hi Hidx IH]; intros r Hr; cbn [U256.mul_outer rows_sum foldr].
  - rewrite Z.add_0_r, u256_checked_small, u256_of_val by (done || by apply u256_val_bound).
    done.
  - fold (rows_sum a b idx). destruct (U256.limb a i =? 0) eqn:E; zbool.
    + rewrite IH, E by done. simpl. done.
    + transitivity (r ← mul_row a b i r; U256.mul_outer a b idx r).
      { unfold mul_row. destruct (U256.mul_inner a b i (seq 0 4) r 0) as [[r' c]|]; cbn; [| done].
        by destruct ((0 <? c) && (i + 4 <=? 4)%nat). }
      rewrite mul_row_spec by eauto.
      pose proof (rows_sum_nonneg a b idx Ha Hb).
      destruct (u256_checked (_ + _ * u256_val b)) as [s|] eqn:Es; cbn.
      * apply u256_checked_some in Es as [Hs ->].
        change (limbs (u256_of_Z ?z)) with (limbs (u256_of_Z z)).
        rewrite IH by apply u256_of_Z_wf.
        assert (forall x, mkU256 (limbs x) = x) as -> by by intros [].
        rewrite u256_val_of_Z by done. f_equal. f_equal. lia.
      * apply u256_checked_none in Es. symmetry.
        rewrite (proj2 (u256_checked_none _)); [done |].
        pose proof (u256_val_bound _ Hr). pose proof (limb_ok a i Ha) as [? _].
        pose proof (u256_val_bound _ Hb).
        assert (0 <= U256.limb a i * M64 ^ Z.of_nat i * u256_val b); [| lia].
        repeat apply Z.mul_nonneg_nonneg; try lia.
Qed.

Lemma rows_sum_val a b : u256_wf a -> rows_sum a b (seq 0 4) = u256_val a * u256_val b.
Proof. intros Ha. u256_destruct. unfold rows_sum, u256_val, U256.limb. cbn -[Z.add Z.mul]. lia. Qed.

(** Non-zero limbs bound the bit length from below. *)
Lemma bits_limb x i : u256_wf x -> U256.limb x i <> 0 -> 64 * Z.of_nat i + 1 <= U256.bits x.
Proof.
  intros Hx Hl. pose proof (limb_ok x i Hx) as Hok.
  assert (2 ^ (64 * Z.of_nat i) <= u256_val x) as Hge.
  { apply u256_cases in Hx as (a & b & c & d & -> & ? & ? & ? & ?).
    unfold u64_ok, u256_val, U256.limb in *; cbn [limbs nth] in *.
    destruct i as [|[|[|[|[|]]]]]; cbn [nth] in *; lia. }
  assert (0 < 2 ^ (64 * Z.of_nat i)) by (apply Z.pow_pos_nonneg; lia).
  assert (0 < u256_val x) as Hpos by lia.
  pose proof (bits_spec x Hx Hpos) as [_ Hlt]. pose proof (bits_bounds x Hx Hpos).
  assert (64 * Z.of_nat i < U256.bits x); [| lia].
  apply (Z.pow_lt_mono_r_iff 2); lia.
Qed.

Lemma u256_checked_zero : u256_checked 0 = Some U256.ZERO.
Proof. vm_compute. reflexivity. Qed.

Lemma checked_mul_eq x y :
  u256_wf x -> u256_wf y -> U256.checked_mul x y = u256_checked (u256_val x * u256_val y).
Proof.
  intros Hx Hy. unfold U256.checked_mul.
  rewrite !is_zero_spec, !eqb_spec by auto with ivory. rewrite u256_val_one.
  pose proof (u256_val_bound _ Hx). pose proof (u256_val_bound _ Hy).
  destruct (u256_val x =? 0) eqn:E1; [zbool; rewrite E1, Z.mul_0_l; symmetry; apply u256_checked_zero | ].
  destruct (u256_val y =? 0) eqn:E2; [zbool; rewrite E2, Z.mul_0_r, orb_true_r; symmetry; apply u256_checked_zero | ]. cbn [orb].
  destruct (u256_val x =? 1) eqn:E3; zbool.
  { rewrite E3, Z.mul_1_l, u256_checked_small, u256_of_val by done. reflexivity. }
  destruct (u256_val y =? 1) eqn:E4; zbool.
  { rewrite E4, Z.mul_1_r, u256_checked_small, u256_of_val by done. reflexivity. }
  destruct (257 <? U256.bits x + U256.bits y) eqn:E5; zbool.
  - symmetry. apply u256_checked_none.
    pose proof (bits_spec x Hx ltac:(lia)). pose proof (bits_spec y Hy ltac:(lia)).
    pose proof (bits_bounds x Hx ltac:(lia)). pose proof (bits_bounds y Hy ltac:(lia)).
    assert (M256 <= 2 ^ (U256.bits x - 1) * 2 ^ (U256.bits y - 1)).
    { rewrite <- Z.pow_add_r by lia. change M256 with (2 ^ 256).
      apply Z.pow_le_mono_r; lia. }
    assert (0 < 2 ^ (U256.bits x - 1)) by (apply Z.pow_pos_nonneg; lia).
    assert (0 < 2 ^ (U256.bits y - 1)) by (apply Z.pow_pos_nonneg; lia). nia.
  - rewrite mul_outer_spec; [| done | done | apply u256_zero_wf | repeat constructor; lia |].
    + change (u256_val (mkU256 [0; 0; 0; 0])) with 0. rewrite Z.add_0_l, rows_sum_val by done.
      destruct (u256_checked _) as [[]|]; done.
    + intros i j Hij Hi. destruct (Z.eq_dec (U256.limb y j) 0) as [|Hj]; [done |].
      pose proof (bits_limb x i Hx Hi). pose proof (bits_limb y j Hy Hj). lia.
Qed.
