(* ===== verification/UintShift.v ===== *)
(** * [U256]: shifts, division, remainder and powers *)

From S2P Require Import Prelude Hex Uint UintFacts UintArith.
#[local] Open Scope Z_scope.

(** ** Shifts *)

Lemma pow2_split k : 0 < k < 64 -> 2 ^ k * 2 ^ (64 - k) = M64.
Proof. intros. rewrite <- Z.pow_add_r by lia. by replace (k + (64 - k)) with 64 by lia. Qed.

(** The two halves of a limb shifted left by [k]. *)
Lemma shl_limb a k :
  u64_ok a -> 0 < k < 64 ->
  let s := Z.shiftl a k mod M64 in let q := Z.shiftr a (64 - k) in
  a * 2 ^ k = M64 * q + s /\ 0 <= q < 2 ^ k /\ u64_ok s.
Proof.
  intros Ha Hk s q. unfold u64_ok in *. subst s q.
  rewrite Z.shiftl_mul_pow2, Z.shiftr_div_pow2 by lia.
  pose proof (pow2_split k Hk) as Hp. pose proof (Z.pow_pos_nonneg 2 k).
  pose proof (Z.pow_pos_nonneg 2 (64 - k)).
  assert (a * 2 ^ k / M64 = a / 2 ^ (64 - k)) as Hq.
  { rewrite <- Hp, Z.mul_comm, Z.div_mul_cancel_l by lia. done. }
  pose proof (Z.div_mod (a * 2 ^ k) M64 ltac:(lia)).
  pose proof (Z.mod_pos_bound (a * 2 ^ k) M64 ltac:(lia)).
  rewrite <- Hq. split; [lia |]. split; [| lia].
  rewrite Hq. split; [apply Z.div_pos; lia | apply Z.div_lt_upper_bound; nia].
Qed.

(** The two halves of a limb shifted right by [k]. *)
Lemma shr_limb a k :
  u64_ok a -> 0 < k < 64 ->
  let q := Z.shiftr a k in let s := Z.shiftl a (64 - k) mod M64 in let m := a mod 2 ^ k in
  a = 2 ^ k * q + m /\ s = 2 ^ (64 - k) * m /\ 0 <= q < 2 ^ (64 - k) /\ 0 <= m < 2 ^ k.
Proof.
  intros Ha Hk q s m. unfold u64_ok in *. subst q s m.
  rewrite Z.shiftl_mul_pow2, Z.shiftr_div_pow2 by lia.
  pose proof (pow2_split k Hk) as Hp. pose proof (Z.pow_pos_nonneg 2 k).
  pose proof (Z.pow_pos_nonneg 2 (64 - k)).
  pose proof (Z.div_mod a (2 ^ k) ltac:(lia)).
  pose proof (Z.mod_pos_bound a (2 ^ k) ltac:(lia)).
  split; [lia |]. split.
  - rewrite <- Hp. rewrite Z.mul_mod_distr_r by lia. lia.
  - split; [| lia]. split; [apply Z.div_pos; lia | apply Z.div_lt_upper_bound; nia].
Qed.

Lemma shl_lor a b k :
  u64_ok a -> u64_ok b -> 0 < k < 64 ->
  Z.lor (Z.shiftl a k mod M64) (Z.shiftr b (64 - k)) =
  Z.shiftl a k mod M64 + Z.shiftr b (64 - k).
Proof.
  intros Ha Hb Hk. apply lor_disjoint.
  destruct (shl_limb b k Hb Hk) as (_ & Hq & _).
  destruct (shr_limb a (64 - k) Ha ltac:(lia)) as (_ & Hs & _).
  replace (64 - (64 - k)) with k in Hs by lia. rewrite Hs, Z.land_comm, Z.mul_comm.
  apply land_shiftl_disjoint; lia.
Qed.

Lemma shr_lor a b k :
  u64_ok a -> u64_ok b -> 0 < k < 64 ->
  Z.lor (Z.shiftr a k) (Z.shiftl b (64 - k) mod M64) =
  Z.shiftr a k + Z.shiftl b (64 - k) mod M64.
Proof.
  intros Ha Hb Hk. rewrite Z.lor_comm, Z.add_comm.
  pose proof (shl_lor b a (64 - k) Hb Ha ltac:(lia)) as H.
  by replace (64 - (64 - k)) with k in H by lia.
Qed.

Lemma shl_sum_ok a b k :
  u64_ok a -> u64_ok b -> 0 < k < 64 ->
  u64_ok (Z.shiftl a k mod M64 + Z.shiftr b (64 - k)).
Proof.
  intros Ha Hb Hk. rewrite <- shl_lor by done.
  destruct (shl_limb a k Ha Hk) as (_ & _ & Hs).
  destruct (shl_limb b k Hb Hk) as (_ & Hq & _).
  apply (bitwise_ok _ orb Z.lor_spec eq_refl); [| done |].
  - intros. by apply Z.lor_nonneg.
  - unfold u64_ok. assert (2 ^ k < 2 ^ 64) by (apply Z.pow_lt_mono_r; lia).
    change (2 ^ 64) with M64 in *. lia.
Qed.

Lemma shr_sum_ok a b k :
  u64_ok a -> u64_ok b -> 0 < k < 64 ->
  u64_ok (Z.shiftr a k + Z.shiftl b (64 - k) mod M64).
Proof.
  intros Ha Hb Hk. pose proof (shl_sum_ok b a (64 - k) Hb Ha ltac:(lia)) as H.
  replace (64 - (64 - k)) with k in H by lia. by rewrite Z.add_comm.
Qed.

Lemma limb_shift_cases s :
  0 <= s < 256 ->
  exists ls k, (ls < 4)%nat /\ 0 <= k < 64 /\ s = 64 * Z.of_nat ls + k /\
               Z.to_nat (s / 64) = ls /\ s mod 64 = k.
Proof.
  intros Hs. exists (Z.to_nat (s / 64)), (s mod 64).
  pose proof (Z.div_mod s 64 ltac:(lia)). pose proof (Z.mod_pos_bound s 64 ltac:(lia)).
  assert (0 <= s / 64 < 4) by (split; [apply Z.div_pos | apply Z.div_lt_upper_bound]; lia).
  repeat split; lia.
Qed.

Lemma pow_limbs ls k :
  0 <= k -> 2 ^ (64 * Z.of_nat ls + k) = M64 ^ Z.of_nat ls * 2 ^ k.
Proof. intros. rewrite Z.pow_add_r, Z.pow_mul_r by lia. done. Qed.

Lemma mod_unique_pos z m q r : 0 <= r < m -> z = m * q + r -> r = z mod m.
Proof. intros. apply (Z.mod_unique z m q); lia. Qed.

Lemma shl_spec x s :
  u256_wf x -> 0 <= s ->
  u256_wf (U256.shl x s) /\ u256_val (U256.shl x s) = (u256_val x * 2 ^ s) mod M256.
Proof.
  intros Hx Hs. unfold U256.shl. destruct (256 <=? s) eqn:E256; zbool.
  { split; [auto with ivory |]. rewrite u256_val_zero.
    replace s with (256 + (s - 256)) by lia. rewrite Z.pow_add_r by lia.
    change (2 ^ 256) with M256.
    replace (u256_val x * (M256 * 2 ^ (s - 256))) with (u256_val x * 2 ^ (s - 256) * M256) by lia.
    by rewrite Z_mod_mult. }
  destruct (s =? 0) eqn:E0; zbool.
  { subst s. split; [done |]. rewrite Z.mul_1_r, Z.mod_small; [done | by apply u256_val_bound]. }
  destruct (limb_shift_cases s ltac:(lia)) as (ls & k & Hls & Hk & -> & -> & ->).
  rewrite pow_limbs by lia.
  apply u256_cases in Hx as (a & b & c & d & -> & Ha & Hb & Hc & Hd).
  assert (u64_ok 0) as Hz by done.
  destruct (k =? 0) eqn:Ek; zbool.
  - subst k. unfold u256_val, U256.limb.
    destruct ls as [|[|[|[|]]]]; try lia; cbn -[Z.modulo Z.mul Z.add];
      (split; [by apply u256_wf_mk |]);
      (eapply mod_unique_pos; [unfold u64_ok in *; lia |]); unfold u64_ok in *.
    + instantiate (1 := d). lia.
    + instantiate (1 := c + M64 * d). lia.
    + instantiate (1 := b + M64 * c + M64 * M64 * d). lia.
  - unfold u256_val, U256.limb.
    destruct (shl_limb a k Ha ltac:(lia)) as (Ea & Qa & Sa).
    destruct (shl_limb b k Hb ltac:(lia)) as (Eb & Qb & Sb).
    destruct (shl_limb c k Hc ltac:(lia)) as (Ec & Qc & Sc).
    destruct (shl_limb d k Hd ltac:(lia)) as (Ed & Qd & Sd).
    pose proof (shl_sum_ok b a k Hb Ha ltac:(lia)) as Sba.
    pose proof (shl_sum_ok c b k Hc Hb ltac:(lia)) as Scb.
    pose proof (shl_sum_ok d c k Hd Hc ltac:(lia)) as Sdc.
    destruct ls as [|[|[|[|]]]]; try lia;
      cbn [Nat.sub seq fold_left limbs nth Nat.ltb Nat.leb insert list_insert];
      rewrite ?shl_lor by (done || lia);
      generalize dependent (Z.shiftl a k mod M64);
      generalize dependent (Z.shiftl b k mod M64);
      generalize dependent (Z.shiftl c k mod M64);
      generalize dependent (Z.shiftl d k mod M64);
      generalize dependent (Z.shiftr a (64 - k));
      generalize dependent (Z.shiftr b (64 - k));
      generalize dependent (Z.shiftr c (64 - k));
      generalize dependent (Z.shiftr d (64 - k)); intros;
      (split; [by apply u256_wf_mk |]); cbn [nth limbs];
      (eapply mod_unique_pos; [unfold u64_ok in *; lia |]); unfold u64_ok in *.
    + instantiate (1 := z). lia.
    + instantiate (1 := z3 + z0 + M64 * z). lia.
    + instantiate (1 := z4 + z1 + M64 * (z3 + z0) + M64 * M64 * z). lia.
    + instantiate (1 := z5 + z2 + M64 * (z4 + z1) + M64 * M64 * (z3 + z0) + M64 * M64 * M64 * z). lia.
Qed.

Lemma div_unique_pos z m q r : 0 <= r < m -> z = m * q + r -> q = z / m.
Proof. intros. apply (Z.div_unique z m q r); lia. Qed.

(** The telescoping sum behind a right shift of four limbs by [64 * ls + k]. *)
Lemma shr_spec x s :
  u256_wf x -> 0 <= s ->
  u256_wf (U256.shr x s) /\ u256_val (U256.shr x s) = u256_val x / 2 ^ s.
Proof.
  intros Hx Hs. unfold U256.shr. destruct (256 <=? s) eqn:E256; zbool.
  { split; [auto with ivory |]. rewrite u256_val_zero. symmetry. apply Z.div_small.
    pose proof (u256_val_bound _ Hx).
    assert (2 ^ 256 <= 2 ^ s) by (apply Z.pow_le_mono_r; lia).
    change (2 ^ 256) with M256 in *. lia. }
  destruct (s =? 0) eqn:E0; zbool.
  { subst s. split; [done |]. by rewrite Z.div_1_r. }
  destruct (limb_shift_cases s ltac:(lia)) as (ls & k & Hls & Hk & -> & -> & ->).
  rewrite pow_limbs by lia.
  apply u256_cases in Hx as (a & b & c & d & -> & Ha & Hb & Hc & Hd).
  assert (u64_ok 0) as Hz by done. rewrite <- Z.div_div by lia.
  assert (forall x0 x1 x2 x3, u64_ok x0 -> u64_ok x1 -> u64_ok x2 -> u64_ok x3 ->
    u256_val (mkU256 [x0; x1; x2; x3]) / M64 = u256_val (mkU256 [x1; x2; x3; 0])) as Hdrop.
  { intros. symmetry. apply (div_unique_pos _ _ _ x0); [done |].
    unfold u256_val, U256.limb; cbn [limbs nth]. lia. }
  assert (u256_val (mkU256 [a; b; c; d]) / M64 ^ Z.of_nat ls =
          u256_val (mkU256 (drop ls [a; b; c; d] ++ replicate ls 0))) as ->.
  { destruct ls as [|[|[|[|]]]]; try lia; cbn [drop replicate app Z.of_nat];
      [by rewrite Z.div_1_r | ..];
      change (Z.of_nat 1) with 1; change (Z.of_nat 2) with (1 + 1);
      change (Z.of_nat 3) with (1 + 1 + 1);
      rewrite ?Z.pow_add_r, ?Z.pow_1_r by lia;
      rewrite <- ?Z.div_div by lia; rewrite !Hdrop by done; reflexivity. }
  destruct (k =? 0) eqn:Ek; zbool.
  - subst k. rewrite Z.div_1_r.
    destruct ls as [|[|[|[|]]]]; try lia; unfold U256.limb;
      (split; [by apply u256_wf_mk | reflexivity]).
  - pose proof (pow2_split k ltac:(lia)) as Hp.
    pose proof (shr_sum_ok a b k Ha Hb ltac:(lia)) as Sab.
    pose proof (shr_sum_ok b c k Hb Hc ltac:(lia)) as Sbc.
    pose proof (shr_sum_ok c d k Hc Hd ltac:(lia)) as Scd.
    pose proof (shr_sum_ok d 0 k Hd Hz ltac:(lia)) as Sd0.
    destruct (shr_limb a k Ha ltac:(lia)) as (Ea & Ta & Qa & Ma).
    destruct (shr_limb b k Hb ltac:(lia)) as (Eb & Tb & Qb & Mb).
    destruct (shr_limb c k Hc ltac:(lia)) as (Ec & Tc & Qc & Mc).
    destruct (shr_limb d k Hd ltac:(lia)) as (Ed & Td & Qd & Md).
    rewrite Z.shiftl_0_l, Z.mod_0_l, Z.add_0_r in Sd0 by lia.
    assert (forall m, 2 ^ k * (2 ^ (64 - k) * m) = M64 * m) as HP by (intros; by rewrite Z.mul_assoc, Hp).
    pose proof (HP (a mod 2 ^ k)). pose proof (HP (b mod 2 ^ k)).
    pose proof (HP (c mod 2 ^ k)). pose proof (HP (d mod 2 ^ k)).
    unfold U256.limb.
    destruct ls as [|[|[|[|]]]]; try lia;
      cbn [Nat.sub seq fold_left limbs nth Nat.ltb Nat.leb Nat.add insert list_insert drop replicate app];
      rewrite ?shr_lor by (done || lia); (split; [by apply u256_wf_mk |]);
      unfold u256_val, U256.limb; cbn [limbs nth].
    + apply (div_unique_pos _ _ _ (a mod 2 ^ k)); [done |]. rewrite Tb, Tc, Td. lia.
    + apply (div_unique_pos _ _ _ (b mod 2 ^ k)); [done |]. rewrite Tc, Td. lia.
    + apply (div_unique_pos _ _ _ (c mod 2 ^ k)); [done |]. rewrite Td. lia.
    + apply (div_unique_pos _ _ _ (d mod 2 ^ k)); [done |]. lia.
Qed.

(** ** Division *)

Lemma one_shl i : 0 <= i < 256 ->
  u256_wf (U256.shl U256.ONE i) /\ u256_val (U256.shl U256.ONE i) = 2 ^ i.
Proof.
  intros Hi. destruct (shl_spec U256.ONE i) as [Hw Hv]; [auto with ivory | lia |].
  split; [done |]. rewrite Hv, u256_val_one, Z.mul_1_l. apply Z.mod_small.
  split; [apply Z.pow_nonneg; lia |]. change M256 with (2 ^ 256).
  apply Z.pow_lt_mono_r; lia.
Qed.

Lemma lor_next_bit q i n :
  0 <= i -> q = n * 2 ^ (i + 1) -> Z.lor q (2 ^ i) = q + 2 ^ i.
Proof.
  intros Hi ->. apply lor_disjoint. rewrite Z.land_comm.
  apply land_shiftl_disjoint; [lia |]. split; [apply Z.pow_nonneg; lia |].
  apply Z.pow_lt_mono_r; lia.
Qed.

(** Loop invariant of the long division: [a = q * b + r], the divisor is
    [b * 2^i] and the partial quotient has no bit below [i + 1]. *)
Lemma div_loop_spec n : forall q r d b m,
  u256_wf q -> u256_wf r -> u256_wf d -> 0 < b ->
  (n = 0%nat \/ u256_val d = b * 2 ^ (Z.of_nat n - 1)) -> (n <= 256)%nat ->
  u256_val q = m * 2 ^ Z.of_nat n -> 0 <= u256_val r < b * 2 ^ Z.of_nat n ->
  u256_val q * b + u256_val r < M256 ->
  U256.div_loop n q r d = Some (u256_of_Z ((u256_val q * b + u256_val r) / b)).
Proof.
  induction n as [|i IH]; intros q r d b m Hq Hr Hd Hb Hdiv Hn Hqm Hrb Htot; cbn [U256.div_loop].
  - rewrite Z.pow_0_r, Z.mul_1_r in Hrb.
    rewrite Z.div_add_l, (Z.div_small (u256_val r)), Z.add_0_r by lia.
    by rewrite u256_of_val.
  - destruct Hdiv as [|Hdiv]; [lia |].
    replace (Z.of_nat (S i) - 1) with (Z.of_nat i) in Hdiv by lia.
    rewrite Nat2Z.inj_succ, Z.pow_succ_r in * by lia.
    destruct (shr_spec d 1 Hd ltac:(lia)) as [Hd' Hv'].
    assert (i = 0%nat \/ u256_val (U256.shr d 1) = b * 2 ^ (Z.of_nat i - 1)) as Hnext.
    { destruct i as [|i']; [by left | right]. rewrite Hv', Hdiv, Z.pow_1_r.
      replace (Z.of_nat (S i') - 1) with (Z.of_nat i') by lia.
      rewrite Nat2Z.inj_succ, Z.pow_succ_r by lia.
      replace (b * (2 * 2 ^ Z.of_nat i')) with (b * 2 ^ Z.of_nat i' * 2) by lia.
      apply Z.div_mul. lia. }
    assert (0 < 2 ^ Z.of_nat i) by (apply Z.pow_pos_nonneg; lia).
    rewrite geb_spec by done. destruct (u256_val d <=? u256_val r) eqn:E; zbool.
    + destruct (one_shl (Z.of_nat i)) as [Ho Hov]; [lia |].
      destruct (bitor_spec q (U256.shl U256.ONE (Z.of_nat i)) Hq Ho) as [Hor Hlor].
      rewrite Hov, (lor_next_bit _ _ m) in Hlor
        by (lia || (rewrite Hqm, Z.add_1_r, Z.pow_succ_r by lia; lia)).
      pose proof (u256_val_bound _ Hr). pose proof (u256_val_bound _ Hd).
      rewrite checked_sub_eq, u256_checked_small by (done || lia). cbn [mbind option_bind].
      rewrite (IH _ _ _ b (2 * m + 1)); rewrite ?u256_val_of_Z, ?Hlor by lia;
        try done; try lia; auto with ivory.
      * do 3 f_equal. rewrite Hdiv. lia.
    + rewrite (IH _ _ _ b (2 * m)); try done; lia.
Qed.

Lemma checked_div_eq x y :
  u256_wf x -> u256_wf y ->
  U256.checked_div x y =
  if u256_val y =? 0 then None else Some (u256_of_Z (u256_val x / u256_val y)).
Proof.
  intros Hx Hy. unfold U256.checked_div.
  rewrite !is_zero_spec, ltb_spec, eqb_spec by auto with ivory. rewrite u256_val_one.
  pose proof (u256_val_bound _ Hx). pose proof (u256_val_bound _ Hy).
  destruct (u256_val y =? 0) eqn:E1; [done |]. zbool.
  destruct (u256_val x =? 0) eqn:E2; [zbool; rewrite E2, Z.div_0_l by lia; reflexivity |].
  destruct (u256_val x <? u256_val y) eqn:E3; zbool.
  { rewrite Z.div_small by lia. reflexivity. }
  destruct (u256_val y =? 1) eqn:E4; zbool.
  { by rewrite E4, Z.div_1_r, u256_of_val. }
  rewrite !leading_zeros_spec by (done || lia).
  replace (255 - Z.log2 (u256_val y) - (255 - Z.log2 (u256_val x)))
    with (Z.log2 (u256_val x) - Z.log2 (u256_val y)) by lia.
  pose proof (Z.log2_spec (u256_val x) ltac:(lia)) as Hlx.
  pose proof (Z.log2_spec (u256_val y) ltac:(lia)) as Hly.
  assert (Z.log2 (u256_val y) <= Z.log2 (u256_val x)) by (apply Z.log2_le_mono; lia).
  pose proof (Z.log2_nonneg (u256_val y)).
  assert (Z.log2 (u256_val x) < 256).
  { apply (proj1 (Z.log2_lt_pow2 (u256_val x) 256 ltac:(lia))). change (2 ^ 256) with M256. lia. }
  set (sh := Z.log2 (u256_val x) - Z.log2 (u256_val y)) in *.
  assert (u256_val y * 2 ^ sh < M256) as Hsmall.
  { apply (Z.lt_le_trans _ (2 ^ Z.succ (Z.log2 (u256_val y)) * 2 ^ sh)).
    - apply Z.mul_lt_mono_pos_r; [apply Z.pow_pos_nonneg; lia | lia].
    - rewrite <- Z.pow_add_r by lia. change M256 with (2 ^ 256). apply Z.pow_le_mono_r; lia. }
  destruct (shl_spec y sh Hy ltac:(lia)) as [Hs Hsv].
  assert (0 < 2 ^ sh) by (apply Z.pow_pos_nonneg; lia).
  rewrite Z.mod_small in Hsv by (split; [nia | done]).
  rewrite (div_loop_spec _ _ _ _ (u256_val y) 0); auto with ivory; rewrite ?u256_val_zero; try lia.
  - right. rewrite Hsv. f_equal. f_equal. lia.
  - rewrite Nat2Z.inj_succ, Z2Nat.id, Z.pow_succ_r by lia. split; [lia |].
    apply (Z.lt_le_trans _ _ _ (proj2 Hlx)).
    replace (Z.succ (Z.log2 (u256_val x))) with (Z.log2 (u256_val y) + Z.succ sh) by lia.
    rewrite Z.pow_add_r, Z.pow_succ_r by lia. apply Z.mul_le_mono_nonneg_r; lia.
Qed.

Lemma checked_rem_eq x y :
  u256_wf x -> u256_wf y ->
  U256.checked_rem x y =
  if u256_val y =? 0 then None else Some (u256_of_Z (u256_val x mod u256_val y)).
Proof.
  intros Hx Hy. unfold U256.checked_rem.
  rewrite is_zero_spec, checked_div_eq by done.
  destruct (u256_val y =? 0) eqn:E; [done |]. zbool. cbn [mbind option_bind].
  pose proof (u256_val_bound _ Hx). pose proof (u256_val_bound _ Hy).
  pose proof (Z.div_mod (u256_val x) (u256_val y) ltac:(lia)).
  pose proof (Z.mod_pos_bound (u256_val x) (u256_val y) ltac:(lia)).
  assert (0 <= u256_val x / u256_val y < M256).
  { split; [apply Z.div_pos; lia | apply Z.div_lt_upper_bound; nia]. }
  rewrite checked_mul_eq, u256_val_of_Z, u256_checked_small by (auto with ivory || nia).
  cbn [mbind option_bind].
  rewrite checked_sub_eq, u256_val_of_Z, u256_checked_small by (auto with ivory || nia).
  do 2 f_equal. lia.
Qed.

(** ** Powers *)

Lemma pow_square v e : 0 <= e -> v ^ e = (if e mod 2 =? 1 then v else 1) * (v * v) ^ (e / 2).
Proof.
  intros He. pose proof (Z.div_mod e 2 ltac:(lia)). pose proof (Z.mod_pos_bound e 2 ltac:(lia)).
  assert (0 <= e / 2) by (apply Z.div_pos; lia).
  rewrite <- Z.pow_2_r, <- Z.pow_mul_r by lia.
  destruct (e mod 2 =? 1) eqn:E; zbool.
  - rewrite <- Z.pow_succ_r by lia. f_equal. lia.
  - rewrite Z.mul_1_l. f_equal. lia.
Qed.

Lemma mul_pow_ge w v n : 0 < w \/ v = 0 -> 0 <= v -> 0 < n -> M256 <= v -> M256 <= w * v ^ n.
Proof.
  intros Hw Hv Hn Hge. assert (v <= v ^ n); [| nia].
  rewrite <- (Z.pow_1_r v) at 1. apply Z.pow_le_mono_r; lia.
Qed.

Lemma pow_loop_spec fuel : forall base e acc,
  u256_wf base -> u256_wf acc -> 0 <= e < 2 ^ (Z.of_nat fuel - 1) ->
  0 < u256_val acc \/ u256_val base = 0 ->
  U256.pow_loop fuel base e acc = u256_checked (u256_val acc * u256_val base ^ e).
Proof.
  induction fuel as [|fuel IH]; intros base e acc Hb Hacc He Hpos.
  { rewrite Z.pow_neg_r in He; lia. }
  cbn [U256.pow_loop]. pose proof (u256_val_bound _ Hb). pose proof (u256_val_bound _ Hacc).
  destruct (0 <? e) eqn:E0; zbool.
  2: { assert (e = 0) as -> by lia.
       by rewrite Z.pow_0_r, Z.mul_1_r, u256_checked_small, u256_of_val. }
  replace (Z.of_nat (S fuel) - 1) with (Z.of_nat fuel) in He by lia.
  rewrite (Z.shiftr_div_pow2 e 1), Z.pow_1_r by lia.
  change (Z.land e 1) with (Z.land e (Z.ones 1)). rewrite Z.land_ones, Z.pow_1_r by lia.
  rewrite (pow_square _ e) by lia.
  pose proof (Z.div_mod e 2 ltac:(lia)). pose proof (Z.mod_pos_bound e 2 ltac:(lia)).
  assert (0 <= e / 2 < 2 ^ (Z.of_nat fuel - 1)) as Hhalf.
  { destruct fuel as [|f]; [simpl in He; lia |].
    split; [apply Z.div_pos; lia |]. apply Z.div_lt_upper_bound; [lia |].
    rewrite <- Z.pow_succ_r by lia.
    replace (Z.succ (Z.of_nat (S f) - 1)) with (Z.of_nat (S f)) by lia. lia. }
  assert (0 <= (u256_val base * u256_val base) ^ (e / 2)) by (apply Z.pow_nonneg; nia).
  assert (0 < u256_val base -> 0 < (u256_val base * u256_val base) ^ (e / 2))
    by (intros; apply Z.pow_pos_nonneg; nia).
  set (sq := u256_val base * u256_val base) in *.
  assert (exists m, (if e mod 2 =? 1 then U256.checked_mul acc base else Some acc) = u256_checked m
    /\ m = u256_val acc * (if e mod 2 =? 1 then u256_val base else 1) /\ 0 <= m
    /\ (0 < m \/ u256_val base = 0)) as (m & -> & Hm & Hm0 & Hmpos).
  { eexists. split; [| split; [reflexivity |]].
    - destruct (e mod 2 =? 1); [by apply checked_mul_eq |].
      by rewrite Z.mul_1_r, u256_checked_small, u256_of_val.
    - destruct (e mod 2 =? 1); nia. }
  rewrite Z.mul_assoc, <- Hm.
  destruct (u256_checked m) as [acc'|] eqn:Em; cbn [mbind option_bind].
  2: { symmetry. apply u256_checked_none in Em. apply u256_checked_none.
       destruct (Z.eq_dec (u256_val base) 0) as [Hz|]; [| nia].
       rewrite Hz in Hm. destruct (e mod 2 =? 1); nia. }
  apply u256_checked_some in Em as [Hmb ->].
  destruct (0 <? e / 2) eqn:E2; zbool; cbn [mbind option_bind].
  - rewrite checked_mul_eq by done. fold sq. destruct (u256_checked sq) as [b'|] eqn:Es.
    + apply u256_checked_some in Es as [Hsb ->]. cbn [mbind option_bind].
      rewrite IH; rewrite ?u256_val_of_Z by done; auto with ivory.
      destruct Hmpos; [by left | right]. unfold sq. nia.
    + cbn [mbind option_bind]. symmetry. apply u256_checked_none in Es. apply u256_checked_none.
      pose proof (mul_pow_ge m sq (e / 2)). unfold sq in *. nia.
  - assert (e / 2 = 0) as Hz by lia. rewrite Hz in *.
    rewrite Z.pow_0_r, Z.mul_1_r, IH; rewrite ?u256_val_of_Z by done; auto with ivory.
    by rewrite Z.pow_0_r, Z.mul_1_r.
Qed.

Lemma checked_pow_eq x e :
  u256_wf x -> 0 <= e < M32 -> U256.checked_pow x e = u256_checked (u256_val x ^ e).
Proof.
  intros Hx He. unfold U256.checked_pow. destruct (e =? 0) eqn:E; zbool.
  - subst e. reflexivity.
  - rewrite pow_loop_spec; auto with ivory.
    + by rewrite u256_val_one, Z.mul_1_l.
    + by left.
Qed.
