(* ===== verification/UintProps.v ===== *)
(** * [U256]: encodings, and the properties of the type *)

From S2P Require Import Prelude Hex Uint UintFacts UintArith UintShift.
#[local] Open Scope Z_scope.

(** ** Bytes *)

Lemma to_be_bytes_eq a b c d :
  U256.to_be_bytes (mkU256 [a; b; c; d]) =
  be_bytes 8 d ++ be_bytes 8 c ++ be_bytes 8 b ++ be_bytes 8 a.
Proof. unfold U256.to_be_bytes, U256.limb. cbn -[be_bytes]. by rewrite app_nil_r. Qed.

Lemma to_be_bytes_length x : length (U256.to_be_bytes x) = 32%nat.
Proof.
  unfold U256.to_be_bytes. cbn [seq map concat]. by rewrite !length_app, !be_bytes_length.
Qed.

Lemma split_words bs :
  length bs = 32%nat ->
  bs = U256.word_at bs 0 ++ U256.word_at bs 8 ++ U256.word_at bs 16 ++ U256.word_at bs 24.
Proof.
  intros H. unfold U256.word_at.
  rewrite <- (take_drop 8 bs) at 1. f_equal.
  rewrite <- (take_drop 8 (drop 8 bs)) at 1. rewrite drop_drop. f_equal.
  rewrite <- (take_drop 8 (drop (8 + 8) bs)) at 1. rewrite drop_drop. f_equal.
  symmetry. apply take_ge. rewrite length_drop. simpl. lia.
Qed.

Lemma word_at_length bs off :
  (off + 8 <= length bs)%nat -> length (U256.word_at bs off) = 8%nat.
Proof. intros. unfold U256.word_at. rewrite length_take, length_drop. lia. Qed.

Lemma be_word_ok bs off : u64_ok (be_val (U256.word_at bs off)).
Proof.
  pose proof (be_val_bound (U256.word_at bs off)) as H. unfold u64_ok.
  assert (256 ^ Z.of_nat (length (U256.word_at bs off)) <= 256 ^ 8).
  { apply Z.pow_le_mono_r; [lia |]. unfold U256.word_at. rewrite length_take. lia. }
  change (256 ^ 8) with M64 in *. lia.
Qed.

Lemma from_be_bytes_wf bs : u256_wf (U256.from_be_bytes bs).
Proof. apply u256_wf_mk; apply be_word_ok. Qed.
#[export] Hint Resolve from_be_bytes_wf : ivory.

Lemma be_val_word a : u64_ok a -> be_val (be_bytes 8 a) = a.
Proof. intros. rewrite be_val_bytes. by apply Z.mod_small. Qed.

Lemma word_at_app l r off n :
  length l = n -> (n <= off)%nat -> U256.word_at (l ++ r) off = U256.word_at r (off - n).
Proof. intros <- H. unfold U256.word_at. by rewrite drop_app_ge. Qed.

Lemma word_at_here l r : length l = 8%nat -> U256.word_at (l ++ r) 0 = l.
Proof. intros H. unfold U256.word_at. rewrite drop_0. by apply take_app_length'. Qed.

Lemma from_to_be_bytes x : u256_wf x -> U256.from_be_bytes (U256.to_be_bytes x) = x.
Proof.
  intros Hx. apply u256_cases in Hx as (a & b & c & d & -> & ? & ? & ? & ?).
  rewrite to_be_bytes_eq. unfold U256.from_be_bytes. cbn [seq map Nat.sub Nat.mul Nat.add].
  rewrite !(word_at_app (be_bytes 8 d) _ _ 8) by (apply be_bytes_length || lia).
  cbn [Nat.sub]. rewrite !(word_at_app (be_bytes 8 c) _ _ 8) by (apply be_bytes_length || lia).
  cbn [Nat.sub]. rewrite !(word_at_app (be_bytes 8 b) _ _ 8) by (apply be_bytes_length || lia).
  cbn [Nat.sub]. rewrite !word_at_here by apply be_bytes_length.
  rewrite <- (app_nil_r (be_bytes 8 a)), word_at_here by apply be_bytes_length.
  rewrite !be_val_word by done. done.
Qed.

Lemma to_from_be_bytes bs :
  length bs = 32%nat -> U256.to_be_bytes (U256.from_be_bytes bs) = bs.
Proof.
  intros H. unfold U256.from_be_bytes. cbn [seq map Nat.sub Nat.mul Nat.add].
  rewrite to_be_bytes_eq. rewrite !be_bytes_val by (apply word_at_length; lia).
  symmetry. by apply split_words.
Qed.

(** ** Hexadecimal *)

Section Hexadecimal.
Context {HC : HexCrate} {HL : HexLaws}.

Lemma hex_zero_digits bs n :
  spec_encode bs = replicate n x30 -> Forall (fun b => b = x00) bs.
Proof.
  revert n; induction bs as [|b bs IH]; intros n; [constructor |].
  destruct n as [|[|n]]; simpl; try done. intros [= H1 H2 H3].
  constructor; [| by eapply IH].
  pose proof (byte_val_range b) as Hr.
  assert (hex_digit 0 = x30) as Hz by done.
  assert (byte_val b / 16 = 0 /\ byte_val b mod 16 = 0) as [Hd Hm].
  { rewrite <- Hz in H1, H2. split.
    - apply (f_equal hex_digit_val) in H1. rewrite !hex_digit_val_digit in H1; [congruence | lia |].
      split; [apply Z.div_pos | apply Z.div_lt_upper_bound]; lia.
    - apply (f_equal hex_digit_val) in H2. rewrite !hex_digit_val_digit in H2; [congruence | lia |].
      apply Z.mod_pos_bound; lia. }
  apply byte_val_inj. pose proof (Z.div_mod (byte_val b) 16 ltac:(lia)).
  change (byte_val x00) with 0. lia.
Qed.

Lemma zero_bytes_zero bs : Forall (fun b => b = x00) bs -> u256_val (U256.from_be_bytes bs) = 0.
Proof.
  intros H. unfold U256.from_be_bytes, u256_val, U256.limb. cbn [seq map nth limbs].
  assert (forall off, be_val (U256.word_at bs off) = 0) as Hw; [| by rewrite !Hw].
  intros off. assert (Forall (fun b => b = x00) (rev (U256.word_at bs off))) as Hall.
  { apply Forall_rev. unfold U256.word_at. by apply Forall_take, Forall_drop. }
  unfold be_val. induction Hall as [|b l -> Hl IH]; [done |]. simpl. rewrite IH. done.
Qed.

Lemma to_from_hex x : u256_wf x -> U256.from_hex (U256.to_hex x) = Ok x.
Proof.
  intros Hx. unfold U256.to_hex, U256.from_hex.
  rewrite is_zero_spec by done. destruct (u256_val x =? 0) eqn:E; zbool.
  { assert (x = U256.ZERO) as -> by (apply u256_val_inj; auto with ivory).
    change (strip_0x (str "0x0")) with (str "0"). rewrite decide_False by done.
    change (64 <? length (str "0"))%nat with false. cbv iota.
    rewrite hex_decode_spec. vm_compute. reflexivity. }
  rewrite hex_encode_spec.
  set (full := spec_encode (U256.to_be_bytes x)).
  assert (length full = 64%nat) as Hlen.
  { unfold full. by rewrite spec_encode_length, to_be_bytes_length. }
  destruct (decide (trim_start_matches x30 full = [])) as [Ht|Ht].
  { exfalso. apply E. apply trim_nil, hex_zero_digits, zero_bytes_zero in Ht.
    by rewrite from_to_be_bytes in Ht. }
  rewrite strip_0x_prefixed, decide_False by done.
  pose proof (trim_length_le x30 full).
  replace (64 <? length (trim_start_matches x30 full))%nat with false
    by (symmetry; apply Nat.ltb_ge; lia).
  rewrite trim_pad by done. rewrite hex_decode_spec. unfold full.
  rewrite spec_decode_encode. simpl. by rewrite from_to_be_bytes.
Qed.

Lemma from_hex_wf s x : U256.from_hex s = Ok x -> u256_wf x.
Proof.
  unfold U256.from_hex. destruct (decide _); [intros; simplify_eq; auto with ivory |].
  destruct (64 <? _)%nat; [done |].
  destruct (hex_decode _); simpl; intros; simplify_eq; auto with ivory.
Qed.
End Hexadecimal.

(** ** Checked arithmetic by cases *)

Lemma checked_add_cases x y :
  u256_wf x -> u256_wf y ->
  match U256.checked_add x y with
  | Some r => u256_wf r /\ u256_val r = u256_val x + u256_val y
  | None => M256 <= u256_val x + u256_val y
  end.
Proof.
  intros Hx Hy. rewrite checked_add_eq by done.
  pose proof (u256_val_bound _ Hx). pose proof (u256_val_bound _ Hy).
  destruct (u256_checked _) as [r|] eqn:E.
  - apply u256_checked_some in E as [? ->]. by rewrite u256_val_of_Z; auto with ivory.
  - apply u256_checked_none in E. lia.
Qed.

Lemma checked_mul_cases x y :
  u256_wf x -> u256_wf y ->
  match U256.checked_mul x y with
  | Some r => u256_wf r /\ u256_val r = u256_val x * u256_val y
  | None => M256 <= u256_val x * u256_val y
  end.
Proof.
  intros Hx Hy. rewrite checked_mul_eq by done.
  pose proof (u256_val_bound _ Hx). pose proof (u256_val_bound _ Hy).
  destruct (u256_checked _) as [r|] eqn:E.
  - apply u256_checked_some in E as [? ->]. by rewrite u256_val_of_Z; auto with ivory.
  - apply u256_checked_none in E. nia.
Qed.

Lemma checked_sub_cases x y :
  u256_wf x -> u256_wf y ->
  match U256.checked_sub x y with
  | Some r => u256_wf r /\ u256_val r = u256_val x - u256_val y
  | None => u256_val x < u256_val y
  end.
Proof.
  intros Hx Hy. rewrite checked_sub_eq by done.
  pose proof (u256_val_bound _ Hx). pose proof (u256_val_bound _ Hy).
  destruct (u256_checked _) as [r|] eqn:E.
  - apply u256_checked_some in E as [? ->]. by rewrite u256_val_of_Z; auto with ivory.
  - apply u256_checked_none in E. lia.
Qed.

(** ** Properties *)

(** C39: Checked addition, subtraction and multiplication are exact on 256 bits:
    each returns the mathematical result whenever it is representable and [None]
    exactly when it is not, for every pair of well-formed operands. *)
Theorem u256_arithmetic_exact x y :
  u256_wf x -> u256_wf y ->
  match U256.checked_add x y with
  | Some r => u256_wf r /\ u256_val r = u256_val x + u256_val y
  | None => M256 <= u256_val x + u256_val y
  end /\
  match U256.checked_sub x y with
  | Some r => u256_wf r /\ u256_val r = u256_val x - u256_val y
  | None => u256_val x < u256_val y
  end /\
  match U256.checked_mul x y with
  | Some r => u256_wf r /\ u256_val r = u256_val x * u256_val y
  | None => M256 <= u256_val x * u256_val y
  end.
Proof.
  intros Hx Hy. split_and!; [by apply checked_add_cases | by apply checked_sub_cases
                            | by apply checked_mul_cases].
Qed.

(** The largest 128-bit number: its square is the largest such product. *)
Lemma u256_arithmetic_exact_witness :
  let x := mkU256 [u64_max; u64_max; 0; 0] in
  u256_wf x /\
  match U256.checked_mul x x with
  | Some r => u256_wf r /\ u256_val r = u256_val x * u256_val x
  | None => M256 <= u256_val x * u256_val x
  end.
Proof.
  intros x. assert (u256_wf x) as H by (apply u256_wf_mk; unfold u64_ok, u64_max; lia).
  split; [exact H | exact (proj2 (proj2 (u256_arithmetic_exact x x H H)))].
Defined.

(** Division is Euclidean: for a non-zero divisor the bit-by-bit long
    division returns the quotient and the remainder of the two numbers, and both
    refuse exactly the divisor zero. *)
Theorem u256_division_exact x y :
  u256_wf x -> u256_wf y ->
  if u256_val y =? 0 then U256.checked_div x y = None /\ U256.checked_rem x y = None
  else exists q r, U256.checked_div x y = Some q /\ U256.checked_rem x y = Some r /\
    u256_wf q /\ u256_wf r /\
    u256_val x = u256_val y * u256_val q + u256_val r /\ 0 <= u256_val r < u256_val y.
Proof.
  intros Hx Hy. pose proof (u256_val_bound _ Hx). pose proof (u256_val_bound _ Hy).
  rewrite checked_div_eq, checked_rem_eq by done.
  destruct (u256_val y =? 0) eqn:E; zbool; [done |].
  pose proof (Z.div_mod (u256_val x) (u256_val y) ltac:(lia)).
  pose proof (Z.mod_pos_bound (u256_val x) (u256_val y) ltac:(lia)).
  assert (0 <= u256_val x / u256_val y < M256)
    by (split; [apply Z.div_pos; lia | apply Z.div_lt_upper_bound; nia]).
  eexists _, _. split_and!; try done; auto with ivory; rewrite !u256_val_of_Z by lia; lia.
Qed.

Lemma u256_division_exact_witness :
  let x := mkU256 [7; 0; 0; 9] in let y := mkU256 [0; 3; 0; 0] in
  if u256_val y =? 0 then U256.checked_div x y = None /\ U256.checked_rem x y = None
  else exists q r, U256.checked_div x y = Some q /\ U256.checked_rem x y = Some r /\
    u256_wf q /\ u256_wf r /\
    u256_val x = u256_val y * u256_val q + u256_val r /\ 0 <= u256_val r < u256_val y.
Proof.
  intros x y. apply (u256_division_exact x y); apply u256_wf_mk; unfold u64_ok; lia.
Defined.

(** Exponentiation by squaring returns the exact power whenever it fits in
    256 bits (the loop terminates for every 32-bit exponent) and [None]
    exactly when it does not. *)
Theorem u256_pow_exact x e :
  u256_wf x -> 0 <= e < M32 ->
  match U256.checked_pow x e with
  | Some r => u256_wf r /\ u256_val r = u256_val x ^ e
  | None => M256 <= u256_val x ^ e
  end.
Proof.
  intros Hx He. rewrite checked_pow_eq by done. pose proof (u256_val_bound _ Hx).
  assert (0 <= u256_val x ^ e) by (apply Z.pow_nonneg; lia).
  destruct (u256_checked _) as [r|] eqn:E.
  - apply u256_checked_some in E as [? ->]. by rewrite u256_val_of_Z; auto with ivory.
  - apply u256_checked_none in E. lia.
Qed.

Lemma u256_pow_exact_witness :
  match U256.checked_pow (mkU256 [3; 0; 0; 0]) 161 with
  | Some r => u256_wf r /\ u256_val r = u256_val (mkU256 [3; 0; 0; 0]) ^ 161
  | None => M256 <= u256_val (mkU256 [3; 0; 0; 0]) ^ 161
  end.
Proof. apply u256_pow_exact; [apply u256_wf_mk; unfold u64_ok |]; lia. Defined.

(** Shifts are multiplication modulo [2^256] and floor division by powers
    of two, for every shift distance, including those of 256 and more. *)
Theorem u256_shift_exact x k :
  u256_wf x -> 0 <= k < M32 ->
  u256_wf (U256.shl x k) /\ u256_val (U256.shl x k) = (u256_val x * 2 ^ k) mod M256 /\
  u256_wf (U256.shr x k) /\ u256_val (U256.shr x k) = u256_val x / 2 ^ k.
Proof.
  intros Hx [Hk _]. destruct (shl_spec x k Hx Hk), (shr_spec x k Hx Hk). done.
Qed.

Lemma u256_shift_exact_witness :
  let x := mkU256 [1; 2; 3; 4] in
  u256_wf (U256.shl x 65) /\ u256_val (U256.shl x 65) = (u256_val x * 2 ^ 65) mod M256 /\
  u256_wf (U256.shr x 65) /\ u256_val (U256.shr x 65) = u256_val x / 2 ^ 65.
Proof. intros x. apply (u256_shift_exact x 65); [apply u256_wf_mk; unfold u64_ok |]; lia. Defined.

(** Numbers survive their encodings: every well-formed number is recovered
    from its 32 big-endian bytes and from its minimal hexadecimal text, every 32
    bytes are recovered from the number they encode, and whatever text is
    accepted denotes a well-formed number. *)
Theorem u256_encodings_roundtrip {HC : HexCrate} {HL : HexLaws} x bs s y :
  u256_wf x -> length bs = 32%nat ->
  U256.from_be_bytes (U256.to_be_bytes x) = x /\
  U256.to_be_bytes (U256.from_be_bytes bs) = bs /\
  U256.from_hex (U256.to_hex x) = Ok x /\
  (U256.from_hex s = Ok y -> u256_wf y).
Proof.
  intros Hx Hb. split_and!; [by apply from_to_be_bytes | by apply to_from_be_bytes
                            | by apply to_from_hex | apply from_hex_wf].
Qed.

Lemma u256_encodings_roundtrip_witness :
  U256.from_hex (U256.to_hex (mkU256 [255; 0; 16; 0])) = Ok (mkU256 [255; 0; 16; 0]).
Proof.
  apply (u256_encodings_roundtrip (mkU256 [255; 0; 16; 0]) (replicate 32 x00) [] U256.ZERO);
    [apply u256_wf_mk; unfold u64_ok; lia | reflexivity].
Defined.
