(* ===== verification/Hash.v ===== *)
(** * Fixed-size hash types: [crates/ivory-primitives/src/hash.rs], [keccak.rs]

    The macro [impl_hash!] generates [H128], [H160], [H256], [H512] and [H520];
    here it is one family [Hash n] whose operations take the size.  The Rust
    array type [[u8; n]] is a byte list with its length in the type.

    Keccak-256 comes from the [sha3] crate and is a parameter ([Sha3Crate]).
    No theorem assumes that it is injective, which no 32-byte digest is: a
    result that rests on collision resistance names the finite list of strings
    whose digests it compares, and holds when no two strings of that list
    collide ([coll_free], [binds]). *)

From S2P Require Import Prelude Hex Uint UintFacts UintProps.
#[local] Open Scope Z_scope.

Record Hash (n : nat) : Type := mkHash {
  hash_bytes : bytes;
  hash_ok : (length hash_bytes =? n)%nat = true }.
Arguments mkHash {n} _ _.
Arguments hash_bytes {n} _.
Arguments hash_ok {n} _.

Lemma hash_length {n} (h : Hash n) : length (hash_bytes h) = n.
Proof. apply Nat.eqb_eq, hash_ok. Qed.
#[export] Hint Resolve hash_length : ivory.

Lemma hash_eq {n} (h1 h2 : Hash n) : hash_bytes h1 = hash_bytes h2 -> h1 = h2.
Proof.
  destruct h1 as [b1 p1], h2 as [b2 p2]. simpl. intros ->. f_equal.
  apply Eqdep_dec.UIP_dec, Bool.bool_dec.
Qed.

#[export] Instance Hash_eq_dec n : EqDecision (Hash n) := fun h1 h2 =>
  match decide (hash_bytes h1 = hash_bytes h2) with
  | left H => left (hash_eq h1 h2 H)
  | right H => right (fun E => H (f_equal hash_bytes E))
  end.

(** An array built by copying [bs] into a zeroed [[u8; n]]. *)
Definition fit_bytes (n : nat) (bs : bytes) : bytes :=
  take n (bs ++ replicate n x00).
Lemma fit_bytes_ok n bs : (length (fit_bytes n bs) =? n)%nat = true.
Proof.
  apply Nat.eqb_eq. unfold fit_bytes. rewrite length_take, length_app, length_replicate. lia.
Qed.
Definition fit (n : nat) (bs : bytes) : Hash n := mkHash (fit_bytes n bs) (fit_bytes_ok n bs).

Lemma hash_bytes_fit n bs : length bs = n -> hash_bytes (fit n bs) = bs.
Proof. intros H. simpl. unfold fit_bytes. rewrite take_app_le by lia. apply take_ge. lia. Qed.

Lemma fit_hash_bytes {n} (h : Hash n) : fit n (hash_bytes h) = h.
Proof. apply hash_eq, hash_bytes_fit, hash_length. Qed.

#[export] Instance Hash_countable n : Countable (Hash n) :=
  inj_countable' hash_bytes (fit n) fit_hash_bytes.

Definition u8_leading_zeros (b : byte) : Z :=
  if byte_val b =? 0 then 8 else 7 - Z.log2 (byte_val b).
Definition u8_trailing_zeros (b : byte) : Z :=
  match byte_val b with Zpos p => pos_trailing_zeros p | _ => 8 end.

Module Hash.
Section ImplHash.
Context {n : nat} {HC : HexCrate}.

Definition ZERO : Hash n := fit n (replicate n x00).

Definition from_bytes (bs : bytes) : Hash n := fit n bs.

Definition from_slice (slice : bytes) : option (Hash n) :=
  if decide (length slice ≠ n) then None else Some (fit n slice).

Definition from_hex (s : bytes) : result (Hash n) PrimitiveError :=
  let s := strip_0x s in
  if decide (length s ≠ (n * 2)%nat) then Err (InvalidLength (n * 2) (length s))
  else
    let? bs := ok_or (hex_decode s) InvalidHex in
    ok_or (from_slice bs) (InvalidLength n (length bs)).

Definition is_zero (h : Hash n) : bool :=
  forallb (fun b => byte_val b =? 0) (hash_bytes h).

Definition to_hex (h : Hash n) : bytes := str "0x" ++ hex_encode (hash_bytes h).
Definition to_hex_raw (h : Hash n) : bytes := hex_encode (hash_bytes h).

Definition reversed (h : Hash n) : Hash n := fit n (rev (hash_bytes h)).

Definition map2 (f : Z -> Z -> Z) (a b : Hash n) : Hash n :=
  fit n (zip_with (fun x y => byte_of_Z (f (byte_val x) (byte_val y)))
                  (hash_bytes a) (hash_bytes b)).
Definition xor : Hash n -> Hash n -> Hash n := map2 Z.lxor.
Definition bitxor : Hash n -> Hash n -> Hash n := xor.
Definition bitand : Hash n -> Hash n -> Hash n := map2 Z.land.
Definition bitor : Hash n -> Hash n -> Hash n := map2 Z.lor.

(** The loops over [&self.0] and [self.0.iter().rev()], with their [break]. *)
Fixpoint zeros_loop (count_in : byte -> Z) (bs : bytes) : Z :=
  match bs with
  | [] => 0
  | b :: bs => if byte_val b =? 0 then 8 + zeros_loop count_in bs else count_in b
  end.
Definition leading_zeros (h : Hash n) : Z := zeros_loop u8_leading_zeros (hash_bytes h).
Definition trailing_zeros (h : Hash n) : Z :=
  zeros_loop u8_trailing_zeros (rev (hash_bytes h)).

Definition from_u64 (v : Z) : Hash n :=
  let start := (n - 8)%nat in
  let copy_len := Nat.min 8 n in
  fit n (replicate start x00 ++ drop (8 - copy_len) (be_bytes 8 v)).

Definition eqb (a b : Hash n) : bool := bool_decide (hash_bytes a = hash_bytes b).
Definition cmp (a b : Hash n) : comparison := bytes_compare (hash_bytes a) (hash_bytes b).

Definition try_from (slice : bytes) : result (Hash n) PrimitiveError :=
  ok_or (from_slice slice) (InvalidLength n (length slice)).

Definition from_str (s : bytes) : result (Hash n) PrimitiveError := from_hex s.

(** [fmt::Display]; U+2026 is its three UTF-8 bytes. *)
Definition fmt_display (h : Hash n) : bytes :=
  if (n <=? 8)%nat then to_hex h
  else str "0x" ++ hex_encode (take 4 (hash_bytes h)) ++ [xe2; x80; xa6]
         ++ hex_encode (drop (n - 4) (hash_bytes h)).

(** [{:02x}] and [{:02X}] byte by byte. *)
Definition hex_digit_upper (d : Z) : byte := byte_of_Z (if d <? 10 then 48 + d else 55 + d).
Definition fmt_lower_hex (alternate : bool) (h : Hash n) : bytes :=
  (if alternate then str "0x" else []) ++ flat_map hex_pair (hash_bytes h).
Definition fmt_upper_hex (alternate : bool) (h : Hash n) : bytes :=
  (if alternate then str "0x" else []) ++
  flat_map (fun b => [hex_digit_upper (byte_val b / 16); hex_digit_upper (byte_val b mod 16)])
           (hash_bytes h).

(** Serde: the human-readable form is a string, the binary form a tuple of bytes. *)
Definition serialize (human_readable : bool) (h : Hash n) : bytes :=
  if human_readable then to_hex h else hash_bytes h.
Definition deserialize (human_readable : bool) (s : bytes) : option (Hash n) :=
  if human_readable then match from_hex s with Ok h => Some h | Err _ => None end
  else if (n <=? length s)%nat then Some (fit n (take n s)) else None.
End ImplHash.
End Hash.

Abbreviation H128 := (Hash 16).
Abbreviation H160 := (Hash 20).
Abbreviation H256 := (Hash 32).
Abbreviation H512 := (Hash 64).
Abbreviation H520 := (Hash 65).

Module H256.
Definition ZERO : H256 := Hash.ZERO.
Definition from_h160 (h : H160) : H256 := fit 32 (replicate 12 x00 ++ hash_bytes h).
Definition to_h160 (h : H256) : H160 := fit 20 (take 20 (drop 12 (hash_bytes h))).
Definition from_u256 (u : U256) : H256 := fit 32 (U256.to_be_bytes u).
Definition to_u256 (h : H256) : U256 := U256.from_be_bytes (hash_bytes h).
End H256.

(** ** Keccak-256 *)

Class Sha3Crate := { keccak_digest : bytes -> H256 }.

Definition keccak256 {SC : Sha3Crate} (data : bytes) : H256 :=
  Hash.from_bytes (hash_bytes (keccak_digest data)).

(** No string of [L] has the digest of a different string of [L']: local
    injectivity, on the strings at hand.  It is decidable. *)
Definition binds {SC : Sha3Crate} (L L' : list bytes) : Prop :=
  forall a b, a ∈ L -> b ∈ L' -> keccak256 a = keccak256 b -> a = b.

(** No two different strings of [L] share a digest. *)
Definition coll_free {SC : Sha3Crate} (L : list bytes) : Prop := binds L L.

(** No string of [L] hashes to the zero digest. *)
Definition zero_free {SC : Sha3Crate} (L : list bytes) : Prop :=
  forall b, b ∈ L -> keccak256 b ≠ H256.ZERO.

Section CollFree.
Context {SC : Sha3Crate}.
Implicit Types L : list bytes.

Lemma binds_Forall L L' :
  Forall (fun a => Forall (fun b => keccak256 a = keccak256 b -> a = b) L') L <-> binds L L'.
Proof.
  rewrite Forall_forall. unfold binds. split; intros H a.
  - intros b Ha Hb. specialize (H a Ha). rewrite Forall_forall in H. by apply H.
  - intros Ha. apply Forall_forall. intros b Hb. by apply H.
Qed.
#[export] Instance binds_dec L L' : Decision (binds L L') :=
  match decide (Forall (fun a => Forall (fun b => keccak256 a = keccak256 b -> a = b) L') L) with
  | left H => left (proj1 (binds_Forall L L') H)
  | right H => right (fun C => H (proj2 (binds_Forall L L') C))
  end.
#[export] Instance coll_free_dec L : Decision (coll_free L) := binds_dec L L.

Lemma zero_free_Forall L : Forall (fun b => keccak256 b ≠ H256.ZERO) L <-> zero_free L.
Proof. by rewrite Forall_forall. Qed.
#[export] Instance zero_free_dec L : Decision (zero_free L) :=
  match decide (Forall (fun b => keccak256 b ≠ H256.ZERO) L) with
  | left H => left (proj1 (zero_free_Forall L) H)
  | right H => right (fun C => H (proj2 (zero_free_Forall L) C))
  end.

Lemma binds_mono L1 L1' L2 L2' : L1 ⊆ L2 -> L1' ⊆ L2' -> binds L2 L2' -> binds L1 L1'.
Proof. intros H1 H2 H a b Ha Hb. apply H; [by apply H1 | by apply H2]. Qed.
Lemma coll_free_mono L L' : L ⊆ L' -> coll_free L' -> coll_free L.
Proof. intros H. by apply binds_mono. Qed.
Lemma zero_free_mono L L' : L ⊆ L' -> zero_free L' -> zero_free L.
Proof. intros Hs H b Hb. by apply H, Hs. Qed.

Lemma coll_free_app_l L L' : coll_free (L ++ L') -> coll_free L.
Proof. apply coll_free_mono. set_solver. Qed.
Lemma coll_free_app_r L L' : coll_free (L ++ L') -> coll_free L'.
Proof. apply coll_free_mono. set_solver. Qed.

(** When it fails, two strings of the list collide. *)
Lemma coll_free_or L :
  coll_free L \/ exists a b, a ∈ L /\ b ∈ L /\ a ≠ b /\ keccak256 a = keccak256 b.
Proof.
  destruct (decide (coll_free L)) as [|N]; [by left | right]. unfold coll_free in N.
  rewrite <- binds_Forall in N.
  apply not_Forall_Exists, Exists_exists in N as (a & Ha & N); [| apply _].
  apply not_Forall_Exists, Exists_exists in N as (b & Hb & N); [| apply _].
  exists a, b. destruct (decide (a = b)) as [->|Hne]; [by destruct N |].
  destruct (decide (keccak256 a = keccak256 b)); [done | by destruct N].
Qed.
End CollFree.

(** A digest to compute with in the witnesses (not Keccak). *)
Definition toy_digest (bs : bytes) : H256 :=
  fit 32 (be_bytes 6 (foldl (fun acc b => Z.land (acc * 33 + byte_val b + 1) 281474976710655) 7 bs)).
#[export] Instance sha3_toy : Sha3Crate := {| keccak_digest := toy_digest |}.

(** ** Lemmas *)

Section Facts.
Context {n : nat} {HC : HexCrate} {HL : HexLaws}.
Implicit Types h : Hash n.

Lemma from_slice_some s h :
  Hash.from_slice s = Some h <-> s = hash_bytes h.
Proof.
  unfold Hash.from_slice. destruct (decide _) as [Hn|Hn].
  - split; [done |]. intros ->. exfalso. apply Hn, hash_length.
  - assert (length s = n) by (destruct (decide (length s = n)); tauto).
    split; [intros [= <-]; by rewrite hash_bytes_fit | intros ->; by rewrite fit_hash_bytes].
Qed.

Lemma from_slice_none s : Hash.from_slice (n := n) s = None <-> length s ≠ n.
Proof.
  unfold Hash.from_slice. destruct (decide (length s ≠ n)); split; try done; intros; tauto.
Qed.

Lemma from_hex_ok s h :
  Hash.from_hex s = Ok h <-> spec_decode (strip_0x s) = Some (hash_bytes h).
Proof.
  unfold Hash.from_hex. rewrite hex_decode_spec. destruct (decide _) as [Hl|Hl].
  - split; [done |]. intros Hd%spec_decode_length. exfalso. apply Hl.
    rewrite Hd, hash_length. lia.
  - destruct (spec_decode (strip_0x s)) as [bs|]; simpl; [| done].
    rewrite ok_or_ok, from_slice_some. naive_solver.
Qed.

Lemma hash_from_to_hex h : Hash.from_hex (Hash.to_hex h) = Ok h.
Proof.
  apply from_hex_ok. unfold Hash.to_hex.
  by rewrite strip_0x_prefixed, hex_encode_spec, spec_decode_encode.
Qed.

Lemma hash_serde_roundtrip human h :
  Hash.deserialize human (Hash.serialize human h) = Some h.
Proof.
  destruct human; simpl; [by rewrite hash_from_to_hex |]. unfold Hash.deserialize.
  rewrite hash_length. rewrite Nat.leb_refl, take_ge by (rewrite hash_length; lia).
  by rewrite fit_hash_bytes.
Qed.
End Facts.

Lemma hash_is_zero {n} (h : Hash n) : Hash.is_zero h = true <-> h = Hash.ZERO.
Proof.
  unfold Hash.is_zero. rewrite forallb_forall. split.
  - intros H. apply hash_eq. unfold Hash.ZERO. rewrite hash_bytes_fit by apply length_replicate.
    pose proof (hash_length h) as Hl. symmetry. apply replicate_as_elem_of. split; [done |].
    intros b Hb. apply list_elem_of_In, H, Z.eqb_eq in Hb. by apply byte_val_inj.
  - intros -> b. unfold Hash.ZERO. rewrite hash_bytes_fit by apply length_replicate.
    intros [-> _]%list_elem_of_In%elem_of_replicate. done.
Qed.

(** Big-endian comparison of equal lengths is comparison of the numbers. *)
Lemma be_val_cons b bs : be_val (b :: bs) = byte_val b * 256 ^ Z.of_nat (length bs) + be_val bs.
Proof.
  unfold be_val. simpl. assert (forall l, le_val (l ++ [b]) =
    le_val l + 256 ^ Z.of_nat (length l) * byte_val b) as H.
  { induction l as [|c l IH]; [simpl; lia |]. simpl length.
    rewrite Nat2Z.inj_succ, Z.pow_succ_r by lia. simpl. rewrite IH. lia. }
  rewrite H, length_rev. lia.
Qed.

Lemma bytes_compare_val a b :
  length a = length b -> bytes_compare a b = Z.compare (be_val a) (be_val b).
Proof.
  revert b; induction a as [|x a IH]; intros [|y b] Hl; simpl in Hl; try done.
  simpl. rewrite !be_val_cons. injection Hl as Hl. rewrite Hl.
  pose proof (be_val_bound a) as Ha. pose proof (be_val_bound b) as Hb. rewrite Hl in Ha.
  symmetry. destruct (Z.compare_spec (byte_val x) (byte_val y)) as [E|E|E].
  - rewrite IH by done. rewrite E.
    destruct (Z.compare_spec (be_val a) (be_val b));
      [apply Z.compare_eq_iff | apply Z.compare_lt_iff | apply Z.compare_gt_iff]; lia.
  - apply Z.compare_lt_iff. nia.
  - apply Z.compare_gt_iff. nia.
Qed.

Lemma hash_cmp_val {n} (a b : Hash n) :
  Hash.cmp a b = Z.compare (be_val (hash_bytes a)) (be_val (hash_bytes b)).
Proof. unfold Hash.cmp. apply bytes_compare_val. by rewrite !hash_length. Qed.

Lemma hash_cmp_eq {n} (a b : Hash n) : Hash.cmp a b = Eq <-> a = b.
Proof.
  unfold Hash.cmp. rewrite bytes_compare_eq. split; [apply hash_eq | congruence].
Qed.

(** [leading_zeros] counts the zero bits above the most significant one of the
    big-endian number. *)
Lemma zeros_loop_spec bs :
  let k := 8 * Z.of_nat (length bs) in
  let z := Hash.zeros_loop u8_leading_zeros bs in
  0 <= z <= k /\ be_val bs < 2 ^ (k - z) /\ (z < k -> 2 ^ (k - z - 1) <= be_val bs).
Proof.
  induction bs as [|b bs (IHz & IHu & IHl)]; simpl length; [cbn; split_and!; lia |].
  cbn zeta. rewrite be_val_cons. simpl Hash.zeros_loop.
  rewrite Nat2Z.inj_succ. set (k := Z.of_nat (length bs)) in *.
  destruct (byte_val b =? 0) eqn:E; zbool.
  - rewrite E.
    replace (8 * Z.succ k - (8 + Hash.zeros_loop u8_leading_zeros bs))
      with (8 * k - Hash.zeros_loop u8_leading_zeros bs) by lia.
    split_and!; lia.
  - unfold u8_leading_zeros. pose proof (byte_val_range b).
    destruct (byte_val b =? 0) eqn:E'; zbool; [lia |].
    pose proof (be_val_bound bs) as Hb. fold k in Hb.
    pose proof (Z.log2_spec (byte_val b) ltac:(lia)) as [Hl Hu].
    pose proof (Z.log2_nonneg (byte_val b)).
    assert (Z.log2 (byte_val b) < 8) by (apply Z.log2_lt_pow2; lia).
    set (l := Z.log2 (byte_val b)) in *.
    replace (8 * Z.succ k - (7 - l)) with (Z.succ l + 8 * k) by lia.
    replace (Z.succ l + 8 * k - 1) with (l + 8 * k) by lia.
    rewrite !Z.pow_add_r by lia. change 256 with (2 ^ 8) in *.
    rewrite <- Z.pow_mul_r in * by lia. nia.
Qed.

Lemma to_from_h160 h : H256.to_h160 (H256.from_h160 h) = h.
Proof.
  apply hash_eq. unfold H256.to_h160, H256.from_h160.
  pose proof (hash_length h) as Hl.
  rewrite (hash_bytes_fit 32) by (rewrite length_app, length_replicate; lia).
  rewrite drop_app_ge by (rewrite length_replicate; lia). rewrite length_replicate.
  rewrite drop_0, take_ge by lia. by apply hash_bytes_fit.
Qed.

Lemma to_from_u256 u : u256_wf u -> H256.to_u256 (H256.from_u256 u) = u.
Proof.
  intros H. unfold H256.to_u256, H256.from_u256.
  rewrite hash_bytes_fit by apply to_be_bytes_length. by apply from_to_be_bytes.
Qed.

Lemma from_to_u256 h : H256.from_u256 (H256.to_u256 h) = h.
Proof.
  apply hash_eq. unfold H256.to_u256, H256.from_u256.
  rewrite hash_bytes_fit by apply to_be_bytes_length.
  apply to_from_be_bytes, hash_length.
Qed.

(** ** Properties *)

(** Hash types of every size survive both serde forms (hexadecimal text and
    raw bytes) and their hexadecimal text; text is accepted exactly when, after an
    optional prefix, it is twice the size in hexadecimal digits; and their order
    is the order of the big-endian numbers they spell. *)
Theorem hash_encodings {n : nat} {HC : HexCrate} {HL : HexLaws} (h h' : Hash n) human s :
  Hash.deserialize human (Hash.serialize human h) = Some h /\
  Hash.from_hex (Hash.to_hex h) = Ok h /\
  (Hash.from_hex s = Ok h <-> spec_decode (strip_0x s) = Some (hash_bytes h)) /\
  Hash.cmp h h' = Z.compare (be_val (hash_bytes h)) (be_val (hash_bytes h')).
Proof.
  split_and!; [apply hash_serde_roundtrip | apply hash_from_to_hex | apply from_hex_ok
              | apply hash_cmp_val].
Qed.

Lemma hash_encodings_witness :
  Hash.from_hex (Hash.to_hex (fit 32 [x12; x34] : H256)) = Ok (fit 32 [x12; x34]).
Proof. exact (proj1 (proj2 (hash_encodings (fit 32 [x12; x34]) Hash.ZERO true []))). Defined.
