(* ===== verification/Address.v ===== *)
(** * Addresses, byte strings and signature types

    [crates/ivory-primitives/src/address.rs], [bytes.rs] and [signature.rs].
    [Bytes(Vec<u8>)] is the type [bytes] itself. *)

From S2P Require Import Prelude Hex Uint UintProps Hash.
#[local] Open Scope Z_scope.

Record Address : Type := mkAddress { address_h160 : H160 }.
Record Signature : Type := mkSignature { signature_h512 : H512 }.
Record PublicKey : Type := mkPublicKey { public_key_h256 : H256 }.
Record SecretKey : Type := mkSecretKey { secret_key_h256 : H256 }.

#[export] Instance Address_eq_dec : EqDecision Address.
Proof. solve_decision. Defined.
#[export] Instance Signature_eq_dec : EqDecision Signature.
Proof. solve_decision. Defined.
#[export] Instance PublicKey_eq_dec : EqDecision PublicKey.
Proof. solve_decision. Defined.
#[export] Program Instance Address_countable : Countable Address :=
  inj_countable' address_h160 mkAddress _.
Next Obligation. by intros []. Qed.
#[export] Program Instance PublicKey_countable : Countable PublicKey :=
  inj_countable' public_key_h256 mkPublicKey _.
Next Obligation. by intros []. Qed.
#[export] Program Instance Signature_countable : Countable Signature :=
  inj_countable' signature_h512 mkSignature _.
Next Obligation. by intros []. Qed.

Module Address.
Section Address.
Context {HC : HexCrate} {SC : Sha3Crate}.

Definition ZERO : Address := mkAddress Hash.ZERO.
Definition as_bytes (a : Address) : bytes := hash_bytes (address_h160 a).
Definition from_bytes (bs : bytes) : Address := mkAddress (Hash.from_bytes bs).
Definition from_slice (s : bytes) : option Address := mkAddress <$> Hash.from_slice s.
Definition from_hex (s : bytes) : result Address PrimitiveError :=
  let? h := Hash.from_hex s in Ok (mkAddress h).
Definition from_h256 (h : H256) : Address := mkAddress (H256.to_h160 h).
Definition to_h256 (a : Address) : H256 := H256.from_h160 (address_h160 a).
Definition is_zero (a : Address) : bool := Hash.is_zero (address_h160 a).
Definition to_hex (a : Address) : bytes := Hash.to_hex (address_h160 a).
Definition try_from (s : bytes) : result Address PrimitiveError :=
  let? h := Hash.try_from s in Ok (mkAddress h).
Definition from_str (s : bytes) : result Address PrimitiveError := from_hex s.
(** [#[derive(PartialOrd, Ord)]] *)
Definition cmp (a b : Address) : comparison := Hash.cmp (address_h160 a) (address_h160 b).

Definition is_ascii_digit (c : byte) : bool := (48 <=? byte_val c) && (byte_val c <=? 57).
Definition to_ascii_uppercase (c : byte) : byte :=
  if (97 <=? byte_val c) && (byte_val c <=? 122) then byte_of_Z (byte_val c - 32) else c.

(** The nibble of [hash] that decides the case of character [i]. *)
Definition checksum_nibble (hash : H256) (i : nat) : Z :=
  let b := byte_val (nth (i / 2) (hash_bytes hash) x00) in
  if Nat.even i then Z.shiftr b 4 else Z.land b 15.

Definition checksum_char (hash : H256) (i : nat) (ch : byte) : byte :=
  if is_ascii_digit ch then ch
  else if 8 <=? checksum_nibble hash i then to_ascii_uppercase ch else ch.

Definition to_hex_checksummed (a : Address) : bytes :=
  let lower := hex_encode (as_bytes a) in
  let hash := keccak256 lower in
  str "0x" ++ imap (checksum_char hash) lower.

Definition create (sender : Address) (nonce : Z) : Address :=
  from_h256 (keccak256 (as_bytes sender ++ be_bytes 8 nonce)).

Definition create2 (sender : Address) (salt code_hash : H256) : Address :=
  from_h256 (keccak256 ([xff] ++ as_bytes sender ++ hash_bytes salt ++ hash_bytes code_hash)).
End Address.
End Address.

Module Signature.
Definition ZERO : Signature := mkSignature Hash.ZERO.
Definition from_bytes (bs : bytes) : Signature := mkSignature (Hash.from_bytes bs).
Definition from_slice (s : bytes) : option Signature := mkSignature <$> Hash.from_slice s.
Definition as_bytes (s : Signature) : bytes := hash_bytes (signature_h512 s).
Definition is_zero (s : Signature) : bool := Hash.is_zero (signature_h512 s).
Definition to_hex {HC : HexCrate} (s : Signature) : bytes := Hash.to_hex (signature_h512 s).
End Signature.

Module PublicKey.
Definition ZERO : PublicKey := mkPublicKey Hash.ZERO.
Definition from_bytes (bs : bytes) : PublicKey := mkPublicKey (Hash.from_bytes bs).
Definition from_slice (s : bytes) : option PublicKey := mkPublicKey <$> Hash.from_slice s.
Definition as_bytes (s : PublicKey) : bytes := hash_bytes (public_key_h256 s).
Definition is_zero (s : PublicKey) : bool := Hash.is_zero (public_key_h256 s).
Definition to_hex {HC : HexCrate} (s : PublicKey) : bytes := Hash.to_hex (public_key_h256 s).
End PublicKey.

Module SecretKey.
Definition from_bytes (bs : bytes) : SecretKey := mkSecretKey (Hash.from_bytes bs).
Definition from_slice (s : bytes) : option SecretKey := mkSecretKey <$> Hash.from_slice s.
Definition as_bytes (s : SecretKey) : bytes := hash_bytes (secret_key_h256 s).
Definition to_hex {HC : HexCrate} (s : SecretKey) : bytes := Hash.to_hex (secret_key_h256 s).
End SecretKey.

(** [Bytes]: the text and serde forms. *)
Module Bytes.
Definition fmt_display {HC : HexCrate} (b : bytes) : bytes := str "0x" ++ hex_encode b.
Definition serialize_text {HC : HexCrate} (b : bytes) : bytes := str "0x" ++ hex_encode b.
Definition deserialize_text {HC : HexCrate} (s : bytes) : option bytes :=
  hex_decode (match strip_prefix (str "0x") s with Some r => r | None => s end).
End Bytes.

(** ** Lemmas *)

Lemma address_eq a b : Address.as_bytes a = Address.as_bytes b -> a = b.
Proof. destruct a, b. unfold Address.as_bytes. simpl. by intros ->%hash_eq. Qed.

Lemma address_length a : length (Address.as_bytes a) = 20%nat.
Proof. apply hash_length. Qed.
#[export] Hint Resolve address_length : ivory.

Lemma address_from_to_h256 a : Address.from_h256 (Address.to_h256 a) = a.
Proof. destruct a. unfold Address.from_h256, Address.to_h256. simpl. by rewrite to_from_h160. Qed.

Lemma uppercase_digit_val n :
  0 <= n < 16 ->
  hex_digit_val (Address.to_ascii_uppercase (hex_digit n)) = Some n.
Proof.
  intros H. assert (n ∈ [0;1;2;3;4;5;6;7;8;9;10;11;12;13;14;15]) as Hn.
  { rewrite !elem_of_cons. lia. }
  repeat (apply elem_of_cons in Hn as [->|Hn]; [by vm_compute |]).
  by apply elem_of_nil in Hn.
Qed.

Lemma checksum_char_val h i n :
  0 <= n < 16 -> hex_digit_val (Address.checksum_char h i (hex_digit n)) = Some n.
Proof.
  intros H. unfold Address.checksum_char.
  destruct (Address.is_ascii_digit _); [by apply hex_digit_val_digit |].
  destruct (8 <=? _); [by apply uppercase_digit_val | by apply hex_digit_val_digit].
Qed.

Lemma decode_checksummed h bs (f : nat -> nat) :
  spec_decode (imap (fun i => Address.checksum_char h (f i)) (spec_encode bs)) = Some bs.
Proof.
  revert f; induction bs as [|b bs IH]; intros f; [done |]. simpl.
  pose proof (byte_val_range b).
  rewrite !checksum_char_val by (split; [apply Z.div_pos || apply Z.mod_pos_bound
    | apply Z.div_lt_upper_bound || apply Z.mod_pos_bound]; lia).
  simpl. unfold compose. rewrite (IH (fun i => f (S (S i)))). simpl.
  rewrite <- Z.div_mod by lia. by rewrite byte_of_val.
Qed.

Section Facts.
Context {HC : HexCrate} {HL : HexLaws} {SC : Sha3Crate}.

Lemma address_from_to_hex a : Address.from_hex (Address.to_hex a) = Ok a.
Proof.
  destruct a. unfold Address.from_hex, Address.to_hex. simpl. by rewrite hash_from_to_hex.
Qed.

Lemma address_from_checksummed a : Address.from_hex (Address.to_hex_checksummed a) = Ok a.
Proof.
  destruct a as [h]. unfold Address.from_hex, Address.to_hex_checksummed, Address.as_bytes.
  simpl address_h160. rewrite hex_encode_spec.
  rewrite (proj2 (from_hex_ok _ h)); [done |].
  rewrite strip_0x_prefixed. apply (decode_checksummed _ _ (fun i => i)).
Qed.

(** [create] determines the creating transaction, up to a collision of the
    truncated digest. *)
Lemma create_preimage s1 n1 s2 n2 :
  u64_ok n1 -> u64_ok n2 ->
  Address.as_bytes s1 ++ be_bytes 8 n1 = Address.as_bytes s2 ++ be_bytes 8 n2 ->
  s1 = s2 /\ n1 = n2.
Proof.
  intros H1 H2 H. apply app_inj_1 in H as [Ha Hn]; [| by rewrite !address_length].
  split; [by apply address_eq |].
  by rewrite <- (be_val_word n1), <- (be_val_word n2), Hn.
Qed.

Lemma bytes_text_roundtrip b : Bytes.deserialize_text (Bytes.serialize_text b) = Some b.
Proof.
  unfold Bytes.deserialize_text, Bytes.serialize_text. simpl.
  by rewrite hex_decode_spec, hex_encode_spec, spec_decode_encode.
Qed.
End Facts.

(** ** Properties *)

(** Addresses survive all their forms: lower-case hexadecimal, the EIP-55
    checksummed text (whatever the digest says about letter case), raw bytes, and
    the left-padded 256-bit word. *)
Theorem address_encodings {HC : HexCrate} {HL : HexLaws} {SC : Sha3Crate} a :
  Address.from_hex (Address.to_hex a) = Ok a /\
  Address.from_hex (Address.to_hex_checksummed a) = Ok a /\
  Address.from_slice (Address.as_bytes a) = Some a /\
  Address.from_h256 (Address.to_h256 a) = a.
Proof.
  split_and!; [apply address_from_to_hex | apply address_from_checksummed |
               | apply address_from_to_h256].
  destruct a as [h]. unfold Address.from_slice, Address.as_bytes. simpl.
  by rewrite (proj2 (from_slice_some (hash_bytes h) h) eq_refl).
Qed.

Lemma address_encodings_witness :
  Address.from_hex (Address.to_hex_checksummed (Address.from_bytes (replicate 20 xab)))
  = Ok (Address.from_bytes (replicate 20 xab)).
Proof. exact (proj1 (proj2 (address_encodings _))). Defined.
