(* ===== verification/Impls.v ===== *)
(** * The trait implementations of the primitives: [crates/ivory-primitives/src]

    [hash.rs], [uint.rs], [address.rs], [signature.rs] and [bytes.rs] give their types
    views, conversions, indexing, texts and serde forms on top of the operations of
    [Uint], [Hash] and [Address].  A shared view of an array is its list of bytes;
    writing through a mutable view is [over], which keeps the array's length; indexing
    out of range panics, which is [None].  A serde form is the string a human-readable
    serializer is given, or the bytes a binary one is. *)

From S2P Require Import Prelude Hex Text Uint UintFacts UintProps Hash Address.
#[local] Open Scope Z_scope.

(** ** [impl_hash!] *)

Module HashImpls.
Section HashImpls.
Context {n : nat} {HC : HexCrate}.
Implicit Types h : Hash n.

Definition SIZE : Z := Z.of_nat n.
Definition zero : Hash n := Hash.ZERO.
Definition default : Hash n := Hash.ZERO.
Definition as_bytes h : bytes := hash_bytes h.
Definition as_slice h : bytes := hash_bytes h.
Definition to_bytes h : bytes := hash_bytes h.
Definition to_vec h : bytes := hash_bytes h.
Definition deref h : bytes := hash_bytes h.
Definition as_ref h : bytes := hash_bytes h.
Definition into_array h : bytes := hash_bytes h.
Definition from_array (arr : bytes) : Hash n := Hash.from_bytes arr.
Definition try_from_vec (vec : bytes) : result (Hash n) PrimitiveError := Hash.try_from vec.

(** What code does through [as_bytes_mut], [deref_mut] or [as_mut]. *)
Definition as_bytes_mut (f : bytes -> bytes) h : Hash n := fit n (f (hash_bytes h)).
Definition deref_mut (f : bytes -> bytes) h : Hash n := as_bytes_mut f h.
Definition as_mut (f : bytes -> bytes) h : Hash n := as_bytes_mut f h.
Definition reverse h : Hash n := as_bytes_mut (@rev byte) h.

Definition index (i : nat) h : option byte := hash_bytes h !! i.
Definition index_mut (i : nat) (b : byte) h : option (Hash n) :=
  if decide (i < n)%nat then Some (fit n (<[i := b]> (hash_bytes h))) else None.
Definition index_range (first last : nat) h : option bytes :=
  if decide (first <= last <= n)%nat then Some (take (last - first) (drop first (hash_bytes h))) else None.

Definition partial_cmp h1 h2 : option comparison := Some (Hash.cmp h1 h2).
(** [{}({})] with [stringify!($name)]. *)
Definition fmt_debug (name : bytes) h : bytes := name ++ str "(" ++ Hash.to_hex h ++ str ")".
End HashImpls.
End HashImpls.

(** ** [uint.rs] *)

Module U256Impls.
Section U256Impls.
Context {HC : HexCrate}.

Definition BITS : Z := 256.
Definition BYTES : Z := 32.
Definition default : U256 := mkU256 [0; 0; 0; 0].
(** [v as u64] of a [u8], [u16] or [u32] is the same number. *)
Definition from_u8 (v : Z) : U256 := U256.from_u64 v.
Definition from_u16 (v : Z) : U256 := U256.from_u64 v.
Definition from_u32 (v : Z) : U256 := U256.from_u64 v.
Definition from_u64 (v : Z) : U256 := U256.from_u64 v.
Definition from_u128 (v : Z) : U256 := U256.from_u128 v.
Definition partial_cmp (a b : U256) : option comparison := Some (U256.cmp a b).

Definition serialize (human_readable : bool) (x : U256) : bytes :=
  if human_readable then U256.to_hex x else U256.to_be_bytes x.
Definition deserialize (human_readable : bool) (s : bytes) : option U256 :=
  if human_readable then match U256.from_hex s with Ok x => Some x | Err _ => None end
  else if (32 <=? length s)%nat then Some (U256.from_be_bytes (take 32 s)) else None.
End U256Impls.
End U256Impls.

Module U128Impls.
Definition from (v : Z) : U128 := mkU128 v.
(** [{:#x}] *)
Definition fmt_debug (x : U128) : bytes := str "U128(0x" ++ fmt_hex (u128 x) ++ str ")".
Definition fmt_display (x : U128) : bytes := str "0x" ++ fmt_hex (u128 x).
End U128Impls.

Module U512Impls.
Section U512Impls.
Context {HC : HexCrate}.
Definition from (v : U256) : U512 := U512.from_u256 v.
Definition half (x : U512) (i : nat) : U256 :=
  mkU256 [U512.limb x i; U512.limb x (i + 1); U512.limb x (i + 2); U512.limb x (i + 3)].
Definition fmt_debug (x : U512) : bytes :=
  str "U512([" ++ U256.fmt_debug (half x 0) ++ str ", " ++ U256.fmt_debug (half x 4) ++ str "])".
End U512Impls.
End U512Impls.

(** ** [address.rs] *)

Module AddressImpls.
Section AddressImpls.
Context {HC : HexCrate}.
Definition SIZE : Z := 20.
Definition zero : Address := Address.ZERO.
Definition from_h160 (h : H160) : Address := mkAddress h.
Definition to_h160 (a : Address) : H160 := address_h160 a.
Definition as_bytes_mut (f : bytes -> bytes) (a : Address) : Address :=
  mkAddress (HashImpls.as_bytes_mut f (address_h160 a)).
Definition to_bytes (a : Address) : bytes := hash_bytes (address_h160 a).
Definition as_ref (a : Address) : bytes := HashImpls.as_ref (address_h160 a).
Definition from (h : H160) : Address := mkAddress h.
Definition into_h160 (a : Address) : H160 := address_h160 a.
Definition from_array (arr : bytes) : Address := mkAddress (HashImpls.from_array arr).
Definition into_array (a : Address) : bytes := hash_bytes (address_h160 a).
Definition fmt_debug (a : Address) : bytes := str "Address(" ++ Hash.to_hex (address_h160 a) ++ str ")".
Definition fmt_display (a : Address) : bytes := Hash.to_hex (address_h160 a).
Definition fmt_lower_hex (alternate : bool) (a : Address) : bytes :=
  Hash.fmt_lower_hex alternate (address_h160 a).
Definition serialize (human_readable : bool) (a : Address) : bytes :=
  Hash.serialize human_readable (address_h160 a).
Definition deserialize (human_readable : bool) (s : bytes) : option Address :=
  mkAddress <$> Hash.deserialize human_readable s.
End AddressImpls.
End AddressImpls.

(** ** [signature.rs] *)

Module SignatureImpls.
Section SignatureImpls.
Context {HC : HexCrate}.
Definition SIZE : Z := 64.
Definition zero : Signature := Signature.ZERO.
Definition default : Signature := Signature.ZERO.
Definition to_bytes (s : Signature) : bytes := hash_bytes (signature_h512 s).
(** Only the first eight bytes are shown. *)
Definition fmt_debug (s : Signature) : bytes :=
  str "Signature(0x" ++ hex_encode (take 8 (Signature.as_bytes s)) ++ str "...)".
Definition serialize (human_readable : bool) (s : Signature) : bytes :=
  Hash.serialize human_readable (signature_h512 s).
Definition deserialize (human_readable : bool) (s : bytes) : option Signature :=
  mkSignature <$> Hash.deserialize human_readable s.
End SignatureImpls.
End SignatureImpls.

Module PublicKeyImpls.
Section PublicKeyImpls.
Context {HC : HexCrate}.
Definition SIZE : Z := 32.
Definition zero : PublicKey := PublicKey.ZERO.
Definition default : PublicKey := PublicKey.ZERO.
Definition to_bytes (pk : PublicKey) : bytes := hash_bytes (public_key_h256 pk).
Definition fmt_debug (pk : PublicKey) : bytes :=
  str "PublicKey(" ++ Hash.to_hex (public_key_h256 pk) ++ str ")".
Definition serialize (human_readable : bool) (pk : PublicKey) : bytes :=
  Hash.serialize human_readable (public_key_h256 pk).
Definition deserialize (human_readable : bool) (s : bytes) : option PublicKey :=
  mkPublicKey <$> Hash.deserialize human_readable s.
End PublicKeyImpls.
End PublicKeyImpls.

Module SecretKeyImpls.
Definition SIZE : Z := 32.
Definition to_bytes (sk : SecretKey) : bytes := hash_bytes (secret_key_h256 sk).
(** Neither the debug text nor the serialized form shows the key; there is no
    [Deserialize]. *)
Definition fmt_debug (sk : SecretKey) : bytes := str "SecretKey([REDACTED])".
Definition serialize (sk : SecretKey) : bytes := str "[REDACTED]".
End SecretKeyImpls.

(** ** [bytes.rs] *)

Module BytesImpls.
Section BytesImpls.
Context {HC : HexCrate}.
Definition new : bytes := [].
Definition from_vec (vec : bytes) : bytes := vec.
Definition copy_from_slice (slice : bytes) : bytes := slice.
Definition from_slice (slice : bytes) : bytes := copy_from_slice slice.
Definition as_slice (b : bytes) : bytes := b.
Definition deref (b : bytes) : bytes := b.
(** A mutable slice cannot change the length: [f] is what is done to it. *)
Definition deref_mut (f : bytes -> bytes) (b : bytes) : bytes := f b.
Definition from (vec : bytes) : bytes := vec.
Definition from_ref (slice : bytes) : bytes := slice.
Definition fmt_debug (b : bytes) : bytes := str "Bytes(0x" ++ hex_encode b ++ str ")".
End BytesImpls.
End BytesImpls.

(** ** Properties *)

Section Facts.
Context {HC : HexCrate} {HL : HexLaws}.

(** Indexing is defined exactly below the size, and reads what was written. *)
Lemma index_defined {n} (h : Hash n) i : is_Some (HashImpls.index i h) <-> (i < n)%nat.
Proof. unfold HashImpls.index. by rewrite lookup_lt_is_Some, hash_length. Qed.
Lemma index_mut_index {n} (h : Hash n) i b :
  (i < n)%nat ->
  exists h', HashImpls.index_mut i b h = Some h' /\ HashImpls.index i h' = Some b /\
             forall j, j ≠ i -> HashImpls.index j h' = HashImpls.index j h.
Proof.
  intros Hi. unfold HashImpls.index_mut. rewrite decide_True by done. eexists. split; [done |].
  unfold HashImpls.index.
  rewrite (hash_bytes_fit n (<[i:=b]> (hash_bytes h))) by (etransitivity; [apply length_insert | apply hash_length]).
  split; [apply list_lookup_insert_eq; by rewrite hash_length | intros j Hj; by apply list_lookup_insert_ne].
Qed.

Lemma u256_serde_roundtrip human x :
  u256_wf x -> U256Impls.deserialize human (U256Impls.serialize human x) = Some x.
Proof.
  intros Hx. unfold U256Impls.deserialize, U256Impls.serialize. destruct human.
  - by rewrite to_from_hex.
  - rewrite to_be_bytes_length. cbn [Nat.leb]. rewrite take_ge by (by rewrite to_be_bytes_length).
    by rewrite from_to_be_bytes.
Qed.
Lemma address_serde_roundtrip human a : AddressImpls.deserialize human (AddressImpls.serialize human a) = Some a.
Proof. unfold AddressImpls.deserialize, AddressImpls.serialize. rewrite hash_serde_roundtrip. by destruct a. Qed.
End Facts.
