(* ===== verification/Bincode.v ===== *)
(** * Serde and the [bincode] crate

    Every persistent or hashed structure goes through [bincode::serialize].
    The repository's side of that is which fields each type gives to serde, in
    which order ([#[derive(Serialize, Deserialize)]] and the hand-written
    implementations of [ivory-primitives]); it is modelled by the class [Serde],
    a translation into the serde data model [shape]/[denote].

    The crate's side is the parameter [BincodeCrate]; [BincodeLaws] is what the
    sources rely on (a well-formed value decodes from its encoding; decoding
    yields well-formed values; fixed-width data has a fixed size).  [bincode_reference] implements the crate's
    documented format (little-endian fixed-width integers, [u64] lengths, one
    option byte, [u32] variant tags, trailing bytes ignored) and satisfies the laws. *)

From S2P Require Import Prelude Hash.
#[local] Open Scope Z_scope.

(** ** The serde data model *)

Inductive shape : Type :=
| ShUnit
| ShBool
| ShInt (n : nat)                (* n-byte unsigned integer *)
| ShBytes                        (* Vec<u8>, serialize_bytes *)
| ShStr                          (* String *)
| ShArr (n : nat)                (* [u8; n] *)
| ShOption (s : shape)
| ShSeq (s : shape)              (* Vec<T> *)
| ShRep (n : nat) (s : shape)    (* [T; n] *)
| ShPair (s1 s2 : shape)         (* consecutive fields *)
| ShSum (s1 s2 : shape)          (* one variant, then the remaining ones *)
| ShLast (s : shape).            (* the last variant *)

Fixpoint denote (s : shape) : Type :=
  match s with
  | ShUnit => unit
  | ShBool => bool
  | ShInt _ => Z
  | ShBytes | ShStr => bytes
  | ShArr n => Hash n
  | ShOption s => option (denote s)
  | ShSeq s | ShRep _ s => list (denote s)
  | ShPair s1 s2 => denote s1 * denote s2
  | ShSum s1 s2 => denote s1 + denote s2
  | ShLast s => denote s
  end.

(** [core::str::from_utf8]: a [String] holds well-formed UTF-8 (Unicode table 3-7). *)
Definition in_range (lo hi : Z) (b : byte) : bool := (lo <=? byte_val b) && (byte_val b <=? hi).
Fixpoint utf8_valid (fuel : nat) (s : bytes) : bool :=
  match fuel with
  | O => false
  | S fuel =>
    match s with
    | [] => true
    | b0 :: s =>
      if in_range 0 127 b0 then utf8_valid fuel s else
      match s with
      | b1 :: s =>
        if in_range 194 223 b0 && in_range 128 191 b1 then utf8_valid fuel s else
        match s with
        | b2 :: s =>
          if in_range 128 191 b2 &&
             ((in_range 224 224 b0 && in_range 160 191 b1) ||
              ((in_range 225 236 b0 || in_range 238 239 b0) && in_range 128 191 b1) ||
              (in_range 237 237 b0 && in_range 128 159 b1))
          then utf8_valid fuel s else
          match s with
          | b3 :: s =>
            if in_range 128 191 b2 && in_range 128 191 b3 &&
               ((in_range 240 240 b0 && in_range 144 191 b1) ||
                (in_range 241 243 b0 && in_range 128 191 b1) ||
                (in_range 244 244 b0 && in_range 128 143 b1))
            then utf8_valid fuel s else false
          | [] => false
          end
        | [] => false
        end
      | [] => false
      end
    end
  end.
Definition utf8_ok (s : bytes) : bool := utf8_valid (S (length s)) s.

(** Lengths are [usize]. *)
Definition vec_ok {A} (l : list A) : Prop := Z.of_nat (length l) < M64.

Fixpoint denote_ok (s : shape) : denote s -> Prop :=
  match s return denote s -> Prop with
  | ShUnit | ShBool | ShArr _ => fun _ => True
  | ShInt n => fun z => 0 <= z < 256 ^ Z.of_nat n
  | ShBytes => fun l => vec_ok l
  | ShStr => fun l => vec_ok l /\ utf8_ok l = true
  | ShOption s => fun o => match o with Some x => denote_ok s x | None => True end
  | ShSeq s => fun l => vec_ok l /\ Forall (denote_ok s) l
  | ShRep n s => fun l => length l = n /\ Forall (denote_ok s) l
  | ShPair s1 s2 => fun p => denote_ok s1 p.1 /\ denote_ok s2 p.2
  | ShSum s1 s2 => fun v => match v with inl x => denote_ok s1 x | inr y => denote_ok s2 y end
  | ShLast s => denote_ok s
  end.

Definition is_enum (s : shape) : bool :=
  match s with ShSum _ _ | ShLast _ => true | _ => false end.

(** An enum is a list of variants, numbered from [k] and below [2^32]. *)
Fixpoint variants_ok (k : Z) (s : shape) : Prop :=
  match s with
  | ShSum s1 s2 => 0 <= k < M32 /\ is_enum s2 = true /\ variants_ok 0 s1 /\ variants_ok (k + 1) s2
  | ShLast s => 0 <= k < M32 /\ variants_ok 0 s
  | ShOption s | ShSeq s | ShRep _ s => variants_ok 0 s
  | ShPair s1 s2 => variants_ok 0 s1 /\ variants_ok 0 s2
  | _ => True
  end.

(** The encoded size of shapes without options, vectors and enums. *)
Fixpoint fixed_size (s : shape) : option nat :=
  match s with
  | ShUnit => Some 0%nat
  | ShBool => Some 1%nat
  | ShInt n | ShArr n => Some n
  | ShPair s1 s2 => n1 ← fixed_size s1; n2 ← fixed_size s2; Some (n1 + n2)%nat
  | _ => None
  end.

(** ** The crate *)

Class BincodeCrate := {
  bincode_serialize : forall s, denote s -> bytes;
  bincode_deserialize : forall s, bytes -> option (denote s) }.

Class BincodeLaws `{BincodeCrate} : Prop := {
  bincode_roundtrip s v :
    variants_ok 0 s -> denote_ok s v -> bincode_deserialize s (bincode_serialize s v) = Some v;
  bincode_decoded s bs v : bincode_deserialize s bs = Some v -> denote_ok s v;
  bincode_size s v n : fixed_size s = Some n -> length (bincode_serialize s v) = n }.

(** ** Serde implementations *)

Class Serde (A : Type) := {
  serde_shape : shape;
  to_serde : A -> denote serde_shape;
  from_serde : denote serde_shape -> A;
  serde_wf : A -> Prop }.

Class SerdeLaws (A : Type) `{Serde A} : Prop := {
  serde_variants : variants_ok 0 serde_shape;
  serde_from_to a : serde_wf a -> from_serde (to_serde a) = a;
  serde_to_ok a : serde_wf a -> denote_ok serde_shape (to_serde a);
  serde_from_wf d : denote_ok serde_shape d -> serde_wf (from_serde d) }.

Definition serialize {A} `{BincodeCrate} `{Serde A} (a : A) : bytes :=
  bincode_serialize serde_shape (to_serde a).
Definition deserialize {A} `{BincodeCrate} `{Serde A} (bs : bytes) : option A :=
  from_serde <$> bincode_deserialize serde_shape bs.

Section Serde.
Context {BC : BincodeCrate} {BL : BincodeLaws}.
Context {A : Type} {SA : Serde A} {SL : SerdeLaws A}.

Lemma deserialize_serialize (a : A) : serde_wf a -> deserialize (serialize a) = Some a.
Proof.
  intros H. unfold deserialize, serialize.
  rewrite bincode_roundtrip by auto using serde_variants, serde_to_ok.
  simpl. by rewrite serde_from_to.
Qed.

Lemma deserialize_wf bs (a : A) : deserialize bs = Some a -> serde_wf a.
Proof.
  unfold deserialize. intros (d & H & ->)%fmap_Some.
  by eapply serde_from_wf, bincode_decoded.
Qed.

Lemma serialize_inj (a b : A) :
  serde_wf a -> serde_wf b -> serialize a = serialize b -> a = b.
Proof.
  intros Ha Hb E. apply deserialize_serialize in Ha, Hb. rewrite E in Ha. congruence.
Qed.

Lemma serialize_hash_inj {SC : Sha3Crate} (a b : A) :
  serde_wf a -> serde_wf b ->
  coll_free [serialize a; serialize b] ->
  keccak256 (serialize a) = keccak256 (serialize b) -> a = b.
Proof.
  intros Ha Hb C E. apply serialize_inj; [done | done |]. apply C; [set_solver.. | done].
Qed.
End Serde.

(** [Vec<T>], and the fixed-size hashes (a tuple of bytes in binary formats). *)
#[export] Instance serde_vec {A} `{Serde A} : Serde (list A) := {|
  serde_shape := ShSeq serde_shape;
  to_serde l := map to_serde l;
  from_serde l := map from_serde l;
  serde_wf l := vec_ok l /\ Forall serde_wf l |}.
#[export] Instance serde_vec_laws {A} `{SerdeLaws A} : SerdeLaws (list A).
Proof.
  split; cbn [serde_shape to_serde from_serde serde_wf serde_vec].
  - apply serde_variants.
  - intros l [_ Hl]. induction Hl; simpl; f_equal; auto using serde_from_to.
  - intros l [Hn Hl]. split; [unfold vec_ok in *; by rewrite length_map |].
    apply Forall_map. eapply Forall_impl; [done |]. apply serde_to_ok.
  - intros l [Hn Hl]. split; [unfold vec_ok in *; by rewrite length_map |].
    apply Forall_map. eapply Forall_impl; [done |]. apply serde_from_wf.
Qed.

#[export] Instance serde_hash n : Serde (Hash n) := {|
  serde_shape := ShArr n; to_serde h := h; from_serde h := h; serde_wf _ := True |}.
#[export] Instance serde_hash_laws n : SerdeLaws (Hash n).
Proof. by split. Qed.

(** ** The documented format *)

Fixpoint enc (s : shape) (tag : Z) : denote s -> bytes :=
  match s return denote s -> bytes with
  | ShUnit => fun _ => []
  | ShBool => fun b => [byte_of_Z (if b then 1 else 0)]
  | ShInt n => le_bytes n
  | ShBytes | ShStr => fun l => le_bytes 8 (Z.of_nat (length l)) ++ l
  | ShArr n => hash_bytes
  | ShOption s => fun o => match o with None => [x00] | Some x => x01 :: enc s 0 x end
  | ShSeq s => fun l => le_bytes 8 (Z.of_nat (length l)) ++ flat_map (enc s 0) l
  | ShRep n s => flat_map (enc s 0)
  | ShPair s1 s2 => fun p => enc s1 0 p.1 ++ enc s2 0 p.2
  | ShSum s1 s2 => fun v => match v with
      | inl x => le_bytes 4 tag ++ enc s1 0 x
      | inr y => enc s2 (tag + 1) y
      end
  | ShLast s => fun x => le_bytes 4 tag ++ enc s 0 x
  end.

Definition read (n : nat) (bs : bytes) : option (bytes * bytes) :=
  if (n <=? length bs)%nat then Some (take n bs, drop n bs) else None.
Definition read_int (n : nat) (bs : bytes) : option (Z * bytes) :=
  '(x, bs) ← read n bs; Some (le_val x, bs).
Definition read_len (bs : bytes) : option (nat * bytes) :=
  '(n, bs) ← read_int 8 bs; Some (Z.to_nat n, bs).
Definition read_tag (tag : option Z) (bs : bytes) : option (Z * bytes) :=
  match tag with Some t => Some (t, bs) | None => read_int 4 bs end.

Fixpoint dec_list {A} (d : bytes -> option (A * bytes)) (n : nat) (bs : bytes) :
    option (list A * bytes) :=
  match n with
  | O => Some ([], bs)
  | S n => '(x, bs) ← d bs; '(l, bs) ← dec_list d n bs; Some (x :: l, bs)
  end.

Fixpoint dec (s : shape) (tag : option Z) (bs : bytes) : option (denote s * bytes) :=
  match s return option (denote s * bytes) with
  | ShUnit => Some (tt, bs)
  | ShBool => '(z, bs) ← read_int 1 bs;
      if z =? 0 then Some (false, bs) else if z =? 1 then Some (true, bs) else None
  | ShInt n => read_int n bs
  | ShBytes => '(n, bs) ← read_len bs; read n bs
  | ShStr => '(n, bs) ← read_len bs; '(x, bs) ← read n bs;
      if utf8_ok x then Some (x, bs) else None
  | ShArr n => '(x, bs) ← read n bs; Some (fit n x, bs)
  | ShOption s => '(z, bs) ← read_int 1 bs;
      if z =? 0 then Some (None, bs)
      else if z =? 1 then '(x, bs) ← dec s None bs; Some (Some x, bs) else None
  | ShSeq s => '(n, bs) ← read_len bs; dec_list (dec s None) n bs
  | ShRep n s => dec_list (dec s None) n bs
  | ShPair s1 s2 => '(x, bs) ← dec s1 None bs; '(y, bs) ← dec s2 None bs; Some ((x, y), bs)
  | ShSum s1 s2 => '(t, bs) ← read_tag tag bs;
      if t =? 0 then '(x, bs) ← dec s1 None bs; Some (inl x, bs)
      else '(y, bs) ← dec s2 (Some (t - 1)) bs; Some (inr y, bs)
  | ShLast s => '(t, bs) ← read_tag tag bs; if t =? 0 then dec s None bs else None
  end.

Lemma read_app n x rest : length x = n -> read n (x ++ rest) = Some (x, rest).
Proof.
  intros <-. unfold read. rewrite length_app.
  replace (length x <=? length x + length rest)%nat with true by (symmetry; apply Nat.leb_le; lia).
  by rewrite take_app_length, drop_app_length.
Qed.

Lemma read_int_app n z rest :
  0 <= z < 256 ^ Z.of_nat n -> read_int n (le_bytes n z ++ rest) = Some (z, rest).
Proof.
  intros H. unfold read_int. rewrite read_app by apply le_bytes_length. simpl.
  by rewrite le_val_bytes, Z.mod_small.
Qed.

Lemma read_len_app {A} (l : list A) rest :
  vec_ok l -> read_len (le_bytes 8 (Z.of_nat (length l)) ++ rest) = Some (length l, rest).
Proof.
  intros H. unfold read_len. rewrite read_int_app.
  - simpl. by rewrite Nat2Z.id.
  - unfold vec_ok in H. change (256 ^ Z.of_nat 8) with M64. lia.
Qed.

Lemma dec_list_app {A} (e : A -> bytes) d (l : list A) rest :
  Forall (fun x => forall rest, d (e x ++ rest) = Some (x, rest)) l ->
  dec_list d (length l) (flat_map e l ++ rest) = Some (l, rest).
Proof.
  induction 1 as [|x l Hx Hl IH]; [done |]. simpl. rewrite <- app_assoc, Hx. simpl.
  by rewrite IH.
Qed.

(** Decoding undoes encoding; for an enum, after its tag. *)
Definition dec_enc_at (s : shape) (k : Z) (v : denote s) (rest : bytes) : Prop :=
  if is_enum s then
    exists j p, 0 <= j /\ k + j < M32 /\ enc s k v = le_bytes 4 (k + j) ++ p /\
                dec s (Some j) (p ++ rest) = Some (v, rest)
  else dec s None (enc s k v ++ rest) = Some (v, rest).

Lemma dec_tag s j bs :
  is_enum s = true -> 0 <= j < M32 -> dec s None (le_bytes 4 j ++ bs) = dec s (Some j) bs.
Proof.
  intros He Hj. destruct s; try done; cbn [dec read_tag]; by rewrite (read_int_app 4 j) by exact Hj.
Qed.

Lemma dec_enc_at_0 s v rest :
  dec_enc_at s 0 v rest -> dec s None (enc s 0 v ++ rest) = Some (v, rest).
Proof.
  unfold dec_enc_at. destruct (is_enum s) eqn:E; [| done].
  intros (j & p & Hj & Hk & -> & Hd). rewrite <- app_assoc. rewrite dec_tag by (done || lia). done.
Qed.

Lemma dec_enc s : forall k v rest, variants_ok k s -> denote_ok s v -> dec_enc_at s k v rest.
Proof.
  induction s as [| |n| | |n|s IH|s IH|n s IH|s1 IH1 s2 IH2|s1 IH1 s2 IH2|s IH];
    intros k v rest Hk Hv; unfold dec_enc_at; cbn [is_enum denote denote_ok variants_ok enc dec] in *.
  - by destruct v.
  - by destruct v.
  - by apply read_int_app.
  - rewrite <- app_assoc, read_len_app by done. by apply read_app.
  - rewrite <- app_assoc, read_len_app by apply Hv. simpl. rewrite read_app by done. simpl.
    by destruct Hv as [_ ->].
  - rewrite read_app by apply hash_length. simpl. by rewrite fit_hash_bytes.
  - destruct v as [v|]; [| done]. change (x01 :: enc s 0 v) with (le_bytes 1 1 ++ enc s 0 v).
    rewrite <- app_assoc, (read_int_app 1 1) by (simpl; lia). cbn [Z.eqb Pos.eqb mbind option_bind].
    by rewrite (dec_enc_at_0 _ _ _ (IH 0 v rest Hk Hv)).
  - destruct Hv as [Hn Hv]. rewrite <- app_assoc, read_len_app by done. simpl.
    apply dec_list_app. eapply Forall_impl; [done |]. intros. by apply dec_enc_at_0, IH.
  - destruct Hv as [<- Hv]. apply dec_list_app.
    eapply Forall_impl; [done |]. intros. by apply dec_enc_at_0, IH.
  - destruct v as [v1 v2], Hk as [Hk1 Hk2], Hv as [Hv1 Hv2]. simpl in *. rewrite <- app_assoc.
    rewrite (dec_enc_at_0 _ _ _ (IH1 0 v1 (enc s2 0 v2 ++ rest) Hk1 Hv1)). simpl.
    by rewrite (dec_enc_at_0 _ _ _ (IH2 0 v2 rest Hk2 Hv2)).
  - destruct Hk as (Hk & He & Hk1 & Hk2). destruct v as [v|v].
    + exists 0, (enc s1 0 v). rewrite Z.add_0_r. split_and!; try done; [lia |]. simpl.
      by rewrite (dec_enc_at_0 _ _ _ (IH1 0 v rest Hk1 Hv)).
    + pose proof (IH2 (k + 1) v rest Hk2 Hv) as H. unfold dec_enc_at in H. rewrite He in H.
      destruct H as (j & p & Hj & Hlt & Henc & Hdec). exists (j + 1), p.
      rewrite Henc. split_and!; [lia | lia | do 2 f_equal; lia |]. simpl.
      replace (j + 1 =? 0) with false by (symmetry; apply Z.eqb_neq; lia).
      replace (j + 1 - 1) with j by lia. by rewrite Hdec.
  - destruct Hk as [Hk Hs]. exists 0, (enc s 0 v). rewrite Z.add_0_r.
    split_and!; try done; [lia |]. simpl. by apply dec_enc_at_0, IH.
Qed.

Ltac bind_inv :=
  repeat match goal with
  | H : (_ ≫= _) = Some _ |- _ =>
      apply bind_Some in H; destruct H as ([? ?] & ? & ?); cbn beta iota in *
  | H : (if ?b then _ else _) = Some _ |- _ => destruct b eqn:?; [| try discriminate]
  | H : Some _ = Some _ |- _ => injection H as <- <-
  end.

Lemma read_some n bs x rest : read n bs = Some (x, rest) -> length x = n.
Proof.
  unfold read. destruct (Nat.leb_spec n (length bs)); [| done].
  intros [= <- <-]. rewrite length_take. lia.
Qed.

Lemma read_int_some n bs z rest :
  read_int n bs = Some (z, rest) -> 0 <= z < 256 ^ Z.of_nat n.
Proof.
  unfold read_int. intros H. bind_inv.
  match goal with H : read _ _ = _ |- _ => apply read_some in H as <- end.
  apply le_val_bound.
Qed.

Lemma read_len_some bs n rest : read_len bs = Some (n, rest) -> Z.of_nat n < M64.
Proof.
  unfold read_len. intros H. bind_inv.
  match goal with H : read_int _ _ = _ |- _ => apply read_int_some in H end.
  change (256 ^ Z.of_nat 8) with M64 in *. lia.
Qed.

Lemma dec_list_some {A} (d : bytes -> option (A * bytes)) (P : A -> Prop) n bs l rest :
  (forall bs x rest, d bs = Some (x, rest) -> P x) ->
  dec_list d n bs = Some (l, rest) -> length l = n /\ Forall P l.
Proof.
  intros Hd. revert bs l; induction n as [|n IH]; intros bs l H; simpl in H.
  - by simplify_eq.
  - bind_inv. match goal with H : dec_list _ _ _ = _ |- _ => apply IH in H as [<- ?] end. eauto.
Qed.

Lemma dec_ok s : forall tag bs v rest, dec s tag bs = Some (v, rest) -> denote_ok s v.
Proof.
  induction s as [| |n| | |n|s IH|s IH|n s IH|s1 IH1 s2 IH2|s1 IH1 s2 IH2|s IH];
    intros tag bs v rest H; cbn [dec denote_ok] in *; bind_inv; try done; eauto.
  - by eapply read_int_some.
  - unfold vec_ok. match goal with H : read _ _ = _ |- _ => apply read_some in H as -> end.
    by eapply read_len_some.
  - split; [| done]. unfold vec_ok.
    match goal with H : read _ _ = _ |- _ => apply read_some in H as -> end.
    by eapply read_len_some.
  - match goal with H : dec_list _ _ _ = _ |- _ =>
      eapply (dec_list_some _ (denote_ok s)) in H as [<- ?]; [| eauto] end.
    split; [by eapply read_len_some | done].
  - match goal with H : dec_list _ _ _ = _ |- _ =>
      by eapply (dec_list_some _ (denote_ok s)) in H; [| eauto] end.
Qed.

Lemma enc_size s : forall k v n, fixed_size s = Some n -> length (enc s k v) = n.
Proof.
  induction s as [| |n| | |n|s IH|s IH|n s IH|s1 IH1 s2 IH2|s1 IH1 s2 IH2|s IH];
    intros k v m H; cbn [fixed_size enc] in *; simplify_eq; try done.
  - apply le_bytes_length.
  - apply hash_length.
  - apply bind_Some in H as (n1 & H1 & H). apply bind_Some in H as (n2 & H2 & [= <-]).
    rewrite length_app. by erewrite IH1, IH2.
Qed.

#[export] Instance bincode_reference : BincodeCrate := {|
  bincode_serialize s v := enc s 0 v;
  bincode_deserialize s bs := fst <$> dec s None bs |}.
#[export] Instance bincode_reference_laws : BincodeLaws.
Proof.
  split; cbn [bincode_serialize bincode_deserialize bincode_reference].
  - intros s v Hs Hv. pose proof (dec_enc_at_0 _ _ _ (dec_enc s 0 v [] Hs Hv)) as H.
    rewrite app_nil_r in H. by rewrite H.
  - intros s bs v H. apply fmap_Some in H as ([v' rest] & H & ->). by eapply dec_ok.
  - intros s v n. apply enc_size.
Qed.
