(* ===== verification/Core.v ===== *)
(** * Ledger types: [crates/ivory-core/src]

    [account.rs], [block.rs], [quant.rs] and [error.rs]: accounts, headers,
    transactions, receipts, logs, blocks and the application envelope, their
    hashes ([keccak256] of the bincode encoding) and block validation.  A [u64]
    field is a [Z]; [*_wf] states the ranges the Rust types guarantee. *)

From S2P Require Import Prelude Hex Uint UintFacts UintProps Hash Address Bincode.
#[local] Open Scope Z_scope.

Record Account : Type := mkAccount {
  acc_nonce : Z;
  acc_balance : U256;
  acc_code_hash : H256;
  acc_storage_root : H256 }.

Record BlockHeader : Type := mkBlockHeader {
  number : Z;
  parent_hash : H256;
  timestamp : Z;
  miner : Address;
  gas_limit : Z;
  gas_used : Z;
  state_root : H256;
  transactions_root : H256;
  receipts_root : H256;
  difficulty : U256;
  extra_data : bytes }.

Record Transaction : Type := mkTransaction {
  tx_from : Address;
  tx_to : option Address;
  tx_value : U256;
  tx_data : bytes;
  tx_gas_price : U256;
  tx_gas : Z;
  tx_nonce : Z;
  tx_signature : Signature;
  tx_public_key : PublicKey }.

Record UnsignedTransaction : Type := mkUnsignedTransaction {
  utx_from : Address;
  utx_to : option Address;
  utx_value : U256;
  utx_data : bytes;
  utx_gas_price : U256;
  utx_gas : Z;
  utx_nonce : Z }.

Record Log : Type := mkLog {
  log_address : Address;
  log_topics : list H256;
  log_data : bytes }.

Record Receipt : Type := mkReceipt {
  rc_tx_hash : H256;
  rc_block_number : Z;
  rc_gas_used : Z;
  rc_status : bool;
  rc_logs : list Log }.

Record Block : Type := mkBlock {
  header : BlockHeader;
  transactions : list Transaction;
  receipts : list Receipt }.

Record QuantMetric : Type := mkQuantMetric { qm_name : bytes; qm_value : bytes }.

Record QuantEnvelope : Type := mkQuantEnvelope {
  version : Z;
  decision_id : bytes;
  schema : bytes;
  metrics : list QuantMetric;
  content_hash : option H256;
  cid : option bytes }.

Inductive BlockError : Type :=
| GasExceeded
| InvalidParentHash
| InvalidTimestamp
| InvalidQuantEnvelope (what : bytes)
| InvalidTransactionsRoot
| InvalidReceiptsRoot
| TxReceiptCountMismatch.

#[export] Instance Account_eq_dec : EqDecision Account.
Proof. solve_decision. Defined.
#[export] Instance BlockHeader_eq_dec : EqDecision BlockHeader.
Proof. solve_decision. Defined.
#[export] Instance Transaction_eq_dec : EqDecision Transaction.
Proof. solve_decision. Defined.
#[export] Instance Log_eq_dec : EqDecision Log.
Proof. solve_decision. Defined.
#[export] Instance Receipt_eq_dec : EqDecision Receipt.
Proof. solve_decision. Defined.
#[export] Instance Block_eq_dec : EqDecision Block.
Proof. solve_decision. Defined.
#[export] Instance QuantMetric_eq_dec : EqDecision QuantMetric.
Proof. solve_decision. Defined.
#[export] Instance QuantEnvelope_eq_dec : EqDecision QuantEnvelope.
Proof. solve_decision. Defined.
#[export] Instance BlockError_eq_dec : EqDecision BlockError.
Proof. solve_decision. Defined.

(** ** What the Rust types guarantee *)

Definition account_wf (a : Account) : Prop := u64_ok (acc_nonce a) /\ u256_wf (acc_balance a).
Definition header_wf (h : BlockHeader) : Prop :=
  u64_ok (number h) /\ u64_ok (timestamp h) /\ u64_ok (gas_limit h) /\ u64_ok (gas_used h) /\
  u256_wf (difficulty h) /\ vec_ok (extra_data h).
Definition unsigned_wf (t : UnsignedTransaction) : Prop :=
  u256_wf (utx_value t) /\ vec_ok (utx_data t) /\ u256_wf (utx_gas_price t) /\
  u64_ok (utx_gas t) /\ u64_ok (utx_nonce t).
Definition tx_wf (t : Transaction) : Prop :=
  u256_wf (tx_value t) /\ vec_ok (tx_data t) /\ u256_wf (tx_gas_price t) /\
  u64_ok (tx_gas t) /\ u64_ok (tx_nonce t).
Definition log_wf (l : Log) : Prop := vec_ok (log_topics l) /\ vec_ok (log_data l).
Definition receipt_wf (r : Receipt) : Prop :=
  u64_ok (rc_block_number r) /\ u64_ok (rc_gas_used r) /\
  vec_ok (rc_logs r) /\ Forall log_wf (rc_logs r).
Definition block_wf (b : Block) : Prop :=
  header_wf (header b) /\
  (vec_ok (transactions b) /\ Forall tx_wf (transactions b)) /\
  (vec_ok (receipts b) /\ Forall receipt_wf (receipts b)).
Definition string_ok (s : bytes) : Prop := vec_ok s /\ utf8_ok s = true.
Definition metric_wf (m : QuantMetric) : Prop := string_ok (qm_name m) /\ string_ok (qm_value m).
Definition envelope_wf (e : QuantEnvelope) : Prop :=
  0 <= version e < 65536 /\ string_ok (decision_id e) /\ string_ok (schema e) /\
  (vec_ok (metrics e) /\ Forall metric_wf (metrics e)) /\
  match cid e with Some s => string_ok s | None => True end.

(** ** Serde *)

Abbreviation ShU64 := (ShInt 8).
Notation "s1 ⊗ s2" := (ShPair s1 s2) (at level 40, left associativity) : ivory_scope.

(** [U256] in binary formats: [self.to_be_bytes().serialize(..)]. *)
#[export] Instance serde_u256 : Serde U256 := {|
  serde_shape := ShArr 32; to_serde := H256.from_u256; from_serde := H256.to_u256;
  serde_wf := u256_wf |}.

#[export] Instance serde_account : Serde Account := {|
  serde_shape := ShU64 ⊗ ShArr 32 ⊗ ShArr 32 ⊗ ShArr 32;
  to_serde a :=
    (acc_nonce a, H256.from_u256 (acc_balance a), acc_code_hash a, acc_storage_root a);
  from_serde d := let '(n, b, c, s) := d in mkAccount n (H256.to_u256 b) c s;
  serde_wf := account_wf |}.

#[export] Instance serde_header : Serde BlockHeader := {|
  serde_shape := ShU64 ⊗ ShArr 32 ⊗ ShU64 ⊗ ShArr 20 ⊗ ShU64 ⊗ ShU64 ⊗ ShArr 32 ⊗ ShArr 32
                 ⊗ ShArr 32 ⊗ ShArr 32 ⊗ ShBytes;
  to_serde h :=
    (number h, parent_hash h, timestamp h, address_h160 (miner h), gas_limit h, gas_used h,
     state_root h, transactions_root h, receipts_root h, H256.from_u256 (difficulty h),
     extra_data h);
  from_serde d := let '(n, p, t, m, gl, gu, sr, tr, rr, df, x) := d in
    mkBlockHeader n p t (mkAddress m) gl gu sr tr rr (H256.to_u256 df) x;
  serde_wf := header_wf |}.

#[export] Instance serde_unsigned : Serde UnsignedTransaction := {|
  serde_shape := ShArr 20 ⊗ ShOption (ShArr 20) ⊗ ShArr 32 ⊗ ShBytes ⊗ ShArr 32 ⊗ ShU64 ⊗ ShU64;
  to_serde t :=
    (address_h160 (utx_from t), address_h160 <$> utx_to t, H256.from_u256 (utx_value t),
     utx_data t, H256.from_u256 (utx_gas_price t), utx_gas t, utx_nonce t);
  from_serde d := let '(f, t, v, dt, gp, g, n) := d in
    mkUnsignedTransaction (mkAddress f) (mkAddress <$> t) (H256.to_u256 v) dt (H256.to_u256 gp) g n;
  serde_wf := unsigned_wf |}.

#[export] Instance serde_tx : Serde Transaction := {|
  serde_shape := ShArr 20 ⊗ ShOption (ShArr 20) ⊗ ShArr 32 ⊗ ShBytes ⊗ ShArr 32 ⊗ ShU64 ⊗ ShU64
                 ⊗ ShArr 64 ⊗ ShArr 32;
  to_serde t :=
    (address_h160 (tx_from t), address_h160 <$> tx_to t, H256.from_u256 (tx_value t),
     tx_data t, H256.from_u256 (tx_gas_price t), tx_gas t, tx_nonce t,
     signature_h512 (tx_signature t), public_key_h256 (tx_public_key t));
  from_serde d := let '(f, t, v, dt, gp, g, n, sg, pk) := d in
    mkTransaction (mkAddress f) (mkAddress <$> t) (H256.to_u256 v) dt (H256.to_u256 gp) g n
      (mkSignature sg) (mkPublicKey pk);
  serde_wf := tx_wf |}.

#[export] Instance serde_log : Serde Log := {|
  serde_shape := ShArr 20 ⊗ ShSeq (ShArr 32) ⊗ ShBytes;
  to_serde l := (address_h160 (log_address l), log_topics l, log_data l);
  from_serde d := let '(a, t, x) := d in mkLog (mkAddress a) t x;
  serde_wf := log_wf |}.

#[export] Instance serde_receipt : Serde Receipt := {|
  serde_shape := ShArr 32 ⊗ ShU64 ⊗ ShU64 ⊗ ShBool ⊗ ShSeq (serde_shape (A := Log));
  to_serde r := (rc_tx_hash r, rc_block_number r, rc_gas_used r, rc_status r,
                 to_serde (A := list Log) (rc_logs r));
  from_serde d := let '(h, n, g, s, l) := d in mkReceipt h n g s (from_serde (A := list Log) l);
  serde_wf := receipt_wf |}.

#[export] Instance serde_block : Serde Block := {|
  serde_shape := serde_shape (A := BlockHeader) ⊗ ShSeq (serde_shape (A := Transaction))
                 ⊗ ShSeq (serde_shape (A := Receipt));
  to_serde b := (to_serde (header b), to_serde (A := list Transaction) (transactions b),
                 to_serde (A := list Receipt) (receipts b));
  from_serde d := let '(h, t, r) := d in
    mkBlock (from_serde (A := BlockHeader) h) (from_serde (A := list Transaction) t) (from_serde (A := list Receipt) r);
  serde_wf := block_wf |}.

#[export] Instance serde_metric : Serde QuantMetric := {|
  serde_shape := ShStr ⊗ ShStr;
  to_serde m := (qm_name m, qm_value m);
  from_serde d := mkQuantMetric d.1 d.2;
  serde_wf := metric_wf |}.

#[export] Instance serde_envelope : Serde QuantEnvelope := {|
  serde_shape := ShInt 2 ⊗ ShStr ⊗ ShStr ⊗ ShSeq (serde_shape (A := QuantMetric))
                 ⊗ ShOption (ShArr 32) ⊗ ShOption ShStr;
  to_serde e := (version e, decision_id e, schema e, to_serde (A := list QuantMetric) (metrics e),
                 content_hash e, cid e);
  from_serde d := let '(v, i, s, m, h, c) := d in
    mkQuantEnvelope v i s (from_serde (A := list QuantMetric) m) h c;
  serde_wf := envelope_wf |}.

Lemma string_denote_ok s : string_ok s <-> denote_ok ShStr s.
Proof. done. Qed.

Lemma to_u256_wf h : u256_wf (H256.to_u256 h).
Proof. apply from_be_bytes_wf. Qed.
#[export] Hint Resolve to_u256_wf : ivory.

(** Field by field, the laws of a derived implementation. *)
Ltac serde_fields :=
  unfold account_wf, header_wf, unsigned_wf, tx_wf, log_wf, receipt_wf, block_wf,
      metric_wf, envelope_wf, string_ok, u64_ok in *;
  change (256 ^ Z.of_nat 8) with M64 in *; change (256 ^ Z.of_nat 2) with 65536 in *;
  repeat match goal with
  | H : _ /\ _ |- _ => destruct H
  | p : (_ * _)%type |- _ => destruct p
  | p : Address |- _ => destruct p
  | p : Signature |- _ => destruct p
  | p : PublicKey |- _ => destruct p
  | p : option _ |- _ => destruct p
  end; simpl in *; repeat match goal with H : _ /\ _ |- _ => destruct H end;
  split_and?; rewrite ?to_from_u256 by done; try done; try lia; try (by apply Forall_true);
  auto using to_u256_wf.
Ltac serde_struct :=
  split;
  [ simpl; lia || tauto
  | intros a Ha; destruct a; cbn in Ha |- *; serde_fields
  | intros a Ha; destruct a; cbn in Ha |- *; serde_fields
  | intros d Hd; cbn in d, Hd |- *; serde_fields ].

#[export] Instance serde_u256_laws : SerdeLaws U256.
Proof.
  split; try done; [exact to_from_u256 |]. intros d _. apply from_be_bytes_wf.
Qed.
#[export] Instance serde_account_laws : SerdeLaws Account.
Proof. serde_struct. Qed.
#[export] Instance serde_header_laws : SerdeLaws BlockHeader.
Proof. serde_struct. Qed.
#[export] Instance serde_unsigned_laws : SerdeLaws UnsignedTransaction.
Proof. serde_struct. Qed.
#[export] Instance serde_tx_laws : SerdeLaws Transaction.
Proof. serde_struct. Qed.
#[export] Instance serde_log_laws : SerdeLaws Log.
Proof. serde_struct. Qed.
#[export] Instance serde_metric_laws : SerdeLaws QuantMetric.
Proof. serde_struct. Qed.

(** Implementations that contain another one. *)
#[export] Instance serde_receipt_laws : SerdeLaws Receipt.
Proof.
  split.
  - simpl. tauto.
  - intros [h n g s l] (_ & _ & Hl). cbn -[serde_vec] in *.
    by rewrite (serde_from_to (A := list Log)).
  - intros [h n g s l] (Hn & Hg & Hl). pose proof (serde_to_ok (A := list Log) _ Hl) as Hl'.
    cbn -[serde_vec] in *. serde_fields.
  - intros [[[[h n] g] s] l] [Hd Hl]. pose proof (serde_from_wf (A := list Log) _ Hl) as Hl'.
    cbn -[serde_vec] in *. serde_fields.
Qed.
#[export] Instance serde_block_laws : SerdeLaws Block.
Proof.
  split.
  - simpl. tauto.
  - intros [h t r] (Hh & Ht & Hr). cbn -[serde_vec serde_header] in *.
    by rewrite (serde_from_to (A := BlockHeader)), (serde_from_to (A := list Transaction)),
      (serde_from_to (A := list Receipt)).
  - intros [h t r] (Hh & Ht & Hr). pose proof (serde_to_ok (A := BlockHeader) _ Hh) as Hh'.
    pose proof (serde_to_ok (A := list Transaction) _ Ht) as Ht'.
    pose proof (serde_to_ok (A := list Receipt) _ Hr) as Hr'. done.
  - intros [[h t] r] [[Hh Ht] Hr]. pose proof (serde_from_wf (A := BlockHeader) _ Hh) as Hh'.
    pose proof (serde_from_wf (A := list Transaction) _ Ht) as Ht'.
    pose proof (serde_from_wf (A := list Receipt) _ Hr) as Hr'. done.
Qed.
#[export] Instance serde_envelope_laws : SerdeLaws QuantEnvelope.
Proof.
  split.
  - simpl. tauto.
  - intros [v i s m h c] (_ & _ & _ & Hm & _). cbn -[serde_vec] in *.
    by rewrite (serde_from_to (A := list QuantMetric)).
  - intros [v i s m h c] (Hv & Hi & Hs & Hm & Hc).
    pose proof (serde_to_ok (A := list QuantMetric) _ Hm) as Hm'.
    cbn -[serde_vec] in *. serde_fields.
  - intros [[[[[v i] s] m] h] c] [[[[[Hv Hi] Hs] Hm] Hh] Hc].
    pose proof (serde_from_wf (A := list QuantMetric) _ Hm) as Hm'.
    cbn -[serde_vec] in *. serde_fields.
Qed.

(** ** Operations *)

Section Core.
Context {BC : BincodeCrate} {SC : Sha3Crate}.

Definition keccak_bincode {A} `{Serde A} (value : A) : H256 := keccak256 (serialize value).

Definition list_root {A} `{Serde A} (items : list A) : H256 := keccak_bincode items.

Definition empty_list_roots : H256 * H256 :=
  (list_root (A := Transaction) [], list_root (A := Receipt) []).

(** [BlockHeader::hash], [Block::hash], [Transaction::hash] *)
Definition header_hash (h : BlockHeader) : H256 := keccak_bincode h.
Definition block_hash (b : Block) : H256 := header_hash (header b).
Definition tx_hash (t : Transaction) : H256 := keccak_bincode t.

Definition unsigned (t : Transaction) : UnsignedTransaction :=
  mkUnsignedTransaction (tx_from t) (tx_to t) (tx_value t) (tx_data t) (tx_gas_price t)
    (tx_gas t) (tx_nonce t).
Definition signing_hash (t : Transaction) : H256 := keccak_bincode (unsigned t).

Definition is_create (t : Transaction) : bool :=
  match tx_to t with None => true | Some _ => false end.
Definition data_len (t : Transaction) : nat := length (tx_data t).

(** [Account::new], [Account::is_empty] *)
Definition account_new : Account := mkAccount 0 U256.ZERO H256.ZERO H256.ZERO.
Definition account_is_empty (a : Account) : bool :=
  (acc_nonce a =? 0) && U256.is_zero (acc_balance a) &&
  bool_decide (acc_code_hash a = H256.ZERO) && bool_decide (acc_storage_root a = H256.ZERO).

(** [Block::validate] *)
Definition validate (b : Block) : result unit BlockError :=
  if gas_limit (header b) <? gas_used (header b) then Err GasExceeded
  else if negb (length (transactions b) =? length (receipts b))%nat
  then Err TxReceiptCountMismatch
  else if decide (transactions_root (header b) ≠ list_root (transactions b))
  then Err InvalidTransactionsRoot
  else if decide (receipts_root (header b) ≠ list_root (receipts b))
  then Err InvalidReceiptsRoot
  else Ok tt.

Definition QUANT_MAGIC : bytes := str "IQNT".
Definition QUANT_SCHEMA_VERSION : Z := 1.

(** [QuantEnvelope::encode], [QuantEnvelope::decode] *)
Definition quant_encode (e : QuantEnvelope) : bytes := QUANT_MAGIC ++ serialize e.

Definition quant_decode (data : bytes) : result QuantEnvelope BlockError :=
  if bool_decide (length data < 4)%nat || bool_decide (take 4 data ≠ QUANT_MAGIC)
  then Err (InvalidQuantEnvelope (str "missing IQNT magic"))
  else
    let? env := ok_or (deserialize (drop 4 data)) (InvalidQuantEnvelope (str "bincode")) in
    if negb (version env =? QUANT_SCHEMA_VERSION)
    then Err (InvalidQuantEnvelope (str "unsupported version"))
    else if bool_decide (decision_id env = [])
    then Err (InvalidQuantEnvelope (str "empty decision_id"))
    else Ok env.

(** ** Lemmas *)

Lemma unsigned_tx_wf t : tx_wf t -> unsigned_wf (unsigned t).
Proof. done. Qed.

Lemma validate_ok b :
  validate b = Ok tt <->
  gas_used (header b) <= gas_limit (header b) /\
  length (transactions b) = length (receipts b) /\
  transactions_root (header b) = list_root (transactions b) /\
  receipts_root (header b) = list_root (receipts b).
Proof.
  unfold validate.
  destruct (_ <? _) eqn:Hg; zbool; [naive_solver lia |].
  destruct (Nat.eqb_spec (length (transactions b)) (length (receipts b))); simpl; [| naive_solver].
  destruct (decide _) as [Ht|Ht]; [naive_solver |]. apply dec_stable in Ht.
  destruct (decide _) as [Hr|Hr]; [naive_solver |]. apply dec_stable in Hr. naive_solver lia.
Qed.

Context {BL : BincodeLaws}.

Lemma header_hash_inj h1 h2 :
  header_wf h1 -> header_wf h2 -> coll_free [serialize h1; serialize h2] ->
  header_hash h1 = header_hash h2 -> h1 = h2.
Proof. exact (serialize_hash_inj h1 h2). Qed.

Lemma tx_hash_inj t1 t2 :
  tx_wf t1 -> tx_wf t2 -> coll_free [serialize t1; serialize t2] ->
  tx_hash t1 = tx_hash t2 -> t1 = t2.
Proof. exact (serialize_hash_inj t1 t2). Qed.

Lemma list_root_inj {A} `{SerdeLaws A} (l1 l2 : list A) :
  vec_ok l1 /\ Forall serde_wf l1 -> vec_ok l2 /\ Forall serde_wf l2 ->
  coll_free [serialize l1; serialize l2] -> list_root l1 = list_root l2 -> l1 = l2.
Proof. exact (serialize_hash_inj l1 l2). Qed.

Lemma quant_decode_encode_cases e :
  envelope_wf e ->
  quant_decode (quant_encode e) =
    if version e =? 1 then
      if decide (decision_id e = []) then Err (InvalidQuantEnvelope (str "empty decision_id"))
      else Ok e
    else Err (InvalidQuantEnvelope (str "unsupported version")).
Proof.
  intros He. unfold quant_decode, quant_encode.
  rewrite bool_decide_eq_false_2 by (rewrite length_app; simpl; lia).
  change 4%nat with (length QUANT_MAGIC).
  rewrite take_app_length, drop_app_length, bool_decide_eq_false_2 by tauto. simpl orb.
  cbv iota. rewrite deserialize_serialize by exact He. simpl.
  change QUANT_SCHEMA_VERSION with 1. destruct (version e =? 1); simpl; [| done].
  destruct (decide _) as [->|]; [done |]. by rewrite bool_decide_eq_false_2.
Qed.
End Core.

(** ** Properties *)

Section Properties.
Context {BC : BincodeCrate} {BL : BincodeLaws} {SC : Sha3Crate}.

(** The strings hashed for a block: its header, its transactions, its receipts. *)
Definition block_encodings (b : Block) : list bytes :=
  [serialize (header b); serialize (transactions b); serialize (receipts b)].

(** A block's hash commits to the whole block: two blocks that both pass
    [Block::validate] and have the same hash are the same block (header,
    transactions and receipts), when no two of the six strings hashed for
    them collide. *)
Theorem block_hash_commits b1 b2 :
  block_wf b1 -> block_wf b2 ->
  validate b1 = Ok tt -> validate b2 = Ok tt ->
  coll_free (block_encodings b1 ++ block_encodings b2) ->
  block_hash b1 = block_hash b2 -> b1 = b2.
Proof.
  destruct b1 as [h1 t1 r1], b2 as [h2 t2 r2].
  intros (Hh1 & Ht1 & Hr1) (Hh2 & Ht2 & Hr2) V1 V2 C E. simpl in *.
  apply validate_ok in V1 as (_ & _ & T1 & R1), V2 as (_ & _ & T2 & R2). simpl in *.
  unfold block_encodings in C. simpl in C.
  assert (h1 = h2) as -> by (eapply header_hash_inj; eauto; eapply coll_free_mono, C; set_solver).
  assert (t1 = t2) as ->.
  { apply (list_root_inj (H := serde_tx) t1 t2 Ht1 Ht2); [| congruence].
    eapply coll_free_mono, C; set_solver. }
  assert (r1 = r2) as ->; [| done].
  apply (list_root_inj (H := serde_receipt) r1 r2 Hr1 Hr2); [| congruence].
  eapply coll_free_mono, C; set_solver.
Qed.

(** The signing payload of a transaction ignores its signature and public
    key and binds every other field: two transactions have the same
    [signing_hash] exactly when all the remaining fields agree (when their two
    payloads do not collide). *)
Theorem signing_hash_binds t1 t2 :
  tx_wf t1 -> tx_wf t2 ->
  (coll_free [serialize (unsigned t1); serialize (unsigned t2)] ->
   signing_hash t1 = signing_hash t2 ->
   (tx_from t1, tx_to t1, tx_value t1, tx_data t1, tx_gas_price t1, tx_gas t1, tx_nonce t1) =
   (tx_from t2, tx_to t2, tx_value t2, tx_data t2, tx_gas_price t2, tx_gas t2, tx_nonce t2)) /\
  (forall sig pk,
     signing_hash (mkTransaction (tx_from t1) (tx_to t1) (tx_value t1) (tx_data t1)
       (tx_gas_price t1) (tx_gas t1) (tx_nonce t1) sig pk) = signing_hash t1).
Proof.
  intros H1 H2. split; [| done]. intros C E.
  apply (serialize_hash_inj (SA := serde_unsigned) (unsigned t1) (unsigned t2) H1 H2 C) in E.
  unfold unsigned in E. congruence.
Qed.

(** The application envelope survives its wire form: decoding the encoding
    of an envelope returns that envelope when it has the current schema version
    and a non-empty decision id; an old version and an empty id are refused,
    each with its own error. *)
Theorem quant_roundtrip e :
  envelope_wf e ->
  (version e = QUANT_SCHEMA_VERSION -> decision_id e ≠ [] ->
   quant_decode (quant_encode e) = Ok e) /\
  (version e ≠ QUANT_SCHEMA_VERSION ->
   quant_decode (quant_encode e) = Err (InvalidQuantEnvelope (str "unsupported version"))) /\
  (version e = QUANT_SCHEMA_VERSION -> decision_id e = [] ->
   quant_decode (quant_encode e) = Err (InvalidQuantEnvelope (str "empty decision_id"))).
Proof.
  intros He. rewrite quant_decode_encode_cases by done. unfold QUANT_SCHEMA_VERSION.
  destruct (Z.eqb_spec (version e) 1), (decide (decision_id e = [])); split_and!; tauto.
Qed.
End Properties.

(** ** Witnesses *)

Definition sample_address (b : byte) : Address := Address.from_bytes (replicate 20 b).
Definition sample_tx (b : byte) (to : option Address) (value gas nonce : Z) : Transaction :=
  mkTransaction (sample_address b) to (U256.from_u64 value) [] U256.ONE gas nonce
    Signature.ZERO PublicKey.ZERO.
Definition sample_block : Block :=
  mkBlock (mkBlockHeader 0 H256.ZERO 1 Address.ZERO 30000000 0 H256.ZERO
             empty_list_roots.1 empty_list_roots.2 U256.ZERO []) [] [].
Definition sample_envelope : QuantEnvelope :=
  mkQuantEnvelope 1 (str "dec-1") (str "app.v1") [mkQuantMetric (str "score") (str "0.82")]
    (Some (Hash.from_bytes (replicate 32 x09))) (Some (str "bafyexample")).

Lemma sample_tx_wf b to value gas nonce :
  u64_ok value -> u64_ok gas -> u64_ok nonce -> tx_wf (sample_tx b to value gas nonce).
Proof.
  intros. unfold tx_wf. simpl. split_and!; try done; apply u256_wf_mk; done.
Qed.

Lemma sample_block_wf : block_wf sample_block.
Proof.
  split_and!; try done; try (apply Forall_nil; done). unfold header_wf, sample_block. simpl.
  split_and!; done || (apply u256_wf_mk; done).
Qed.

Lemma sample_envelope_wf : envelope_wf sample_envelope.
Proof. split_and!; try done. repeat constructor. Qed.

Lemma block_hash_commits_witness :
  validate sample_block = Ok tt /\ sample_block = sample_block.
Proof.
  assert (validate sample_block = Ok tt) as V by (apply validate_ok; split_and!; done).
  split; [exact V |].
  refine (block_hash_commits _ _ sample_block_wf sample_block_wf V V _ eq_refl).
  apply (bool_decide_eq_true_1 _). vm_compute. reflexivity.
Defined.

Lemma signing_hash_binds_witness :
  let t := sample_tx x01 None 10 21000 0 in
  tx_wf t /\ signing_hash (mkTransaction (tx_from t) (tx_to t) (tx_value t) (tx_data t)
    (tx_gas_price t) (tx_gas t) (tx_nonce t) (Signature.from_bytes [x01]) PublicKey.ZERO)
    = signing_hash t.
Proof.
  intros t. assert (tx_wf t) as W by (apply sample_tx_wf; done).
  split; [exact W | exact (proj2 (signing_hash_binds t t W W) _ _)].
Defined.

Lemma quant_roundtrip_witness :
  quant_decode (quant_encode sample_envelope) = Ok sample_envelope.
Proof.
  exact (proj1 (quant_roundtrip sample_envelope sample_envelope_wf) eq_refl
           ltac:(discriminate)).
Defined.

(** The layout pinned by the unit test [bincode_layout_matches_python_codec]. *)
Example quant_layout :
  quant_encode (mkQuantEnvelope 1 (str "d") (str "s") [] None None) =
  str "IQNT" ++ le_bytes 2 1 ++ le_bytes 8 1 ++ str "d" ++ le_bytes 8 1 ++ str "s"
    ++ le_bytes 8 0 ++ [x00] ++ [x00].
Proof. reflexivity. Qed.
