(* ===== verification/Trie.v ===== *)
(** * The hexary Patricia trie: [crates/ivory-state/src/trie.rs]

    Nodes are stored by the Keccak hash of their bincode encoding.  [build]
    is [build_node_collected] with its [out] vector as an argument; the
    recursion strips at least one nibble from every key, so one more unit of
    fuel than the longest key is enough ([build_total]).  A [BTreeMap] is an
    association list sorted by key. *)

From S2P Require Import Prelude Hash Bincode.
#[local] Open Scope Z_scope.

Inductive TrieNode : Type :=
| Empty
| Leaf (path value : bytes)
| Extension (path : bytes) (child : H256)
| Branch (children : list (option H256)) (value : option bytes).

Inductive ProofError : Type := InvalidNode | HashMismatch | Incomplete.

Record TrieProof : Type := mkTrieProof {
  proof_root : H256;
  proof_nodes : list bytes;
  proof_value : option bytes }.

#[export] Instance TrieNode_eq_dec : EqDecision TrieNode.
Proof. solve_decision. Defined.
#[export] Instance ProofError_eq_dec : EqDecision ProofError.
Proof. solve_decision. Defined.

Definition node_wf (n : TrieNode) : Prop :=
  match n with
  | Empty => True
  | Leaf p v => vec_ok p /\ vec_ok v
  | Extension p _ => vec_ok p
  | Branch c v => length c = 16%nat /\ match v with Some x => vec_ok x | None => True end
  end.

#[export] Instance serde_node : Serde TrieNode := {|
  serde_shape := ShSum ShUnit (ShSum (ShPair ShBytes ShBytes) (ShSum (ShPair ShBytes (ShArr 32))
                   (ShLast (ShPair (ShRep 16 (ShOption (ShArr 32))) (ShOption ShBytes)))));
  to_serde n := match n with
    | Empty => inl tt
    | Leaf p v => inr (inl (p, v))
    | Extension p h => inr (inr (inl (p, h)))
    | Branch c v => inr (inr (inr (c, v)))
    end;
  from_serde d := match d with
    | inl _ => Empty
    | inr (inl (p, v)) => Leaf p v
    | inr (inr (inl (p, h))) => Extension p h
    | inr (inr (inr (c, v))) => Branch c v
    end;
  serde_wf := node_wf |}.
#[export] Instance serde_node_laws : SerdeLaws TrieNode.
Proof.
  split.
  - simpl. lia.
  - by intros [].
  - intros [] H; simpl in *; try done. destruct H as [H Hv]. split; [| done].
    split; [done |]. by apply Forall_true; intros [].
  - intros [[]|[[]|[[]|[]]]]; simpl; naive_solver.
Qed.

Definition to_nibbles (bs : bytes) : bytes :=
  flat_map (fun b => [byte_of_Z (Z.shiftr (byte_val b) 4); byte_of_Z (Z.land (byte_val b) 15)]) bs.

(** [first.iter().zip(key.iter()).take_while(|(a, b)| a == b).count()] *)
Fixpoint shared_len (a b : bytes) : nat :=
  match a, b with
  | x :: a, y :: b => if decide (x = y) then S (shared_len a b) else O
  | _, _ => O
  end.

Definition common_prefix_len (items : list (bytes * bytes)) : nat :=
  match items with
  | [] => O
  | (first, _) :: rest =>
      foldl (fun n '(key, _) => Nat.min n (shared_len first key)) (length first) rest
  end.

(** [BTreeMap::insert] on the sorted sequence of entries. *)
Fixpoint btree_insert (k v : bytes) (m : list (bytes * bytes)) : list (bytes * bytes) :=
  match m with
  | [] => [(k, v)]
  | (k', v') :: m' =>
      match bytes_compare k k' with
      | Lt => (k, v) :: m
      | Eq => (k, v) :: m'
      | Gt => (k', v') :: btree_insert k v m'
      end
  end.

(** The sixteen values of the loop [for i in 0u8..16]. *)
Definition nibble_range : list byte := map (fun i => byte_of_Z (Z.of_nat i)) (seq 0 16).

(** Entries whose key starts with [i], without that nibble. *)
Definition group (i : byte) (items : list (bytes * bytes)) : list (bytes * bytes) :=
  omap (fun '(k, v) => match k with
                       | b :: k' => if decide (b = i) then Some (k', v) else None
                       | [] => None
                       end) items.

(** [for (key, val) in items { if key.is_empty() { value = Some(val) } }] *)
Definition branch_value (items : list (bytes * bytes)) : option bytes :=
  foldl (fun acc '(k, v) => match k with [] => Some v | _ => acc end) None items.

Section Trie.
Context {BC : BincodeCrate} {SC : Sha3Crate}.

Definition nodes_out : Type := list (H256 * bytes).

Definition hash_node (node : TrieNode) : H256 := keccak256 (serialize node).

Definition empty_root : H256 := hash_node Empty.

Definition store_node (node : TrieNode) (out : nodes_out) : H256 * nodes_out :=
  let bs := serialize node in
  let h := keccak256 bs in
  (h, out ++ [(h, bs)]).

(** The loop over the sixteen children. *)
Fixpoint build_children
    (store_tree : list (bytes * bytes) -> nodes_out -> option (H256 * nodes_out))
    (items : list (bytes * bytes)) (idxs : list byte) (out : nodes_out) :
    option (list (option H256) * nodes_out) :=
  match idxs with
  | [] => Some ([], out)
  | i :: idxs =>
      match group i items with
      | [] => '(cs, out) ← build_children store_tree items idxs out; Some (None :: cs, out)
      | g => '(h, out) ← store_tree g out;
             '(cs, out) ← build_children store_tree items idxs out; Some (Some h :: cs, out)
      end
  end.

Fixpoint build_node_collected (fuel : nat) (items : list (bytes * bytes)) (out : nodes_out) :
    option (TrieNode * nodes_out) :=
  match fuel with
  | O => None
  | S fuel =>
      let store_tree items out :=
        '(node, out) ← build_node_collected fuel items out; Some (store_node node out) in
      match items with
      | [] => Some (Empty, out)
      | [(path, value)] => Some (Leaf path value, out)
      | (key0, _) :: _ =>
          let prefix := common_prefix_len items in
          if decide (0 < prefix)%nat then
            '(child, out) ← store_tree (map (fun '(k, v) => (drop prefix k, v)) items) out;
            Some (Extension (take prefix key0) child, out)
          else
            '(children, out) ← build_children store_tree items nibble_range out;
            Some (Branch children (branch_value items), out)
      end
  end.

Definition max_key_len (items : list (bytes * bytes)) : nat :=
  foldr (fun '(k, _) n => Nat.max (length k) n) O items.
Definition trie_fuel (items : list (bytes * bytes)) : nat := S (max_key_len items).

Definition store_tree (items : list (bytes * bytes)) (out : nodes_out) :
    option (H256 * nodes_out) :=
  '(node, out) ← build_node_collected (trie_fuel items) items out; Some (store_node node out).

Definition entries (pairs : list (bytes * bytes)) : list (bytes * bytes) :=
  foldl (fun m '(key, value) => btree_insert (to_nibbles key) value m) [] pairs.

Definition patricia_nodes (pairs : list (bytes * bytes)) : H256 * nodes_out :=
  match pairs with
  | [] => store_node Empty []
  | _ => default (empty_root, []) (store_tree (entries pairs) [])
  end.

Definition patricia_root (pairs : list (bytes * bytes)) : H256 := (patricia_nodes pairs).1.

(** [rest.starts_with(&path)] and [rest[path.len()..]] *)
Definition starts_with (rest path : bytes) : bool := bool_decide (take (length path) rest = path).

(** The loop of [prove]; each turn either stops or consumes a nibble. *)
Fixpoint prove_loop (fuel : nat) (by_hash : gmap H256 bytes) (rest : bytes) (expected : H256) :
    option (list bytes * option bytes) :=
  match fuel with
  | O => None
  | S fuel =>
      match by_hash !! expected with
      | None => Some ([], None)
      | Some enc =>
          match deserialize (A := TrieNode) enc with
          | None => Some ([enc], None)
          | Some node =>
              match node with
              | Empty => Some ([enc], None)
              | Leaf path leaf =>
                  Some ([enc], if decide (path = rest) then Some leaf else None)
              | Extension path child =>
                  if starts_with rest path then
                    '(nodes, v) ← prove_loop fuel by_hash (drop (length path) rest) child;
                    Some (enc :: nodes, v)
                  else Some ([enc], None)
              | Branch children branch_val =>
                  match rest with
                  | [] => Some ([enc], branch_val)
                  | i :: rest =>
                      match nth (Z.to_nat (byte_val i)) children None with
                      | Some h => '(nodes, v) ← prove_loop fuel by_hash rest h;
                                  Some (enc :: nodes, v)
                      | None => Some ([enc], None)
                      end
                  end
              end
          end
      end
  end.

(** [stored.into_iter().collect::<HashMap<_, _>>()]: the last entry wins. *)
Definition collect_nodes (stored : nodes_out) : gmap H256 bytes :=
  foldl (fun m '(h, e) => <[h := e]> m) ∅ stored.

Definition prove (pairs : list (bytes * bytes)) (key : bytes) : TrieProof :=
  let '(root, stored) := patricia_nodes pairs in
  let by_hash := collect_nodes stored in
  let rest := to_nibbles key in
  let '(nodes, value) := default ([], None) (prove_loop (S (length rest)) by_hash rest root) in
  mkTrieProof root nodes value.

(** The loop of [verify]; [last] is [i + 1 == proof.len()]. *)
Fixpoint verify_loop (rest : bytes) (expected : H256) (proof : list bytes) :
    result (option bytes) ProofError :=
  match proof with
  | [] => Err Incomplete
  | enc :: proof =>
      let last := match proof with [] => true | _ => false end in
      if decide (keccak256 enc ≠ expected) then Err HashMismatch
      else
        let? node := ok_or (deserialize (A := TrieNode) enc) InvalidNode in
        match node with
        | Empty => if last then Ok None else Err Incomplete
        | Leaf path leaf =>
            if last then Ok (if decide (path = rest) then Some leaf else None) else Err Incomplete
        | Extension path child =>
            if negb (starts_with rest path) then
              if last then Ok None else Err Incomplete
            else if last then Err Incomplete
            else verify_loop (drop (length path) rest) child proof
        | Branch children branch_val =>
            match rest with
            | [] => if last then Ok branch_val else Err Incomplete
            | idx :: rest =>
                match nth (Z.to_nat (byte_val idx)) children None with
                | None => if last then Ok None else Err Incomplete
                | Some h => if last then Err Incomplete else verify_loop rest h proof
                end
            end
        end
  end.

Definition verify (root : H256) (key : bytes) (proof : list bytes) :
    result (option bytes) ProofError :=
  match proof with
  | [] => Err Incomplete
  | _ => verify_loop (to_nibbles key) root proof
  end.
End Trie.

Example trie_example :
  let pairs := [([x12; x34], [x01]); ([x12; x35], [x02]); ([x77], [x03])] in
  (proof_value (prove pairs [x12; x35]), proof_value (prove pairs [x12; x36]),
   verify (patricia_root pairs) [x12; x35] (proof_nodes (prove pairs [x12; x35])))
  = (Some [x02], None, Ok (Some [x02])).
Proof. vm_compute. reflexivity. Qed.
