(* ===== verification/TrieFacts.v ===== *)
(** * The trie against the map it stores

    [alookup] is the map a list of pairs denotes (the last binding of a key
    wins).  [node_repr] relates a node to the map below it; building
    establishes it, and the walks of [verify] and [prove] follow it. *)

From S2P Require Import Prelude Hash Bincode Trie.
#[local] Open Scope Z_scope.

Fixpoint alookup (k : bytes) (l : list (bytes * bytes)) : option bytes :=
  match l with
  | [] => None
  | (k', v) :: l =>
      match alookup k l with
      | Some x => Some x
      | None => if decide (k' = k) then Some v else None
      end
  end.

Definition nibbles (k : bytes) : Prop := Forall (fun b => byte_val b < 16) k.

(** ** Lookups and the three ways a node splits its entries *)

Lemma alookup_map_app p l k :
  alookup (p ++ k) (map (fun '(k, v) => (p ++ k, v)) l) = alookup k l.
Proof.
  induction l as [|[k' v] l IH]; [done |]. simpl. rewrite IH. destruct (alookup k l); [done |].
  repeat case_decide; simplify_list_eq; naive_solver.
Qed.

Lemma alookup_none k l : Forall (fun '(k', _) => k' ≠ k) l -> alookup k l = None.
Proof.
  induction 1 as [|[k' v] l Hk Hl IH]; [done |]. simpl. rewrite IH. by rewrite decide_False.
Qed.

Lemma alookup_map_none p l k :
  starts_with k p = false -> alookup k (map (fun '(k, v) => (p ++ k, v)) l) = None.
Proof.
  intros H. apply alookup_none. apply Forall_map, Forall_true. intros [k' v] E. simpl in E.
  apply bool_decide_eq_false in H. apply H. rewrite <- E. apply take_app_length.
Qed.

Lemma group_cons i b k v l :
  group i ((b :: k, v) :: l) = if decide (b = i) then (k, v) :: group i l else group i l.
Proof. unfold group. simpl. by destruct (decide (b = i)). Qed.

Lemma alookup_group i k l : alookup (i :: k) l = alookup k (group i l).
Proof.
  induction l as [|[[|b k'] v] l IH]; [done | |].
  - simpl. rewrite IH. by destruct (alookup k (group i l)).
  - rewrite group_cons. simpl alookup at 1. rewrite IH.
    destruct (decide (b = i)) as [->|Hb]; simpl.
    + destruct (alookup k (group i l)); [done |].
      repeat case_decide; congruence.
    + destruct (alookup k (group i l)); [done |]. by rewrite decide_False by congruence.
Qed.

Lemma branch_value_acc l acc :
  foldl (fun acc '(k, v) => match k with [] => Some v | _ :: _ => acc end) acc l =
  match alookup [] l with Some v => Some v | None => acc end.
Proof.
  revert acc; induction l as [|[k v] l IH]; intros acc; [done |]. simpl. rewrite IH.
  destruct (alookup [] l); [done |]. by destruct k.
Qed.

Lemma branch_value_spec l : branch_value l = alookup [] l.
Proof. unfold branch_value. rewrite branch_value_acc. by destruct (alookup [] l). Qed.

(** ** The common prefix *)

Lemma shared_len_take a b n : (n <= shared_len a b)%nat -> take n b = take n a.
Proof.
  revert b n; induction a as [|x a IH]; intros [|y b] n H; simpl in *;
    try (by replace n with 0%nat by lia).
  destruct (decide (x = y)) as [->|]; [| by replace n with 0%nat by lia].
  destruct n as [|n]; [done |]. simpl. by rewrite IH by lia.
Qed.

Lemma shared_len_le a b : (shared_len a b <= length b)%nat.
Proof.
  revert b; induction a as [|x a IH]; intros [|y b]; simpl; try lia.
  destruct (decide (x = y)); [specialize (IH b); lia | lia].
Qed.

Lemma prefix_fold_le first (l : list (bytes * bytes)) n :
  (foldl (fun n '(key, _) => Nat.min n (shared_len first key)) n l <= n)%nat /\
  Forall (fun '(key, _) =>
    foldl (fun n '(key, _) => Nat.min n (shared_len first key)) n l <= shared_len first key)%nat l.
Proof.
  revert n; induction l as [|[k v] l IH]; intros n; simpl; [split; [lia | constructor] |].
  destruct (IH (Nat.min n (shared_len first k))) as [H1 H2].
  split; [lia |]. constructor; [lia | done].
Qed.

Lemma common_prefix_spec k0 v0 l :
  let n := common_prefix_len ((k0, v0) :: l) in
  (n <= length k0)%nat /\
  Forall (fun '(k, _) => (n <= length k)%nat /\ take n k = take n k0) ((k0, v0) :: l).
Proof.
  destruct (prefix_fold_le k0 l (length k0)) as [H1 H2]. simpl. split; [done |].
  constructor; [done |]. eapply Forall_impl; [exact H2 |]. intros [k v] H.
  pose proof (shared_len_le k0 k). split; [lia | by apply shared_len_take].
Qed.

Lemma strip_prefix_items n (p : bytes) (l : list (bytes * bytes)) :
  Forall (fun '(k, _) => (n <= length k)%nat /\ take n k = p) l ->
  l = map (fun '(k, v) => (p ++ k, v)) (map (fun '(k, v) => (drop n k, v)) l).
Proof.
  induction 1 as [|[k v] l [Hn Hk] Hl IH]; [done |]. simpl. f_equal; [| done].
  f_equal. by rewrite <- Hk, take_drop.
Qed.

(** ** Nibbles *)

Lemma to_nibbles_nibbles k : nibbles (to_nibbles k).
Proof.
  induction k as [|b k IH]; [constructor |]. pose proof (byte_val_range b) as Hb.
  constructor; [| constructor; [| exact IH]]; rewrite byte_val_of_Z.
  - rewrite Z.shiftr_div_pow2 by lia. change (2 ^ 4) with 16.
    rewrite Z.mod_small; [apply Z.div_lt_upper_bound; lia |].
    split; [apply Z.div_pos; lia | apply Z.div_lt_upper_bound; lia].
  - rewrite (Z.land_ones _ 4) by lia. change (2 ^ 4) with 16.
    pose proof (Z.mod_pos_bound (byte_val b) 16). rewrite Z.mod_small; lia.
Qed.

Lemma to_nibbles_length k : length (to_nibbles k) = (2 * length k)%nat.
Proof. induction k as [|b k IH]; simpl; [done |]. rewrite IH. lia. Qed.

Lemma to_nibbles_inj k1 k2 : to_nibbles k1 = to_nibbles k2 -> k1 = k2.
Proof.
  revert k2; induction k1 as [|b k1 IH]; intros [|c k2]; try done. simpl.
  intros [= H1 H2 H3]. f_equal; [| by apply IH]. apply byte_val_inj.
  pose proof (byte_val_range b). pose proof (byte_val_range c).
  apply (f_equal byte_val) in H1, H2. rewrite !byte_val_of_Z in H1, H2.
  rewrite !Z.shiftr_div_pow2 in H1 by lia. rewrite !(Z.land_ones _ 4) in H2 by lia.
  change (2 ^ 4) with 16 in *.
  pose proof (Z.div_mod (byte_val b) 16 ltac:(lia)).
  pose proof (Z.div_mod (byte_val c) 16 ltac:(lia)).
  pose proof (Z.mod_pos_bound (byte_val b) 16 ltac:(lia)).
  pose proof (Z.mod_pos_bound (byte_val c) 16 ltac:(lia)).
  rewrite !(Z.mod_small (_ mod 16)) in H2 by lia.
  rewrite !(Z.mod_small (_ / 16)) in H1; [lia | |];
    (split; [apply Z.div_pos | apply Z.div_lt_upper_bound]; lia).
Qed.

Lemma nibble_range_nth i :
  byte_val i < 16 -> nibble_range !! Z.to_nat (byte_val i) = Some i.
Proof.
  intros H. pose proof (byte_val_range i). unfold nibble_range.
  rewrite list_lookup_fmap, (lookup_seq_lt 0 16) by lia. simpl. f_equal.
  rewrite Z2Nat.id by lia. apply byte_of_val.
Qed.

(** ** Nodes and the maps below them *)

Definition items_ok (l : list (bytes * bytes)) : Prop :=
  Forall (fun '(k, v) => vec_ok k /\ vec_ok v) l.

Definition node_strict (n : TrieNode) : Prop :=
  match n with Extension p _ => p ≠ [] | _ => True end.

Section Repr.
Context {BC : BincodeCrate} {BL : BincodeLaws} {SC : Sha3Crate}.

(** [h] names the node [n], stored in [out]. *)
Definition stored (out : nodes_out) (h : H256) (n : TrieNode) : Prop :=
  h = hash_node n /\ (h, serialize n) ∈ out /\ node_wf n.

Fixpoint node_repr (fuel : nat) (out : nodes_out) (n : TrieNode) (m : bytes -> option bytes) :
    Prop :=
  match fuel with
  | O => False
  | S fuel =>
      match n with
      | Empty => forall k, m k = None
      | Leaf p v => forall k, m k = if decide (p = k) then Some v else None
      | Extension p h =>
          (exists c, stored out h c /\ node_repr fuel out c (fun k => m (p ++ k))) /\
          forall k, starts_with k p = false -> m k = None
      | Branch cs v =>
          v = m [] /\
          forall i, byte_val i < 16 ->
            match nth (Z.to_nat (byte_val i)) cs None with
            | Some h => exists c, stored out h c /\ node_repr fuel out c (fun k => m (i :: k))
            | None => forall k, m (i :: k) = None
            end
      end
  end.

Definition hash_repr fuel (out : nodes_out) (h : H256) (m : bytes -> option bytes) : Prop :=
  exists c, stored out h c /\ node_repr fuel out c m.

(** Maps are compared pointwise. *)
#[export] Instance node_repr_proper fuel out n :
  Proper (pointwise_relation _ eq ==> iff) (node_repr fuel out n).
Proof.
  revert n; induction fuel as [|fuel IH]; intros n m1 m2 E; [done |].
  assert (forall p c, node_repr fuel out c (fun k => m1 (p ++ k)) <->
                      node_repr fuel out c (fun k => m2 (p ++ k))) as IH1.
  { intros p c. apply IH. intros k. apply E. }
  assert (forall i c, node_repr fuel out c (fun k => m1 (i :: k)) <->
                      node_repr fuel out c (fun k => m2 (i :: k))) as IH2.
  { intros i c. apply IH. intros k. apply E. }
  destruct n as [|p v|p h|cs v]; simpl.
  - by setoid_rewrite E.
  - by setoid_rewrite E.
  - setoid_rewrite IH1. by setoid_rewrite E.
  - rewrite (E []). apply and_iff_compat_l. split; intros H i Hi; specialize (H i Hi);
      destruct (nth _ cs None) as [h|].
    + by setoid_rewrite <- IH2.
    + intros k. by rewrite <- (E (i :: k)).
    + by setoid_rewrite IH2.
    + intros k. by rewrite (E (i :: k)).
Qed.

#[export] Instance hash_repr_proper fuel out h :
  Proper (pointwise_relation _ eq ==> iff) (hash_repr fuel out h).
Proof. intros m1 m2 E. unfold hash_repr. by setoid_rewrite E. Qed.

Lemma stored_mono out out' h n : out `prefix_of` out' -> stored out h n -> stored out' h n.
Proof. intros [l ->] (? & ? & ?). split_and!; [done | apply elem_of_app; by left | done]. Qed.

Lemma node_repr_mono fuel out out' n m :
  out `prefix_of` out' -> node_repr fuel out n m -> node_repr fuel out' n m.
Proof.
  intros Hp. revert n m; induction fuel as [|fuel IH]; intros n m; [done |].
  destruct n as [|p v|p h|cs v]; simpl; try done.
  - intros [(c & Hs & Hc) Hn]. split; [| done]. exists c. eauto using stored_mono.
  - intros [-> H]. split; [done |]. intros i Hi. specialize (H i Hi).
    destruct (nth _ cs None); [| done]. destruct H as (c & Hs & Hc).
    exists c. eauto using stored_mono.
Qed.

Lemma hash_repr_mono fuel out out' h m :
  out `prefix_of` out' -> hash_repr fuel out h m -> hash_repr fuel out' h m.
Proof. intros Hp (c & Hs & Hc). exists c. eauto using stored_mono, node_repr_mono. Qed.

(** Every stored entry is a node of a trie under its hash. *)
Definition out_ok (out : nodes_out) : Prop :=
  Forall (fun '(h, e) => h = keccak256 e /\
            exists n, e = serialize n /\ node_wf n /\ node_strict n) out.

(** What a call that stores a subtree for [m] promises. *)
Definition stores (fuel : nat) (out out' : nodes_out) (h : H256) (m : bytes -> option bytes) :=
  out_ok out' /\ out `prefix_of` out' /\ hash_repr fuel out' h m.

Lemma store_node_spec fuel out out0 n m h out' :
  store_node n out = (h, out') ->
  out_ok out -> out0 `prefix_of` out -> node_wf n -> node_strict n -> node_repr fuel out n m ->
  stores fuel out0 out' h m.
Proof.
  unfold store_node. intros [= <- <-] Hout Hp Hwf Hst Hr. split_and!.
  - apply Forall_app_2; [done |]. constructor; [eauto | constructor].
  - by apply prefix_app_r.
  - exists n. split.
    + split_and!; [done | | done]. apply elem_of_app. right. by apply list_elem_of_singleton.
    + eapply node_repr_mono; [apply prefix_app_r; reflexivity | done].
Qed.

Section Children.
Context (fuel : nat) (store : list (bytes * bytes) -> nodes_out -> option (H256 * nodes_out)).
Hypothesis store_spec : forall items out h out',
  items_ok items -> out_ok out -> store items out = Some (h, out') ->
  stores fuel out out' h (fun k => alookup k items).

Lemma group_ok i items : items_ok items -> items_ok (group i items).
Proof.
  induction 1 as [|[[|b k] v] l [Hk Hv] Hl IH]; [constructor | done |].
  rewrite group_cons. destruct (decide (b = i)); [| done]. constructor; [| done].
  split; [| done]. unfold vec_ok in *. simpl in Hk. lia.
Qed.

Lemma build_children_spec items idxs out cs out' :
  items_ok items -> out_ok out -> build_children store items idxs out = Some (cs, out') ->
  out_ok out' /\ out `prefix_of` out' /\ length cs = length idxs /\
  forall j i, idxs !! j = Some i ->
    match nth j cs None with
    | Some h => hash_repr fuel out' h (fun k => alookup (i :: k) items)
    | None => forall k, alookup (i :: k) items = None
    end.
Proof.
  intros Hi. revert out cs out'; induction idxs as [|i idxs IH]; intros out cs out' Ho H; simpl in H.
  { simplify_eq. by split_and!. }
  destruct (group i items) as [|g gs] eqn:Hg.
  - apply bind_Some in H as ([cs1 out1] & H1 & [= <- <-]).
    destruct (IH _ _ _ Ho H1) as (Ho1 & Hp1 & Hl1 & Hc1). split_and!; try done; [simpl; lia |].
    intros [|j] i' Hj; simplify_eq/=; [| by apply Hc1]. intros k. by rewrite alookup_group, Hg.
  - apply bind_Some in H as ([h out1] & H1 & H). apply bind_Some in H as ([cs1 out2] & H2 & [= <- <-]).
    destruct (store_spec (g :: gs) out h out1) as (Ho1 & Hp1 & Hr1); [| done | done |].
    { rewrite <- Hg. by apply group_ok. }
    destruct (IH _ _ _ Ho1 H2) as (Ho2 & Hp2 & Hl2 & Hc2).
    split_and!; try done; [by etrans | simpl; lia |].
    intros [|j] i' Hj; simplify_eq/=; [| by apply Hc2].
    eapply hash_repr_mono; [done |]. revert Hr1. apply hash_repr_proper.
    intros k. by rewrite alookup_group, Hg.
Qed.
End Children.

Lemma drop_items_ok n items :
  items_ok items -> items_ok (map (fun '(k, v) => (drop n k, v)) items).
Proof.
  intros H. apply Forall_map. eapply Forall_impl; [exact H |]. intros [k v] [Hk Hv].
  split; [| done]. unfold vec_ok in *. rewrite length_drop. lia.
Qed.

Lemma alookup_vec_ok k v items : items_ok items -> alookup k items = Some v -> vec_ok v.
Proof.
  induction 1 as [|[k' v'] l [_ Hv] Hl IH]; simpl; [done |].
  destruct (alookup k l); [naive_solver |]. case_decide; naive_solver.
Qed.

(** The three shapes of [build_node_collected] on two or more entries. *)
Lemma extension_repr fuel out items n p h :
  p ≠ [] -> items = map (fun '(k, v) => (p ++ k, v)) (map (fun '(k, v) => (drop n k, v)) items) ->
  hash_repr fuel out h (fun k => alookup k (map (fun '(k, v) => (drop n k, v)) items)) ->
  node_repr (S fuel) out (Extension p h) (fun k => alookup k items).
Proof.
  intros Hp Hi Hh. simpl. split.
  - revert Hh. apply hash_repr_proper. intros k. rewrite Hi at 1. apply alookup_map_app.
  - intros k Hk. rewrite Hi. by apply alookup_map_none.
Qed.

Lemma build_spec fuel items out n out' :
  items_ok items -> out_ok out -> build_node_collected fuel items out = Some (n, out') ->
  out_ok out' /\ out `prefix_of` out' /\ node_wf n /\ node_strict n /\
  node_repr fuel out' n (fun k => alookup k items).
Proof.
  revert items out n out'; induction fuel as [|fuel IH]; intros items out n out' Hi Ho H; [done |].
  assert (forall items out h out', items_ok items -> out_ok out ->
    ('(node, out) ← build_node_collected fuel items out; Some (store_node node out))
      = Some (h, out') ->
    stores fuel out out' h (fun k => alookup k items)) as Hstore.
  { intros items0 out0 h0 out0' Hi0 Ho0 H0. apply bind_Some in H0 as ([n0 out1] & H0 & H1).
    apply (inj Some) in H1. destruct (IH _ _ _ _ Hi0 Ho0 H0) as (? & ? & ? & ? & ?). by eapply store_node_spec. }
  cbn [build_node_collected] in H. destruct items as [|[k0 v0] [|[k1 v1] items]].
  - simplify_eq. by split_and!.
  - simplify_eq. apply Forall_inv in Hi. split_and!; try done; apply Hi.
  - pose proof (common_prefix_spec k0 v0 ((k1, v1) :: items)) as [Hlen Hpre].
    set (l := (k0, v0) :: (k1, v1) :: items) in *.
    destruct (decide _) as [Hpos|Hpos].
    + apply bind_Some in H as ([h out1] & H1 & [= <- <-]).
      destruct (Hstore _ _ _ _ (drop_items_ok _ l Hi) Ho H1) as (Ho1 & Hp1 & Hr1).
      assert (take (common_prefix_len l) k0 ≠ []) as Hne.
      { intros E%(f_equal length). rewrite length_take in E. cbn [length] in E. lia. }
      split_and!; try done.
      * apply Forall_inv in Hi as [Hk _]. unfold node_wf, vec_ok in *. rewrite length_take. lia.
      * by apply (extension_repr _ _ _ (common_prefix_len l)), Hr1; [| apply strip_prefix_items].
    + apply bind_Some in H as ([cs out1] & H1 & [= <- <-]).
      destruct (build_children_spec fuel _ Hstore l _ _ _ _ Hi Ho H1) as (Ho1 & Hp1 & Hl1 & Hc1).
      split_and!; try done.
      * rewrite branch_value_spec. split; [done |]. destruct (alookup [] l) eqn:E; [| done].
        by eapply alookup_vec_ok.
      * split; [apply branch_value_spec |]. intros i Hb. apply Hc1, nibble_range_nth, Hb.
Qed.

(** Fuel: more than the longest key is enough. *)
Lemma max_key_len_group i items :
  group i items ≠ [] -> (max_key_len (group i items) < max_key_len items)%nat.
Proof.
  induction items as [|[[|b k] v] l IH]; [done | exact IH |].
  rewrite group_cons. destruct (decide (b = i)); simpl.
  - intros _. destruct (decide (group i l = [])) as [->|Hg]; simpl; [lia |].
    specialize (IH Hg). lia.
  - intros Hg. specialize (IH Hg). lia.
Qed.

Lemma max_key_len_drop n l :
  (0 < n)%nat -> Forall (fun '(k, _) => n <= length k)%nat l -> l ≠ [] ->
  (max_key_len (map (fun '(k, v) => (drop n k, v)) l) < max_key_len l)%nat.
Proof.
  intros Hn. induction 1 as [|[k v] l Hk Hl IH]; [done |]. intros _. simpl.
  rewrite length_drop. destruct l as [|e l]; [simpl; lia |]. specialize (IH ltac:(done)). lia.
Qed.

Lemma build_children_total store items idxs out :
  (forall i out, group i items ≠ [] -> is_Some (store (group i items) out)) ->
  is_Some (build_children store items idxs out).
Proof.
  intros Hs. revert out; induction idxs as [|i idxs IH]; intros out; simpl; [eauto |].
  specialize (Hs i). destruct (group i items) as [|g gs].
  - destruct (IH out) as [[cs o] ->]. simpl. eauto.
  - destruct (Hs out) as [[h o] ->]; [done |]. simpl. destruct (IH o) as [[cs o'] ->]. simpl. eauto.
Qed.

Lemma build_total fuel items out :
  (max_key_len items < fuel)%nat -> is_Some (build_node_collected fuel items out).
Proof.
  revert items out; induction fuel as [|fuel IH]; intros items out Hf; [lia |].
  cbn [build_node_collected]. destruct items as [|[k0 v0] [|[k1 v1] items]]; [eauto | eauto |].
  pose proof (common_prefix_spec k0 v0 ((k1, v1) :: items)) as [Hlen Hpre].
  set (l := (k0, v0) :: (k1, v1) :: items) in *.
  destruct (decide _) as [Hpos|Hpos].
  - destruct (IH (map (fun '(k, v) => (drop (common_prefix_len l) k, v)) l) out) as [[n o] ->];
      [| simpl; eauto].
    pose proof (max_key_len_drop (common_prefix_len l) l Hpos) as Hd.
    enough (max_key_len (map (fun '(k, v) => (drop (common_prefix_len l) k, v)) l)
            < max_key_len l)%nat by lia.
    apply Hd; [| done]. eapply Forall_impl; [exact Hpre |]. intros [k v]. naive_solver.
  - destruct (build_children_total (fun items out =>
      '(node, out) ← build_node_collected fuel items out; Some (store_node node out))
      l nibble_range out) as [[cs o] ->]; [| simpl; eauto].
    intros i out1 Hg. pose proof (max_key_len_group i l Hg).
    destruct (IH (group i l) out1) as [[n o] ->]; [lia | simpl; eauto].
Qed.

(** ** Walks *)

Lemma drop_nibbles n k : nibbles k -> nibbles (drop n k).
Proof. apply Forall_drop. Qed.

Lemma starts_with_split rest p :
  starts_with rest p = true -> rest = p ++ drop (length p) rest.
Proof. unfold starts_with. intros H%bool_decide_eq_true. by rewrite <- H at 1; rewrite take_drop. Qed.

Lemma stored_encoding out h n : stored out h n -> serialize n ∈ map snd out.
Proof. intros (_ & Hin & _). by apply (list_elem_of_fmap_2 snd) in Hin. Qed.

(** One step of [verify_loop] at a node whose hash is expected. *)
Lemma verify_step n rest enc proof v :
  (keccak256 enc = keccak256 (serialize n) -> enc = serialize n) ->
  verify_loop rest (hash_node n) (enc :: proof) = Ok v ->
  enc = serialize n /\ verify_loop rest (hash_node n) (serialize n :: proof) = Ok v.
Proof.
  intros Hb H. enough (enc = serialize n) by (by subst). apply Hb. simpl in H.
  destruct (decide _) as [Hh|Hh]; [done |]. by apply dec_stable in Hh.
Qed.

Lemma verify_loop_sound fuel out n m rest proof v :
  binds proof (map snd out) -> stored out (hash_node n) n -> node_repr fuel out n m ->
  nibbles rest -> verify_loop rest (hash_node n) proof = Ok v -> v = m rest.
Proof.
  revert n m rest proof; induction fuel as [|fuel IH]; intros n m rest proof Hb Hst Hr Hn H; [done |].
  destruct proof as [|enc proof]; [done |]. pose proof Hst as (_ & Hin0 & Hwf).
  apply verify_step in H as [-> H]; [| apply Hb; [set_solver | by apply stored_encoding in Hst]].
  assert (binds proof (map snd out)) as Hb' by (eapply binds_mono, Hb; set_solver). simpl in H.
  rewrite decide_False, deserialize_serialize in H by tauto. simpl in H.
  destruct n as [|p leaf|p h|cs bv]; simpl in Hr.
  - rewrite Hr. by destruct proof; simplify_eq.
  - rewrite Hr. by destruct proof; simplify_eq.
  - destruct Hr as [(c & Hc & Hr) Hnone]. pose proof Hc as [-> _].
    destruct (starts_with rest p) eqn:Hs; simpl in H.
    + destruct proof as [|e proof]; [done |].
      rewrite (starts_with_split rest p Hs).
      eapply (IH c (fun k => m (p ++ k))); eauto using drop_nibbles.
    + rewrite Hnone by done. by destruct proof; simplify_eq.
  - destruct Hr as [-> Hr]. destruct rest as [|i rest].
    + by destruct proof; simplify_eq.
    + apply Forall_cons in Hn as [Hi Hn]. specialize (Hr i Hi).
      destruct (nth _ cs None) as [h|]; [| rewrite Hr; by destruct proof; simplify_eq].
      destruct Hr as (c & Hc & Hr). pose proof Hc as [-> _]. destruct proof as [|e proof]; [done |].
      by eapply (IH c (fun k => m (i :: k))).
Qed.

(** The node table of [prove]. *)
Lemma collect_nodes_spec (out : nodes_out) h :
  (forall e, collect_nodes out !! h = Some e -> (h, e) ∈ out) /\
  (forall e, (h, e) ∈ out -> is_Some (collect_nodes out !! h)).
Proof.
  unfold collect_nodes. induction out as [|[h' e'] out IH] using rev_ind.
  { simpl. split; intros e; [by rewrite lookup_empty | by intros ?%elem_of_nil]. }
  rewrite foldl_app. simpl. destruct (decide (h = h')) as [->|Hne].
  - split; intros e; rewrite lookup_insert_eq; [| eauto].
    intros [= ->]. apply elem_of_app. right. by apply list_elem_of_singleton.
  - split; intros e; rewrite lookup_insert_ne by done.
    + intros H. apply elem_of_app. left. by apply IH.
    + intros [H|H]%elem_of_app; [by eapply IH |]. apply list_elem_of_singleton in H. congruence.
Qed.

Lemma collect_nodes_stored out h n :
  coll_free (map snd out) -> out_ok out -> stored out h n ->
  collect_nodes out !! h = Some (serialize n).
Proof.
  intros C Ho Hst. pose proof Hst as (Hh & Hin & _). destruct (collect_nodes_spec out h) as [H1 H2].
  destruct (H2 _ Hin) as [e He]. apply H1 in He as Hin'.
  unfold out_ok in Ho. rewrite Forall_forall in Ho. destruct (Ho _ Hin') as [Hk _].
  rewrite Hh in Hk. apply C in Hk as ->; [done | by apply stored_encoding in Hst |].
  by apply (list_elem_of_fmap_2 snd) in Hin'.
Qed.

Lemma prove_loop_complete fuel g out n m rest nodes v :
  coll_free (map snd out) -> out_ok out -> stored out (hash_node n) n ->
  node_repr fuel out n m -> nibbles rest ->
  prove_loop g (collect_nodes out) rest (hash_node n) = Some (nodes, v) ->
  v = m rest /\ verify_loop rest (hash_node n) nodes = Ok v.
Proof.
  intros C Ho. revert g n m rest nodes; induction fuel as [|fuel IH];
    intros g n m rest nodes Hst Hr Hn H; [done |].
  destruct g as [|g]; [done |]. simpl in H.
  pose proof (collect_nodes_stored _ _ _ C Ho Hst) as Hl. destruct Hst as (_ & _ & Hwf). rewrite Hl, deserialize_serialize in H by done.
  assert (forall nodes, verify_loop rest (hash_node n) (serialize n :: nodes) =
    match n with
    | Empty => match nodes with [] => Ok None | _ => Err Incomplete end
    | Leaf path leaf => match nodes with
        | [] => Ok (if decide (path = rest) then Some leaf else None) | _ => Err Incomplete end
    | Extension path child =>
        if starts_with rest path
        then match nodes with [] => Err Incomplete
             | _ => verify_loop (drop (length path) rest) child nodes end
        else match nodes with [] => Ok None | _ => Err Incomplete end
    | Branch cs bv => match rest with
        | [] => match nodes with [] => Ok bv | _ => Err Incomplete end
        | i :: rest => match nth (Z.to_nat (byte_val i)) cs None with
            | None => match nodes with [] => Ok None | _ => Err Incomplete end
            | Some h => match nodes with [] => Err Incomplete | _ => verify_loop rest h nodes end
            end
        end
    end) as Hv.
  { intros l. simpl. rewrite decide_False, deserialize_serialize by tauto. simpl.
    destruct n as [|p leaf|p h|cs bv]; try by destruct l.
    by destruct (starts_with rest p), l. }
  destruct n as [|p leaf|p h|cs bv]; simpl in Hr.
  - simplify_eq. by rewrite Hv, Hr.
  - simplify_eq. by rewrite Hv, Hr.
  - destruct Hr as [(c & Hst & Hr) Hnone].
    destruct (starts_with rest p) eqn:Hs; [| simplify_eq; by rewrite Hv, Hnone].
    apply bind_Some in H as ([l w] & H & [= <- <-]). pose proof Hst as (-> & _).
    eapply (IH g c (fun k => m (p ++ k))) in H as [-> Hw]; eauto using drop_nibbles.
    rewrite <- starts_with_split in Hw |- * by done. split; [done |].
    rewrite Hv. by destruct l.
  - destruct Hr as [-> Hr]. destruct rest as [|i rest]; [simplify_eq; by rewrite Hv |].
    apply Forall_cons in Hn as [Hi Hn]. specialize (Hr i Hi). revert H Hv.
    destruct (nth _ cs None) as [h|]; intros H Hv; [| simplify_eq; by rewrite Hv, Hr].
    destruct Hr as (c & Hst & Hr). apply bind_Some in H as ([l w] & H & [= <- <-]).
    pose proof Hst as (-> & _).
    eapply (IH g c (fun k => m (i :: k))) in H as [-> Hw]; eauto.
    split; [done |]. rewrite Hv. by destruct l.
Qed.

(** The loop of [prove] ends: an extension consumes at least one nibble. *)
Lemma prove_loop_total g out rest h :
  out_ok out -> (length rest < g)%nat ->
  is_Some (prove_loop g (collect_nodes out) rest h).
Proof.
  intros Ho. revert rest h; induction g as [|g IH]; intros rest h Hg; [lia |]. simpl.
  destruct (collect_nodes out !! h) as [e|] eqn:He; [| eauto].
  apply collect_nodes_spec in He. unfold out_ok in Ho. rewrite Forall_forall in Ho.
  destruct (Ho _ He) as (_ & n & -> & Hwf & Hst). rewrite deserialize_serialize by done.
  destruct n as [|p leaf|p c|cs bv]; [eauto | eauto | |].
  - destruct (starts_with rest p) eqn:Hs; [| eauto].
    apply starts_with_split in Hs. apply (f_equal length) in Hs. rewrite length_app in Hs.
    destruct p as [|b p]; [done |].
    destruct (IH (drop (length (b :: p)) rest) c) as [[l v] ->]; [simpl in *; lia | simpl; eauto].
  - destruct rest as [|i rest]; [eauto |]. destruct (nth _ cs None) as [c|]; [| eauto].
    destruct (IH rest c) as [[l v] ->]; [simpl in *; lia | simpl; eauto].
Qed.
End Repr.
