(* ===== verification/TrieProps.v ===== *)
(** * Properties of the trie

    Completeness and soundness of membership proofs, what the root commits to,
    and termination. *)

From S2P Require Import Prelude Hash Bincode Trie TrieFacts.
#[local] Open Scope Z_scope.

(** ** The [BTreeMap] of nibble keys *)

Definition key_lt (a b : bytes * bytes) : Prop := bytes_compare a.1 b.1 = Lt.
Definition sorted (l : list (bytes * bytes)) : Prop := StronglySorted key_lt l.

Lemma key_lt_ne k l : Forall (fun e => bytes_compare k e.1 = Lt) l -> alookup k l = None.
Proof.
  intros H. apply alookup_none. eapply Forall_impl; [exact H |]. intros [k' v] E ->.
  simpl in E. by rewrite bytes_compare_refl in E.
Qed.

Lemma btree_insert_keys (P : bytes * bytes -> Prop) k v l :
  P (k, v) -> Forall P l -> Forall P (btree_insert k v l).
Proof.
  intros Hk. induction 1 as [|[k' v'] l Hk' Hl IH]; simpl; [by constructor |].
  destruct (bytes_compare k k'); repeat constructor; done.
Qed.

Lemma btree_insert_sorted k v l : sorted l -> sorted (btree_insert k v l).
Proof.
  induction 1 as [|[k' v'] l Hs IH Hl]; simpl; [repeat constructor |].
  destruct (bytes_compare k k') eqn:E.
  - apply bytes_compare_eq in E as ->. by constructor.
  - constructor; [by constructor |]. constructor; [done |].
    eapply Forall_impl; [exact Hl |]. intros [k2 v2] H. by eapply bytes_compare_lt_trans.
  - constructor; [done |]. apply btree_insert_keys; [| done].
    by apply bytes_compare_not_lt_gt.
Qed.

Lemma alookup_btree_insert k v l x :
  sorted l -> alookup x (btree_insert k v l) = if decide (k = x) then Some v else alookup x l.
Proof.
  induction 1 as [|[k' v'] l Hs IH Hl]; simpl; [done |].
  destruct (bytes_compare k k') eqn:E; simpl.
  - apply bytes_compare_eq in E as ->. repeat case_decide; try done.
    subst. by rewrite key_lt_ne.
  - assert (k = x -> alookup x l = None) as Hn.
    { intros <-. apply key_lt_ne. eapply Forall_impl; [exact Hl |].
      intros [k2 v2] H. by eapply bytes_compare_lt_trans. }
    destruct (decide (k = x)) as [Hx|Hx]; [| by destruct (alookup x l); repeat case_decide].
    rewrite Hn by done. repeat case_decide; try done. subst.
    by rewrite bytes_compare_refl in E.
  - rewrite IH. by repeat case_decide.
Qed.

Lemma alookup_snoc x l k v :
  alookup x (l ++ [(k, v)]) = if decide (k = x) then Some v else alookup x l.
Proof.
  induction l as [|[k' v'] l IH]; simpl; [done |]. rewrite IH. by case_decide.
Qed.

Lemma entries_snoc pairs k v :
  entries (pairs ++ [(k, v)]) = btree_insert (to_nibbles k) v (entries pairs).
Proof. unfold entries. by rewrite foldl_app. Qed.

Lemma entries_sorted pairs : sorted (entries pairs).
Proof.
  induction pairs as [|[k v] pairs IH] using rev_ind; [constructor |].
  rewrite entries_snoc. by apply btree_insert_sorted.
Qed.

Lemma alookup_entries k pairs : alookup (to_nibbles k) (entries pairs) = alookup k pairs.
Proof.
  induction pairs as [|[k' v] pairs IH] using rev_ind; [done |].
  rewrite entries_snoc, alookup_btree_insert, alookup_snoc, IH by apply entries_sorted.
  destruct (decide (k' = k)) as [->|Hne]; [by rewrite decide_True |].
  rewrite decide_False; [done |]. by intros ?%to_nibbles_inj.
Qed.

Lemma entries_keys pairs : Forall (fun e => exists k, e.1 = to_nibbles k) (entries pairs).
Proof.
  induction pairs as [|[k v] pairs IH] using rev_ind; [constructor |].
  rewrite entries_snoc. apply btree_insert_keys; [by exists k | done].
Qed.

(** Rust vectors hold fewer than [2^63] bytes, so nibble paths have a [usize] length. *)
Definition pairs_ok (pairs : list (bytes * bytes)) : Prop :=
  Forall (fun '(k, v) => 2 * Z.of_nat (length k) < M64 /\ vec_ok v) pairs.

Lemma entries_ok pairs : pairs_ok pairs -> items_ok (entries pairs).
Proof.
  unfold pairs_ok. induction pairs as [|[k v] pairs IH] using rev_ind; [constructor |].
  intros [H1 H2]%Forall_app. apply Forall_inv in H2 as [Hk Hv]. rewrite entries_snoc.
  apply btree_insert_keys; [| by apply IH]. split; [| done].
  unfold vec_ok. rewrite to_nibbles_length. lia.
Qed.

(** Sorted entries are determined by the map they denote. *)
Lemma alookup_elem k v l : sorted l -> alookup k l = Some v <-> (k, v) ∈ l.
Proof.
  induction 1 as [|[k' v'] l Hs IH Hl]; [by rewrite elem_of_nil |].
  rewrite elem_of_cons, <- IH. simpl. destruct (alookup k l) as [x|] eqn:E.
  - split; [by right |]. intros [[= -> ->]|]; [| done].
    rewrite (key_lt_ne k' l) in E; [done |]. eapply Forall_impl; [exact Hl | done].
  - case_decide; naive_solver.
Qed.

Lemma sorted_ext l1 l2 :
  sorted l1 -> sorted l2 -> (forall k, alookup k l1 = alookup k l2) -> l1 = l2.
Proof.
  intros H1. revert l2; induction H1 as [|[k1 v1] l1 Hs1 IH Hl1]; intros l2 H2 E.
  - destruct l2 as [|[k2 v2] l2]; [done |]. specialize (E k2). symmetry in E.
    assert (alookup k2 ((k2, v2) :: l2) = Some v2) as E' by (apply alookup_elem; [done | left]).
    by rewrite E in E'.
  - assert (sorted ((k1, v1) :: l1)) as H1 by by constructor.
    destruct H2 as [|[k2 v2] l2 Hs2 Hl2].
    { specialize (E k1). assert (alookup k1 ((k1, v1) :: l1) = Some v1) as E'
        by (apply alookup_elem; [done | left]). by rewrite E in E'. }
    assert (sorted ((k2, v2) :: l2)) as H2 by by constructor.
    assert ((k1, v1) ∈ (k2, v2) :: l2) as M1.
    { apply alookup_elem; [done |]. rewrite <- E. apply alookup_elem; [done | left]. }
    assert ((k2, v2) ∈ (k1, v1) :: l1) as M2.
    { apply alookup_elem; [done |]. rewrite E. apply alookup_elem; [done | left]. }
    assert (k1 = k2) as ->.
    { apply elem_of_cons in M1 as [[= -> ->]|M1]; [done |].
      apply elem_of_cons in M2 as [[= -> ->]|M2]; [done |].
      rewrite Forall_forall in Hl1, Hl2. apply Hl2 in M1. apply Hl1 in M2.
      unfold key_lt in *. simpl in *. rewrite bytes_compare_antisym, M1 in M2. done. }
    assert (v1 = v2) as ->.
    { specialize (E k2). rewrite (proj2 (alookup_elem k2 v1 _ H1)) in E by left.
      rewrite (proj2 (alookup_elem k2 v2 _ H2)) in E by left. congruence. }
    f_equal. apply IH; [done |]. intros k. destruct (decide (k = k2)) as [->|Hne].
    + by rewrite !key_lt_ne.
    + specialize (E k). simpl in E. rewrite !decide_False in E by congruence.
      by destruct (alookup k l1), (alookup k l2).
Qed.

(** Two lists of pairs that denote the same map. *)
Definition pairs_equiv : relation (list (bytes * bytes)) :=
  fun p1 p2 => forall k, alookup k p1 = alookup k p2.
#[export] Instance pairs_equiv_equivalence : Equivalence pairs_equiv.
Proof. unfold pairs_equiv. split; intros ?; [done | done |]. intros ? ? H1 H2 k. by rewrite H1. Qed.

#[export] Instance entries_proper : Proper (pairs_equiv ==> eq) entries.
Proof.
  intros p1 p2 E. apply sorted_ext; try apply entries_sorted. intros k.
  assert (forall p1 p2 v, pairs_equiv p1 p2 -> alookup k (entries p1) = Some v ->
                          alookup k (entries p2) = Some v) as H.
  { clear. intros p1 p2 v E H. apply alookup_elem in H as Hin; [| apply entries_sorted].
    pose proof (entries_keys p1) as Hk. rewrite Forall_forall in Hk.
    destruct (Hk _ Hin) as [k' Ek]. simpl in Ek. subst. rewrite alookup_entries in *.
    by rewrite <- E. }
  destruct (alookup k (entries p1)) eqn:E1; [symmetry; by eapply H |].
  destruct (alookup k (entries p2)) eqn:E2; [| done]. symmetry in E.
  by rewrite (H _ _ _ E E2) in E1.
Qed.

(** ** Properties *)

Section Properties.
Context {BC : BincodeCrate} {BL : BincodeLaws} {SC : Sha3Crate}.

Lemma store_tree_total items out : is_Some (store_tree items out).
Proof.
  unfold store_tree, trie_fuel. destruct (build_total (S (max_key_len items)) items out) as [[n o] ->];
    [lia | simpl; eauto].
Qed.

Lemma patricia_nodes_eq pairs : store_tree (entries pairs) [] = Some (patricia_nodes pairs).
Proof.
  unfold patricia_nodes. destruct pairs as [|p pairs]; [done |].
  by destruct (store_tree_total (entries (p :: pairs)) []) as [r ->].
Qed.

(** The nodes of a root and the map under it. *)
Lemma patricia_nodes_repr pairs root out :
  pairs_ok pairs -> patricia_nodes pairs = (root, out) ->
  out_ok out /\ exists fuel n, root = hash_node n /\ stored out (hash_node n) n /\
    node_repr fuel out n (fun k => alookup k (entries pairs)).
Proof.
  intros Hok E. pose proof (patricia_nodes_eq pairs) as H. rewrite E in H.
  unfold store_tree in H. apply bind_Some in H as ([n o] & Hb & Hs). apply (inj Some) in Hs.
  apply build_spec in Hb as (Ho & Hp & Hwf & Hst & Hr); [| by apply entries_ok | constructor].
  destruct (store_node_spec _ _ _ _ _ _ _ Hs Ho Hp Hwf Hst Hr) as (Ho' & _ & n' & Hn' & Hr').
  pose proof Hn' as [-> _]. split; [done |]. by exists (trie_fuel (entries pairs)), n'.
Qed.

(** The strings hashed for the root of [pairs]: the encodings of its nodes. *)
Definition trie_encodings (pairs : list (bytes * bytes)) : list bytes :=
  map snd (patricia_nodes pairs).2.

Lemma prove_ends pairs key :
  pairs_ok pairs ->
  is_Some (prove_loop (S (length (to_nibbles key))) (collect_nodes (patricia_nodes pairs).2)
             (to_nibbles key) (patricia_root pairs)).
Proof.
  intros Hok. unfold patricia_root. destruct (patricia_nodes pairs) as [root out] eqn:E.
  apply patricia_nodes_repr in E as (Ho & _); [| done]. apply prove_loop_total; [done | lia].
Qed.

Lemma prove_spec pairs key :
  pairs_ok pairs -> coll_free (trie_encodings pairs) ->
  proof_value (prove pairs key) = alookup key pairs /\
  verify (patricia_root pairs) key (proof_nodes (prove pairs key)) = Ok (alookup key pairs).
Proof.
  intros Hok C. unfold trie_encodings in C. unfold patricia_root, prove.
  destruct (patricia_nodes pairs) as [root out] eqn:E.
  apply patricia_nodes_repr in E as (Ho & fuel & n & -> & Hst & Hr); [| done].
  cbn [fst snd] in *.
  destruct (prove_loop_total (S (length (to_nibbles key))) out (to_nibbles key) (hash_node n) Ho)
    as [[nodes v] Hl]; [lia |]. rewrite Hl.
  cbn [default proof_value proof_nodes].
  eapply prove_loop_complete in Hl as [-> Hv]; eauto using to_nibbles_nibbles.
  cbn beta in Hv. rewrite alookup_entries in Hv. split; [apply alookup_entries |].
  unfold verify. by destruct nodes.
Qed.

(** The nodes of a proof are nodes of the trie. *)
Lemma prove_loop_nodes g db rest h nodes v :
  prove_loop g db rest h = Some (nodes, v) -> forall e, e ∈ nodes -> exists h', db !! h' = Some e.
Proof.
  revert rest h nodes v; induction g as [|g IH]; intros rest h nodes v H e He; [done |]. simpl in H.
  destruct (db !! h) as [enc|] eqn:Eh; [| simplify_eq; by apply elem_of_nil in He].
  assert (forall l, (exists r h' w, prove_loop g db r h' = Some (l, w)) -> e ∈ enc :: l ->
    exists h', db !! h' = Some e) as Hcons.
  { intros l (r & h' & w & Hl) [->|Hin]%elem_of_cons; [eauto | by eapply IH]. }
  assert (e ∈ [enc] -> exists h', db !! h' = Some e) as Hone
    by (intros ->%list_elem_of_singleton; eauto).
  destruct (deserialize enc) as [[|p leaf|p c|cs bv]|]; simplify_eq; auto.
  - destruct (starts_with rest p); simplify_eq; auto.
    apply bind_Some in H as ([l w] & H & [= <- <-]). eapply Hcons; eauto.
  - destruct rest as [|i rest]; simplify_eq; auto.
    destruct (nth _ cs None); simplify_eq; auto.
    apply bind_Some in H as ([l w] & H & [= <- <-]). eapply Hcons; eauto.
Qed.

Lemma prove_nodes_encodings pairs key e :
  e ∈ proof_nodes (prove pairs key) -> e ∈ trie_encodings pairs.
Proof.
  unfold prove, trie_encodings. destruct (patricia_nodes pairs) as [root out]. cbn [snd].
  match goal with |- context [default _ ?p] => destruct p as [[nodes v]|] eqn:H end;
    cbn [default proof_nodes]; [| by intros ?%elem_of_nil].
  intros He. eapply prove_loop_nodes in H as [h H]; [| done].
  apply collect_nodes_spec in H. by apply (list_elem_of_fmap_2 snd) in H.
Qed.

Lemma prove_root pairs key : proof_root (prove pairs key) = patricia_root pairs.
Proof. unfold prove, patricia_root. destruct (patricia_nodes pairs). by destruct (default _ _). Qed.

(** The trie algorithms terminate: the recursion that builds the nodes and
    the loop that walks a proof both finish within the fuel the model gives
    them (one more than the longest remaining key), for every input. *)
Theorem trie_terminates pairs key :
  pairs_ok pairs ->
  is_Some (store_tree (entries pairs) []) /\
  is_Some (prove_loop (S (length (to_nibbles key))) (collect_nodes (patricia_nodes pairs).2)
             (to_nibbles key) (patricia_root pairs)).
Proof. intros Hok. split; [apply store_tree_total | by apply prove_ends]. Qed.

(** C31: Proofs are complete: for every key, present or absent, the proof built
    by [prove] carries the trie's root and the key's value in the map (the last
    of duplicate pairs), and [verify] accepts it against that root with that
    value.  The hypothesis is that no two encodings of the trie's own nodes
    collide. *)
Theorem trie_proof_complete pairs key :
  pairs_ok pairs -> coll_free (trie_encodings pairs) ->
  proof_root (prove pairs key) = patricia_root pairs /\
  proof_value (prove pairs key) = alookup key pairs /\
  verify (patricia_root pairs) key (proof_nodes (prove pairs key)) = Ok (alookup key pairs).
Proof. intros Hok C. split; [apply prove_root | by apply prove_spec]. Qed.

Lemma verify_sound pairs key proof v :
  pairs_ok pairs -> binds proof (trie_encodings pairs) ->
  verify (patricia_root pairs) key proof = Ok v -> v = alookup key pairs.
Proof.
  intros Hok C H. unfold patricia_root in H. unfold trie_encodings in C.
  destruct (patricia_nodes pairs) as [root out] eqn:E.
  apply patricia_nodes_repr in E as (Ho & fuel & n & -> & Hst & Hr); [| done].
  simpl in H, C. rewrite <- alookup_entries. unfold verify in H.
  eapply (verify_loop_sound fuel out n (fun k => alookup k (entries pairs)));
    eauto using to_nibbles_nibbles. by destruct proof.
Qed.

(** C9: Proofs are sound: whatever byte strings are offered as a proof, if
    [verify] accepts them for a key against the root of a map, the value it
    returns is that key's value in the map (absence included).  The hypothesis
    is that no string of the proof has the digest of a node of the trie without
    being that node's encoding. *)
Theorem trie_proof_sound pairs key proof v :
  pairs_ok pairs -> binds proof (trie_encodings pairs) ->
  verify (patricia_root pairs) key proof = Ok v -> v = alookup key pairs.
Proof. apply verify_sound. Qed.

#[local] Instance patricia_root_proper : Proper (pairs_equiv ==> eq) patricia_root.
Proof.
  intros p1 p2 E. unfold patricia_root.
  enough (Some (patricia_nodes p1) = Some (patricia_nodes p2)) by congruence.
  by rewrite <- !patricia_nodes_eq, E.
Qed.

Lemma patricia_root_equiv p1 p2 : pairs_equiv p1 p2 -> patricia_root p1 = patricia_root p2.
Proof. intros E. by rewrite E. Qed.

Lemma patricia_root_inj p1 p2 :
  pairs_ok p1 -> pairs_ok p2 -> coll_free (trie_encodings p1 ++ trie_encodings p2) ->
  patricia_root p1 = patricia_root p2 -> pairs_equiv p1 p2.
Proof.
  intros H1 H2 C E k. destruct (prove_spec p1 k H1 (coll_free_app_l _ _ C)) as [_ Hv].
  rewrite E in Hv. eapply verify_sound, Hv; [done |].
  eapply binds_mono, C; [| set_solver]. intros e He%prove_nodes_encodings. set_solver.
Qed.

(** The root is a commitment to the map: two lists of pairs have the same
    root exactly when they denote the same map (order and overwritten
    duplicates do not matter), when no two node encodings of the two tries
    collide. *)
Theorem patricia_root_commits p1 p2 :
  pairs_ok p1 -> pairs_ok p2 ->
  (pairs_equiv p1 p2 -> patricia_root p1 = patricia_root p2) /\
  (coll_free (trie_encodings p1 ++ trie_encodings p2) ->
   patricia_root p1 = patricia_root p2 -> pairs_equiv p1 p2).
Proof. intros H1 H2. split; [apply patricia_root_equiv | by apply patricia_root_inj]. Qed.
End Properties.

(** ** Witnesses *)

Definition sample_pairs : list (bytes * bytes) :=
  [([x12; x34], [x01]); ([x12; x35], [x02]); ([x77], [x03]); ([x12; x34], [x04])].

Lemma sample_pairs_ok : pairs_ok sample_pairs.
Proof. repeat constructor. Qed.

Lemma trie_terminates_witness :
  is_Some (store_tree (entries sample_pairs) []).
Proof. exact (proj1 (trie_terminates sample_pairs [x77] sample_pairs_ok)). Defined.

Lemma trie_proof_complete_witness :
  proof_root (prove sample_pairs [x12; x34]) = patricia_root sample_pairs /\
  proof_value (prove sample_pairs [x12; x34]) = Some [x04] /\
  verify (patricia_root sample_pairs) [x12; x34] (proof_nodes (prove sample_pairs [x12; x34]))
  = Ok (Some [x04]).
Proof.
  refine (trie_proof_complete sample_pairs [x12; x34] sample_pairs_ok _).
  apply (bool_decide_eq_true_1 _). vm_compute. reflexivity.
Defined.

Lemma trie_proof_sound_witness :
  verify (patricia_root sample_pairs) [x77] (proof_nodes (prove sample_pairs [x77])) = Ok (Some [x03])
  /\ Some [x03] = alookup [x77] sample_pairs.
Proof.
  assert (verify (patricia_root sample_pairs) [x77] (proof_nodes (prove sample_pairs [x77]))
          = Ok (Some [x03])) as H by (vm_compute; reflexivity).
  split; [exact H | refine (trie_proof_sound _ _ _ _ sample_pairs_ok _ H)].
  apply (bool_decide_eq_true_1 _). vm_compute. reflexivity.
Defined.

Lemma patricia_root_commits_witness :
  patricia_root sample_pairs = patricia_root (rev (drop 1 sample_pairs)).
Proof.
  assert (pairs_ok (rev (drop 1 sample_pairs))) as H by (repeat constructor).
  apply (proj1 (patricia_root_commits _ _ sample_pairs_ok H)).
  intros k. simpl. repeat case_decide; congruence.
Defined.
