(* ===== verification/State.v ===== *)
(** * The in-memory state database: [crates/ivory-state/src/state.rs]

    [StateDB] holds three maps behind [Arc<RwLock<_>>]; the clones of a handle
    share them, so a handle is the map contents threaded through the operations,
    and [fork] is a copy.  [HashMap] iteration order is [map_to_list]'s;
    [live_pairs_order] and [sync_spec] show that no result depends on it. *)

From S2P Require Import Prelude Hash Hex Uint UintFacts UintProps Address Bincode Core.
From S2P Require Import Trie TrieFacts TrieProps.
#[local] Open Scope Z_scope.

Record StateDB : Type := mkStateDB {
  accounts : gmap Address Account;
  storage : gmap (Address * H256) U256;
  code : gmap Address bytes }.

Record StateSnapshot : Type := mkStateSnapshot {
  snap_accounts : list (Address * Account);
  snap_storage : list (Address * H256 * U256);
  snap_code : list (Address * bytes) }.

Definition with_nonce (n : Z) (a : Account) : Account :=
  mkAccount n (acc_balance a) (acc_code_hash a) (acc_storage_root a).
Definition with_balance (b : U256) (a : Account) : Account :=
  mkAccount (acc_nonce a) b (acc_code_hash a) (acc_storage_root a).
Definition with_code_hash (h : H256) (a : Account) : Account :=
  mkAccount (acc_nonce a) (acc_balance a) h (acc_storage_root a).
Definition with_storage_root (h : H256) (a : Account) : Account :=
  mkAccount (acc_nonce a) (acc_balance a) (acc_code_hash a) h.

Module StateDB.
Section StateDB.
Context {BC : BincodeCrate} {SC : Sha3Crate}.

Definition new : StateDB := mkStateDB ∅ ∅ ∅.
Definition fork (s : StateDB) : StateDB := mkStateDB (accounts s) (storage s) (code s).
Definition reset_from (s snapshot : StateDB) : StateDB :=
  mkStateDB (accounts snapshot) (storage snapshot) (code snapshot).

Definition get_account (s : StateDB) (addr : Address) : option Account := accounts s !! addr.

(** The slots of [addr], as key-value byte pairs. *)
Definition storage_pairs (s : StateDB) (addr : Address) : list (bytes * bytes) :=
  omap (fun '((a, slot), val) =>
          if bool_decide (a = addr) && negb (U256.is_zero val)
          then Some (hash_bytes slot, U256.to_be_bytes val) else None)
       (map_to_list (storage s)).

Definition compute_storage_root (s : StateDB) (addr : Address) : H256 :=
  let pairs := storage_pairs s addr in
  match pairs with
  | [] => H256.ZERO
  | _ => patricia_root pairs
  end.

Definition set_accounts (f : gmap Address Account -> gmap Address Account) (s : StateDB) : StateDB :=
  mkStateDB (f (accounts s)) (storage s) (code s).

Definition refresh_storage_root (addr : Address) (s : StateDB) : StateDB :=
  let root := compute_storage_root s addr in
  match accounts s !! addr with
  | Some acc => set_accounts <[addr := with_storage_root root acc]> s
  | None =>
      if decide (root ≠ H256.ZERO)
      then set_accounts <[addr := with_storage_root root account_new]> s else s
  end.

Definition sync_all_storage_roots (s : StateDB) : StateDB :=
  let addrs : gset Address := dom (accounts s) ∪ set_map fst (dom (storage s)) in
  foldl (fun s addr => refresh_storage_root addr s) s (elements addrs).

Definition set_account (addr : Address) (account : Account) (s : StateDB) : StateDB :=
  set_accounts <[addr := with_storage_root (compute_storage_root s addr) account]> s.

Definition get_storage (s : StateDB) (addr : Address) (slot : H256) : U256 :=
  default U256.ZERO (storage s !! (addr, slot)).

Definition set_storage (addr : Address) (slot : H256) (value : U256) (s : StateDB) : StateDB :=
  let storage' :=
    if U256.is_zero value then delete (addr, slot) (storage s)
    else <[(addr, slot) := value]> (storage s) in
  refresh_storage_root addr (mkStateDB (accounts s) storage' (code s)).

Definition get_code (s : StateDB) (addr : Address) : bytes := default [] (code s !! addr).
Definition set_code (addr : Address) (c : bytes) (s : StateDB) : StateDB :=
  mkStateDB (accounts s) (storage s) (<[addr := c]> (code s)).

(** The loop shared by [root_hash], [trie_nodes] and [account_pairs]. *)
Definition live_pairs (s : StateDB) : list (bytes * bytes) :=
  omap (fun '(addr, acc) =>
          if account_is_empty acc then None
          else Some (Address.as_bytes addr, serialize acc))
       (map_to_list (accounts s)).

Definition account_pairs (s : StateDB) : StateDB * list (bytes * bytes) :=
  let s := sync_all_storage_roots s in (s, live_pairs s).
Definition root_hash (s : StateDB) : StateDB * H256 :=
  let s := sync_all_storage_roots s in (s, patricia_root (live_pairs s)).
Definition trie_nodes (s : StateDB) : StateDB * list (H256 * bytes) :=
  let s := sync_all_storage_roots s in (s, (patricia_nodes (live_pairs s)).2).
Definition account_proof (s : StateDB) (addr : Address) : StateDB * TrieProof :=
  let '(s, pairs) := account_pairs s in (s, prove pairs (Address.as_bytes addr)).
Definition storage_proof (s : StateDB) (addr : Address) (slot : H256) : TrieProof :=
  prove (storage_pairs s addr) (hash_bytes slot).

Definition to_snapshot (s : StateDB) : StateSnapshot :=
  mkStateSnapshot
    (map_to_list (accounts s))
    (map (fun '((a, sl), v) => (a, sl, v)) (map_to_list (storage s)))
    (map_to_list (code s)).

(** [into_iter().collect()]: the last of duplicate keys wins. *)
Definition collect_map {K A} `{Countable K} (l : list (K * A)) : gmap K A :=
  foldl (fun m '(k, v) => <[k := v]> m) ∅ l.
Definition from_snapshot (snap : StateSnapshot) : StateDB :=
  mkStateDB (collect_map (snap_accounts snap))
            (collect_map (map (fun '(a, sl, v) => ((a, sl), v)) (snap_storage snap)))
            (collect_map (snap_code snap)).
End StateDB.
End StateDB.

(** [StateSnapshot] in binary form. *)
Definition snapshot_wf (s : StateSnapshot) : Prop :=
  (vec_ok (snap_accounts s) /\ Forall (fun e => account_wf e.2) (snap_accounts s)) /\
  (vec_ok (snap_storage s) /\ Forall (fun e => u256_wf e.2) (snap_storage s)) /\
  (vec_ok (snap_code s) /\ Forall (fun e => vec_ok e.2) (snap_code s)).

#[export] Instance serde_address_account : Serde (Address * Account) := {|
  serde_shape := ShArr 20 ⊗ serde_shape (A := Account);
  to_serde p := (address_h160 p.1, to_serde p.2);
  from_serde d := (mkAddress d.1, from_serde (A := Account) d.2);
  serde_wf p := account_wf p.2 |}.
#[export] Instance serde_storage_slot : Serde (Address * H256 * U256) := {|
  serde_shape := ShArr 20 ⊗ ShArr 32 ⊗ ShArr 32;
  to_serde p := (address_h160 p.1.1, p.1.2, H256.from_u256 p.2);
  from_serde d := (mkAddress d.1.1, d.1.2, H256.to_u256 d.2);
  serde_wf p := u256_wf p.2 |}.
#[export] Instance serde_address_code : Serde (Address * bytes) := {|
  serde_shape := ShArr 20 ⊗ ShBytes;
  to_serde p := (address_h160 p.1, p.2);
  from_serde d := (mkAddress d.1, d.2);
  serde_wf p := vec_ok p.2 |}.
#[export] Instance serde_snapshot : Serde StateSnapshot := {|
  serde_shape := ShSeq (serde_shape (A := Address * Account))
                 ⊗ ShSeq (serde_shape (A := Address * H256 * U256))
                 ⊗ ShSeq (serde_shape (A := Address * bytes));
  to_serde s := (to_serde (A := list (Address * Account)) (snap_accounts s),
                 to_serde (A := list (Address * H256 * U256)) (snap_storage s),
                 to_serde (A := list (Address * bytes)) (snap_code s));
  from_serde d := mkStateSnapshot (from_serde (A := list (Address * Account)) d.1.1)
                    (from_serde (A := list (Address * H256 * U256)) d.1.2)
                    (from_serde (A := list (Address * bytes)) d.2);
  serde_wf := snapshot_wf |}.

#[export] Instance serde_address_account_laws : SerdeLaws (Address * Account).
Proof.
  split.
  - simpl. tauto.
  - intros [[a] acc] H. cbn -[serde_account]. by rewrite (serde_from_to (A := Account)).
  - intros [[a] acc] H. pose proof (serde_to_ok (A := Account) acc H). done.
  - intros [a acc] [_ H]. exact (serde_from_wf (A := Account) acc H).
Qed.
#[export] Instance serde_storage_slot_laws : SerdeLaws (Address * H256 * U256).
Proof.
  split.
  - simpl. tauto.
  - intros [[[a] s] v] H. cbn in *. by rewrite to_from_u256.
  - done.
  - intros d _. apply to_u256_wf.
Qed.
#[export] Instance serde_address_code_laws : SerdeLaws (Address * bytes).
Proof.
  split.
  - simpl. tauto.
  - by intros [[a] c].
  - done.
  - by intros d [_ H].
Qed.
#[export] Instance serde_snapshot_laws : SerdeLaws StateSnapshot.
Proof.
  split.
  - simpl. tauto.
  - intros [a s c] (Ha & Hs & Hc). cbn -[serde_vec] in *.
    by rewrite (serde_from_to (A := list (Address * Account))),
      (serde_from_to (A := list (Address * H256 * U256))),
      (serde_from_to (A := list (Address * bytes))).
  - intros [a s c] (Ha & Hs & Hc).
    pose proof (serde_to_ok (A := list (Address * Account)) a Ha).
    pose proof (serde_to_ok (A := list (Address * H256 * U256)) s Hs).
    pose proof (serde_to_ok (A := list (Address * bytes)) c Hc). done.
  - intros [[a s] c] [[Ha Hs] Hc].
    pose proof (serde_from_wf (A := list (Address * Account)) a Ha).
    pose proof (serde_from_wf (A := list (Address * H256 * U256)) s Hs).
    pose proof (serde_from_wf (A := list (Address * bytes)) c Hc). done.
Qed.
