(* ===== verification/StateProps.v ===== *)
(** * Properties of the state database

    The storage-root invariant, what the state root commits to, membership
    proofs for accounts and slots, and snapshots. *)

From S2P Require Import Prelude Hash Hex Uint UintFacts UintProps Address Bincode Core.
From S2P Require Import Trie TrieFacts TrieProps State.
#[local] Open Scope Z_scope.

(** ** Pairs collected from a map *)

Definition functional (l : list (bytes * bytes)) : Prop :=
  forall b v1 v2, (b, v1) ∈ l -> (b, v2) ∈ l -> v1 = v2.

Lemma alookup_in b v l : alookup b l = Some v -> (b, v) ∈ l.
Proof.
  induction l as [|[b' v'] l IH]; simpl; [done |]. destruct (alookup b l) as [x|].
  - intros H. right. by apply IH.
  - case_decide; [| done]. intros [= <-]. subst. left.
Qed.

Lemma alookup_functional b v l : functional l -> alookup b l = Some v <-> (b, v) ∈ l.
Proof.
  intros Hf. split; [apply alookup_in |]. intros Hin.
  destruct (alookup b l) as [x|] eqn:E.
  - f_equal. apply alookup_in in E. by eapply Hf.
  - exfalso. clear Hf. induction l as [|[b' v'] l IH]; [by apply elem_of_nil in Hin |].
    simpl in E. destruct (alookup b l); [done |]. case_decide; [done |].
    apply elem_of_cons in Hin as [[= -> ->]|Hin]; [done | by apply IH].
Qed.

Lemma functional_perm l1 l2 : l1 ≡ₚ l2 -> functional l1 -> pairs_equiv l1 l2.
Proof.
  intros Hp Hf k. assert (functional l2) as Hf2.
  { intros b v1 v2. rewrite <- !Hp. apply Hf. }
  destruct (alookup k l1) as [v|] eqn:E1.
  - symmetry. apply alookup_functional; [done |]. rewrite <- Hp. by apply alookup_in.
  - destruct (alookup k l2) as [v|] eqn:E2; [| done]. apply alookup_in in E2.
    rewrite <- Hp in E2. apply alookup_functional in E2; [congruence | done].
Qed.

Lemma alookup_nil l : (forall k, alookup k l = None) <-> l = [].
Proof.
  split; [| by intros ->]. destruct l as [|[k v] l]; [done |]. intros H. specialize (H k).
  simpl in H. destruct (alookup k l); [done |]. by rewrite decide_True in H.
Qed.

Section MapPairs.
Context {K A : Type} `{Countable K} (f : K * A -> option (bytes * bytes)).
Hypothesis f_inj : forall k1 a1 k2 a2 b v1 v2,
  f (k1, a1) = Some (b, v1) -> f (k2, a2) = Some (b, v2) -> k1 = k2.

Lemma omap_map_elem (m : gmap K A) b v :
  (b, v) ∈ omap f (map_to_list m) <-> exists k a, m !! k = Some a /\ f (k, a) = Some (b, v).
Proof.
  rewrite list_elem_of_omap. split.
  - intros ([k a] & Hin & Hf). exists k, a. by rewrite <- elem_of_map_to_list.
  - intros (k & a & Hm & Hf). exists (k, a). by rewrite elem_of_map_to_list.
Qed.

Lemma omap_map_functional (m : gmap K A) : functional (omap f (map_to_list m)).
Proof.
  intros b v1 v2. rewrite !omap_map_elem. intros (k1 & a1 & Hm1 & H1) (k2 & a2 & Hm2 & H2).
  pose proof (f_inj _ _ _ _ _ _ _ H1 H2) as ->. congruence.
Qed.

Lemma alookup_omap_map (m : gmap K A) k b :
  (forall a b' v, f (k, a) = Some (b', v) -> b' = b) ->
  (forall k' a v, f (k', a) = Some (b, v) -> k' = k) ->
  alookup b (omap f (map_to_list m)) = a ← m !! k; snd <$> f (k, a).
Proof.
  intros H1 H2. destruct (alookup b _) as [v|] eqn:E.
  - apply alookup_in, omap_map_elem in E as (k' & a & Hm & Hf).
    apply H2 in Hf as Hk. subst. by rewrite Hm; simpl; rewrite Hf.
  - destruct (m !! k) as [a|] eqn:Hm; [| done]. simpl.
    destruct (f (k, a)) as [[b' v]|] eqn:Hf; [| done]. pose proof (H1 _ _ _ Hf) as ->.
    assert ((b, v) ∈ omap f (map_to_list m)) as Hin by (apply omap_map_elem; eauto).
    apply alookup_functional in Hin; [congruence | apply omap_map_functional].
Qed.
End MapPairs.

(** ** Storage roots *)

(** What the Rust types and [set_storage] guarantee. *)
Definition state_wf (s : StateDB) : Prop :=
  map_Forall (fun _ a => account_wf a) (accounts s) /\
  map_Forall (fun _ v => u256_wf v /\ U256.is_zero v = false) (storage s) /\
  map_Forall (fun _ c => vec_ok c) (code s).

Section StateProps.
Context {BC : BincodeCrate} {SC : Sha3Crate}.

Lemma storage_pairs_lookup s addr slot :
  alookup (hash_bytes slot) (StateDB.storage_pairs s addr) =
  v ← storage s !! (addr, slot);
  if U256.is_zero v then None else Some (U256.to_be_bytes v).
Proof.
  unfold StateDB.storage_pairs. rewrite alookup_omap_map with (k := (addr, slot)).
  - destruct (storage s !! (addr, slot)) as [v|]; [| done]. simpl.
    rewrite bool_decide_true by done. by destruct (U256.is_zero v).
  - intros [a1 s1] v1 [a2 s2] v2 b x1 x2 H1 H2.
    destruct (bool_decide (a1 = addr)) eqn:E1, (bool_decide (a2 = addr)) eqn:E2; try done.
    apply bool_decide_eq_true in E1, E2. destruct (U256.is_zero v1), (U256.is_zero v2); try done.
    simplify_eq/=. f_equal. by apply hash_eq.
  - intros v b x H. destruct (bool_decide _ && _); congruence.
  - intros [a1 s1] v x H. destruct (bool_decide (a1 = addr)) eqn:E; [| done].
    apply bool_decide_eq_true in E as ->. destruct (U256.is_zero v); [done |].
    simplify_eq/=. f_equal. by apply hash_eq.
Qed.

Lemma storage_pairs_key s addr b v :
  alookup b (StateDB.storage_pairs s addr) = Some v -> exists slot : H256, b = hash_bytes slot.
Proof.
  intros H%alookup_in. unfold StateDB.storage_pairs in H.
  apply omap_map_elem in H as ([a slot] & x & _ & H).
  exists slot. destruct (bool_decide _ && _); congruence.
Qed.

(** The storage root depends on the slots only. *)
Lemma storage_root_ext s1 s2 addr :
  (forall slot, storage s1 !! (addr, slot) = storage s2 !! (addr, slot)) ->
  StateDB.compute_storage_root s1 addr = StateDB.compute_storage_root s2 addr.
Proof.
  intros E. assert (pairs_equiv (StateDB.storage_pairs s1 addr) (StateDB.storage_pairs s2 addr)) as H.
  { intros k. assert (forall s1 s2 v,
      (forall slot, storage s1 !! (addr, slot) = storage s2 !! (addr, slot)) ->
      alookup k (StateDB.storage_pairs s1 addr) = Some v ->
      alookup k (StateDB.storage_pairs s2 addr) = Some v) as Hdir.
    { clear. intros s1 s2 v E H. destruct (storage_pairs_key _ _ _ _ H) as [slot ->].
      rewrite storage_pairs_lookup in *. by rewrite <- E. }
    destruct (alookup k (StateDB.storage_pairs s1 addr)) eqn:E1; [symmetry; by eapply Hdir |].
    destruct (alookup k (StateDB.storage_pairs s2 addr)) eqn:E2; [| done].
    rewrite (Hdir s2 s1) with (v := b) in E1; done. }
  unfold StateDB.compute_storage_root. pose proof (patricia_root_equiv _ _ H) as Hr.
  destruct (StateDB.storage_pairs s1 addr) eqn:E1, (StateDB.storage_pairs s2 addr) eqn:E2; try done.
  - exfalso. by assert (p :: l = []) by (apply alookup_nil; intros k; by rewrite <- (H k)).
  - exfalso. by assert (p :: l = []) by (apply alookup_nil; intros k; by rewrite (H k)).
Qed.

Lemma storage_root_none s addr :
  (forall slot, storage s !! (addr, slot) = None) ->
  StateDB.compute_storage_root s addr = H256.ZERO.
Proof. intros H. by rewrite (storage_root_ext s StateDB.new) by (intros; by rewrite H). Qed.

(** What [refresh_storage_root] makes of an entry. *)
Definition synced (root : H256) (o : option Account) : option Account :=
  match o with
  | Some acc => Some (with_storage_root root acc)
  | None => if decide (root ≠ H256.ZERO) then Some (with_storage_root root account_new) else None
  end.

Lemma synced_idem root o : synced root (synced root o) = synced root o.
Proof. destruct o; simpl; [done |]. by destruct (decide (root ≠ H256.ZERO)) eqn:E; simpl; rewrite ?E. Qed.

Lemma synced_root root acc : synced root (Some acc) = Some acc -> acc_storage_root acc = root.
Proof. simpl. intros [= H]. by rewrite <- H. Qed.

Lemma refresh_storage addr s :
  storage (StateDB.refresh_storage_root addr s) = storage s /\
  code (StateDB.refresh_storage_root addr s) = code s.
Proof.
  unfold StateDB.refresh_storage_root. destruct (accounts s !! addr); [done |]. by case_decide.
Qed.

Lemma refresh_lookup addr s a :
  accounts (StateDB.refresh_storage_root addr s) !! a =
  if decide (addr = a) then synced (StateDB.compute_storage_root s a) (accounts s !! a)
  else accounts s !! a.
Proof.
  unfold StateDB.refresh_storage_root. destruct (decide (addr = a)) as [->|Hne].
  - destruct (accounts s !! a) as [acc|] eqn:E; simpl; [by rewrite lookup_insert_eq |].
    case_decide; simpl; [by rewrite lookup_insert_eq | done].
  - destruct (accounts s !! addr) as [acc|]; simpl; [by rewrite lookup_insert_ne |].
    case_decide; simpl; [by rewrite lookup_insert_ne | done].
Qed.

Lemma refresh_all_spec l s a :
  let s' := foldl (fun s addr => StateDB.refresh_storage_root addr s) s l in
  storage s' = storage s /\ code s' = code s /\
  accounts s' !! a = if decide (a ∈ l) then synced (StateDB.compute_storage_root s a) (accounts s !! a)
                     else accounts s !! a.
Proof.
  revert s; induction l as [|b l IH]; intros s;
    cbn [foldl]; [by rewrite decide_False by apply not_elem_of_nil |].
  destruct (IH (StateDB.refresh_storage_root b s)) as (-> & -> & ->).
  destruct (refresh_storage b s) as [Hs Hc]. rewrite Hs, Hc. split_and!; try done.
  rewrite (storage_root_ext _ s) by (by rewrite Hs). rewrite refresh_lookup.
  destruct (decide (a ∈ l)) as [Hin|Hin].
  - rewrite (decide_True (P := a ∈ b :: l)) by (by right).
    case_decide; [apply synced_idem | done].
  - case_decide as Hb.
    + subst. by rewrite decide_True by left.
    + rewrite decide_False; [done |]. intros [->|]%elem_of_cons; done.
Qed.

Lemma sync_spec s :
  storage (StateDB.sync_all_storage_roots s) = storage s /\
  code (StateDB.sync_all_storage_roots s) = code s /\
  forall a, accounts (StateDB.sync_all_storage_roots s) !! a =
            synced (StateDB.compute_storage_root s a) (accounts s !! a).
Proof.
  unfold StateDB.sync_all_storage_roots.
  set (l := elements (dom (accounts s) ∪ set_map fst (dom (storage s)))).
  split_and!; [apply (refresh_all_spec l s Address.ZERO)
    | apply (refresh_all_spec l s Address.ZERO) |].
  intros a. destruct (refresh_all_spec l s a) as (_ & _ & ->).
  destruct (decide (a ∈ l)) as [Hin|Hin]; [done |].
  unfold l in Hin. rewrite elem_of_elements, elem_of_union, elem_of_map in Hin.
  assert (accounts s !! a = None) as ->.
  { apply not_elem_of_dom. tauto. }
  simpl. rewrite decide_False; [done |]. intros Hr. apply Hr. apply storage_root_none.
  intros slot. apply not_elem_of_dom. intros Hd. apply Hin. right. by exists (a, slot).
Qed.

(** ** The invariant *)

Definition roots_synced (s : StateDB) : Prop :=
  forall a, synced (StateDB.compute_storage_root s a) (accounts s !! a) = accounts s !! a.
Definition state_inv (s : StateDB) : Prop := state_wf s /\ roots_synced s.

Lemma state_eq (s1 s2 : StateDB) :
  accounts s1 = accounts s2 -> storage s1 = storage s2 -> code s1 = code s2 -> s1 = s2.
Proof. destruct s1, s2; simpl; congruence. Qed.

Lemma sync_id s : roots_synced s -> StateDB.sync_all_storage_roots s = s.
Proof.
  intros H. destruct (sync_spec s) as (Hs & Hc & Ha). apply state_eq; try done.
  apply map_eq. intros a. by rewrite Ha, H.
Qed.

Lemma new_inv : state_inv StateDB.new.
Proof.
  split; [split_and!; apply map_Forall_empty |]. intros a. simpl. rewrite lookup_empty.
  by rewrite storage_root_none by (intros; apply lookup_empty).
Qed.

Lemma with_storage_root_wf r a : account_wf a -> account_wf (with_storage_root r a).
Proof. done. Qed.
Lemma account_new_wf : account_wf account_new.
Proof. split; [done | auto with ivory]. Qed.

Lemma set_account_inv addr acc s :
  account_wf acc -> state_inv s -> state_inv (StateDB.set_account addr acc s).
Proof.
  intros Hacc [(Ha & Hs & Hc) Hr]. split.
  - split_and!; try done. by apply map_Forall_insert_2.
  - intros a. rewrite (storage_root_ext _ s) by done. simpl.
    destruct (decide (addr = a)) as [->|Hne].
    + by rewrite lookup_insert_eq.
    + by rewrite lookup_insert_ne, Hr.
Qed.

Lemma refresh_wf addr s : state_wf s -> state_wf (StateDB.refresh_storage_root addr s).
Proof.
  intros (Ha & Hs & Hc). unfold StateDB.refresh_storage_root.
  destruct (accounts s !! addr) as [acc|] eqn:E.
  - split_and!; try done. apply map_Forall_insert_2; [| done]. by apply Ha in E.
  - case_decide; [| by split_and!]. split_and!; try done.
    apply map_Forall_insert_2; [apply account_new_wf | done].
Qed.

Lemma set_storage_inv addr slot v s :
  u256_wf v -> state_inv s -> state_inv (StateDB.set_storage addr slot v s).
Proof.
  intros Hv [(Ha & Hs & Hc) Hr]. unfold StateDB.set_storage. set (s1 := mkStateDB _ _ _).
  split.
  - apply refresh_wf. split_and!; try done. simpl. destruct (U256.is_zero v) eqn:Hz.
    + by apply map_Forall_delete.
    + by apply map_Forall_insert_2.
  - intros a. destruct (refresh_storage addr s1) as [Hst _].
    rewrite (storage_root_ext _ s1) by (by rewrite Hst). rewrite refresh_lookup.
    case_decide as Hd; [apply synced_idem |].
    rewrite (storage_root_ext s1 s); [apply Hr |]. intros slot'. simpl.
    destruct (U256.is_zero v); [apply lookup_delete_ne | apply lookup_insert_ne]; congruence.
Qed.

Lemma set_code_inv addr c s : vec_ok c -> state_inv s -> state_inv (StateDB.set_code addr c s).
Proof.
  intros Hv [(Ha & Hs & Hc) Hr]. split.
  - split_and!; try done. by apply map_Forall_insert_2.
  - intros a. rewrite (storage_root_ext _ s) by done. apply Hr.
Qed.

Lemma get_set_storage addr slot v s a sl :
  u256_wf v -> state_wf s ->
  StateDB.get_storage (StateDB.set_storage addr slot v s) a sl =
  if decide ((addr, slot) = (a, sl)) then v else StateDB.get_storage s a sl.
Proof.
  intros Hv _. unfold StateDB.get_storage, StateDB.set_storage.
  rewrite (proj1 (refresh_storage _ _)). simpl. destruct (U256.is_zero v) eqn:Hz.
  - destruct (decide _) as [E|E]; [rewrite <- E, lookup_delete_eq | by rewrite lookup_delete_ne].
    simpl. apply u256_val_inj; auto with ivory.
    rewrite is_zero_spec in Hz by done. zbool. by rewrite Hz.
  - destruct (decide _) as [E|E]; [by rewrite <- E, lookup_insert_eq | by rewrite lookup_insert_ne].
Qed.

(** ** Accounts in the trie *)

Lemma live_pairs_lookup s addr :
  alookup (Address.as_bytes addr) (StateDB.live_pairs s) =
  acc ← accounts s !! addr; if account_is_empty acc then None else Some (serialize acc).
Proof.
  unfold StateDB.live_pairs. rewrite alookup_omap_map with (k := addr).
  - destruct (accounts s !! addr) as [acc|]; [| done]. simpl. by destruct (account_is_empty acc).
  - intros a1 c1 a2 c2 b v1 v2 H1 H2. destruct (account_is_empty c1), (account_is_empty c2); try done.
    simplify_eq. by apply address_eq.
  - intros acc b v H. destruct (account_is_empty acc); congruence.
  - intros a acc v H. destruct (account_is_empty acc); [done |]. simplify_eq. by apply address_eq.
Qed.

Lemma live_pairs_functional s : functional (StateDB.live_pairs s).
Proof.
  apply omap_map_functional. intros a1 c1 a2 c2 b v1 v2 H1 H2.
  destruct (account_is_empty c1), (account_is_empty c2); try done.
  simplify_eq. by apply address_eq.
Qed.

(** The order in which [HashMap::iter] visits the accounts does not matter. *)
Lemma live_pairs_order s pairs :
  pairs ≡ₚ StateDB.live_pairs s -> patricia_root pairs = patricia_root (StateDB.live_pairs s).
Proof.
  intros Hp. apply patricia_root_equiv. symmetry.
  apply functional_perm; [by symmetry | apply live_pairs_functional].
Qed.

Context {BL : BincodeLaws}.

Lemma account_size acc : length (serialize (A := Account) acc) = 104%nat.
Proof. by apply (bincode_size (serde_shape (A := Account))). Qed.

Lemma live_pairs_ok s : pairs_ok (StateDB.live_pairs s).
Proof.
  apply Forall_forall. intros [b v] H. apply omap_map_elem in H as (a & acc & _ & H).
  destruct (account_is_empty acc); [done |]. simplify_eq. rewrite address_length.
  split; [done |]. unfold vec_ok. by rewrite account_size.
Qed.

Lemma storage_pairs_ok s addr : pairs_ok (StateDB.storage_pairs s addr).
Proof.
  apply Forall_forall. intros [b v] H. apply omap_map_elem in H as ([a slot] & x & _ & H).
  destruct (bool_decide _ && _); [| done]. simplify_eq. rewrite hash_length.
  split; [done |]. unfold vec_ok. by rewrite to_be_bytes_length.
Qed.
End StateProps.

(** ** Reachable states *)

Section Properties.
Context {BC : BincodeCrate} {BL : BincodeLaws} {SC : Sha3Crate}.

(** Everything a client of [StateDB] can do to its maps. *)
Inductive state_reachable : StateDB -> Prop :=
| reach_new : state_reachable StateDB.new
| reach_set_account s addr acc :
    state_reachable s -> account_wf acc -> state_reachable (StateDB.set_account addr acc s)
| reach_set_storage s addr slot v :
    state_reachable s -> u256_wf v -> state_reachable (StateDB.set_storage addr slot v s)
| reach_set_code s addr c :
    state_reachable s -> vec_ok c -> state_reachable (StateDB.set_code addr c s)
| reach_root_hash s : state_reachable s -> state_reachable (StateDB.root_hash s).1
| reach_fork s : state_reachable s -> state_reachable (StateDB.fork s)
| reach_reset s s' :
    state_reachable s -> state_reachable s' -> state_reachable (StateDB.reset_from s s').

Lemma reachable_inv s : state_reachable s -> state_inv s.
Proof.
  induction 1; eauto using new_inv, set_account_inv, set_storage_inv, set_code_inv.
  simpl. by rewrite sync_id by apply IHstate_reachable.
Qed.

(** In every state reachable through the database's operations, each
    account's [storage_root] is the Patricia root of its current slots, an
    address without an account has no slots with a non-zero root, and
    therefore computing the state root (which re-synchronises every storage
    root) changes nothing. *)
Theorem storage_roots_current s :
  state_reachable s ->
  (forall a acc, StateDB.get_account s a = Some acc ->
     acc_storage_root acc = StateDB.compute_storage_root s a) /\
  (forall a, StateDB.get_account s a = None -> StateDB.compute_storage_root s a = H256.ZERO) /\
  (StateDB.root_hash s).1 = s.
Proof.
  intros Hs. pose proof (reachable_inv s Hs) as [_ Hr]. split_and!.
  - intros a acc E. specialize (Hr a). unfold StateDB.get_account in E. rewrite E in Hr.
    by apply synced_root.
  - intros a E. specialize (Hr a). unfold StateDB.get_account in E. rewrite E in Hr. simpl in Hr.
    by case_decide as Hd.
  - simpl. by apply sync_id.
Qed.

(** The value a proof for [addr] must return. *)
Definition live_account (s : StateDB) (addr : Address) : option Account :=
  acc ← StateDB.get_account s addr; if account_is_empty acc then None else Some acc.
Definition slot_value (s : StateDB) (addr : Address) (slot : H256) : option bytes :=
  v ← storage s !! (addr, slot); if U256.is_zero v then None else Some (U256.to_be_bytes v).

Lemma live_pairs_live s addr :
  alookup (Address.as_bytes addr) (StateDB.live_pairs s) = serialize <$> live_account s addr.
Proof.
  rewrite live_pairs_lookup. unfold live_account, StateDB.get_account.
  destruct (accounts s !! addr) as [acc|]; [| done]. simpl. by destruct (account_is_empty acc).
Qed.

(** The strings hashed for the state root, and for the storage root of [addr]:
    the node encodings of the two tries. *)
Definition live_encodings (s : StateDB) : list bytes := trie_encodings (StateDB.live_pairs s).
Definition slot_encodings (s : StateDB) (addr : Address) : list bytes :=
  trie_encodings (StateDB.storage_pairs s addr).

(** Light clients can rely on the proofs the node serves: against the
    state root, [account_proof] verifies to the encoding of the account (or to
    its absence when it is missing or empty); and when the account owns a slot,
    [storage_proof] verifies against the [storage_root] recorded in that account,
    to the slot's value or its absence, when no two encodings of the nodes of
    the trie at hand collide. *)
Theorem state_proofs_verify s addr slot :
  state_reachable s ->
  (coll_free (live_encodings s) ->
   verify (StateDB.root_hash s).2 (Address.as_bytes addr)
      (proof_nodes (StateDB.account_proof s addr).2) = Ok (serialize <$> live_account s addr)) /\
  (coll_free (slot_encodings s addr) ->
   forall acc sl v, StateDB.get_account s addr = Some acc -> storage s !! (addr, sl) = Some v ->
      verify (acc_storage_root acc) (hash_bytes slot)
        (proof_nodes (StateDB.storage_proof s addr slot)) = Ok (slot_value s addr slot)).
Proof.
  intros Hs. pose proof (reachable_inv s Hs) as [Hwf Hr].
  unfold StateDB.root_hash, StateDB.account_proof, StateDB.account_pairs. simpl.
  rewrite sync_id by done.
  split.
  { intros C. destruct (prove_spec (StateDB.live_pairs s) (Address.as_bytes addr) (live_pairs_ok s) C)
      as [_ Ha]. by rewrite Ha, live_pairs_live. }
  intros C. destruct (prove_spec (StateDB.storage_pairs s addr) (hash_bytes slot)
    (storage_pairs_ok s addr) C) as [_ Hst]. intros acc sl v Hacc Hv.
  specialize (Hr addr). unfold StateDB.get_account in Hacc. rewrite Hacc in Hr.
  apply synced_root in Hr as ->.
  rewrite storage_pairs_lookup in Hst. unfold StateDB.compute_storage_root, StateDB.storage_proof.
  destruct (StateDB.storage_pairs s addr) eqn:E; [| exact Hst]. exfalso.
  pose proof (storage_pairs_lookup s addr sl) as Hl. rewrite E, Hv in Hl. simpl in Hl.
  destruct Hwf as (_ & Hsto & _). destruct (Hsto _ _ Hv) as [_ Hz]. by rewrite Hz in Hl.
Qed.

(** The root is the digest of one of the encodings. *)
Lemma patricia_root_digest pairs :
  pairs_ok pairs -> exists b, b ∈ trie_encodings pairs /\ keccak256 b = patricia_root pairs.
Proof.
  intros Hok. unfold patricia_root, trie_encodings. destruct (patricia_nodes pairs) as [r o] eqn:E.
  apply patricia_nodes_repr in E as (_ & fuel & n & -> & Hst & _); [| done].
  exists (serialize n). split; [by apply stored_encoding in Hst | done].
Qed.

(** The sentinel root of an account without storage is not the root of a trie. *)
Lemma patricia_root_nonzero pairs :
  pairs_ok pairs -> zero_free (trie_encodings pairs) -> patricia_root pairs ≠ H256.ZERO.
Proof. intros (b & Hb & <-)%patricia_root_digest Hz. by apply Hz. Qed.

Lemma storage_root_slots s1 s2 addr :
  state_wf s1 -> state_wf s2 ->
  coll_free (slot_encodings s1 addr ++ slot_encodings s2 addr) ->
  zero_free (slot_encodings s1 addr ++ slot_encodings s2 addr) ->
  StateDB.compute_storage_root s1 addr = StateDB.compute_storage_root s2 addr ->
  forall slot, StateDB.get_storage s1 addr slot = StateDB.get_storage s2 addr slot.
Proof.
  intros (_ & W1 & _) (_ & W2 & _) C Z E.
  assert (pairs_equiv (StateDB.storage_pairs s1 addr) (StateDB.storage_pairs s2 addr)) as H.
  { unfold StateDB.compute_storage_root in E. unfold slot_encodings in C, Z.
    pose proof (storage_pairs_ok s1 addr) as P1. pose proof (storage_pairs_ok s2 addr) as P2.
    pose proof (patricia_root_nonzero _ P1) as D1. pose proof (patricia_root_nonzero _ P2) as D2.
    destruct (StateDB.storage_pairs s1 addr), (StateDB.storage_pairs s2 addr); [done | | |].
    - destruct D2; [| done]. eapply zero_free_mono, Z; set_solver.
    - destruct D1; [| done]. eapply zero_free_mono, Z; set_solver.
    - by apply patricia_root_inj. }
  intros slot. specialize (H (hash_bytes slot)). rewrite !storage_pairs_lookup in H.
  unfold StateDB.get_storage.
  destruct (storage s1 !! (addr, slot)) as [v1|] eqn:E1;
    destruct (storage s2 !! (addr, slot)) as [v2|] eqn:E2; simpl in *.
  - destruct (W1 _ _ E1) as [Hv1 Hz1], (W2 _ _ E2) as [Hv2 Hz2]. rewrite Hz1, Hz2 in H.
    apply (inj Some) in H. rewrite <- (from_to_be_bytes v1), <- (from_to_be_bytes v2) by done.
    by rewrite H.
  - destruct (W1 _ _ E1) as [_ Hz1]. by rewrite Hz1 in H.
  - destruct (W2 _ _ E2) as [_ Hz2]. by rewrite Hz2 in H.
  - done.
Qed.

Lemma live_account_inj s1 s2 addr :
  state_wf s1 -> state_wf s2 ->
  serialize <$> live_account s1 addr = serialize <$> live_account s2 addr ->
  live_account s1 addr = live_account s2 addr.
Proof.
  intros (W1 & _) (W2 & _). unfold live_account, StateDB.get_account.
  destruct (accounts s1 !! addr) as [a1|] eqn:E1, (accounts s2 !! addr) as [a2|] eqn:E2; simpl; try done;
    repeat (match goal with |- context [account_is_empty ?a] => destruct (account_is_empty a) end);
    simpl; try done.
  intros [= H]. f_equal. apply (serialize_inj (A := Account)); [by eapply W1 | by eapply W2 | done].
Qed.

Lemma root_commits s1 s2 :
  state_inv s1 -> state_inv s2 ->
  coll_free (live_encodings s1 ++ live_encodings s2) ->
  (StateDB.root_hash s1).2 = (StateDB.root_hash s2).2 ->
  forall addr,
  live_account s1 addr = live_account s2 addr /\
  (coll_free (slot_encodings s1 addr ++ slot_encodings s2 addr) ->
   zero_free (slot_encodings s1 addr ++ slot_encodings s2 addr) ->
   live_account s1 addr ≠ None ->
   forall slot, StateDB.get_storage s1 addr slot = StateDB.get_storage s2 addr slot).
Proof.
  intros [W1 R1] [W2 R2] C E addr.
  unfold StateDB.root_hash in E. simpl in E. rewrite !sync_id in E by done.
  pose proof (patricia_root_inj _ _ (live_pairs_ok s1) (live_pairs_ok s2) C E) as Hp.
  specialize (Hp (Address.as_bytes addr)). rewrite !live_pairs_live in Hp.
  apply live_account_inj in Hp; [| done | done].
  assert (forall s acc, roots_synced s -> live_account s addr = Some acc ->
            acc_storage_root acc = StateDB.compute_storage_root s addr) as Hroot.
  { clear. intros s acc Hr H. specialize (Hr addr). unfold live_account, StateDB.get_account in H.
    destruct (accounts s !! addr) as [a|]; [| done]. cbn in H.
    destruct (account_is_empty a); [done |]. apply (inj Some) in H as <-. by apply synced_root. }
  split; [done |]. intros Cs Zs Hne.
  destruct (live_account s1 addr) as [acc|] eqn:L1; [| done].
  symmetry in Hp. pose proof (Hroot s1 _ R1 L1) as Hr1. pose proof (Hroot s2 _ R2 Hp) as Hr2.
  apply storage_root_slots; [done.. | congruence].
Qed.

(** C12: The state root commits to the ledger: two reachable states with the
    same root agree on every account that is not empty (nonce, balance, code
    hash and storage root), when no two node encodings of their two account
    tries collide; and on every storage slot of such an account, when no two
    node encodings of its two storage tries collide and none of them has the
    all-zero digest. *)
Theorem state_root_commits s1 s2 :
  state_reachable s1 -> state_reachable s2 ->
  coll_free (live_encodings s1 ++ live_encodings s2) ->
  (StateDB.root_hash s1).2 = (StateDB.root_hash s2).2 ->
  forall addr,
  live_account s1 addr = live_account s2 addr /\
  (coll_free (slot_encodings s1 addr ++ slot_encodings s2 addr) ->
   zero_free (slot_encodings s1 addr ++ slot_encodings s2 addr) ->
   live_account s1 addr ≠ None ->
   forall slot, StateDB.get_storage s1 addr slot = StateDB.get_storage s2 addr slot).
Proof. intros H1%reachable_inv H2%reachable_inv. by apply root_commits. Qed.

Lemma collect_map_rev {K A} `{Countable K} (l : list (K * A)) :
  StateDB.collect_map l = list_to_map (rev l).
Proof.
  unfold StateDB.collect_map. induction l as [|[k v] l IH] using rev_ind; [done |].
  by rewrite foldl_app, rev_app_distr; simpl; rewrite IH.
Qed.

Lemma collect_map_lookup {K A} `{Countable K} (l : list (K * A)) k v :
  NoDup (map fst l) -> StateDB.collect_map l !! k = Some v <-> (k, v) ∈ l.
Proof.
  intros Hnd. rewrite collect_map_rev. rewrite <- elem_of_list_to_map.
  - by rewrite <- Permutation_rev.
  - change (NoDup (map fst (rev l))). by rewrite map_rev, <- Permutation_rev.
Qed.

Lemma collect_map_to_list {K A} `{Countable K} (m : gmap K A) :
  StateDB.collect_map (map_to_list m) = m.
Proof.
  rewrite collect_map_rev. rewrite <- (list_to_map_to_list m) at 2. apply list_to_map_proper.
  - change (NoDup (map fst (rev (map_to_list m)))).
    rewrite map_rev, <- Permutation_rev. apply NoDup_fst_map_to_list.
  - by rewrite <- Permutation_rev.
Qed.

Lemma from_to_snapshot s : StateDB.from_snapshot (StateDB.to_snapshot s) = s.
Proof.
  unfold StateDB.from_snapshot, StateDB.to_snapshot. simpl. rewrite map_map.
  rewrite (map_ext _ id), map_id by (by intros [[a sl] v]).
  rewrite !collect_map_to_list. by destruct s.
Qed.

Definition state_sized (s : StateDB) : Prop :=
  Z.of_nat (size (accounts s)) < M64 /\ Z.of_nat (size (storage s)) < M64 /\
  Z.of_nat (size (code s)) < M64.

Lemma map_list_ok {K A} `{Countable K} (m : gmap K A) :
  Z.of_nat (size m) < M64 -> vec_ok (map_to_list m).
Proof. unfold vec_ok. by rewrite length_map_to_list. Qed.

Lemma map_list_Forall {K A} `{Countable K} (P : A -> Prop) (m : gmap K A) :
  map_Forall (fun _ => P) m -> Forall (fun e => P e.2) (map_to_list m).
Proof. intros Hm%map_Forall_to_list. eapply Forall_impl; [exact Hm |]. by intros []. Qed.

Lemma to_snapshot_wf s : state_wf s -> state_sized s -> snapshot_wf (StateDB.to_snapshot s).
Proof.
  intros (Ha & Hs & Hc) (Na & Ns & Nc). unfold snapshot_wf, StateDB.to_snapshot. simpl.
  split_and!; try (by apply map_list_ok); try (by apply map_list_Forall).
  - unfold vec_ok. rewrite length_map, length_map_to_list. done.
  - apply Forall_map. apply map_list_Forall in Hs. eapply Forall_impl; [exact Hs |].
    intros [[a sl] v] [Hv _]. exact Hv.
Qed.

(** A persisted snapshot restores the state exactly: taking a snapshot,
    encoding it, decoding it and rebuilding the maps gives back every account,
    slot and code entry (and hence the same state root). *)
Theorem snapshot_roundtrip s :
  state_wf s -> state_sized s ->
  StateDB.from_snapshot <$> deserialize (serialize (StateDB.to_snapshot s)) = Some s.
Proof.
  intros Hw Hn. rewrite deserialize_serialize by (by apply to_snapshot_wf).
  simpl. by rewrite from_to_snapshot.
Qed.
End Properties.

(** ** Witnesses *)

Definition sample_slot : H256 := Hash.from_u64 1.
Definition sample_state : StateDB :=
  StateDB.set_storage (sample_address x02) sample_slot (U256.from_u64 42)
    (StateDB.set_account (sample_address x01)
       (with_balance (U256.from_u64 1000000) account_new) StateDB.new).

Lemma sample_state_reachable : state_reachable sample_state.
Proof.
  apply reach_set_storage; [apply reach_set_account; [apply reach_new |] |].
  - split; [done | by apply u256_wf_mk].
  - by apply u256_wf_mk.
Qed.

Lemma storage_roots_current_witness :
  StateDB.compute_storage_root sample_state (sample_address x02) ≠ H256.ZERO /\
  (StateDB.root_hash sample_state).1 = sample_state.
Proof.
  split; [| exact (proj2 (proj2 (storage_roots_current _ sample_state_reachable)))].
  apply (bool_decide_unpack _). vm_compute. exact I.
Defined.

Lemma state_proofs_verify_witness :
  is_Some (storage sample_state !! (sample_address x02, sample_slot)) /\
  verify (StateDB.root_hash sample_state).2 (Address.as_bytes (sample_address x01))
      (proof_nodes (StateDB.account_proof sample_state (sample_address x01)).2)
    = Ok (serialize <$> live_account sample_state (sample_address x01)).
Proof.
  split; [apply (bool_decide_unpack _); vm_compute; exact I |].
  apply (proj1 (state_proofs_verify sample_state (sample_address x01) sample_slot
                  sample_state_reachable)).
  apply (bool_decide_eq_true_1 _). vm_compute. reflexivity.
Defined.

(** The same ledger written in another order: an account is created empty and
    funded later, and a slot is written twice. *)
Definition sample_state' : StateDB :=
  StateDB.set_account (sample_address x01) (with_balance (U256.from_u64 1000000) account_new)
    (StateDB.set_storage (sample_address x02) sample_slot (U256.from_u64 42)
       (StateDB.set_storage (sample_address x02) sample_slot (U256.from_u64 7)
          (StateDB.set_account (sample_address x01) account_new StateDB.new))).

Lemma sample_state_reachable' : state_reachable sample_state'.
Proof.
  apply reach_set_account; [| split; [done | by apply u256_wf_mk]].
  apply reach_set_storage; [apply reach_set_storage; [| by apply u256_wf_mk] | by apply u256_wf_mk].
  apply reach_set_account; [apply reach_new | split; [done | by apply u256_wf_mk]].
Qed.

Lemma state_root_commits_witness :
  is_Some (live_account sample_state' (sample_address x02)) /\
  live_account sample_state (sample_address x02) = live_account sample_state' (sample_address x02) /\
  StateDB.get_storage sample_state (sample_address x02) sample_slot =
  StateDB.get_storage sample_state' (sample_address x02) sample_slot.
Proof.
  split; [apply (bool_decide_unpack _); vm_compute; exact I |].
  destruct (state_root_commits sample_state sample_state' sample_state_reachable
    sample_state_reachable') with (addr := sample_address x02) as [Ha Hs].
  - apply (bool_decide_eq_true_1 _). vm_compute. reflexivity.
  - apply (bool_decide_eq_true_1 _). vm_compute. reflexivity.
  - split; [exact Ha | apply Hs].
    + apply (bool_decide_eq_true_1 _). vm_compute. reflexivity.
    + apply (bool_decide_eq_true_1 _). vm_compute. reflexivity.
    + apply (bool_decide_eq_true_1 _). vm_compute. reflexivity.
Defined.

Lemma snapshot_roundtrip_witness :
  StateDB.from_snapshot <$> deserialize (serialize (StateDB.to_snapshot sample_state))
  = Some sample_state.
Proof.
  apply snapshot_roundtrip; [apply (reachable_inv _ sample_state_reachable) |].
  split; [| split]; vm_compute; reflexivity.
Defined.
