(* ===== verification/Crypto.v ===== *)
(** * Keys and signatures: [crates/ivory-crypto/src]

    Ed25519 is the [ed25519-dalek] crate: the parameter [Ed25519Crate], with its
    correctness law [Ed25519Laws] (a signature made with a secret key verifies
    under the derived public key).  Unforgeability is not assumed anywhere. *)

From S2P Require Import Prelude Hex Uint UintFacts Hash Address Bincode Core.
#[local] Open Scope Z_scope.

Inductive CryptoError : Type :=
| InvalidSignature
| InvalidPublicKey
| InvalidSecretKey
| KeyMismatch.

#[export] Instance CryptoError_eq_dec : EqDecision CryptoError.
Proof. solve_decision. Defined.

Class Ed25519Crate := {
  ed_verifying_key : H256 -> H256;
  ed_sign : H256 -> bytes -> H512;
  ed_valid_key : H256 -> bool;
  ed_verify : H256 -> bytes -> H512 -> bool }.

Class Ed25519Laws `{Ed25519Crate} : Prop := {
  ed_key_valid sk : ed_valid_key (ed_verifying_key sk) = true;
  ed_sign_verify sk msg : ed_verify (ed_verifying_key sk) msg (ed_sign sk msg) = true }.

(** A scheme to compute with in the witnesses (not secure: the keys coincide). *)
Definition toy_sign (sk : H256) (msg : bytes) : H512 :=
  fit 64 (hash_bytes (toy_digest (hash_bytes sk ++ msg))).
#[export] Instance ed25519_toy : Ed25519Crate := {|
  ed_verifying_key sk := sk;
  ed_sign := toy_sign;
  ed_valid_key _ := true;
  ed_verify pk msg sig := bool_decide (sig = toy_sign pk msg) |}.
#[export] Instance ed25519_toy_laws : Ed25519Laws.
Proof. split; [done |]. intros. by apply bool_decide_eq_true. Qed.

Section Crypto.
Context {BC : BincodeCrate} {SC : Sha3Crate} {EC : Ed25519Crate}.

(** [sign.rs] *)
Definition sign (message : bytes) (sk : SecretKey) : Signature :=
  mkSignature (ed_sign (secret_key_h256 sk) message).

Definition verify_sig (message : bytes) (signature : Signature) (pk : PublicKey) :
    result unit CryptoError :=
  if ed_valid_key (public_key_h256 pk) then
    if ed_verify (public_key_h256 pk) message (signature_h512 signature) then Ok tt
    else Err InvalidSignature
  else Err InvalidPublicKey.

(** [keys.rs] *)
Definition address_from_public_key (pk : PublicKey) : Address :=
  Address.from_h256 (keccak256 (PublicKey.as_bytes pk)).
Definition public_key_from_secret (sk : SecretKey) : PublicKey :=
  mkPublicKey (ed_verifying_key (secret_key_h256 sk)).
Definition address_from_secret (sk : SecretKey) : Address :=
  address_from_public_key (public_key_from_secret sk).
Definition keypair_from_seed (seed : H256) : SecretKey * PublicKey * Address :=
  let sk := mkSecretKey seed in
  let pk := mkPublicKey (ed_verifying_key seed) in
  (sk, pk, address_from_public_key pk).
Definition keypair_from_byte (b : byte) : SecretKey * PublicKey * Address :=
  keypair_from_seed (Hash.from_bytes (replicate 32 b)).
Definition secret_from_bytes (bs : H256) : result SecretKey CryptoError := Ok (mkSecretKey bs).

(** [tx.rs] *)
Definition recover_sender (tx : Transaction) : result Address CryptoError :=
  let addr := address_from_public_key (tx_public_key tx) in
  if decide (addr ≠ tx_from tx) then Err KeyMismatch
  else
    let? _ := verify_sig (hash_bytes (signing_hash tx)) (tx_signature tx) (tx_public_key tx) in
    Ok addr.

Definition sign_transaction (tx : Transaction) (sk : SecretKey) : Transaction :=
  let pk := public_key_from_secret sk in
  let tx := mkTransaction (address_from_public_key pk) (tx_to tx) (tx_value tx) (tx_data tx)
              (tx_gas_price tx) (tx_gas tx) (tx_nonce tx) (tx_signature tx) pk in
  mkTransaction (tx_from tx) (tx_to tx) (tx_value tx) (tx_data tx) (tx_gas_price tx)
    (tx_gas tx) (tx_nonce tx) (sign (hash_bytes (signing_hash tx)) sk) (tx_public_key tx).

Definition signed_tx (sk : SecretKey) (to : option Address) (nonce : Z) (value : U256) (gas : Z)
    (gas_price : U256) (data : bytes) : Transaction :=
  sign_transaction
    (mkTransaction Address.ZERO to value data gas_price gas nonce Signature.ZERO PublicKey.ZERO) sk.

Definition signed_transfer (sk : SecretKey) (to : Address) (nonce : Z) (value : U256) (gas : Z) :
    Transaction :=
  signed_tx sk (Some to) nonce value gas U256.ONE [].

(** ** Lemmas *)

Lemma verify_sig_ok msg sig pk :
  verify_sig msg sig pk = Ok tt <->
  ed_valid_key (public_key_h256 pk) = true /\
  ed_verify (public_key_h256 pk) msg (signature_h512 sig) = true.
Proof.
  unfold verify_sig. destruct (ed_valid_key _), (ed_verify _ _ _); split; naive_solver.
Qed.

Lemma recover_sender_ok tx a :
  recover_sender tx = Ok a <->
  a = tx_from tx /\ address_from_public_key (tx_public_key tx) = tx_from tx /\
  verify_sig (hash_bytes (signing_hash tx)) (tx_signature tx) (tx_public_key tx) = Ok tt.
Proof.
  unfold recover_sender. destruct (decide _) as [H|H].
  - split; [done |]. naive_solver.
  - apply dec_stable in H. rewrite rbind_ok. split.
    + intros ([] & Hv & [= <-]). done.
    + intros (-> & Ha & Hv). exists tt. by rewrite Ha.
Qed.

Context {EL : Ed25519Laws}.

Lemma sign_verify msg sk : verify_sig msg (sign msg sk) (public_key_from_secret sk) = Ok tt.
Proof. apply verify_sig_ok. split; [apply ed_key_valid | apply ed_sign_verify]. Qed.

Lemma recover_signed tx sk :
  recover_sender (sign_transaction tx sk) = Ok (address_from_secret sk).
Proof. apply recover_sender_ok. split_and!; try done. apply sign_verify. Qed.

(** Signing makes a transaction its recipient can attribute: after
    [sign_transaction] with a secret key, [recover_sender] succeeds with the
    address of that key, the transaction's sender is that address, and the
    recipient, value, data, gas and nonce are those that were signed; and
    [recover_sender] succeeds only for the sender named in the transaction, with
    a valid key whose address is the sender's and a signature over exactly
    [signing_hash]. *)
Theorem signed_transaction_attributable tx sk :
  let tx' := sign_transaction tx sk in
  recover_sender tx' = Ok (address_from_secret sk) /\
  tx_from tx' = address_from_secret sk /\
  (tx_to tx', tx_value tx', tx_data tx', tx_gas_price tx', tx_gas tx', tx_nonce tx') =
  (tx_to tx, tx_value tx, tx_data tx, tx_gas_price tx, tx_gas tx, tx_nonce tx) /\
  (forall a, recover_sender tx = Ok a ->
     a = tx_from tx /\ address_from_public_key (tx_public_key tx) = tx_from tx /\
     ed_verify (public_key_h256 (tx_public_key tx)) (hash_bytes (signing_hash tx))
       (signature_h512 (tx_signature tx)) = true).
Proof.
  split_and!; [apply recover_signed | done | done |].
  intros a (-> & Ha & Hv)%recover_sender_ok. apply verify_sig_ok in Hv. tauto.
Qed.
End Crypto.

Lemma signed_transaction_attributable_witness :
  let sk := mkSecretKey (Hash.from_bytes (replicate 32 x01)) in
  recover_sender (signed_transfer sk (sample_address x02) 0 U256.ONE 21000)
  = Ok (address_from_secret sk).
Proof.
  intros sk. exact (proj1 (signed_transaction_attributable
    (mkTransaction Address.ZERO (Some (sample_address x02)) U256.ONE [] U256.ONE 21000 0
       Signature.ZERO PublicKey.ZERO) sk)).
Defined.
