(* ===== verification/Keccak.v ===== *)
(** * Keccak-256 as published, and the repository's frozen vectors

    Everywhere else the digest of the [sha3] crate is a parameter.  Here it is
    instantiated with the Keccak specification (the sponge over Keccak-f[1600] with
    rate 1088 and the padding byte 0x01), so that the known answers frozen in the
    repository's tests ([keccak.rs], [address.rs], [ivory-core/tests/vectors.rs]) can
    be computed in the model.  [sha3_toy] stays the instance of the other files. *)

From S2P Require Import Prelude Hex Uint UintFacts Hash.
#[local] Open Scope Z_scope.

Module Keccak.

Definition lane_xor (a b : Z) : Z := Z.lxor a b.
Definition lane_not (a : Z) : Z := Z.lxor a u64_max.
Definition rotl (r x : Z) : Z := Z.lor (Z.land (Z.shiftl x r) u64_max) (Z.shiftr x (64 - r)).

(** A state is five planes [y] of five lanes [x]. *)
Definition state : Type := list (list Z).
Definition blank : state := replicate 5 (replicate 5 0).
Definition nth5 (i : nat) (l : list Z) : Z := nth (i mod 5) l 0.

Definition columns (a : state) : list Z := foldr (zip_with lane_xor) (replicate 5 0) a.
Definition theta (a : state) : state :=
  let c := columns a in
  let d := map (fun x => lane_xor (nth5 (x + 4) c) (rotl 1 (nth5 (x + 1) c))) (seq 0 5) in
  map (zip_with lane_xor d) a.

(** The rotation offsets, plane by plane. *)
Definition offsets : list (list Z) :=
  [[0; 1; 62; 28; 27]; [36; 44; 6; 55; 20]; [3; 10; 43; 25; 39]; [41; 45; 15; 21; 8]; [18; 2; 61; 56; 14]].
Definition rho (a : state) : state := zip_with (zip_with rotl) offsets a.

Definition lane (a : state) (x y : nat) : Z := nth5 x (nth (y mod 5) a []).
(** B[y, 2x+3y] = A[x, y]: lane [x] of plane [y] comes from lane [x+3y] of plane [x]. *)
Definition pi (a : state) : state :=
  map (fun y => map (fun x => lane a (x + 3 * y) x) (seq 0 5)) (seq 0 5).
Definition chi_plane (p : list Z) : list Z :=
  map (fun x => lane_xor (nth5 x p) (Z.land (lane_not (nth5 (x + 1) p)) (nth5 (x + 2) p))) (seq 0 5).
Definition iota (rc : Z) (a : state) : state :=
  match a with (l :: p) :: a => (lane_xor l rc :: p) :: a | _ => a end.

Definition round_constants : list Z :=
  [0x0000000000000001; 0x0000000000008082; 0x800000000000808A; 0x8000000080008000;
   0x000000000000808B; 0x0000000080000001; 0x8000000080008081; 0x8000000000008009;
   0x000000000000008A; 0x0000000000000088; 0x0000000080008009; 0x000000008000000A;
   0x000000008000808B; 0x800000000000008B; 0x8000000000008089; 0x8000000000008003;
   0x8000000000008002; 0x8000000000000080; 0x000000000000800A; 0x800000008000000A;
   0x8000000080008081; 0x8000000000008080; 0x0000000080000001; 0x8000000080008008].
Definition round (a : state) (rc : Z) : state := iota rc (map chi_plane (pi (rho (theta a)))).
Definition keccak_f (a : state) : state := foldl round a round_constants.

(** The rate in bytes, and the padding 0x01 0x00 ... 0x80. *)
Definition rate : nat := 136.
Definition pad (msg : bytes) : bytes :=
  let gap := (rate - length msg mod rate)%nat in
  if (gap =? 1)%nat then msg ++ [x81] else msg ++ [x01] ++ replicate (gap - 2) x00 ++ [x80].

Fixpoint lanes (n : nat) (block : bytes) : list Z :=
  match n with O => [] | S n => le_val (take 8 block) :: lanes n (drop 8 block) end.
Fixpoint planes (n : nat) (ls : list Z) : state :=
  match n with O => [] | S n => take 5 ls :: planes n (drop 5 ls) end.
Definition absorb (a : state) (block : bytes) : state :=
  keccak_f (zip_with (zip_with lane_xor) a (planes 5 (lanes 17 block ++ replicate 8 0))).
Fixpoint sponge (n : nat) (a : state) (msg : bytes) : state :=
  match n with O => a | S n => sponge n (absorb a (take rate msg)) (drop rate msg) end.

Definition digest (msg : bytes) : H256 :=
  let padded := pad msg in
  let a := sponge (length padded / rate) blank padded in
  fit 32 (flat_map (le_bytes 8) (take 4 (concat a))).
End Keccak.

Definition sha3_reference : Sha3Crate := {| keccak_digest := Keccak.digest |}.
