(* ===== verification/Vectors.v ===== *)
(** * The frozen vectors: [crates/ivory-core/tests/vectors.rs]

    The repository freezes the digests and addresses a few canonical values must have.
    They are computed here from the model, with Keccak-256 as published ([Keccak]) and
    the documented bincode format ([bincode_reference]): a test of the model, like the
    suites of [Testing].  Ed25519 is not computed: the public keys of the two test
    seeds and the frozen signature are inputs of the test. *)

From S2P Require Import Prelude Hex Text Uint UintFacts Hash Address Bincode Core Crypto Keccak.
#[local] Open Scope Z_scope.

(** The hash whose hexadecimal text is [s]. *)
Definition hash_of {n} (s : bytes) : Hash n :=
  match Hash.from_hex s with Ok h => h | Err _ => Hash.ZERO end.
Definition address_of (s : bytes) : Address := mkAddress (hash_of s).

Definition KECCAK_EMPTY : bytes := str "0xc5d2460186f7233c927e7db2dcc703c0e500b653ca82273b7bfad8045d85a470".
Definition ADDR_KEYPAIR_1 : bytes := str "0x97b1c813eae702332ba3eaa1625f942c5472626d".
Definition CREATE_NONCE_0 : bytes := str "0xbfababe70da3d03e64ab6e8f5976878e561ab240".
Definition CREATE_NONCE_1 : bytes := str "0x584379695e7355db208ec36f7fc9d6d1adfbc68f".
Definition CREATE2_EMPTY_CODE : bytes := str "0x1c9af2c7e0690294ede14e10379a4e7f3e05da3c".
Definition SIGNING_HASH : bytes := str "0xd79782022aa4500e8ee4ad17526ae86687dd437b4f572d429dff47e88032d0bd".
Definition TX_HASH : bytes := str "0xbe7847d85f9109f7e14d99e97e5f54638f46724ed01127819c78cdb1f36a8e73".
Definition ED25519_SIG : bytes := str "0x4a2c495d7b81b32a85b2e818db083501d1d2123e4dfb041deacf145a7f94bd050e575784b1d4f945beae6f0576333ef9adcd7b01db8e4ee7c802e80e80e94603".
Definition EMPTY_LIST_ROOT : bytes := str "0x011b4d03dd8c01f1049143cf9c4c817e4b167f1d1b83e5c6f0f10d89ba1e7bce".
Definition DOCUMENTED_HEADER_HASH : bytes := str "0xa340036d231fba441ae03facd3d10bc20d2f76d8d24f20732af5a4618edcc1cc".

(** The public keys of the test seeds 1 and 2. *)
Definition recorded_key_1 : PublicKey :=
  mkPublicKey (hash_of (str "0x8a88e3dd7409f195fd52db2d3cba5d72ca6709bf1d94121bf3748801b40f6f5c")).
Definition recorded_key_2 : PublicKey :=
  mkPublicKey (hash_of (str "0x8139770ea87d175f56a35466c34c7ecccb8d8a91b4ee37a25df60f5b8fc9b394")).
#[local] Existing Instance sha3_reference | 0.

(** The canonical transfer from the first key to the second, with the frozen signature. *)
Definition recorded_transfer : Transaction :=
  mkTransaction (address_from_public_key recorded_key_1) (Some (address_from_public_key recorded_key_2))
    (U256.from_u64 1) [] U256.ONE 21000 0 (mkSignature (hash_of ED25519_SIG)) recorded_key_1.
Definition documented_header : BlockHeader :=
  let '(tx_root, rx_root) := empty_list_roots in
  mkBlockHeader 0 H256.ZERO 1 Address.ZERO 30000000 0 H256.ZERO tx_root rx_root U256.ZERO [].
Definition fixture_a : Address := address_of (str "0x5aaeb6053f3e94c9b9a09f33669435e7ef1beaed").
Definition fixture_b : Address := address_of (str "0xfb6916095ca1df60bb79ce92ce3ea74c37c5d359").

Example vectors_reproduced :
  let sender := address_from_public_key recorded_key_1 in
  Hash.to_hex (keccak256 []) = KECCAK_EMPTY /\
  Address.to_hex sender = ADDR_KEYPAIR_1 /\
  Address.to_hex (Address.create sender 0) = CREATE_NONCE_0 /\
  Address.to_hex (Address.create sender 1) = CREATE_NONCE_1 /\
  Address.to_hex (Address.create2 sender Hash.ZERO (keccak256 [])) = CREATE2_EMPTY_CODE /\
  Hash.to_hex (signing_hash recorded_transfer) = SIGNING_HASH /\
  Hash.to_hex (tx_hash recorded_transfer) = TX_HASH /\
  Hash.to_hex empty_list_roots.1 = EMPTY_LIST_ROOT /\ Hash.to_hex empty_list_roots.2 = EMPTY_LIST_ROOT /\
  Hash.to_hex (header_hash documented_header) = DOCUMENTED_HEADER_HASH /\
  Address.to_hex_checksummed fixture_a = str "0x5aAeb6053F3E94C9b9A09f33669435E7Ef1BeAed" /\
  Address.to_hex_checksummed fixture_b = str "0xfB6916095ca1df60bB79Ce92cE3Ea74c37c5d359".
Proof. split_and!; vm_compute; reflexivity. Qed.
