(* ===== verification/Vm.v ===== *)
(** * The WASM virtual machine: [crates/ivory-vm/src/vm.rs]

    The interpreter is the [wasmi] crate.  What the repository contributes are
    the [env] host functions and the sequence load, instantiate, start, look up
    [call], run.  A guest is therefore the tree of its host calls ([guest]): the
    crate's functions return such trees ([WasmiCrate]), and [run_guest] serves
    the calls from the host state.  The law the sources rely on is fuel
    metering: what is left never exceeds what was given ([WasmiLaws]).

    [state] is a shared handle, so the slots a guest wrote stay written when it
    traps: [execute] returns the state on every path. *)

From S2P Require Import Prelude Hex Uint UintFacts Hash Address Bincode Core State.
From S2P Require Import StateProps.
#[local] Open Scope Z_scope.

Inductive VmError : Type :=
| InvalidModule (e : bytes)
| Instantiate (e : bytes)
| Export (e : bytes)
| Trap (e : bytes).

Record VmOutput : Type := mkVmOutput {
  vm_success : bool;
  vm_return_value : option Z;
  vm_logs : list Log;
  vm_gas_left : Z }.

(** ** Guests *)

Inductive guest (R : Type) : Type :=
| GReturn (fuel_left : Z) (r : R)
| GTrap (msg : bytes)
| GStorageGet (slot : Z) (k : Z -> guest R)
| GStorageSet (slot value : Z) (k : guest R)
| GEmitLog (topic : Z) (k : guest R)
| GCalldataLen (k : Z -> guest R)
| GCalldataAt (index : Z) (k : Z -> guest R).
Arguments GReturn {R} fuel_left r.
Arguments GTrap {R} msg.
Arguments GStorageGet {R} slot k.
Arguments GStorageSet {R} slot value k.
Arguments GEmitLog {R} topic k.
Arguments GCalldataLen {R} k.
Arguments GCalldataAt {R} index k.

(** Every way the guest can return leaves between 0 and [f] units of fuel. *)
Inductive fuel_within {R} (f : Z) : guest R -> Prop :=
| fw_return l r : 0 <= l <= f -> fuel_within f (GReturn l r)
| fw_trap m : fuel_within f (GTrap m)
| fw_get slot k : (forall v, fuel_within f (k v)) -> fuel_within f (GStorageGet slot k)
| fw_set slot v k : fuel_within f k -> fuel_within f (GStorageSet slot v k)
| fw_log t k : fuel_within f k -> fuel_within f (GEmitLog t k)
| fw_len k : (forall v, fuel_within f (k v)) -> fuel_within f (GCalldataLen k)
| fw_at i k : (forall v, fuel_within f (k v)) -> fuel_within f (GCalldataAt i k).

(** The type of the exported [call]. *)
Inductive export : Type := CallI32 | CallUnit | CallOther.

(** [instantiate_start] covers [set_fuel], the linker and [start]: all of their
    errors become [VmError::Instantiate]. *)
Class WasmiCrate := {
  wasm_module : Type;
  wasm_instance : Type;
  module_new : bytes -> result wasm_module bytes;
  instantiate_start : wasm_module -> Z -> guest wasm_instance;
  get_call : wasm_instance -> option export;
  call_typed : wasm_instance -> Z -> guest Z }.

Class WasmiLaws `{WasmiCrate} : Prop := {
  start_fuel m f : 0 <= f -> fuel_within f (instantiate_start m f);
  call_fuel i f : 0 <= f -> fuel_within f (call_typed i f) }.

(** ** Host functions *)

Record Host : Type := mkHost {
  host_state : StateDB;
  host_address : Address;
  host_logs : list Log;
  host_calldata : bytes }.

(** Casts between signed and unsigned integers wrap around. *)
Definition as_u64 (v : Z) : Z := v mod M64.
Definition as_i64 (v : Z) : Z := if v <? 9223372036854775808 then v else v - M64.
Definition as_i32 (v : Z) : Z :=
  let w := v mod M32 in if w <? 2147483648 then w else w - M32.

Section Vm.
Context {BC : BincodeCrate} {SC : Sha3Crate}.

Definition slot_key (slot : Z) : H256 := fit 32 (replicate 28 x00 ++ be_bytes 4 slot).
Definition topic_from_i32 (topic : Z) : H256 := fit 32 (replicate 28 x00 ++ be_bytes 4 topic).

Definition storage_get (h : Host) (slot : Z) : Z :=
  as_i64 (U256.limb (StateDB.get_storage (host_state h) (host_address h) (slot_key slot)) 0).

Definition storage_set (h : Host) (slot value : Z) : Host :=
  mkHost (StateDB.set_storage (host_address h) (slot_key slot) (U256.from_u64 (as_u64 value))
            (host_state h))
         (host_address h) (host_logs h) (host_calldata h).

Definition emit_log (h : Host) (topic : Z) : Host :=
  mkHost (host_state h) (host_address h)
         (host_logs h ++ [mkLog (host_address h) [topic_from_i32 topic] []]) (host_calldata h).

Definition calldata_len (h : Host) : Z := as_i32 (Z.of_nat (length (host_calldata h))).

(** [index as usize]: a negative [i32] is out of range. *)
Definition calldata_at (h : Host) (index : Z) : Z :=
  if index <? 0 then 0
  else match host_calldata h !! Z.to_nat index with Some b => byte_val b | None => 0 end.

Fixpoint run_guest {R} (g : guest R) (h : Host) : Host * result (Z * R) bytes :=
  match g with
  | GReturn fuel_left r => (h, Ok (fuel_left, r))
  | GTrap msg => (h, Err msg)
  | GStorageGet slot k => run_guest (k (storage_get h slot)) h
  | GStorageSet slot value k => run_guest k (storage_set h slot value)
  | GEmitLog topic k => run_guest k (emit_log h topic)
  | GCalldataLen k => run_guest (k (calldata_len h)) h
  | GCalldataAt index k => run_guest (k (calldata_at h index)) h
  end.

Context {WC : WasmiCrate}.

Definition remaining_fuel (store_fuel gas_limit : Z) : Z :=
  if gas_limit =? 0 then 0 else store_fuel.

(** [WasmVm::execute] *)
Definition vm_execute (wasm : bytes) (address : Address) (gas_limit : Z) (input : bytes) :
    smonad StateDB VmError VmOutput := fun state =>
  let fuel := if gas_limit =? 0 then 10000000 else gas_limit in
  match module_new wasm with
  | Err e => (state, Err (InvalidModule e))
  | Ok module =>
      let store := mkHost state address [] input in
      match run_guest (instantiate_start module fuel) store with
      | (store, Err e) => (host_state store, Err (Instantiate e))
      | (store, Ok (fuel, instance)) =>
          match get_call instance with
          | None =>
              (host_state store,
               Ok (mkVmOutput true None (host_logs store) (remaining_fuel fuel gas_limit)))
          | Some CallOther =>
              (host_state store, Err (Export (str "call must have type () -> i32 or () -> ()")))
          | Some ty =>
              match run_guest (call_typed instance fuel) store with
              | (store, Err e) => (host_state store, Err (Trap e))
              | (store, Ok (fuel, v)) =>
                  (host_state store,
                   Ok (mkVmOutput true (match ty with CallI32 => Some v | _ => None end)
                         (host_logs store) (remaining_fuel fuel gas_limit)))
              end
          end
      end
  end.

(** [impl Display for VmError] *)
Definition vm_error_display (e : VmError) : bytes :=
  match e with
  | InvalidModule s => str "invalid wasm: " ++ s
  | Instantiate s => str "instantiate: " ++ s
  | Export s => str "export: " ++ s
  | Trap s => str "trap: " ++ s
  end.

(** ** What a guest can and cannot touch *)

(** [s'] differs from [s] at most in the slots of [addr] and the storage root
    recorded for it. *)
Definition vm_frame (addr : Address) (s s' : StateDB) : Prop :=
  code s' = code s /\
  (forall a slot, a ≠ addr -> storage s' !! (a, slot) = storage s !! (a, slot)) /\
  (forall a, a ≠ addr -> accounts s' !! a = accounts s !! a) /\
  let view s := let acc := default account_new (accounts s !! addr) in
                (acc_nonce acc, acc_balance acc, acc_code_hash acc) in
  view s' = view s.

Lemma vm_frame_refl addr s : vm_frame addr s s.
Proof. by split_and!. Qed.

Lemma vm_frame_trans addr s1 s2 s3 : vm_frame addr s1 s2 -> vm_frame addr s2 s3 -> vm_frame addr s1 s3.
Proof.
  intros (C1 & S1 & A1 & V1) (C2 & S2 & A2 & V2). split_and!; cbn zeta in *; [congruence | | | congruence].
  - intros a slot Ha. by rewrite S2, S1.
  - intros a Ha. by rewrite A2, A1.
Qed.

Lemma set_storage_frame addr slot v s : vm_frame addr s (StateDB.set_storage addr slot v s).
Proof.
  unfold StateDB.set_storage. set (s1 := mkStateDB _ _ _).
  destruct (refresh_storage addr s1) as [Hs Hc]. split_and!.
  - by rewrite Hc.
  - intros a sl Ha. rewrite Hs. simpl.
    destruct (U256.is_zero v); [apply lookup_delete_ne | apply lookup_insert_ne]; congruence.
  - intros a Ha. rewrite refresh_lookup. by rewrite decide_False.
  - cbv zeta beta. rewrite refresh_lookup, decide_True by done. simpl.
    destruct (accounts s !! addr); simpl; [done |]. by case_decide.
Qed.

Lemma from_u64_wf v : u64_ok v -> u256_wf (U256.from_u64 v).
Proof. intros. by apply u256_wf_mk. Qed.

Lemma as_u64_ok v : u64_ok (as_u64 v).
Proof. unfold u64_ok, as_u64. apply Z.mod_pos_bound. lia. Qed.

Lemma run_guest_frame {R} (g : guest R) h :
  state_inv (host_state h) ->
  let h' := (run_guest g h).1 in
  state_inv (host_state h') /\ vm_frame (host_address h) (host_state h) (host_state h') /\
  host_address h' = host_address h.
Proof.
  revert h; induction g as [l r|m|slot k IH|slot v k IH|t k IH|k IH|i k IH]; intros h Hi; cbn zeta;
    simpl run_guest; eauto using vm_frame_refl.
  - destruct (IH (storage_set h slot v)) as (H1 & H2 & H3).
    + simpl. apply set_storage_inv; [apply from_u64_wf, as_u64_ok | done].
    + split_and!; try done. eapply vm_frame_trans; [apply set_storage_frame | exact H2].
  - exact (IH (emit_log h t) Hi).
Qed.

Lemma run_guest_fuel {R} f (g : guest R) h h' l r :
  fuel_within f g -> run_guest g h = (h', Ok (l, r)) -> 0 <= l <= f.
Proof.
  intros Hf. revert h; induction Hf; intros h E; simpl in E; simplify_eq; eauto.
Qed.

Lemma vm_execute_frame wasm addr gas input s :
  state_inv s ->
  let s' := (vm_execute wasm addr gas input s).1 in state_inv s' /\ vm_frame addr s s'.
Proof.
  intros Hi. unfold vm_execute. destruct (module_new wasm) as [m|e]; [| by split; [| apply vm_frame_refl]].
  set (fuel := if _ =? _ then _ else _). set (h0 := mkHost s addr [] input).
  pose proof (run_guest_frame (instantiate_start m fuel) h0 Hi) as (H1 & H2 & H3).
  destruct (run_guest (instantiate_start m fuel) h0) as [h1 [[f1 inst]|e]]; [| done]. simpl in *.
  pose proof (run_guest_frame (call_typed inst f1) h1 H1) as (H4 & H5 & H6).
  destruct (run_guest (call_typed inst f1) h1) as [h2 [[f2 v]|e]]; simpl in *;
    rewrite H3 in H5; destruct (get_call inst) as [[| |]|]; simpl; eauto using vm_frame_trans.
Qed.

Context {WL : WasmiLaws}.

Lemma vm_execute_gas wasm addr gas input s s' out :
  0 <= gas -> vm_execute wasm addr gas input s = (s', Ok out) ->
  0 <= vm_gas_left out <= gas /\ vm_success out = true.
Proof.
  intros Hg H. unfold vm_execute in H. destruct (module_new wasm) as [m|e]; [| done].
  set (fuel := if _ =? _ then _ else _) in H.
  assert (0 <= fuel /\ (gas ≠ 0 -> fuel = gas)) as [Hf Hfg]
    by (unfold fuel; destruct (gas =? 0) eqn:E; zbool; lia).
  destruct (run_guest (instantiate_start m fuel) _) as [h1 [[f1 inst]|e]] eqn:E1; [| done].
  apply (run_guest_fuel fuel) in E1; [| by apply start_fuel].
  destruct (get_call inst) as [[| |]|]; try done;
    try (destruct (run_guest (call_typed inst f1) h1) as [h2 [[f2 v]|e]] eqn:E2; [| done];
         apply (run_guest_fuel f1) in E2; [| apply call_fuel; lia]);
    simplify_eq; simpl; unfold remaining_fuel; destruct (gas =? 0) eqn:Ez; zbool; split; lia || done.
Qed.

(** With no gas left after the intrinsic cost the whole default budget is free. *)
Lemma vm_execute_zero wasm addr input s s' out :
  vm_execute wasm addr 0 input s = (s', Ok out) -> vm_gas_left out = 0.
Proof.
  intros H. unfold vm_execute in H. destruct (module_new wasm); [| done].
  destruct (run_guest _ _) as [h1 [[f1 inst]|e]]; [| done].
  destruct (get_call inst) as [[| |]|]; try done;
    try (destruct (run_guest _ _) as [h2 [[f2 v]|e]]; [| done]); by simplify_eq.
Qed.
End Vm.
