(* ===== verification/Executor.v ===== *)
(** * Transaction execution: [crates/ivory-executor/src]

    [gas.rs], [call.rs], [context.rs], [executor.rs] and [error.rs].  The
    executor works on the shared [StateDB]; [execute_transaction] returns the
    state it leaves behind on every path, because nothing is rolled back when
    it fails after the sender was debited. *)

From S2P Require Import Prelude Hex Uint UintFacts Hash Address Bincode Core State.
From S2P Require Import StateProps Vm.
#[local] Open Scope Z_scope.

Module ExecutionError.
Inductive t : Type :=
| NonceMismatch (expected got : Z)
| InsufficientBalance
| OutOfGas
| Overflow
| BlockGasLimitExceeded
| Vm (e : bytes).
#[global] Instance eq_dec : EqDecision t.
Proof. solve_decision. Defined.
End ExecutionError.

(** ** [gas.rs] *)

Record GasConfig : Type := mkGasConfig {
  tx_gas_cost : Z;
  data_gas_cost : Z;
  max_gas_per_block : Z }.
Definition gas_config_default : GasConfig := mkGasConfig 21000 16 30000000.
Definition gas_config_wf (cfg : GasConfig) : Prop :=
  u64_ok (tx_gas_cost cfg) /\ u64_ok (data_gas_cost cfg) /\ u64_ok (max_gas_per_block cfg).

Record GasMeter : Type := mkGasMeter { limit : Z; remaining : Z; intrinsic : Z }.

Module GasMeter.
Definition new (limit intrinsic : Z) : result GasMeter ExecutionError.t :=
  let? remaining := ok_or (checked_sub64 limit intrinsic) ExecutionError.OutOfGas in
  Ok (mkGasMeter limit remaining intrinsic).
Definition gas_used (m : GasMeter) : Z := saturating_sub64 (limit m) (remaining m).
Definition refund_gas (m : GasMeter) : Z := remaining m.
Definition spend (m : GasMeter) (amount : Z) : result GasMeter ExecutionError.t :=
  let? r := ok_or (checked_sub64 (remaining m) amount) ExecutionError.OutOfGas in
  Ok (mkGasMeter (limit m) r (intrinsic m)).
End GasMeter.

(** [data_len] is a [usize]. *)
Definition compute_intrinsic_gas_len (data_len : Z) (cfg : GasConfig) : Z :=
  let data_cost := saturating_mul64 data_len (data_gas_cost cfg) in
  saturating_add64 (tx_gas_cost cfg) data_cost.
Definition compute_intrinsic_gas (tx : Transaction) (cfg : GasConfig) : Z :=
  compute_intrinsic_gas_len (Z.of_nat (data_len tx)) cfg.

(** ** [context.rs] *)

Record ExecutionContext : Type := mkExecutionContext {
  ctx_block_number : Z;
  ctx_timestamp : Z;
  ctx_gas_used : Z;
  ctx_beneficiary : Address }.
Definition context_new (block_number timestamp : Z) : ExecutionContext :=
  mkExecutionContext block_number timestamp 0 Address.ZERO.

(** ** [call.rs] *)

Inductive CallKind : Type := Call | Create.

Record CallInput : Type := mkCallInput {
  ci_kind : CallKind;
  ci_from : Address;
  ci_to : option Address;
  ci_value : U256;
  ci_data : bytes }.

Record CallResult : Type := mkCallResult {
  cr_success : bool;
  cr_logs : list Log;
  cr_gas_used : Z;
  cr_output : bytes }.

Definition call_kind_from_tx (tx : Transaction) : CallKind :=
  if is_create tx then Create else Call.
Definition call_input_from_tx (tx : Transaction) : CallInput :=
  mkCallInput (call_kind_from_tx tx) (tx_from tx) (tx_to tx) (tx_value tx) (tx_data tx).
Definition call_result_empty (success : bool) (gas_used : Z) : CallResult :=
  mkCallResult success [] gas_used [].
Definition output_from_i32 (value : Z) : bytes := replicate 28 x00 ++ be_bytes 4 value.

Abbreviation exec := (smonad StateDB ExecutionError.t).

Section Executor.
Context {BC : BincodeCrate} {SC : Sha3Crate} {WC : WasmiCrate}.

Definition execute_call (input : CallInput) (gas_limit : Z) :
    smonad StateDB ExecutionError.t CallResult := fun state =>
  match ci_kind input with
  | Create => (state, Ok (call_result_empty true 0))
  | Call =>
      let to := default (ci_from input) (ci_to input) in
      let wasm := StateDB.get_code state to in
      match wasm with
      | [] => (state, Ok (call_result_empty true 0))
      | _ =>
          let '(state, r) := vm_execute wasm to gas_limit (ci_data input) state in
          (state,
           match r with
           | Err e => Err (ExecutionError.Vm (vm_error_display e))
           | Ok out =>
               Ok (mkCallResult (vm_success out) (vm_logs out)
                     (saturating_sub64 gas_limit (vm_gas_left out))
                     (match vm_return_value out with
                      | Some v => output_from_i32 v | None => [] end))
           end)
      end
  end.

(** ** [executor.rs] *)

Record ExecutionOutcome : Type := mkExecutionOutcome {
  eo_receipt : Receipt;
  eo_gas_used : Z;
  eo_gas_refunded : Z;
  eo_call : CallResult }.

(** [self.state.get_account(addr).unwrap_or_default()] *)
Definition account_or_default (addr : Address) (s : StateDB) : Account :=
  default account_new (StateDB.get_account s addr).

(** Load an account, add [v] to its balance and store it. *)
Definition credit (addr : Address) (v : U256) : exec unit :=
  acc <-! sget (account_or_default addr) ;;
  b <-! slift (ok_or (U256.checked_add (acc_balance acc) v) ExecutionError.Overflow) ;;
  smodify (StateDB.set_account addr (with_balance b acc)).

(** The recipient's side: a credit, or the endowed account with its code. *)
Definition apply_value (tx : Transaction) : exec unit :=
  match tx_to tx with
  | Some to => credit to (tx_value tx)
  | None =>
      let created := Address.create (tx_from tx) (tx_nonce tx) in
      acc <-! sget (account_or_default created) ;;
      b <-! slift (ok_or (U256.checked_add (acc_balance acc) (tx_value tx)) ExecutionError.Overflow) ;;
      let code := tx_data tx in
      smodify (StateDB.set_account created (with_code_hash (keccak256 code) (with_balance b acc))) ;;;
      smodify (StateDB.set_code created code)
  end.

Definition execute_transaction (cfg : GasConfig) (tx : Transaction) (ctx : ExecutionContext) :
    exec (ExecutionOutcome * ExecutionContext) :=
  sender <-! sget (account_or_default (tx_from tx)) ;;
  sguard (acc_nonce sender =? tx_nonce tx)
    (ExecutionError.NonceMismatch (acc_nonce sender) (tx_nonce tx)) ;;;
  let intrinsic := compute_intrinsic_gas tx cfg in
  meter <-! slift (GasMeter.new (tx_gas tx) intrinsic) ;;
  gas_cost <-! slift (ok_or (U256.checked_mul (U256.from_u64 (tx_gas tx)) (tx_gas_price tx))
                        ExecutionError.Overflow) ;;
  total <-! slift (ok_or (U256.checked_add (tx_value tx) gas_cost) ExecutionError.Overflow) ;;
  sguard (negb (U256.ltb (acc_balance sender) total)) ExecutionError.InsufficientBalance ;;;
  let projected := saturating_add64 (ctx_gas_used ctx) (tx_gas tx) in
  sguard (projected <=? max_gas_per_block cfg) ExecutionError.BlockGasLimitExceeded ;;;
  balance <-! slift (ok_or (U256.checked_sub (acc_balance sender) total) ExecutionError.Overflow) ;;
  nonce <-! slift (ok_or (checked_add64 (acc_nonce sender) 1) ExecutionError.Overflow) ;;
  smodify (StateDB.set_account (tx_from tx) (with_nonce nonce (with_balance balance sender))) ;;;
  apply_value tx ;;;
  call <-! execute_call (call_input_from_tx tx) (remaining meter) ;;
  meter <-! slift (if 0 <? cr_gas_used call then GasMeter.spend meter (cr_gas_used call)
                   else Ok meter) ;;
  let gas_used := GasMeter.gas_used meter in
  let refund_units := GasMeter.refund_gas meter in
  refund <-! slift (ok_or (U256.checked_mul (U256.from_u64 refund_units) (tx_gas_price tx))
                      ExecutionError.Overflow) ;;
  (if U256.is_zero refund then sret tt else credit (tx_from tx) refund) ;;;
  let ctx := mkExecutionContext (ctx_block_number ctx) (ctx_timestamp ctx)
               (saturating_add64 (ctx_gas_used ctx) gas_used) (ctx_beneficiary ctx) in
  let receipt := mkReceipt (tx_hash tx) (ctx_block_number ctx) gas_used (cr_success call)
                   (cr_logs call) in
  sret (mkExecutionOutcome receipt gas_used refund_units call, ctx).

Record SimulateRequest : Type := mkSimulateRequest {
  sim_from : Address;
  sim_to : option Address;
  sim_value : U256;
  sim_data : bytes;
  sim_gas : Z }.
Record SimulateOutcome : Type := mkSimulateOutcome {
  so_call : CallResult;
  so_gas_used : Z;
  so_intrinsic : Z }.

Definition simulate (cfg : GasConfig) (req : SimulateRequest) : exec SimulateOutcome :=
  let gas := if sim_gas req =? 0 then 10000000 else sim_gas req in
  let intrinsic := compute_intrinsic_gas_len (Z.of_nat (length (sim_data req))) cfg in
  meter <-! slift (GasMeter.new gas intrinsic) ;;
  sender <-! sget (account_or_default (sim_from req)) ;;
  sguard (negb (U256.ltb (acc_balance sender) (sim_value req))) ExecutionError.InsufficientBalance ;;;
  (if U256.is_zero (sim_value req) then sret tt
   else
     b <-! slift (ok_or (U256.checked_sub (acc_balance sender) (sim_value req))
                    ExecutionError.Overflow) ;;
     smodify (StateDB.set_account (sim_from req) (with_balance b sender))) ;;;
  match sim_to req with
  | Some to => if U256.is_zero (sim_value req) then sret tt else credit to (sim_value req)
  | None =>
      let created := Address.create (sim_from req) (acc_nonce sender) in
      acc <-! sget (account_or_default created) ;;
      acc <-! (if U256.is_zero (sim_value req) then sret acc
               else
                 b <-! slift (ok_or (U256.checked_add (acc_balance acc) (sim_value req))
                                ExecutionError.Overflow) ;;
                 sret (with_balance b acc)) ;;
      smodify (StateDB.set_account created (with_code_hash (keccak256 (sim_data req)) acc)) ;;;
      smodify (StateDB.set_code created (sim_data req))
  end ;;;
  let input := mkCallInput (match sim_to req with None => Create | Some _ => Call end)
                 (sim_from req) (sim_to req) (sim_value req) (sim_data req) in
  call <-! execute_call input (remaining meter) ;;
  meter <-! slift (if 0 <? cr_gas_used call then GasMeter.spend meter (cr_gas_used call)
                   else Ok meter) ;;
  sret (mkSimulateOutcome call (GasMeter.gas_used meter) intrinsic).
End Executor.
