(* ===== verification/ExecutorProps.v ===== *)
(** * Properties of transaction execution

    The ledger view of a state (nonce and balance of every address) and the
    total supply, how each step of [execute_transaction] changes them, and the
    specification of the whole. *)

From S2P Require Import Prelude Hex Uint UintFacts UintArith UintShift UintProps Hash.
From S2P Require Import Address Bincode Core State StateProps Vm Executor.
#[local] Open Scope Z_scope.

(** ** Ledger view and supply *)

Definition bal (m : gmap Address Account) (a : Address) : Z :=
  match m !! a with Some acc => u256_val (acc_balance acc) | None => 0 end.
Definition msum (m : gmap Address Account) : Z :=
  map_fold (fun _ acc t => u256_val (acc_balance acc) + t) 0 m.

Definition balance (s : StateDB) (a : Address) : Z := bal (accounts s) a.
Definition nonce (s : StateDB) (a : Address) : Z := acc_nonce (account_or_default a s).
Definition supply (s : StateDB) : Z := msum (accounts s).

Lemma msum_insert_fresh m a acc :
  m !! a = None -> msum (<[a := acc]> m) = u256_val (acc_balance acc) + msum m.
Proof. intros H. unfold msum. rewrite map_fold_insert_L; [done | | done]. intros. lia. Qed.

Lemma msum_delete m a : msum m = bal m a + msum (delete a m).
Proof.
  unfold bal. destruct (m !! a) as [acc|] eqn:E.
  - rewrite <- (insert_delete_id m a acc E) at 1. apply msum_insert_fresh, lookup_delete_eq.
  - by rewrite delete_id.
Qed.

Lemma msum_insert m a acc :
  msum (<[a := acc]> m) = msum m - bal m a + u256_val (acc_balance acc).
Proof.
  rewrite (msum_delete (<[a := acc]> m) a), (msum_delete m a). unfold bal.
  rewrite lookup_insert_eq, delete_insert_eq. lia.
Qed.

Lemma bal_nonneg m a : map_Forall (fun _ x => account_wf x) m -> 0 <= bal m a < M256.
Proof.
  intros H. unfold bal. destruct (m !! a) as [acc|] eqn:E; [| lia].
  destruct (H _ _ E) as [_ Hw]. by apply u256_val_bound.
Qed.

Lemma msum_nonneg m : map_Forall (fun _ x => account_wf x) m -> 0 <= msum m.
Proof.
  induction m as [|a acc m Hm IH] using map_ind; [done |].
  intros [[_ Hw] Hms]%map_Forall_insert; [| done]. rewrite msum_insert_fresh by done.
  pose proof (u256_val_bound _ Hw). specialize (IH Hms). lia.
Qed.

Lemma bal_le_msum m a : map_Forall (fun _ x => account_wf x) m -> bal m a <= msum m.
Proof.
  intros H. rewrite (msum_delete m a).
  pose proof (msum_nonneg (delete a m) (map_Forall_delete _ m a H)). lia.
Qed.

Section Props.
Context {BC : BincodeCrate} {SC : Sha3Crate} {WC : WasmiCrate}.

Lemma balance_le_supply s a : state_inv s -> 0 <= balance s a <= supply s.
Proof.
  intros [(H & _) _]. split; [by apply bal_nonneg | by apply bal_le_msum].
Qed.

Lemma balance_default s a : balance s a = u256_val (acc_balance (account_or_default a s)).
Proof.
  unfold balance, bal, account_or_default, StateDB.get_account. by destruct (accounts s !! a).
Qed.

Lemma account_or_default_wf s a : state_inv s -> account_wf (account_or_default a s).
Proof.
  intros [(H & _) _]. unfold account_or_default, StateDB.get_account.
  destruct (accounts s !! a) as [acc|] eqn:E; [by eapply H | apply account_new_wf].
Qed.

(** Two states with the same nonces, balances and supply. *)
Definition same_ledger (s s' : StateDB) : Prop :=
  (forall a, balance s' a = balance s a /\ nonce s' a = nonce s a) /\ supply s' = supply s.

Lemma same_ledger_refl s : same_ledger s s.
Proof. done. Qed.

Lemma vm_frame_ledger addr s s' : vm_frame addr s s' -> same_ledger s s'.
Proof.
  intros (_ & _ & Ha & Hv). cbv zeta beta in Hv. injection Hv as Hn Hb _.
  assert (forall a, balance s' a = balance s a /\ nonce s' a = nonce s a) as H.
  { intros a. rewrite !balance_default. unfold nonce, account_or_default, StateDB.get_account.
    destruct (decide (a = addr)) as [->|Hne]; [by rewrite Hn, Hb | by rewrite Ha]. }
  split; [done |]. unfold supply. rewrite (msum_delete _ addr), (msum_delete (accounts s) addr).
  replace (delete addr (accounts s')) with (delete addr (accounts s)).
  - f_equal. apply H.
  - apply map_eq. intros a. destruct (decide (a = addr)) as [->|Hne].
    + by rewrite !lookup_delete_eq.
    + by rewrite !lookup_delete_ne, Ha.
Qed.

Lemma set_account_ledger addr acc s :
  let s' := StateDB.set_account addr acc s in
  (forall a, balance s' a = if decide (addr = a) then u256_val (acc_balance acc) else balance s a) /\
  (forall a, nonce s' a = if decide (addr = a) then acc_nonce acc else nonce s a) /\
  supply s' = supply s - balance s addr + u256_val (acc_balance acc).
Proof.
  split_and!.
  - intros a. unfold balance, bal. simpl.
    destruct (decide (addr = a)) as [->|]; [by rewrite lookup_insert_eq | by rewrite lookup_insert_ne].
  - intros a. unfold nonce, account_or_default, StateDB.get_account. simpl.
    destruct (decide (addr = a)) as [->|]; [by rewrite lookup_insert_eq | by rewrite lookup_insert_ne].
  - unfold supply, balance. simpl. by rewrite msum_insert.
Qed.

(** [s'] is [s] with [v] more at [addr]. *)
Definition credited (addr : Address) (v : Z) (s s' : StateDB) : Prop :=
  (forall a, balance s' a = balance s a + (if decide (addr = a) then v else 0)) /\
  (forall a, nonce s' a = nonce s a) /\ supply s' = supply s + v.

Lemma set_credited addr acc b v s s' :
  accounts s' = accounts (StateDB.set_account addr acc s) ->
  acc_nonce acc = nonce s addr -> u256_val (acc_balance acc) = balance s addr + v ->
  b = balance s addr -> credited addr v s s'.
Proof.
  intros Hs Hn Hb ->. pose proof (set_account_ledger addr acc s) as (H1 & H2 & H3).
  assert (forall a, balance s' a = balance (StateDB.set_account addr acc s) a) as E1
    by (intros a; unfold balance; by rewrite Hs).
  assert (forall a, nonce s' a = nonce (StateDB.set_account addr acc s) a) as E2
    by (intros a; unfold nonce, account_or_default, StateDB.get_account; by rewrite Hs).
  split_and!.
  - intros a. rewrite E1, H1. destruct (decide (addr = a)) as [<-|]; lia.
  - intros a. rewrite E2, H2. by destruct (decide (addr = a)) as [<-|].
  - unfold supply in *. rewrite Hs, H3. lia.
Qed.

Lemma credit_spec addr v s :
  state_inv s -> u256_wf v -> supply s + u256_val v < M256 ->
  exists s', credit addr v s = (s', Ok tt) /\ state_inv s' /\ credited addr (u256_val v) s s'.
Proof.
  intros Hi Hv Hs. unfold credit, sbind, sget, slift, smodify.
  pose proof (account_or_default_wf s addr Hi) as Hw.
  pose proof (balance_le_supply s addr Hi) as Hle. rewrite balance_default in Hle.
  pose proof (checked_add_cases _ _ (proj2 Hw) Hv) as Hc.
  destruct (U256.checked_add _ _) as [b|]; [| lia]. destruct Hc as [Hbw Hb]. simpl.
  eexists. split_and!; [done | |].
  - apply set_account_inv; [| done]. split; [apply Hw | done].
  - eapply set_credited; [done | done | simpl; rewrite balance_default; lia | done].
Qed.

(** Where the value goes. *)
Definition destination (tx : Transaction) : Address :=
  match tx_to tx with
  | Some to => to
  | None => Address.create (tx_from tx) (tx_nonce tx)
  end.

Lemma apply_value_spec tx s :
  state_inv s -> tx_wf tx -> supply s + u256_val (tx_value tx) < M256 ->
  exists s', apply_value tx s = (s', Ok tt) /\ state_inv s' /\
             credited (destination tx) (u256_val (tx_value tx)) s s'.
Proof.
  intros Hi (Hv & Hd & _) Hs. unfold apply_value, destination.
  destruct (tx_to tx) as [to|]; [by apply credit_spec |].
  unfold sbind, sget, slift, smodify. set (created := Address.create _ _).
  pose proof (account_or_default_wf s created Hi) as Hw.
  pose proof (balance_le_supply s created Hi) as Hle. rewrite balance_default in Hle.
  pose proof (checked_add_cases _ _ (proj2 Hw) Hv) as Hc.
  destruct (U256.checked_add _ _) as [b|]; [| lia]. destruct Hc as [Hbw Hb]. simpl.
  eexists. split_and!; [done | |].
  - apply set_code_inv; [done |]. apply set_account_inv; [| done]. split; [apply Hw | done].
  - eapply set_credited; [done | done | simpl; rewrite balance_default; lia | done].
Qed.

Context {WL : WasmiLaws}.

Lemma execute_call_spec input gas s :
  state_inv s -> 0 <= gas ->
  let '(s', r) := execute_call input gas s in
  state_inv s' /\ same_ledger s s' /\
  match r with
  | Ok call => 0 <= cr_gas_used call <= gas /\ cr_success call = true
  | Err e => exists msg, e = ExecutionError.Vm msg
  end.
Proof.
  intros Hi Hg. unfold execute_call. destruct (ci_kind input); [| split_and!; done || simpl; lia].
  set (to := default _ _).
  destruct (StateDB.get_code s to) as [|b wasm]; [split_and!; done || simpl; lia |].
  pose proof (vm_execute_frame (b :: wasm) to gas (ci_data input) s Hi) as [H1 H2].
  destruct (vm_execute (b :: wasm) to gas (ci_data input) s) as [s' [out|e]] eqn:E; simpl in *;
    apply vm_frame_ledger in H2; [| by split_and!; eauto].
  apply vm_execute_gas in E as [Eg Es]; [| done].
  unfold saturating_sub64. split_and!; done || apply H2 || lia.
Qed.

(** ** The specification of a transaction *)

Definition fee (tx : Transaction) (gas : Z) : Z := gas * u256_val (tx_gas_price tx).

(** The ledger after [tx] was charged for [gas] units. *)
Definition ledger_effect (tx : Transaction) (gas : Z) (s s' : StateDB) : Prop :=
  (forall a, balance s' a = balance s a
     + (if decide (destination tx = a) then u256_val (tx_value tx) else 0)
     - (if decide (tx_from tx = a) then u256_val (tx_value tx) + fee tx gas else 0)) /\
  (forall a, nonce s' a = nonce s a + (if decide (tx_from tx = a) then 1 else 0)) /\
  supply s' = supply s - fee tx gas.

(** The checks, in the order the code makes them, on the numbers themselves. *)
Definition precheck (cfg : GasConfig) (tx : Transaction) (ctx : ExecutionContext) (s : StateDB) :
    result unit ExecutionError.t :=
  let cost := fee tx (tx_gas tx) in
  if negb (nonce s (tx_from tx) =? tx_nonce tx)
  then Err (ExecutionError.NonceMismatch (nonce s (tx_from tx)) (tx_nonce tx))
  else if tx_gas tx <? compute_intrinsic_gas tx cfg then Err ExecutionError.OutOfGas
  else if M256 <=? cost then Err ExecutionError.Overflow
  else if M256 <=? u256_val (tx_value tx) + cost then Err ExecutionError.Overflow
  else if balance s (tx_from tx) <? u256_val (tx_value tx) + cost
  then Err ExecutionError.InsufficientBalance
  else if max_gas_per_block cfg <? saturating_add64 (ctx_gas_used ctx) (tx_gas tx)
  then Err ExecutionError.BlockGasLimitExceeded
  else if u64_max <=? tx_nonce tx then Err ExecutionError.Overflow
  else Ok tt.

Definition outcome_spec (cfg : GasConfig) (tx : Transaction) (ctx : ExecutionContext)
    (out : ExecutionOutcome) (ctx' : ExecutionContext) : Prop :=
  compute_intrinsic_gas tx cfg <= eo_gas_used out <= tx_gas tx /\
  eo_gas_refunded out = tx_gas tx - eo_gas_used out /\
  eo_receipt out = mkReceipt (tx_hash tx) (ctx_block_number ctx) (eo_gas_used out) true
                     (cr_logs (eo_call out)) /\
  ctx' = mkExecutionContext (ctx_block_number ctx) (ctx_timestamp ctx)
           (saturating_add64 (ctx_gas_used ctx) (eo_gas_used out)) (ctx_beneficiary ctx) /\
  ctx_gas_used ctx' <= max_gas_per_block cfg.

Lemma from_u64_val v : u64_ok v -> u256_val (U256.from_u64 v) = v.
Proof. intros H. unfold u256_val, U256.from_u64, U256.limb. simpl. lia. Qed.

Lemma intrinsic_ok tx cfg :
  tx_wf tx -> gas_config_wf cfg -> u64_ok (compute_intrinsic_gas tx cfg).
Proof.
  intros (_ & Hd & _) (H1 & H2 & H3). unfold compute_intrinsic_gas, compute_intrinsic_gas_len.
  apply saturating_add64_ok; [done |]. apply saturating_mul64_ok; [| done].
  unfold u64_ok, vec_ok, data_len in *. lia.
Qed.

(** What follows the debit: value, call, refund. *)
Definition after_debit (cfg : GasConfig) (tx : Transaction) (ctx : ExecutionContext)
    (meter : GasMeter) : exec (ExecutionOutcome * ExecutionContext) :=
  apply_value tx ;;;
  call <-! execute_call (call_input_from_tx tx) (remaining meter) ;;
  meter <-! slift (if 0 <? cr_gas_used call then GasMeter.spend meter (cr_gas_used call)
                   else Ok meter) ;;
  refund <-! slift (ok_or (U256.checked_mul (U256.from_u64 (GasMeter.refund_gas meter))
                             (tx_gas_price tx)) ExecutionError.Overflow) ;;
  (if U256.is_zero refund then sret tt else credit (tx_from tx) refund) ;;;
  let ctx := mkExecutionContext (ctx_block_number ctx) (ctx_timestamp ctx)
               (saturating_add64 (ctx_gas_used ctx) (GasMeter.gas_used meter))
               (ctx_beneficiary ctx) in
  let receipt := mkReceipt (tx_hash tx) (ctx_block_number ctx) (GasMeter.gas_used meter)
                   (cr_success call) (cr_logs call) in
  sret (mkExecutionOutcome receipt (GasMeter.gas_used meter) (GasMeter.refund_gas meter) call, ctx).

(** A sender account with the cost taken out and the next nonce. *)
Definition debited (tx : Transaction) (s s' : StateDB) : Prop :=
  state_inv s' /\
  (forall a, balance s' a = balance s a
     - (if decide (tx_from tx = a) then u256_val (tx_value tx) + fee tx (tx_gas tx) else 0)) /\
  (forall a, nonce s' a = nonce s a + (if decide (tx_from tx = a) then 1 else 0)) /\
  supply s' = supply s - u256_val (tx_value tx) - fee tx (tx_gas tx).

(** The state after the sender was debited. *)
Definition debit (tx : Transaction) (s : StateDB) : StateDB :=
  let sender := account_or_default (tx_from tx) s in
  StateDB.set_account (tx_from tx)
    (with_nonce (tx_nonce tx + 1)
       (with_balance (u256_of_Z (balance s (tx_from tx) - (u256_val (tx_value tx)
                                  + fee tx (tx_gas tx)))) sender)) s.

Definition start_meter (cfg : GasConfig) (tx : Transaction) : GasMeter :=
  mkGasMeter (tx_gas tx) (tx_gas tx - compute_intrinsic_gas tx cfg) (compute_intrinsic_gas tx cfg).

Lemma u256_checked_if z : 0 <= z -> u256_checked z = if M256 <=? z then None else Some (u256_of_Z z).
Proof.
  intros Hz. destruct (M256 <=? z) eqn:E; zbool.
  - apply u256_checked_none. lia.
  - apply u256_checked_some. done.
Qed.

Lemma execute_split cfg tx ctx s :
  state_inv s -> tx_wf tx ->
  execute_transaction cfg tx ctx s =
  match precheck cfg tx ctx s with
  | Err e => (s, Err e)
  | Ok _ => after_debit cfg tx ctx (start_meter cfg tx) (debit tx s)
  end.
Proof.
  intros Hi (Hv & Hd & Hp & Hg & Hn). unfold precheck, execute_transaction.
  pose proof (account_or_default_wf s (tx_from tx) Hi) as [Hwn Hwb].
  pose proof (u256_val_bound _ Hv) as Bv. pose proof (u256_val_bound _ Hp) as Bp.
  pose proof (balance_default s (tx_from tx)) as Hbal.
  assert (0 <= fee tx (tx_gas tx)) by (unfold fee, u64_ok in *; nia).
  rewrite sbind_get, sbind_guard. fold (nonce s (tx_from tx)).
  destruct (nonce s (tx_from tx) =? tx_nonce tx) eqn:En; [zbool | done].
  rewrite sbind_lift. unfold GasMeter.new, checked_sub64. rewrite Z.leb_antisym.
  destruct (tx_gas tx <? compute_intrinsic_gas tx cfg); [done |].
  cbn [negb ok_or rbind]. rewrite sbind_lift, checked_mul_eq, from_u64_val by auto using from_u64_wf.
  fold (fee tx (tx_gas tx)). rewrite u256_checked_if by done.
  destruct (M256 <=? fee tx (tx_gas tx)) eqn:Ef; [done | zbool]. cbn [ok_or].
  rewrite sbind_lift, checked_add_eq, u256_val_of_Z by (auto with ivory; lia).
  rewrite u256_checked_if by lia.
  destruct (M256 <=? u256_val (tx_value tx) + fee tx (tx_gas tx)) eqn:Et; [done | zbool].
  cbn [ok_or]. rewrite sbind_guard, ltb_spec, u256_val_of_Z by (auto with ivory; lia). rewrite <- Hbal.
  destruct (balance s (tx_from tx) <? _) eqn:Eb; [done | zbool]. cbn [negb].
  rewrite sbind_guard, Z.leb_antisym. destruct (max_gas_per_block cfg <? _); [done |]. cbn [negb].
  pose proof (balance_le_supply s (tx_from tx) Hi) as Hbs.
  assert (balance s (tx_from tx) < M256) by (rewrite Hbal; by apply u256_val_bound).
  rewrite sbind_lift, checked_sub_eq, u256_val_of_Z, <- Hbal by (auto with ivory; lia).
  rewrite u256_checked_if by lia.
  rewrite (proj2 (Z.leb_gt _ _)) by lia. cbn [ok_or]. rewrite sbind_lift. unfold checked_add64.
  change (acc_nonce (account_or_default (tx_from tx) s)) with (nonce s (tx_from tx)). rewrite En.
  unfold u64_max. destruct (M64 - 1 <=? tx_nonce tx) eqn:Eo; zbool.
  - by rewrite (proj2 (Z.ltb_ge _ _)) by lia.
  - by rewrite (proj2 (Z.ltb_lt _ _)) by lia.
Qed.

Lemma precheck_ok cfg tx ctx s :
  precheck cfg tx ctx s = Ok tt ->
  nonce s (tx_from tx) = tx_nonce tx /\ compute_intrinsic_gas tx cfg <= tx_gas tx /\
  u256_val (tx_value tx) + fee tx (tx_gas tx) < M256 /\
  u256_val (tx_value tx) + fee tx (tx_gas tx) <= balance s (tx_from tx) /\
  saturating_add64 (ctx_gas_used ctx) (tx_gas tx) <= max_gas_per_block cfg /\
  tx_nonce tx < u64_max.
Proof.
  unfold precheck. intros H.
  repeat match type of H with (if ?b then _ else _) = _ => destruct b eqn:?; try done end.
  rewrite negb_false_iff in *. zbool. split_and!; lia.
Qed.

Lemma debit_spec cfg tx ctx s :
  state_inv s -> tx_wf tx -> precheck cfg tx ctx s = Ok tt -> debited tx s (debit tx s).
Proof.
  intros Hi (Hv & Hd & Hp & Hg & Hn) (Hno & Hint & Ht & Hb & Hx & Hmax)%precheck_ok.
  pose proof (account_or_default_wf s (tx_from tx) Hi) as [Hwn Hwb].
  pose proof (u256_val_bound _ Hv) as Bv. pose proof (u256_val_bound _ Hp) as Bp.
  assert (balance s (tx_from tx) < M256) by (rewrite balance_default; by apply u256_val_bound).
  assert (0 <= fee tx (tx_gas tx)) by (unfold fee, u64_ok in *; nia).
  unfold debited, debit. set (acc := with_nonce _ _).
  assert (u256_val (acc_balance acc) =
          balance s (tx_from tx) - (u256_val (tx_value tx) + fee tx (tx_gas tx))) as Ha
    by (simpl; apply u256_val_of_Z; lia).
  pose proof (set_account_ledger (tx_from tx) acc s) as (L1 & L2 & L3). split_and!.
  - apply set_account_inv; [| done]. unfold u64_max, u64_ok in *.
    split; simpl; [unfold u64_ok; lia | auto with ivory].
  - intros a. rewrite L1, Ha. destruct (decide (tx_from tx = a)) as [<-|]; lia.
  - intros a. rewrite L2. simpl. destruct (decide (tx_from tx = a)) as [<-|]; lia.
  - rewrite L3, Ha. lia.
Qed.

(** The meter after the call. *)
Lemma spend_spec cfg tx call :
  0 <= cr_gas_used call <= remaining (start_meter cfg tx) ->
  (if 0 <? cr_gas_used call then GasMeter.spend (start_meter cfg tx) (cr_gas_used call)
   else Ok (start_meter cfg tx)) =
  Ok (mkGasMeter (tx_gas tx) (remaining (start_meter cfg tx) - cr_gas_used call)
        (compute_intrinsic_gas tx cfg)).
Proof.
  intros H. destruct (0 <? cr_gas_used call) eqn:E; zbool.
  - unfold GasMeter.spend, checked_sub64. by rewrite (proj2 (Z.leb_le _ _)) by lia.
  - replace (cr_gas_used call) with 0 by lia. unfold start_meter. simpl. by rewrite Z.sub_0_r.
Qed.

(** The optional refund. *)
Lemma refund_spec addr v s :
  state_inv s -> u256_wf v -> supply s + u256_val v < M256 ->
  exists s', (if U256.is_zero v then sret tt else credit addr v) s = (s', Ok tt) /\
             state_inv s' /\ credited addr (u256_val v) s s'.
Proof.
  intros Hi Hv Hs. rewrite is_zero_spec by done. destruct (u256_val v =? 0) eqn:E; zbool.
  - exists s. split_and!; try done. rewrite E. split_and!; [| done | lia].
    intros a. destruct (decide _); lia.
  - by apply credit_spec.
Qed.

Lemma after_debit_spec cfg tx ctx s :
  state_inv s -> tx_wf tx -> gas_config_wf cfg -> u64_ok (ctx_gas_used ctx) ->
  supply s < M256 -> precheck cfg tx ctx s = Ok tt ->
  match after_debit cfg tx ctx (start_meter cfg tx) (debit tx s) with
  | (s', Ok (out, ctx')) =>
      state_inv s' /\ ledger_effect tx (eo_gas_used out) s s' /\ outcome_spec cfg tx ctx out ctx'
  | (s', Err e) => state_inv s' /\ ledger_effect tx (tx_gas tx) s s' /\
                   exists msg, e = ExecutionError.Vm msg
  end.
Proof.
  intros Hi Hw Hcfg Hctx Hsup Hpre.
  pose proof (debit_spec _ _ _ _ Hi Hw Hpre) as (Hi1 & Hb1 & Hn1 & Hs1).
  apply precheck_ok in Hpre as (Hno & Hint & Ht & Hb & Hx & Hmax).
  pose proof (intrinsic_ok tx cfg Hw Hcfg) as Hio.
  pose proof Hw as (Hv & Hd & Hp & Hg & Hn).
  pose proof (u256_val_bound _ Hv) as Bv. pose proof (u256_val_bound _ Hp) as Bp.
  assert (0 <= fee tx (tx_gas tx)) by (unfold fee, u64_ok in *; nia).
  unfold after_debit. set (s1 := debit tx s) in *.
  destruct (apply_value_spec tx s1 Hi1 Hw) as (s2 & E2 & Hi2 & Hb2 & Hn2 & Hs2); [lia |].
  rewrite (sbind_run _ _ _ _ _ E2).
  pose proof (execute_call_spec (call_input_from_tx tx) (remaining (start_meter cfg tx)) s2 Hi2) as Hc.
  destruct (execute_call _ _ s2) as [s3 r] eqn:E3. rewrite (sbind_run _ _ _ _ _ E3).
  destruct Hc as (Hi3 & (Hbn3 & Hs3) & Hr); [simpl; lia |].
  destruct r as [call|e].
  2: { split_and!; [done | | done]. unfold ledger_effect. split_and!; [| | lia].
       - intros a. destruct (Hbn3 a) as [-> _]. rewrite Hb2, Hb1. lia.
       - intros a. destruct (Hbn3 a) as [_ ->]. by rewrite Hn2, Hn1. }
  destruct Hr as [Hu Hok]. rewrite sbind_lift, spend_spec by done. simpl in Hu.
  set (rem := remaining (start_meter cfg tx) - cr_gas_used call).
  assert (u64_ok rem) as Hrem by (unfold rem, u64_ok in *; simpl; lia).
  assert (0 <= rem * u256_val (tx_gas_price tx) <= fee tx (tx_gas tx)) as Href
    by (unfold fee, u64_ok, rem in *; simpl; nia).
  unfold GasMeter.refund_gas, GasMeter.gas_used. cbn [limit remaining].
  rewrite sbind_lift, checked_mul_eq, from_u64_val, u256_checked_if by (auto using from_u64_wf; lia).
  rewrite (proj2 (Z.leb_gt _ _)) by lia. cbn [ok_or].
  destruct (refund_spec (tx_from tx) (u256_of_Z (rem * u256_val (tx_gas_price tx))) s3 Hi3)
    as (s4 & E4 & Hi4 & Hb4 & Hn4 & Hs4); [auto with ivory | rewrite u256_val_of_Z; lia |].
  rewrite (sbind_run _ _ _ _ _ E4). rewrite u256_val_of_Z in * by lia. unfold sret.
  assert (saturating_sub64 (tx_gas tx) rem = tx_gas tx - rem) as Hgu
    by (unfold saturating_sub64, rem, u64_ok in *; simpl; lia).
  assert (saturating_add64 (ctx_gas_used ctx) (tx_gas tx - rem) <= max_gas_per_block cfg) as Hle
    by (unfold saturating_add64, rem in *; simpl in *; lia).
  cbn [eo_gas_used]. rewrite Hgu, Hok. split_and!; [done | |].
  - unfold ledger_effect. assert (fee tx (tx_gas tx - rem) =
      fee tx (tx_gas tx) - rem * u256_val (tx_gas_price tx)) as Hfee by (unfold fee; lia).
    split_and!; [| | lia].
    + intros a. rewrite Hb4. destruct (Hbn3 a) as [-> _]. rewrite Hb2, Hb1, Hfee.
      destruct (decide (tx_from tx = a)); lia.
    + intros a. rewrite Hn4. destruct (Hbn3 a) as [_ ->]. by rewrite Hn2, Hn1.
  - unfold outcome_spec. cbn [eo_gas_used eo_gas_refunded eo_receipt eo_call ctx_gas_used ctx_block_number].
    split_and!; try done; unfold rem; simpl; lia.
Qed.

(** ** Properties *)

Lemma execute_spec cfg tx ctx s :
  state_inv s -> tx_wf tx -> gas_config_wf cfg -> u64_ok (ctx_gas_used ctx) -> supply s < M256 ->
  match precheck cfg tx ctx s with
  | Err e => execute_transaction cfg tx ctx s = (s, Err e)
  | Ok _ =>
      match execute_transaction cfg tx ctx s with
      | (s', Ok (out, ctx')) =>
          state_inv s' /\ ledger_effect tx (eo_gas_used out) s s' /\ outcome_spec cfg tx ctx out ctx'
      | (s', Err e) =>
          state_inv s' /\ ledger_effect tx (tx_gas tx) s s' /\ exists msg, e = ExecutionError.Vm msg
      end
  end.
Proof.
  intros Hi Hw Hcfg Hctx Hs. rewrite execute_split by done.
  destruct (precheck cfg tx ctx s) as [[]|e] eqn:E; [| done]. by apply after_debit_spec.
Qed.

(** C1: [execute_transaction] implements its specification.  When one of the
    checks (nonce, intrinsic gas, overflow of the cost, balance, block gas) fails,
    the first failing check decides the error and the state is untouched.
    Otherwise the sender pays exactly value plus gas used times gas price, the
    destination (recipient or created contract) receives exactly the value, only
    the sender's nonce changes and by one, gas used lies between the intrinsic
    cost and the limit, the rest is refunded, and the receipt and block gas record
    it; the only possible failure is a VM error, which charges the whole limit. *)
Theorem execute_transaction_spec cfg tx ctx s :
  state_inv s -> tx_wf tx -> gas_config_wf cfg -> u64_ok (ctx_gas_used ctx) -> supply s < M256 ->
  match precheck cfg tx ctx s with
  | Err e => execute_transaction cfg tx ctx s = (s, Err e)
  | Ok _ =>
      match execute_transaction cfg tx ctx s with
      | (s', Ok (out, ctx')) =>
          state_inv s' /\ ledger_effect tx (eo_gas_used out) s s' /\ outcome_spec cfg tx ctx out ctx'
      | (s', Err e) =>
          state_inv s' /\ ledger_effect tx (tx_gas tx) s s' /\ exists msg, e = ExecutionError.Vm msg
      end
  end.
Proof. apply execute_spec. Qed.

Lemma fee_nonneg tx gas : tx_wf tx -> 0 <= gas -> 0 <= fee tx gas.
Proof.
  intros (_ & _ & Hp & _) Hg. pose proof (u256_val_bound _ Hp). unfold fee. nia.
Qed.

Lemma execute_inv cfg tx ctx s :
  state_inv s -> tx_wf tx -> gas_config_wf cfg -> u64_ok (ctx_gas_used ctx) -> supply s < M256 ->
  let s' := (execute_transaction cfg tx ctx s).1 in state_inv s' /\ supply s' <= supply s.
Proof.
  intros Hi Hw Hcfg Hctx Hs. pose proof (execute_spec cfg tx ctx s Hi Hw Hcfg Hctx Hs) as H.
  pose proof (intrinsic_ok tx cfg Hw Hcfg) as Hint. unfold u64_ok in Hint.
  destruct (precheck cfg tx ctx s) as [[]|e]; [| rewrite H; simpl; split; [done | lia]].
  destruct (execute_transaction cfg tx ctx s) as [s' [[out ctx']|e]]; simpl.
  - destruct H as (H1 & (_ & _ & ->) & (Hg & _)).
    pose proof (fee_nonneg tx (eo_gas_used out) Hw ltac:(lia)). split; [done | lia].
  - destruct H as (H1 & (_ & _ & ->) & _). assert (0 <= tx_gas tx) as Hg by apply Hw.
    pose proof (fee_nonneg tx (tx_gas tx) Hw Hg). split; [done | lia].
Qed.

(** The transactions of a block against one context, skipping failures. *)
Fixpoint execute_all (cfg : GasConfig) (txs : list Transaction) (ctx : ExecutionContext)
    (s : StateDB) : StateDB * ExecutionContext :=
  match txs with
  | [] => (s, ctx)
  | tx :: txs =>
      match execute_transaction cfg tx ctx s with
      | (s, Ok (_, ctx)) => execute_all cfg txs ctx s
      | (s, Err _) => execute_all cfg txs ctx s
      end
  end.

(** C11: No sequence of transactions, successful or failing, creates money: the
    total supply never grows, the state invariant (well-formed accounts, current
    storage roots) holds throughout, and the block's gas counter stays within the
    block gas limit. *)
Theorem execution_never_inflates cfg txs ctx s :
  gas_config_wf cfg -> Forall tx_wf txs ->
  u64_ok (ctx_gas_used ctx) -> ctx_gas_used ctx <= max_gas_per_block cfg ->
  state_inv s -> supply s < M256 ->
  let '(s', ctx') := execute_all cfg txs ctx s in
  state_inv s' /\ supply s' <= supply s /\ ctx_gas_used ctx' <= max_gas_per_block cfg.
Proof.
  intros Hcfg Hw. revert ctx s; induction Hw as [|tx txs Htx Hw IH]; intros ctx s Hctx Hm Hi Hs;
    [simpl; split_and!; done || lia |]. simpl.
  pose proof (execute_inv cfg tx ctx s Hi Htx Hcfg Hctx Hs) as [Hi' Hs'].
  pose proof (execute_spec cfg tx ctx s Hi Htx Hcfg Hctx Hs) as Hspec.
  destruct (execute_transaction cfg tx ctx s) as [s1 [[out ctx1]|e]]; simpl in *.
  - assert (u64_ok (ctx_gas_used ctx1) /\ ctx_gas_used ctx1 <= max_gas_per_block cfg) as [H1 H2].
    { destruct (precheck cfg tx ctx s) as [[]|?]; [| done].
      destruct Hspec as (_ & _ & Hg & _ & _ & -> & Hle). split; [| done]. simpl.
      pose proof (intrinsic_ok tx cfg Htx Hcfg). destruct Htx as (_ & _ & _ & Hgas & _).
      apply saturating_add64_ok; [done |]. unfold u64_ok in *. lia. }
    specialize (IH ctx1 s1 H1 H2 Hi'). destruct (execute_all cfg txs ctx1 s1).
    destruct IH as (? & ? & ?); [lia |]. split_and!; done || lia.
  - specialize (IH ctx s1 Hctx Hm Hi'). destruct (execute_all cfg txs ctx s1).
    destruct IH as (? & ? & ?); [lia |]. split_and!; done || lia.
Qed.

(** A transaction cannot be replayed: once [execute_transaction] has
    accepted it (or failed in the VM after charging it), executing it again in the
    resulting state is refused with [NonceMismatch] and changes nothing. *)
Theorem no_replay cfg tx ctx ctx2 s :
  state_inv s -> tx_wf tx -> gas_config_wf cfg -> u64_ok (ctx_gas_used ctx) -> supply s < M256 ->
  precheck cfg tx ctx s = Ok tt ->
  let s' := (execute_transaction cfg tx ctx s).1 in
  execute_transaction cfg tx ctx2 s' =
    (s', Err (ExecutionError.NonceMismatch (tx_nonce tx + 1) (tx_nonce tx))).
Proof.
  intros Hi Hw Hcfg Hctx Hs Hpre. pose proof (execute_spec cfg tx ctx s Hi Hw Hcfg Hctx Hs) as H.
  rewrite Hpre in H. apply precheck_ok in Hpre as (Hno & _).
  assert (state_inv (execute_transaction cfg tx ctx s).1 /\
          nonce (execute_transaction cfg tx ctx s).1 (tx_from tx) = tx_nonce tx + 1) as [Hi' Hn'].
  { destruct (execute_transaction cfg tx ctx s) as [s' [[out ctx']|e]]; simpl;
      destruct H as (H1 & (_ & H2 & _) & _); (split; [done |]); rewrite H2, decide_True by done; lia. }
  simpl. rewrite execute_split by done. unfold precheck. rewrite Hn'.
  replace (tx_nonce tx + 1 =? tx_nonce tx) with false by (symmetry; apply Z.eqb_neq; lia). done.
Qed.

Lemma no_code_call input gas s :
  (ci_kind input = Create \/ StateDB.get_code s (default (ci_from input) (ci_to input)) = []) ->
  execute_call input gas s = (s, Ok (call_result_empty true 0)).
Proof. unfold execute_call. destruct (ci_kind input); [| done]. intros [|H]; [done |]. by rewrite H. Qed.

(** Transfers and deployments go through: a transaction that passes the
    checks and does not call contract code (a creation, or a recipient without
    code) succeeds, emits no logs and costs exactly the intrinsic gas. *)
Theorem plain_transaction_succeeds cfg tx ctx s :
  state_inv s -> tx_wf tx -> gas_config_wf cfg -> u64_ok (ctx_gas_used ctx) -> supply s < M256 ->
  precheck cfg tx ctx s = Ok tt ->
  (tx_to tx = None \/ exists to, tx_to tx = Some to /\ StateDB.get_code s to = []) ->
  exists s' out ctx', execute_transaction cfg tx ctx s = (s', Ok (out, ctx')) /\
    eo_gas_used out = compute_intrinsic_gas tx cfg /\ rc_logs (eo_receipt out) = [] /\
    ledger_effect tx (compute_intrinsic_gas tx cfg) s s'.
Proof.
  intros Hi Hw Hcfg Hctx Hs Hpre Hto. pose proof (execute_spec cfg tx ctx s Hi Hw Hcfg Hctx Hs) as H.
  rewrite Hpre in H. pose proof (execute_split cfg tx ctx s Hi Hw) as E. rewrite Hpre in E.
  pose proof (debit_spec _ _ _ _ Hi Hw Hpre) as (Hi1 & _ & _ & Hs1).
  assert (0 <= tx_gas tx) as Hg by apply Hw.
  pose proof (fee_nonneg tx (tx_gas tx) Hw Hg) as Hf.
  destruct (apply_value_spec tx (debit tx s) Hi1 Hw) as (s2 & E2 & Hi2 & _ & _ & _); [lia |].
  unfold after_debit in E. rewrite (sbind_run _ _ _ _ _ E2) in E.
  assert (execute_call (call_input_from_tx tx) (remaining (start_meter cfg tx)) s2 =
          (s2, Ok (call_result_empty true 0))) as E3.
  { apply no_code_call. unfold call_input_from_tx, call_kind_from_tx, is_create. simpl.
    destruct Hto as [->|(to & Hto & Hc)]; [by left | right]. rewrite Hto. simpl.
    revert E2. unfold apply_value. rewrite Hto. unfold credit, debit, sbind, sget, slift, smodify.
    destruct (U256.checked_add _ _); simpl; [| done]. intros [= <-]. simpl.
    by unfold StateDB.get_code in *. }
  rewrite (sbind_run _ _ _ _ _ E3), sbind_lift, spend_spec in E.
  2: { simpl. apply precheck_ok in Hpre. lia. }
  destruct (execute_transaction cfg tx ctx s) as [s' [[out ctx']|e]] eqn:Ex.
  - destruct H as (_ & Heff & _). exists s', out, ctx'. split; [done |].
    assert (eo_gas_used out = compute_intrinsic_gas tx cfg /\ rc_logs (eo_receipt out) = []) as [Hg1 Hl1].
    { revert E. unfold sret, sbind, slift.
      destruct (ok_or _ _); [| done]. destruct (_ s2) as [? []]; [| done]. intros [= _ -> _].
      split; [| done]. unfold eo_gas_used, GasMeter.gas_used, saturating_sub64. simpl.
      apply precheck_ok in Hpre. pose proof (intrinsic_ok tx cfg Hw Hcfg). unfold u64_ok in *. lia. }
    rewrite Hg1 in Heff. done.
  - exfalso. destruct H as (_ & _ & msg & ->). revert E. unfold sret, sbind, slift.
    destruct (ok_or _ _) eqn:Eo; [| by unfold ok_or in Eo; destruct (U256.checked_mul _ _); simplify_eq].
    unfold credit, sbind, sget, slift, smodify. destruct (U256.is_zero _); [done |].
    destruct (U256.checked_add _ _); done.
Qed.

(** Metering is switched off exactly when nothing is left to meter: a
    contract called with no gas beyond the intrinsic cost runs on the default
    budget of ten million units, with the same effect on the state and the same
    result and logs as if it had been given them, and is charged zero. *)
Theorem zero_gas_call_is_free input s :
  let '(s1, r1) := execute_call input 0 s in
  let '(s2, r2) := execute_call input 10000000 s in
  s1 = s2 /\
  match r1, r2 with
  | Ok c1, Ok c2 => cr_gas_used c1 = 0 /\ cr_success c1 = cr_success c2 /\
                    cr_logs c1 = cr_logs c2 /\ cr_output c1 = cr_output c2
  | Err e1, Err e2 => e1 = e2
  | _, _ => False
  end.
Proof.
  unfold execute_call. destruct (ci_kind input); [| done]. set (to := default _ _).
  destruct (StateDB.get_code s to) as [|b wasm]; [done |]. unfold vm_execute. simpl.
  destruct (module_new _) as [m|e]; [| done].
  destruct (run_guest (instantiate_start m 10000000) _) as [h1 [[f1 inst]|e]]; [| done].
  destruct (get_call inst) as [[| |]|]; try done;
    destruct (run_guest (call_typed inst f1) h1) as [h2 [[f2 v]|e]]; done.
Qed.
End Props.

(** ** Witnesses *)

(** Two contracts to run: a counter that stores, logs and returns 42, and one
    (first byte 2) that writes and traps. *)
#[export] Instance wasmi_toy : WasmiCrate := {|
  wasm_module := byte; wasm_instance := byte;
  module_new wasm := match wasm with
    | [] => Err (str "empty")
    | b :: _ => if decide (b = x00) then Err (str "magic") else Ok b
    end;
  instantiate_start m f := GReturn f m;
  get_call _ := Some CallI32;
  call_typed i f :=
    if decide (i = x02) then GStorageSet 0 1 (GTrap (str "unreachable"))
    else GStorageGet 0 (fun v => GStorageSet 0 (v + 1) (GEmitLog 7 (GReturn (Z.max 0 (f - 5)) 42))) |}.
#[export] Instance wasmi_toy_laws : WasmiLaws.
Proof.
  split; simpl; intros; repeat constructor; try lia.
  destruct (decide (i = x02)); repeat constructor; lia.
Qed.

Definition sample_ctx : ExecutionContext := context_new 1 1700000000.
Definition funded_state : StateDB :=
  StateDB.set_code (sample_address x07) [x01]
    (StateDB.set_code (sample_address x08) [x02]
       (StateDB.set_account (sample_address x01)
          (with_balance (U256.from_u64 1000000) account_new) StateDB.new)).

Lemma funded_inv : state_inv funded_state.
Proof.
  apply set_code_inv; [done |]. apply set_code_inv; [done |]. apply set_account_inv; [| apply new_inv].
  split; [done | by apply u256_wf_mk].
Qed.
Lemma gas_config_default_wf : gas_config_wf gas_config_default.
Proof. done. Qed.
Lemma funded_supply : supply funded_state < M256.
Proof. vm_compute. reflexivity. Qed.

(** A call of the counter: it passes the checks, and stores, logs and returns. *)
Lemma execute_transaction_spec_witness :
  let tx := sample_tx x01 (Some (sample_address x07)) 10 30000 0 in
  precheck gas_config_default tx sample_ctx funded_state = Ok tt /\
  match execute_transaction gas_config_default tx sample_ctx funded_state with
  | (s', Ok (out, ctx')) =>
      state_inv s' /\ ledger_effect tx (eo_gas_used out) funded_state s' /\
      outcome_spec gas_config_default tx sample_ctx out ctx'
  | (s', Err e) => state_inv s' /\ ledger_effect tx (tx_gas tx) funded_state s' /\
      exists msg, e = ExecutionError.Vm msg
  end.
Proof.
  intros tx. assert (precheck gas_config_default tx sample_ctx funded_state = Ok tt) as P
    by (vm_compute; reflexivity).
  split; [exact P |].
  assert (tx_wf tx) as W by (apply sample_tx_wf; done).
  pose proof (execute_transaction_spec gas_config_default tx sample_ctx funded_state funded_inv W
    gas_config_default_wf ltac:(done) funded_supply) as H.
  rewrite P in H. exact H.
Defined.

Lemma execution_never_inflates_witness :
  let txs := [sample_tx x01 (Some (sample_address x07)) 10 30000 0;
              sample_tx x01 (Some (sample_address x08)) 10 30000 1;
              sample_tx x01 (Some (sample_address x02)) 10 21000 9] in
  let '(s', ctx') := execute_all gas_config_default txs sample_ctx funded_state in
  state_inv s' /\ supply s' <= supply funded_state /\
  ctx_gas_used ctx' <= max_gas_per_block gas_config_default.
Proof.
  intros txs. apply (execution_never_inflates gas_config_default txs sample_ctx funded_state);
    [exact gas_config_default_wf | | done | done | exact funded_inv | exact funded_supply].
  repeat (apply Forall_cons; split; [apply sample_tx_wf; done |]). by apply Forall_nil.
Defined.

Lemma no_replay_witness :
  let tx := sample_tx x01 (Some (sample_address x08)) 10 30000 0 in
  let s' := (execute_transaction gas_config_default tx sample_ctx funded_state).1 in
  execute_transaction gas_config_default tx sample_ctx s' =
    (s', Err (ExecutionError.NonceMismatch 1 0)).
Proof.
  intros tx. apply (no_replay gas_config_default tx sample_ctx sample_ctx funded_state funded_inv);
    [apply sample_tx_wf; done | exact gas_config_default_wf | done | exact funded_supply |
     vm_compute; reflexivity].
Defined.

Lemma plain_transaction_succeeds_witness :
  let tx := sample_tx x01 (Some (sample_address x02)) 10 30000 0 in
  exists s' out ctx', execute_transaction gas_config_default tx sample_ctx funded_state
                      = (s', Ok (out, ctx')) /\
    eo_gas_used out = compute_intrinsic_gas tx gas_config_default /\
    rc_logs (eo_receipt out) = [] /\
    ledger_effect tx (compute_intrinsic_gas tx gas_config_default) funded_state s'.
Proof.
  intros tx. apply (plain_transaction_succeeds gas_config_default tx sample_ctx funded_state funded_inv);
    [apply sample_tx_wf; done | exact gas_config_default_wf | done | exact funded_supply |
     vm_compute; reflexivity |].
  right. exists (sample_address x02). split; [reflexivity | vm_compute; reflexivity].
Defined.

(** The counter called with exactly the intrinsic gas: it runs, logs and stores, for free. *)
Example intrinsic_only_call_runs :
  match execute_transaction gas_config_default
          (sample_tx x01 (Some (sample_address x07)) 0 21000 0) sample_ctx funded_state with
  | (s', Ok (out, _)) =>
      (eo_gas_used out, length (rc_logs (eo_receipt out)),
       U256.limb (StateDB.get_storage s' (sample_address x07) (slot_key 0)) 0)
  | _ => (0, 0%nat, 0)
  end = (21000, 1%nat, 1).
Proof. vm_compute. reflexivity. Qed.
