(* ===== verification/TxPool.v ===== *)
(** * The transaction pool: [crates/ivory-txpool/src]

    [pool.rs], [pending.rs], [config.rs] and [error.rs].  The pool's three
    [DashMap]s are finite maps.  The order in which a [DashMap] is iterated is
    not specified; it is the parameter [DashMapCrate], about which only the
    contents are known ([DashMapLaws]). *)

From S2P Require Import Prelude Hex Uint UintFacts Hash Address Bincode Core Crypto.
#[local] Open Scope Z_scope.

Module TxPoolError.
Inductive t : Type :=
| NonceTooLow (expected got : Z)
| NonceGap (expected got : Z)
| AlreadyKnown
| GasLimitTooLow (min got : Z)
| PoolFull
| SenderLimitReached
| InvalidSignature.
#[global] Instance eq_dec : EqDecision t.
Proof. solve_decision. Defined.
End TxPoolError.

Inductive TxOrigin : Type := Local | Remote.

Record PendingTx : Type := mkPendingTx {
  pt_hash : H256;
  pt_tx : Transaction;
  pt_origin : TxOrigin;
  pt_added_at_ms : Z }.

Record PoolConfig : Type := mkPoolConfig {
  max_pending : nat;
  max_per_sender : nat;
  min_gas : Z }.
Definition pool_config_default : PoolConfig := mkPoolConfig 4096 64 21000.
Definition pool_config_tiny : PoolConfig := mkPoolConfig 2 1 21000.

Record PoolStats : Type := mkPoolStats { stats_pending : nat; stats_senders : nat }.

Record TransactionPool : Type := mkTransactionPool {
  config : PoolConfig;
  pending : gmap H256 PendingTx;
  next_nonce : gmap Address Z;
  per_sender : gmap Address nat }.

Class DashMapCrate := { dash_iter : forall A, gmap H256 A -> list (H256 * A) }.
Class DashMapLaws `{DashMapCrate} : Prop := {
  dash_iter_perm A (m : gmap H256 A) : dash_iter A m ≡ₚ map_to_list m }.
#[export] Instance dashmap_list : DashMapCrate := {| dash_iter A m := map_to_list m |}.
#[export] Instance dashmap_list_laws : DashMapLaws.
Proof. done. Qed.

Module TransactionPool.
Section Pool.
Context {BC : BincodeCrate} {SC : Sha3Crate} {EC : Ed25519Crate} {DC : DashMapCrate}.

Definition with_config (cfg : PoolConfig) : TransactionPool := mkTransactionPool cfg ∅ ∅ ∅.
Definition new : TransactionPool := with_config pool_config_default.

Definition expected_nonce (p : TransactionPool) (addr : Address) : Z :=
  default 0 (next_nonce p !! addr).
Definition pending_count (p : TransactionPool) : nat := size (pending p).
Definition stats (p : TransactionPool) : PoolStats :=
  mkPoolStats (size (pending p)) (size (next_nonce p)).
Definition get (p : TransactionPool) (hash : H256) : option Transaction :=
  pt_tx <$> pending p !! hash.
Definition contains (p : TransactionPool) (hash : H256) : bool :=
  bool_decide (is_Some (pending p !! hash)).

Definition add_transaction_at (tx : Transaction) (origin : TxOrigin) (added_at_ms : Z) :
    smonad TransactionPool TxPoolError.t H256 := fun p =>
  if tx_gas tx <? min_gas (config p)
  then (p, Err (TxPoolError.GasLimitTooLow (min_gas (config p)) (tx_gas tx)))
  else match recover_sender tx with
  | Err _ => (p, Err TxPoolError.InvalidSignature)
  | Ok _ =>
    let hash := tx_hash tx in
    if contains p hash then (p, Err TxPoolError.AlreadyKnown)
    else if (max_pending (config p) <=? size (pending p))%nat then (p, Err TxPoolError.PoolFull)
    else
      let sender := tx_from tx in
      let sender_count := default O (per_sender p !! sender) in
      if (max_per_sender (config p) <=? sender_count)%nat
      then (p, Err TxPoolError.SenderLimitReached)
      else
        let expected := expected_nonce p sender in
        if tx_nonce tx <? expected then (p, Err (TxPoolError.NonceTooLow expected (tx_nonce tx)))
        else if expected <? tx_nonce tx then (p, Err (TxPoolError.NonceGap expected (tx_nonce tx)))
        else
          (mkTransactionPool (config p)
             (<[hash := mkPendingTx hash tx origin added_at_ms]> (pending p))
             (<[sender := saturating_add64 expected 1]> (next_nonce p))
             (<[sender := S sender_count]> (per_sender p)),
           Ok hash)
  end.

Definition add_transaction (tx : Transaction) (origin : TxOrigin) :
    smonad TransactionPool TxPoolError.t H256 := add_transaction_at tx origin 0.

Definition get_pending_entries (p : TransactionPool) (max : nat) : list PendingTx :=
  map snd (take max (dash_iter _ (pending p))).
Definition get_pending (p : TransactionPool) (max : nat) : list Transaction :=
  map pt_tx (get_pending_entries p max).

Definition remove (p : TransactionPool) (hash : H256) : TransactionPool * option PendingTx :=
  match pending p !! hash with
  | None => (p, None)
  | Some entry =>
      let sender := tx_from (pt_tx entry) in
      let per_sender' :=
        match per_sender p !! sender with
        | None => per_sender p
        | Some count =>
            let count := (count - 1)%nat in
            if (count =? 0)%nat then delete sender (per_sender p)
            else <[sender := count]> (per_sender p)
        end in
      (mkTransactionPool (config p) (delete hash (pending p)) (next_nonce p) per_sender', Some entry)
  end.

Definition clear_pending (p : TransactionPool) : TransactionPool :=
  mkTransactionPool (config p) ∅ (next_nonce p) ∅.
Definition clear (p : TransactionPool) : TransactionPool :=
  mkTransactionPool (config p) ∅ ∅ ∅.
End Pool.
End TransactionPool.

(** ** The invariant *)

Section Props.
Context {BC : BincodeCrate} {SC : Sha3Crate} {EC : Ed25519Crate} {DC : DashMapCrate}.
Implicit Types p : TransactionPool.

(** Pending transactions of one sender. *)
Definition from_sender (a : Address) (e : PendingTx) : Prop := tx_from (pt_tx e) = a.
#[local] Instance from_sender_dec a e : Decision (from_sender a e) := decide (_ = _).
Definition sender_entries (a : Address) (m : gmap H256 PendingTx) : gmap H256 PendingTx :=
  filter (fun kv => from_sender a kv.2) m.

(** What admission checked about an entry. *)
Definition entry_ok (p : TransactionPool) (h : H256) (e : PendingTx) : Prop :=
  pt_hash e = h /\ h = tx_hash (pt_tx e) /\
  recover_sender (pt_tx e) = Ok (tx_from (pt_tx e)) /\
  min_gas (config p) <= tx_gas (pt_tx e) /\
  (tx_nonce (pt_tx e) < TransactionPool.expected_nonce p (tx_from (pt_tx e)) \/
   tx_nonce (pt_tx e) = u64_max).

Record pool_inv (p : TransactionPool) : Prop := {
  inv_entries : map_Forall (entry_ok p) (pending p);
  inv_count a : default O (per_sender p !! a) = size (sender_entries a (pending p));
  inv_positive a n : per_sender p !! a = Some n -> (0 < n)%nat;
  inv_capacity : (size (pending p) <= max_pending (config p))%nat;
  inv_sender a : (size (sender_entries a (pending p)) <= max_per_sender (config p))%nat;
  inv_nonce a : u64_ok (TransactionPool.expected_nonce p a);
  inv_unique h1 h2 e1 e2 :
    pending p !! h1 = Some e1 -> pending p !! h2 = Some e2 ->
    tx_from (pt_tx e1) = tx_from (pt_tx e2) -> tx_nonce (pt_tx e1) = tx_nonce (pt_tx e2) ->
    tx_nonce (pt_tx e1) < u64_max -> h1 = h2 }.

Lemma sender_entries_insert a m h e :
  m !! h = None ->
  size (sender_entries a (<[h := e]> m)) =
  ((if decide (tx_from (pt_tx e) = a) then 1 else 0) + size (sender_entries a m))%nat.
Proof.
  intros Hh. unfold sender_entries. destruct (decide (tx_from (pt_tx e) = a)) as [E|E].
  - rewrite map_filter_insert_True by done. rewrite map_size_insert_None; [done |].
    apply map_lookup_filter_None. by left.
  - rewrite map_filter_insert_False by done. by rewrite delete_id.
Qed.

Lemma sender_entries_delete a m h e :
  m !! h = Some e ->
  size (sender_entries a m) =
  ((if decide (tx_from (pt_tx e) = a) then 1 else 0) + size (sender_entries a (delete h m)))%nat.
Proof.
  intros Hh. rewrite <- (insert_delete_id m h e Hh) at 1.
  apply sender_entries_insert, lookup_delete_eq.
Qed.

Lemma sender_entries_empty a : size (sender_entries a ∅) = O.
Proof. unfold sender_entries. by rewrite map_filter_empty, map_size_empty. Qed.

(** An empty pool, whatever nonces it remembers. *)
Lemma pool_empty_inv cfg nn :
  (forall a, u64_ok (default 0 (nn !! a))) -> pool_inv (mkTransactionPool cfg ∅ nn ∅).
Proof.
  intros Hn. split; simpl; intros.
  - apply map_Forall_empty.
  - by rewrite lookup_empty, sender_entries_empty.
  - by rewrite lookup_empty in *.
  - rewrite map_size_empty. lia.
  - rewrite sender_entries_empty. lia.
  - apply Hn.
  - by rewrite lookup_empty in *.
Qed.

Lemma pool_new_inv cfg : pool_inv (TransactionPool.with_config cfg).
Proof. apply pool_empty_inv. intros a. by rewrite lookup_empty. Qed.

(** The admission checks, in order; [Ok] carries the state after admission. *)
Lemma add_cases tx o t p :
  match TransactionPool.add_transaction_at tx o t p with
  | (p', Err e) => p' = p
  | (p', Ok h) =>
      h = tx_hash tx /\ min_gas (config p) <= tx_gas tx /\
      recover_sender tx = Ok (tx_from tx) /\ pending p !! h = None /\
      (size (pending p) < max_pending (config p))%nat /\
      (default O (per_sender p !! tx_from tx) < max_per_sender (config p))%nat /\
      tx_nonce tx = TransactionPool.expected_nonce p (tx_from tx) /\
      p' = mkTransactionPool (config p) (<[h := mkPendingTx h tx o t]> (pending p))
             (<[tx_from tx := saturating_add64 (tx_nonce tx) 1]> (next_nonce p))
             (<[tx_from tx := S (default O (per_sender p !! tx_from tx))]> (per_sender p))
  end.
Proof.
  unfold TransactionPool.add_transaction_at.
  destruct (tx_gas tx <? _) eqn:E1; [done |].
  destruct (recover_sender tx) as [a|] eqn:E2; [| done].
  unfold TransactionPool.contains. case_bool_decide as E3; [done |].
  destruct (Nat.leb_spec (max_pending (config p)) (size (pending p))); [done |].
  destruct (Nat.leb_spec (max_per_sender (config p)) (default O (per_sender p !! tx_from tx))); [done |].
  destruct (tx_nonce tx <? _) eqn:E4; [done |].
  destruct (_ <? tx_nonce tx) eqn:E5; [done |]. zbool.
  apply recover_sender_ok in E2 as E2'. destruct E2' as (-> & _ & _).
  assert (tx_nonce tx = TransactionPool.expected_nonce p (tx_from tx)) as En by lia.
  rewrite <- En. split_and!; try done. by apply eq_None_not_Some.
Qed.

Lemma add_inv tx o t p :
  u64_ok (tx_nonce tx) -> pool_inv p ->
  pool_inv (TransactionPool.add_transaction_at tx o t p).1.
Proof.
  intros Htn Hp. pose proof (add_cases tx o t p) as H.
  destruct (TransactionPool.add_transaction_at tx o t p) as [p' [h|e]]; [| by subst].
  destruct H as (-> & Hg & Hr & Hh & Hsz & Hct & Hn & ->). simpl.
  destruct Hp as [He Hc Hpos Hcap Hsnd Hno Hu].
  set (e := mkPendingTx (tx_hash tx) tx o t).
  assert (forall a, TransactionPool.expected_nonce p a <=
    default 0 (<[tx_from tx := saturating_add64 (tx_nonce tx) 1]> (next_nonce p) !! a)) as Hmono.
  { intros a. destruct (decide (tx_from tx = a)) as [<-|Ha].
    - rewrite lookup_insert_eq. simpl. unfold saturating_add64, u64_max, u64_ok in *. lia.
    - rewrite lookup_insert_ne by done. done. }
  split; unfold TransactionPool.expected_nonce in *; simpl in *.
  - apply map_Forall_insert_2.
    + split_and!; try done. unfold TransactionPool.expected_nonce. simpl.
      rewrite lookup_insert_eq. simpl. unfold saturating_add64, u64_max, u64_ok in *. lia.
    + intros h' e' He'. destruct (He h' e' He') as (H1 & H2 & H3 & H4 & H5).
      split_and!; try done. unfold TransactionPool.expected_nonce in *. simpl.
      specialize (Hmono (tx_from (pt_tx e'))). lia.
  - intros a. rewrite sender_entries_insert by done. simpl.
    destruct (decide (tx_from tx = a)) as [<-|Ha].
    + rewrite lookup_insert_eq. simpl. by rewrite Hc.
    + rewrite lookup_insert_ne by done. apply Hc.
  - intros a n. destruct (decide (tx_from tx = a)) as [<-|Ha].
    + rewrite lookup_insert_eq. intros [= <-]. lia.
    + rewrite lookup_insert_ne by done. apply Hpos.
  - rewrite map_size_insert_None by done. lia.
  - intros a. rewrite sender_entries_insert by done. simpl. specialize (Hsnd a).
    destruct (decide (tx_from tx = a)) as [<-|Ha]; [rewrite Hc in Hct |]; lia.
  - intros a. destruct (decide (tx_from tx = a)) as [<-|Ha].
    + rewrite lookup_insert_eq. simpl. by apply saturating_add64_ok.
    + rewrite lookup_insert_ne by done. apply Hno.
  - assert (forall h' e', pending p !! h' = Some e' -> tx_from (pt_tx e') = tx_from tx ->
      tx_nonce (pt_tx e') = tx_nonce tx -> tx_nonce tx < u64_max -> False) as Hfresh.
    { intros h' e' He' Hf Hn' Hlt. destruct (He h' e' He') as (_ & _ & _ & _ & H5).
      unfold TransactionPool.expected_nonce in H5. rewrite Hf in H5. lia. }
    intros h1 h2 e1 e2. destruct (decide (tx_hash tx = h1)) as [<-|H1], (decide (tx_hash tx = h2)) as [<-|H2];
      rewrite ?lookup_insert_eq, ?lookup_insert_ne by done; try done.
    + intros [= <-] He2 Hf Hn2 Hlt. exfalso. by eapply Hfresh; [exact He2 | | | exact Hlt].
    + intros He1 [= <-] Hf Hn2 Hlt. exfalso. eapply Hfresh; [exact He1 | done | done |].
      simpl in Hn2. by rewrite <- Hn2.
    + apply Hu.
Qed.

Lemma remove_inv h p : pool_inv p -> pool_inv (TransactionPool.remove p h).1.
Proof.
  intros [He Hc Hpos Hcap Hsnd Hno Hu]. unfold TransactionPool.remove.
  destruct (pending p !! h) as [e|] eqn:Eh; [| by split]. simpl.
  set (a0 := tx_from (pt_tx e)).
  assert (forall a, size (sender_entries a (delete h (pending p))) =
    (size (sender_entries a (pending p)) - if decide (a0 = a) then 1 else 0)%nat) as Hdel.
  { intros a. rewrite (sender_entries_delete a (pending p) h e Eh). unfold a0.
    destruct (decide _); lia. }
  assert (is_Some (per_sender p !! a0)) as [n Hn].
  { destruct (per_sender p !! a0) eqn:Ep; [eauto |]. exfalso. specialize (Hc a0).
    rewrite Ep, (sender_entries_delete a0 (pending p) h e Eh), decide_True in Hc by done. simpl in Hc. lia. }
  rewrite Hn. pose proof (Hpos _ _ Hn) as Hn0. pose proof (Hc a0) as Hca. rewrite Hn in Hca. simpl in Hca.
  split; unfold TransactionPool.expected_nonce in *; simpl; try done.
  - by apply map_Forall_delete.
  - intros a. rewrite Hdel. destruct (decide (a0 = a)) as [<-|Ha].
    + destruct (Nat.eqb_spec (n - 1) 0); [rewrite lookup_delete_eq | rewrite lookup_insert_eq]; simpl; lia.
    + rewrite Nat.sub_0_r, <- Hc.
      destruct (Nat.eqb_spec (n - 1) 0); [by rewrite lookup_delete_ne | by rewrite lookup_insert_ne].
  - intros a m. destruct (decide (a0 = a)) as [<-|Ha].
    + destruct (Nat.eqb_spec (n - 1) 0); [by rewrite lookup_delete_eq |].
      rewrite lookup_insert_eq. intros [= <-]. lia.
    + destruct (Nat.eqb_spec (n - 1) 0); [rewrite lookup_delete_ne by done | rewrite lookup_insert_ne by done];
        apply Hpos.
  - rewrite map_size_delete, Eh. lia.
  - intros a. rewrite Hdel. specialize (Hsnd a). lia.
  - intros h1 h2 e1 e2 [_ H1]%lookup_delete_Some [_ H2]%lookup_delete_Some. by eapply Hu.
Qed.

(** Everything a client of the pool can do ([clear] is for tests and forgets the nonces). *)
Inductive pool_step : TransactionPool -> TransactionPool -> Prop :=
| step_add tx o t p :
    u64_ok (tx_nonce tx) -> pool_step p (TransactionPool.add_transaction_at tx o t p).1
| step_remove h p : pool_step p (TransactionPool.remove p h).1
| step_clear_pending p : pool_step p (TransactionPool.clear_pending p).

Inductive pool_reachable (cfg : PoolConfig) : TransactionPool -> Prop :=
| pool_init : pool_reachable cfg (TransactionPool.with_config cfg)
| pool_next p p' : pool_reachable cfg p -> pool_step p p' -> pool_reachable cfg p'
| pool_clear p : pool_reachable cfg p -> pool_reachable cfg (TransactionPool.clear p).

Lemma step_inv p p' : pool_inv p -> pool_step p p' -> pool_inv p'.
Proof.
  intros Hp Hs. destruct Hs; [by apply add_inv | by apply remove_inv |].
  apply pool_empty_inv. apply inv_nonce, Hp.
Qed.

Lemma step_config p p' : pool_step p p' -> config p' = config p.
Proof.
  destruct 1 as [tx o t p _|h p|p]; [| | done].
  - pose proof (add_cases tx o t p) as H.
    destruct (TransactionPool.add_transaction_at tx o t p) as [p' [h|e]]; [| by subst].
    by destruct H as (_ & _ & _ & _ & _ & _ & _ & ->).
  - unfold TransactionPool.remove. by destruct (pending p !! h).
Qed.

Lemma pool_reachable_inv cfg p : pool_reachable cfg p -> pool_inv p /\ config p = cfg.
Proof.
  induction 1 as [|p p' _ [IH Hc] Hs|p _ [IH Hc]]; [split; [apply pool_new_inv | done] | |].
  - split; [by eapply step_inv | by rewrite (step_config _ _ Hs)].
  - split; [| done]. apply pool_empty_inv. intros a. by rewrite lookup_empty.
Qed.

(** C32: In every reachable pool, each pending transaction is filed under its
    own hash, carries a signature that attributes it to its sender and meets the
    gas minimum; the per-sender counters equal the number of pending transactions
    of that sender; the total and per-sender limits hold; and a sender never has two
    pending transactions with the same nonce (below the largest [u64]). *)
Theorem pool_invariant cfg p :
  pool_reachable cfg p ->
  (forall h e, pending p !! h = Some e ->
     h = tx_hash (pt_tx e) /\ recover_sender (pt_tx e) = Ok (tx_from (pt_tx e)) /\
     min_gas cfg <= tx_gas (pt_tx e)) /\
  (forall a, default O (per_sender p !! a) = size (sender_entries a (pending p)) /\
     (size (sender_entries a (pending p)) <= max_per_sender cfg)%nat) /\
  (TransactionPool.pending_count p <= max_pending cfg)%nat /\
  (forall h1 h2 e1 e2, pending p !! h1 = Some e1 -> pending p !! h2 = Some e2 ->
     tx_from (pt_tx e1) = tx_from (pt_tx e2) -> tx_nonce (pt_tx e1) = tx_nonce (pt_tx e2) ->
     tx_nonce (pt_tx e1) < u64_max -> h1 = h2).
Proof.
  intros [[He Hc Hpos Hcap Hsnd Hno Hu] <-]%pool_reachable_inv. split_and!; try done.
  intros h e H. destruct (He h e H) as (_ & H2 & H3 & H4 & _). done.
Qed.

(** Admission does what it says on every path.  A refused transaction
    leaves the pool unchanged, with the first failing check as the error; an accepted
    one is exactly the sender's next nonce, becomes retrievable under its hash, and
    advances that sender's next nonce by one (saturating) and nobody else's. *)
Theorem add_transaction_spec tx o t p :
  match TransactionPool.add_transaction_at tx o t p with
  | (p', Err e) => p' = p /\
      e = (if tx_gas tx <? min_gas (config p)
           then TxPoolError.GasLimitTooLow (min_gas (config p)) (tx_gas tx)
           else if negb (is_ok (recover_sender tx)) then TxPoolError.InvalidSignature
           else if TransactionPool.contains p (tx_hash tx) then TxPoolError.AlreadyKnown
           else if (max_pending (config p) <=? TransactionPool.pending_count p)%nat
           then TxPoolError.PoolFull
           else if (max_per_sender (config p) <=? default O (per_sender p !! tx_from tx))%nat
           then TxPoolError.SenderLimitReached
           else if tx_nonce tx <? TransactionPool.expected_nonce p (tx_from tx)
           then TxPoolError.NonceTooLow (TransactionPool.expected_nonce p (tx_from tx)) (tx_nonce tx)
           else TxPoolError.NonceGap (TransactionPool.expected_nonce p (tx_from tx)) (tx_nonce tx))
  | (p', Ok h) =>
      h = tx_hash tx /\ tx_nonce tx = TransactionPool.expected_nonce p (tx_from tx) /\
      TransactionPool.get p' h = Some tx /\
      (forall h', h' ≠ h -> TransactionPool.get p' h' = TransactionPool.get p h') /\
      (forall a, TransactionPool.expected_nonce p' a =
         if decide (tx_from tx = a) then saturating_add64 (tx_nonce tx) 1
         else TransactionPool.expected_nonce p a)
  end.
Proof.
  pose proof (add_cases tx o t p) as H. destruct (TransactionPool.add_transaction_at tx o t p)
    as [p' [h|e]] eqn:E.
  - destruct H as (-> & _ & _ & _ & _ & _ & Hn & ->). split_and!; try done.
    + unfold TransactionPool.get. simpl. by rewrite lookup_insert_eq.
    + intros h' Hh. unfold TransactionPool.get. simpl. by rewrite lookup_insert_ne.
    + intros a. unfold TransactionPool.expected_nonce. simpl.
      destruct (decide (tx_from tx = a)) as [<-|]; [by rewrite lookup_insert_eq | by rewrite lookup_insert_ne].
  - subst p'. split; [done |]. unfold TransactionPool.add_transaction_at, TransactionPool.pending_count in *.
    destruct (tx_gas tx <? _); [by simplify_eq |]. destruct (recover_sender tx); [| by simplify_eq]. simpl.
    destruct (TransactionPool.contains p _); [by simplify_eq |].
    destruct (_ <=? size _)%nat; [by simplify_eq |]. destruct (_ <=? default _ _)%nat; [by simplify_eq |].
    destruct (tx_nonce tx <? _); [by simplify_eq |]. destruct (_ <? tx_nonce tx); by simplify_eq.
Qed.

Lemma step_nonce_mono p p' a :
  pool_inv p -> pool_step p p' ->
  TransactionPool.expected_nonce p a <= TransactionPool.expected_nonce p' a.
Proof.
  intros Hp. destruct 1 as [tx o t p Htn|h p|p]; [| | unfold TransactionPool.expected_nonce; simpl; lia].
  - pose proof (add_cases tx o t p) as H.
    destruct (TransactionPool.add_transaction_at tx o t p) as [p' [h|e]]; [| subst; simpl; lia].
    destruct H as (_ & _ & _ & _ & _ & _ & Hn & ->). unfold TransactionPool.expected_nonce in *. simpl.
    destruct (decide (tx_from tx = a)) as [<-|Ha].
    + rewrite lookup_insert_eq. simpl. unfold saturating_add64, u64_max, u64_ok in *. lia.
    + rewrite lookup_insert_ne by done. lia.
  - unfold TransactionPool.remove. destruct (pending p !! h); unfold TransactionPool.expected_nonce; simpl; lia.
Qed.

(** The pool's nonces never move back: once a transaction (with a nonce
    below the largest [u64]) has been admitted, it is refused ever after, whatever
    is added, removed or dropped in between, so a transaction that left the pool
    cannot return to it. *)
Theorem admitted_never_readmitted cfg tx o t p h p1 o2 t2 p2 :
  pool_reachable cfg p -> u64_ok (tx_nonce tx) -> tx_nonce tx < u64_max ->
  TransactionPool.add_transaction_at tx o t p = (p1, Ok h) ->
  rtc pool_step p1 p2 ->
  exists e, TransactionPool.add_transaction_at tx o2 t2 p2 = (p2, Err e).
Proof.
  intros [Hp _]%pool_reachable_inv Htn Hlt Hadd Hsteps.
  pose proof (add_cases tx o t p) as H. rewrite Hadd in H.
  destruct H as (_ & _ & _ & _ & _ & _ & Hn & Hp1).
  assert (pool_inv p1) as Hi1 by (pose proof (add_inv tx o t p Htn Hp) as Hi; by rewrite Hadd in Hi).
  assert (tx_nonce tx < TransactionPool.expected_nonce p1 (tx_from tx)) as Hnext.
  { rewrite Hp1. unfold TransactionPool.expected_nonce. simpl. rewrite lookup_insert_eq. simpl.
    unfold saturating_add64. lia. }
  clear Hp1 Hadd. induction Hsteps as [p2|p1 p1' p2 Hs Hsteps IH].
  - pose proof (add_cases tx o2 t2 p2) as H.
    destruct (TransactionPool.add_transaction_at tx o2 t2 p2) as [p' [h'|e]]; [| subst; eauto].
    destruct H as (_ & _ & _ & _ & _ & _ & Hn2 & _). lia.
  - apply IH; [by eapply step_inv |]. pose proof (step_nonce_mono p1 p1' (tx_from tx) Hi1 Hs). lia.
Qed.

(** The batch handed to block production is made of distinct pending
    transactions, as many as requested or all there are, whatever the iteration
    order of the map. *)
Theorem get_pending_spec {DL : DashMapLaws} cfg p max :
  pool_reachable cfg p ->
  let batch := TransactionPool.get_pending p max in
  length batch = Nat.min max (TransactionPool.pending_count p) /\
  NoDup (map tx_hash batch) /\
  Forall (fun tx => TransactionPool.get p (tx_hash tx) = Some tx) batch.
Proof.
  intros [[He _ _ _ _ _ _] _]%pool_reachable_inv. cbn zeta.
  unfold TransactionPool.get_pending, TransactionPool.get_pending_entries.
  pose proof (dash_iter_perm _ (pending p)) as Hperm. set (l := dash_iter _ _) in *.
  assert (Forall (fun '(h, e) => h = tx_hash (pt_tx e) /\ pending p !! h = Some e) (take max l)) as Hall.
  { apply Forall_take, Forall_forall. intros [h e] Hin. rewrite Hperm in Hin.
    apply elem_of_map_to_list in Hin. destruct (He h e Hin) as (_ & Hh & _). done. }
  split_and!.
  - rewrite !length_map, length_take, Hperm, length_map_to_list. done.
  - rewrite !map_map. replace (map _ (take max l)) with (map fst (take max l)).
    + assert (NoDup (map fst l)) as Hnd.
      { change (NoDup (l.*1)). rewrite Hperm. apply NoDup_fst_map_to_list. }
      rewrite <- (take_drop max l), map_app in Hnd. by apply NoDup_app in Hnd as [Hnd _].
    + clear -Hall. induction Hall as [|[h e] l' [-> _] _ IH]; [done |]. simpl. by rewrite IH.
  - rewrite map_map. apply Forall_map. eapply Forall_impl; [exact Hall |].
    intros [h e] [Hh He']. simpl. unfold TransactionPool.get. by rewrite <- Hh, He'.
Qed.
End Props.

(** ** Witnesses *)

Definition sample_key (b : byte) : SecretKey := mkSecretKey (Hash.from_bytes (replicate 32 b)).
Definition sample_signed (b : byte) (nonce : Z) : Transaction :=
  signed_transfer (sample_key b) (sample_address x09) nonce U256.ONE 21000.
Definition sample_pool : TransactionPool :=
  (TransactionPool.add_transaction_at (sample_signed x01 0) Remote 7
     (TransactionPool.with_config pool_config_tiny)).1.

Lemma sample_pool_reachable : pool_reachable pool_config_tiny sample_pool.
Proof. eapply pool_next; [apply pool_init |]. by apply step_add. Qed.

Lemma pool_invariant_witness :
  (0 < TransactionPool.pending_count sample_pool)%nat /\
  (TransactionPool.pending_count sample_pool <= max_pending pool_config_tiny)%nat.
Proof.
  split; [vm_compute; lia |].
  exact (proj1 (proj2 (proj2 (pool_invariant pool_config_tiny sample_pool sample_pool_reachable)))).
Defined.

Lemma admitted_never_readmitted_witness :
  exists e, TransactionPool.add_transaction_at (sample_signed x01 0) Local 9
    (TransactionPool.remove sample_pool (tx_hash (sample_signed x01 0))).1 =
    ((TransactionPool.remove sample_pool (tx_hash (sample_signed x01 0))).1, Err e).
Proof.
  apply (admitted_never_readmitted pool_config_tiny (sample_signed x01 0) Remote 7
    (TransactionPool.with_config pool_config_tiny) (tx_hash (sample_signed x01 0)) sample_pool);
    [apply pool_init | done | vm_compute; reflexivity | | apply rtc_once, step_remove].
  unfold sample_pool.
  assert (exists h, (TransactionPool.add_transaction_at (sample_signed x01 0) Remote 7
            (TransactionPool.with_config pool_config_tiny)).2 = Ok h) as [h Hh]
    by (eexists; vm_compute; reflexivity).
  pose proof (add_cases (sample_signed x01 0) Remote 7
    (TransactionPool.with_config pool_config_tiny)) as Hspec.
  destruct (TransactionPool.add_transaction_at _ _ _ _) as [p' r]. simpl in Hh. subst r.
  destruct Hspec as [-> _]. reflexivity.
Defined.

Lemma get_pending_spec_witness :
  length (TransactionPool.get_pending sample_pool 5) = 1%nat /\
  NoDup (map tx_hash (TransactionPool.get_pending sample_pool 5)).
Proof.
  split; [vm_compute; reflexivity |].
  exact (proj1 (proj2 (get_pending_spec pool_config_tiny sample_pool 5 sample_pool_reachable))).
Defined.
