(* ===== verification/Consensus.v ===== *)
(** * Proof-of-authority consensus: [crates/ivory-consensus/src]

    [seal.rs], [poa.rs], [engine.rs] and [error.rs].  The trait
    [ConsensusEngine] is the class [ConsensusEngine]; [EngineLaws] is what block
    production and import rely on, and [poa_engine] the implementation. *)

From S2P Require Import Prelude Hex Uint UintFacts Hash Address Bincode Core Crypto.
#[local] Open Scope Z_scope.

Module ConsensusError.
Inductive t : Type :=
| NotValidator
| InsufficientSeals (expected got : nat)
| InvalidTimestamp
| InvalidSeal
| EmptyValidatorSet.
#[global] Instance eq_dec : EqDecision t.
Proof. solve_decision. Defined.
End ConsensusError.

Definition with_extra (x : bytes) (h : BlockHeader) : BlockHeader :=
  mkBlockHeader (number h) (parent_hash h) (timestamp h) (miner h) (gas_limit h) (gas_used h)
    (state_root h) (transactions_root h) (receipts_root h) (difficulty h) x.
Definition with_miner (a : Address) (h : BlockHeader) : BlockHeader :=
  mkBlockHeader (number h) (parent_hash h) (timestamp h) a (gas_limit h) (gas_used h)
    (state_root h) (transactions_root h) (receipts_root h) (difficulty h) (extra_data h).

(** ** [seal.rs] *)

Definition SEAL_LEN : nat := 64.

Section Seal.
Context {BC : BincodeCrate} {SC : Sha3Crate}.

Definition seal_hash (h : BlockHeader) : H256 := header_hash (with_extra [] h).

Definition encode_signatures (seals : list Signature) : result bytes ConsensusError.t :=
  match seals with
  | [] => Err ConsensusError.InvalidSeal
  | _ => Ok (concat (map Signature.as_bytes seals))
  end.

Definition encode_seals (count : nat) : result bytes ConsensusError.t :=
  if (count =? 0)%nat then Err ConsensusError.InvalidSeal
  else encode_signatures (replicate count Signature.ZERO).

(** [as_chunks::<64>().0]: the whole chunks, the rest dropped. *)
Fixpoint chunks (n : nat) (bs : bytes) : list Signature :=
  match n with
  | O => []
  | S n => Signature.from_bytes (take SEAL_LEN bs) :: chunks n (drop SEAL_LEN bs)
  end.

Definition decode_seals (extra : bytes) : result (list Signature) ConsensusError.t :=
  if bool_decide (extra = []) || negb (length extra mod SEAL_LEN =? 0)%nat
  then Err ConsensusError.InvalidSeal
  else Ok (chunks (length extra / SEAL_LEN) extra).

Definition seal_count (extra : bytes) : result nat ConsensusError.t :=
  let? seals := decode_seals extra in Ok (length seals).

Definition verify_seal (extra : bytes) (required : nat) : result unit ConsensusError.t :=
  if (required =? 0)%nat then Err ConsensusError.InvalidSeal
  else
    let? got := seal_count extra in
    if (got <? required)%nat then Err (ConsensusError.InsufficientSeals required got) else Ok tt.

Lemma chunks_concat seals rest :
  chunks (length seals) (concat (map Signature.as_bytes seals) ++ rest) = seals.
Proof.
  induction seals as [|[h] seals IH]; [done |]. cbn [length chunks map concat].
  rewrite <- app_assoc. unfold SEAL_LEN.
  rewrite take_app_length', drop_app_length' by (symmetry; apply hash_length). rewrite IH. f_equal.
  unfold Signature.from_bytes, Signature.as_bytes, Hash.from_bytes. simpl. by rewrite fit_hash_bytes.
Qed.

Lemma concat_signatures_length seals :
  length (concat (map Signature.as_bytes seals)) = (length seals * 64)%nat.
Proof.
  induction seals as [|[h] seals IH]; [done |]. cbn [map concat length].
  rewrite length_app, IH. unfold Signature.as_bytes. simpl signature_h512. rewrite hash_length. lia.
Qed.

Lemma decode_encode_signatures seals :
  seals ≠ [] -> decode_seals (concat (map Signature.as_bytes seals)) = Ok seals.
Proof.
  intros Hne. unfold decode_seals. pose proof (concat_signatures_length seals) as Hl.
  rewrite bool_decide_eq_false_2.
  2: { intros E. rewrite E in Hl. destruct seals; simpl in Hl; [done | lia]. }
  rewrite Hl. unfold SEAL_LEN. rewrite Nat.Div0.mod_mul, Nat.div_mul by lia. simpl.
  pose proof (chunks_concat seals []) as H. rewrite app_nil_r in H. by rewrite H.
Qed.

Lemma chunks_length n bs : length (chunks n bs) = n.
Proof. revert bs; induction n; intros; simpl; congruence. Qed.

Lemma concat_chunks n bs :
  length bs = (n * 64)%nat -> concat (map Signature.as_bytes (chunks n bs)) = bs.
Proof.
  revert bs; induction n as [|n IH]; intros bs Hl; [by destruct bs |].
  cbn [chunks map concat]. unfold SEAL_LEN. rewrite IH by (rewrite length_drop; lia).
  unfold Signature.as_bytes, Signature.from_bytes, Hash.from_bytes. simpl signature_h512.
  rewrite hash_bytes_fit by (rewrite length_take; lia). apply take_drop.
Qed.
End Seal.

(** ** [engine.rs] *)

Class ConsensusEngine := {
  is_validator : Address -> bool;
  validate_header : BlockHeader -> option BlockHeader -> result unit ConsensusError.t;
  seal_header : BlockHeader -> Address -> SecretKey -> result BlockHeader ConsensusError.t }.

(** What a client may rely on: accepted headers name a validator and do not go
    back in time; sealing changes nothing but the miner and the seals. *)
Class EngineLaws `{ConsensusEngine} : Prop := {
  validate_miner h p : validate_header h p = Ok tt -> is_validator (miner h) = true;
  validate_time h p : validate_header h (Some p) = Ok tt -> timestamp p <= timestamp h;
  seal_fields h a sk h' :
    seal_header h a sk = Ok h' -> h' = with_extra (extra_data h') (with_miner a h) /\
                                  is_validator a = true }.

(** ** [poa.rs] *)

Record Validator : Type := mkValidator { v_address : Address; v_public_key : PublicKey }.
Record PoAConfig : Type := mkPoAConfig {
  validators : list Validator;
  required_signatures : nat }.

Section PoA.
Context {BC : BincodeCrate} {SC : Sha3Crate} {EC : Ed25519Crate}.

Definition validator_from_secret (sk : SecretKey) : Validator :=
  let pk := public_key_from_secret sk in mkValidator (address_from_public_key pk) pk.
Definition poa_single (v : Validator) : PoAConfig := mkPoAConfig [v] 1.

(** [PoAConsensus::new] *)
Definition poa_new (cfg : PoAConfig) : result PoAConfig ConsensusError.t :=
  match validators cfg with
  | [] => Err ConsensusError.EmptyValidatorSet
  | _ => if (required_signatures cfg =? 0)%nat then Err ConsensusError.InvalidSeal else Ok cfg
  end.
Definition poa_from_secret (sk : SecretKey) : result PoAConfig ConsensusError.t :=
  poa_new (poa_single (validator_from_secret sk)).

Definition poa_is_validator (cfg : PoAConfig) (a : Address) : bool :=
  existsb (fun v => bool_decide (v_address v = a)) (validators cfg).

(** The first validator whose key verifies the seal. *)
Definition match_seal (cfg : PoAConfig) (message : bytes) (seal : Signature) : option Address :=
  v_address <$> List.find (fun v => is_ok (verify_sig message seal (v_public_key v))) (validators cfg).

(** The loop over the seals, collecting the distinct signers. *)
Fixpoint collect_signers (cfg : PoAConfig) (message : bytes) (seals : list Signature)
    (unique : list Address) : result (list Address) ConsensusError.t :=
  match seals with
  | [] => Ok unique
  | seal :: seals =>
      match match_seal cfg message seal with
      | None => Err ConsensusError.InvalidSeal
      | Some addr =>
          collect_signers cfg message seals
            (if bool_decide (addr ∈ unique) then unique else unique ++ [addr])
      end
  end.

Definition verify_crypto_seals (cfg : PoAConfig) (h : BlockHeader) : result unit ConsensusError.t :=
  let? _ := verify_seal (extra_data h) (required_signatures cfg) in
  let? seals := decode_seals (extra_data h) in
  let? unique := collect_signers cfg (hash_bytes (seal_hash h)) seals [] in
  if (length unique <? required_signatures cfg)%nat
  then Err (ConsensusError.InsufficientSeals (required_signatures cfg) (length unique))
  else Ok tt.

Definition poa_validate_header (cfg : PoAConfig) (h : BlockHeader) (parent : option BlockHeader) :
    result unit ConsensusError.t :=
  if negb (poa_is_validator cfg (miner h)) then Err ConsensusError.NotValidator
  else if match parent with Some p => timestamp h <? timestamp p | None => false end
  then Err ConsensusError.InvalidTimestamp
  else verify_crypto_seals cfg h.

Definition poa_seal_header (cfg : PoAConfig) (h : BlockHeader) (a : Address) (sk : SecretKey) :
    result BlockHeader ConsensusError.t :=
  if negb (poa_is_validator cfg a) then Err ConsensusError.NotValidator
  else if decide (address_from_secret sk ≠ a) then Err ConsensusError.NotValidator
  else
    let h := with_extra [] (with_miner a h) in
    let sig := sign (hash_bytes (seal_hash h)) sk in
    let? x := encode_signatures [sig] in
    Ok (with_extra x h).

(** ** Lemmas *)

Lemma collect_signers_spec cfg msg seals unique out :
  collect_signers cfg msg seals unique = Ok out -> NoDup unique ->
  NoDup out /\ (forall a, a ∈ out <-> a ∈ unique \/ exists s, s ∈ seals /\ match_seal cfg msg s = Some a) /\
  (forall s, s ∈ seals -> is_Some (match_seal cfg msg s)).
Proof.
  revert unique; induction seals as [|s seals IH]; intros unique H Hnd; simpl in H.
  { simplify_eq. split_and!; [done | |]; intros; rewrite ?elem_of_nil in *; [| done].
    split; [by left |]. intros [|(s & Hs & _)]; [done |]. by apply elem_of_nil in Hs. }
  destruct (match_seal cfg msg s) as [a|] eqn:Em; [| done].
  apply IH in H as (H1 & H2 & H3).
  2: { case_bool_decide; [done |]. apply NoDup_app. split_and!; [done | | apply NoDup_singleton].
       intros x Hx ->%list_elem_of_singleton. done. }
  split_and!; [done | |].
  - intros x. rewrite H2. setoid_rewrite elem_of_cons. split.
    + intros [Hx|(s' & Hs & Hm)]; [| naive_solver]. case_bool_decide; [by left |].
      apply elem_of_app in Hx as [Hx|Hx%list_elem_of_singleton]; [by left | subst; naive_solver].
    + intros [Hx|(s' & [->|Hs] & Hm)]; [| | naive_solver].
      * left. case_bool_decide; [done |]. apply elem_of_app. by left.
      * left. simplify_eq. case_bool_decide; [done |]. apply elem_of_app. right. by apply list_elem_of_singleton.
  - intros s' [->|Hs]%elem_of_cons; [eauto | by apply H3].
Qed.

Lemma match_seal_some cfg msg s a :
  match_seal cfg msg s = Some a ->
  exists v, v ∈ validators cfg /\ v_address v = a /\ verify_sig msg s (v_public_key v) = Ok tt.
Proof.
  unfold match_seal. intros (v & Hf & ->)%fmap_Some. apply find_some in Hf as [Hin Hv].
  exists v. split_and!; [by apply list_elem_of_In | done |].
  by destruct (verify_sig msg s (v_public_key v)) as [[]|].
Qed.

Lemma poa_validate_ok cfg h p :
  poa_validate_header cfg h p = Ok tt <->
  poa_is_validator cfg (miner h) = true /\
  match p with Some p => timestamp p <= timestamp h | None => True end /\
  verify_crypto_seals cfg h = Ok tt.
Proof.
  unfold poa_validate_header. destruct (poa_is_validator cfg (miner h)); simpl; [| naive_solver].
  destruct p as [p|]; [| naive_solver]. destruct (timestamp h <? timestamp p) eqn:E; zbool; naive_solver lia.
Qed.

Lemma poa_seal_ok cfg h a sk h' :
  poa_seal_header cfg h a sk = Ok h' <->
  poa_is_validator cfg a = true /\ address_from_secret sk = a /\
  h' = with_extra (Signature.as_bytes (sign (hash_bytes (seal_hash (with_miner a h))) sk))
         (with_miner a h).
Proof.
  unfold poa_seal_header. destruct (poa_is_validator cfg a); simpl; [| naive_solver].
  destruct (decide _) as [Ha|Ha]; [naive_solver |]. apply dec_stable in Ha.
  rewrite app_nil_r. split; [intros [= <-]; done | intros (_ & _ & ->); done].
Qed.

(** [impl ConsensusEngine for PoAConsensus] *)
Definition poa_engine (cfg : PoAConfig) : ConsensusEngine := {|
  is_validator := poa_is_validator cfg;
  validate_header := poa_validate_header cfg;
  seal_header := poa_seal_header cfg |}.

#[export] Instance poa_engine_laws cfg : EngineLaws (H := poa_engine cfg).
Proof.
  split; simpl.
  - intros h p (H & _)%poa_validate_ok. done.
  - intros h p (_ & H & _)%poa_validate_ok. done.
  - intros h a sk h' (H & _ & ->)%poa_seal_ok. done.
Qed.

(** ** Properties *)

(** The seal section of a header is a faithful list of signatures:
    encoding a non-empty list and decoding it gives the list back, decoding
    accepts exactly the non-empty buffers whose length is a multiple of 64, and
    what it returns encodes to the same bytes. *)
Theorem seals_roundtrip seals bs :
  (seals ≠ [] -> exists b, encode_signatures seals = Ok b /\ decode_seals b = Ok seals) /\
  (is_ok (decode_seals bs) = true <-> bs ≠ [] /\ (64 | Z.of_nat (length bs))) /\
  (decode_seals bs = Ok seals -> encode_signatures seals = Ok bs).
Proof.
  split_and!.
  - intros Hne. exists (concat (map Signature.as_bytes seals)).
    split; [by destruct seals | by apply decode_encode_signatures].
  - unfold decode_seals, SEAL_LEN. case_bool_decide as Hb; cbn [orb]; [naive_solver |].
    destruct (Nat.eqb_spec (length bs mod 64) 0) as [E|E]; cbn [negb is_ok].
    + split; [| done]. intros _. split; [done |]. exists (Z.of_nat (length bs / 64)).
      pose proof (Nat.div_mod (length bs) 64 ltac:(lia)). lia.
    + split; [done |]. intros [_ [k Hk]]. exfalso. apply E. replace (length bs) with (Z.to_nat k * 64)%nat by lia.
      apply Nat.Div0.mod_mul.
  - unfold decode_seals, SEAL_LEN. case_bool_decide as Hb; cbn [orb]; [done |].
    destruct (Nat.eqb_spec (length bs mod 64) 0) as [E|E]; cbn [negb]; [| done]. intros H.
    assert (seals = chunks (length bs / 64) bs) as -> by congruence.
    pose proof (Nat.div_mod (length bs) 64 ltac:(lia)) as Hd.
    assert (length bs ≠ 0)%nat as Hn0 by (intros ?%nil_length_inv; done).
    assert (length bs / 64 ≠ 0)%nat as Hn by lia.
    unfold encode_signatures. rewrite concat_chunks by lia.
    destruct (chunks (length bs / 64) bs) eqn:Ec; [| done].
    apply (f_equal length) in Ec. by rewrite chunks_length in Ec.
Qed.

(** C13: An accepted header is authorised: its miner is a validator, its
    timestamp does not precede its parent's, and at least [required_signatures]
    distinct validators have each signed the header (without its seals), with
    every seal in it verifying under some validator's key. *)
Theorem accepted_header_authorised cfg h p :
  poa_validate_header cfg h p = Ok tt ->
  poa_is_validator cfg (miner h) = true /\
  match p with Some p => timestamp p <= timestamp h | None => True end /\
  exists seals signers,
    decode_seals (extra_data h) = Ok seals /\
    NoDup signers /\ (required_signatures cfg <= length signers)%nat /\
    (forall a, a ∈ signers -> exists v s, v ∈ validators cfg /\ v_address v = a /\ s ∈ seals /\
       verify_sig (hash_bytes (seal_hash h)) s (v_public_key v) = Ok tt) /\
    (forall s, s ∈ seals -> exists v, v ∈ validators cfg /\
       verify_sig (hash_bytes (seal_hash h)) s (v_public_key v) = Ok tt).
Proof.
  intros (Hm & Ht & Hv)%poa_validate_ok. split_and!; [done | done |].
  unfold verify_crypto_seals in Hv. apply rbind_ok in Hv as ([] & _ & Hv).
  apply rbind_ok in Hv as (seals & Hs & Hv). apply rbind_ok in Hv as (out & Hc & Hv).
  destruct (Nat.ltb_spec (length out) (required_signatures cfg)); [done |].
  apply collect_signers_spec in Hc as (Hnd & Hin & Hall); [| apply NoDup_nil_2].
  exists seals, out. split_and!; try done.
  - intros a [?%elem_of_nil|(s & Hss & Hma)]%Hin; [done |].
    apply match_seal_some in Hma as (v & ? & ? & ?). eauto 10.
  - intros s [a Ha]%Hall. apply match_seal_some in Ha as (v & ? & _ & ?). eauto.
Qed.

Context {EL : Ed25519Laws}.

Lemma sealed_verifies cfg h a sk :
  validator_from_secret sk ∈ validators cfg -> address_from_secret sk = a ->
  let h' := with_extra (Signature.as_bytes (sign (hash_bytes (seal_hash (with_miner a h))) sk))
              (with_miner a h) in
  required_signatures cfg ≠ O ->
  verify_crypto_seals cfg h' =
  if (required_signatures cfg =? 1)%nat then Ok tt
  else Err (ConsensusError.InsufficientSeals (required_signatures cfg) 1).
Proof.
  intros Hv Ha h' Hreq. unfold verify_crypto_seals, verify_seal, seal_count.
  set (sig := sign _ _) in h'.
  assert (decode_seals (extra_data h') = Ok [sig]) as Hd.
  { pose proof (decode_encode_signatures [sig] ltac:(done)) as H. simpl in H.
    by rewrite app_nil_r in H. }
  rewrite Hd. destruct (Nat.eqb_spec (required_signatures cfg) 0); [done |]. cbn [rbind length].
  destruct (Nat.ltb_spec 1 (required_signatures cfg)) as [Hlt|Hle].
  { destruct (Nat.eqb_spec (required_signatures cfg) 1); [lia | done]. }
  cbn [rbind collect_signers]. assert (is_Some (match_seal cfg (hash_bytes (seal_hash h')) sig)) as [b Hb].
  { unfold match_seal. apply fmap_is_Some. destruct (List.find _ _) eqn:Ef; [eauto |].
    apply list_elem_of_In in Hv. pose proof (find_none _ _ Ef _ Hv) as Hn. exfalso.
    simpl in Hn. change (seal_hash h') with (seal_hash (with_miner a h)) in Hn.
    unfold sig in Hn. by rewrite sign_verify in Hn. }
  rewrite Hb. destruct (Nat.eqb_spec (required_signatures cfg) 1) as [->|]; [done | lia].
Qed.

(** What a producer's own seal is worth: a header sealed by a member of
    the validator set is accepted (for a parent that is not later) exactly when the
    policy requires a single signature; with a higher threshold the sealed header
    is always refused for insufficient seals, because sealing writes one seal. *)
Theorem sealed_header_acceptance cfg h a sk h' p :
  validator_from_secret sk ∈ validators cfg -> required_signatures cfg ≠ O ->
  poa_seal_header cfg h a sk = Ok h' ->
  poa_validate_header cfg h' p =
  if match p with Some p => timestamp h <? timestamp p | None => false end
  then Err ConsensusError.InvalidTimestamp
  else if (required_signatures cfg =? 1)%nat then Ok tt
  else Err (ConsensusError.InsufficientSeals (required_signatures cfg) 1).
Proof.
  intros Hv Hr (Hm & Ha & ->)%poa_seal_ok. unfold poa_validate_header.
  rewrite sealed_verifies by done. change (miner (with_extra _ _)) with a. by rewrite Hm.
Qed.
End PoA.

(** ** Witnesses *)

Definition sample_poa (b : byte) : PoAConfig :=
  poa_single (validator_from_secret (mkSecretKey (Hash.from_bytes (replicate 32 b)))).

Lemma seals_roundtrip_witness :
  exists b, encode_signatures [Signature.ZERO; Signature.ZERO] = Ok b /\
            decode_seals b = Ok [Signature.ZERO; Signature.ZERO].
Proof. apply (seals_roundtrip [Signature.ZERO; Signature.ZERO] []). discriminate. Defined.

Lemma sealed_header_acceptance_witness :
  let sk := mkSecretKey (Hash.from_bytes (replicate 32 x01)) in
  let h := header sample_block in
  let h' := with_extra (Signature.as_bytes
              (sign (hash_bytes (seal_hash (with_miner (address_from_secret sk) h))) sk))
              (with_miner (address_from_secret sk) h) in
  poa_validate_header (sample_poa x01) h' (Some h) = Ok tt.
Proof.
  intros sk h h'.
  exact (sealed_header_acceptance (sample_poa x01) h (address_from_secret sk) sk h' (Some h)
    ltac:(apply elem_of_cons; left; reflexivity) ltac:(discriminate) ltac:(vm_compute; reflexivity)).
Defined.

Lemma accepted_header_authorised_witness :
  let sk := mkSecretKey (Hash.from_bytes (replicate 32 x01)) in
  let h := header sample_block in
  let h' := with_extra (Signature.as_bytes
              (sign (hash_bytes (seal_hash (with_miner (address_from_secret sk) h))) sk))
              (with_miner (address_from_secret sk) h) in
  poa_is_validator (sample_poa x01) (miner h') = true.
Proof.
  intros sk h h'. assert (poa_validate_header (sample_poa x01) h' None = Ok tt) as V
    by (vm_compute; reflexivity).
  exact (proj1 (accepted_header_authorised (sample_poa x01) h' None V)).
Defined.
