(* ===== verification/Store.v ===== *)
(** * The block store: [crates/ivory-chain/src/store.rs] and [error.rs]

    [BlockStore] indexes blocks by hash, keeps the canonical hash of every
    height, the canonical head, per-block state snapshots and an index of the
    canonical transactions.  Each field sits behind its own lock; an operation
    is modelled as one atomic step on the record.  The parent walks run with
    [S (size by_hash)] steps of fuel; [StoreProps.parent_walk_complete] shows
    that this is enough in every store the operations can build. *)

From S2P Require Import Prelude Hex Uint UintFacts Hash Address Bincode Core Trie State.
From S2P Require Import Crypto Vm Executor Consensus.
#[local] Open Scope Z_scope.

Module ChainError.
Inductive t : Type :=
| Block (e : BlockError)
| Consensus (e : ConsensusError.t)
| UnknownParent
| DuplicateBlock
| InvalidBlockNumber (expected got : Z)
| InvalidGenesis
| Execution (e : ExecutionError.t)
| InvalidStateRoot
| UnknownParentState.
#[global] Instance eq_dec : EqDecision t.
Proof. solve_decision. Defined.
End ChainError.

(** [index] is a [usize]. *)
Record TxLocation : Type := mkTxLocation {
  tl_block_hash : H256;
  tl_block_number : Z;
  tl_index : nat }.

Record InsertOutcome : Type := mkInsertOutcome {
  io_hash : H256;
  io_old_head : option H256;
  io_new_head : H256;
  io_ancestor : H256;
  io_head_changed : bool }.

Record BlockStore : Type := mkBlockStore {
  by_hash : gmap H256 Block;
  by_number : gmap Z H256;
  bs_head : option H256;
  snapshots : gmap H256 StateDB;
  tx_index : gmap H256 TxLocation;
  consensus : PoAConfig }.

Module BlockStore.

(** The loop of [chain_from] and [rebuild_canonical]: from [h] to its parents,
    up to a block of height 0 or an unknown hash. *)
Fixpoint parent_walk {A} (f : H256 -> Block -> A) (m : gmap H256 Block) (fuel : nat) (h : H256) :
    list A :=
  match fuel with
  | O => []
  | S fuel =>
      match m !! h with
      | None => []
      | Some b =>
          f h b :: (if number (header b) =? 0 then []
                    else parent_walk f m fuel (parent_hash (header b)))
      end
  end.
Definition walk_fuel (m : gmap H256 Block) : nat := S (size m).

Section Store.
Context {BC : BincodeCrate} {SC : Sha3Crate} {EC : Ed25519Crate}.

Definition new (c : PoAConfig) : BlockStore := mkBlockStore ∅ ∅ None ∅ ∅ c.

Definition set_by_hash (m : gmap H256 Block) (s : BlockStore) : BlockStore :=
  mkBlockStore m (by_number s) (bs_head s) (snapshots s) (tx_index s) (consensus s).
Definition set_snapshots (m : gmap H256 StateDB) (s : BlockStore) : BlockStore :=
  mkBlockStore (by_hash s) (by_number s) (bs_head s) m (tx_index s) (consensus s).
Definition set_tx_index (m : gmap H256 TxLocation) (s : BlockStore) : BlockStore :=
  mkBlockStore (by_hash s) (by_number s) (bs_head s) (snapshots s) m (consensus s).

Definition get_block (s : BlockStore) (h : H256) : option Block := by_hash s !! h.
Definition head_block (s : BlockStore) : option Block := bs_head s ≫= get_block s.
Definition get_block_by_number (s : BlockStore) (n : Z) : option Block :=
  by_number s !! n ≫= get_block s.
Definition get_transaction (s : BlockStore) (h : H256) : option (Transaction * TxLocation) :=
  loc ← tx_index s !! h;
  block ← get_block s (tl_block_hash loc);
  tx ← transactions block !! tl_index loc;
  Some (tx, loc).

Definition state_at (s : BlockStore) (h : H256) : option StateDB := StateDB.fork <$> snapshots s !! h.
Definition record_state (h : H256) (state : StateDB) (s : BlockStore) : BlockStore :=
  set_snapshots (<[h := StateDB.fork state]> (snapshots s)) s.

Definition drop_body (b : Block) : Block := mkBlock (header b) [] [].
Definition drop_bodies_below (keep_from : Z) (archive : bool) (s : BlockStore) : BlockStore :=
  if archive then s
  else set_by_hash ((fun b => if number (header b) <? keep_from then drop_body b else b) <$> by_hash s) s.

(** Genesis-to-tip hashes. *)
Definition chain_from (s : BlockStore) (tip : H256) : list H256 :=
  rev (parent_walk (fun h _ => h) (by_hash s) (walk_fuel (by_hash s)) tip).

(** [retain(|h, _| keep.contains(h))] *)
Definition retain (keep : gset H256) (s : BlockStore) : BlockStore :=
  set_snapshots (filter (fun '(h, _) => h ∈ keep) (snapshots s)) s.

Definition prune_snapshots (s : BlockStore) : BlockStore :=
  match bs_head s with
  | None => s
  | Some head => retain (list_to_set (chain_from s head)) s
  end.

Definition prune_snapshots_keep (keep : Z) (s : BlockStore) : BlockStore :=
  let s := prune_snapshots s in
  match head_block s with
  | None => s
  | Some head =>
      let cutoff := saturating_sub64 (number (header head)) (saturating_sub64 keep 1) in
      let s := drop_bodies_below cutoff false s in
      let keep_hashes :=
        List.filter (fun h => match get_block s h with
                              | Some b => cutoff <=? number (header b)
                              | None => false end)
                    (chain_from s (block_hash head)) in
      retain (list_to_set keep_hashes) s
  end.

(** [chain_from(b).into_iter().rev().find(|h| sa.contains(h))] *)
Definition common_ancestor (s : BlockStore) (a b : H256) : option H256 :=
  let sa : gset H256 := list_to_set (chain_from s a) in
  List.find (fun h => bool_decide (h ∈ sa)) (rev (chain_from s b)).

(** One block's entries, [enumerate]d from [index]. *)
Fixpoint index_txs (hash : H256) (n : Z) (index : nat) (txs : list Transaction)
    (idx : gmap H256 TxLocation) : gmap H256 TxLocation :=
  match txs with
  | [] => idx
  | tx :: txs =>
      index_txs hash n (S index) txs (<[tx_hash tx := mkTxLocation hash n index]> idx)
  end.
Definition index_height (s : BlockStore) (idx : gmap H256 TxLocation) (n : Z) : gmap H256 TxLocation :=
  match get_block_by_number s n with
  | None => idx
  | Some block => index_txs (block_hash block) n 0 (transactions block) idx
  end.
Definition rebuild_tx_index (s : BlockStore) : BlockStore :=
  match head_block s with
  | None => set_tx_index ∅ s
  | Some head => set_tx_index (foldl (index_height s) ∅ (seqZ 0 (number (header head) + 1))) s
  end.

Definition rebuild_canonical (tip : H256) (s : BlockStore) : BlockStore :=
  let path := parent_walk (fun h b => (number (header b), h)) (by_hash s) (walk_fuel (by_hash s)) tip in
  mkBlockStore (by_hash s) (foldl (fun m '(n, h) => <[n := h]> m) ∅ path) (bs_head s)
    (snapshots s) (tx_index s) (consensus s).

(** [hash < head_hash] *)
Definition hash_ltb (a b : H256) : bool := bool_decide (Hash.cmp a b = Lt).
Definition takes_head (s : BlockStore) (hash : H256) (num : Z) : bool :=
  match bs_head s with
  | None => true
  | Some head_hash =>
      let head_num := default 0 ((fun b => number (header b)) <$> by_hash s !! head_hash) in
      (head_num <? num) || ((num =? head_num) && hash_ltb hash head_hash)
  end.
Definition maybe_update_canonical (hash : H256) (num : Z) (s : BlockStore) : BlockStore :=
  if negb (takes_head s hash num) then s
  else rebuild_canonical hash
         (mkBlockStore (by_hash s) (by_number s) (Some hash) (snapshots s) (tx_index s) (consensus s)).

(** The [expect] on the head cannot fail: [maybe_update_canonical] leaves a
    head in every store ([head_after_insert]). *)
Definition insert_validated (block : Block) : smonad BlockStore ChainError.t InsertOutcome := fun s =>
  let hash := block_hash block in
  if decide (is_Some (by_hash s !! hash)) then (s, Err ChainError.DuplicateBlock)
  else
    let num := number (header block) in
    let old_head := bs_head s in
    let s := maybe_update_canonical hash num (set_by_hash (<[hash := block]> (by_hash s)) s) in
    let new_head := default hash (bs_head s) in
    let head_changed := negb (bool_decide (old_head = Some new_head)) in
    let ancestor :=
      match old_head with
      | None => hash
      | Some old => if negb head_changed then old
                    else default hash (common_ancestor s old new_head)
      end in
    let s := if head_changed then rebuild_tx_index s else s in
    (s, Ok (mkInsertOutcome hash old_head new_head ancestor head_changed)).

Definition check_consensus (h : BlockHeader) (parent : option BlockHeader) :
    smonad BlockStore ChainError.t unit := fun s =>
  (s, map_err ChainError.Consensus (validate_header (ConsensusEngine := poa_engine (consensus s)) h parent)).

Definition insert_genesis (block : Block) : smonad BlockStore ChainError.t InsertOutcome :=
  let h := header block in
  sguard ((number h =? 0) && bool_decide (parent_hash h = H256.ZERO)) ChainError.InvalidGenesis ;;;
  check_consensus h None ;;;
  slift (map_err ChainError.Block (validate block)) ;;;
  insert_validated block.

(** The checks [insert_block] and [insert_header] share. *)
Definition check_parent (h : BlockHeader) : smonad BlockStore ChainError.t unit :=
  parent <-! sget (fun s => get_block s (parent_hash h)) ;;
  parent <-! slift (ok_or parent ChainError.UnknownParent) ;;
  let expected := saturating_add64 (number (header parent)) 1 in
  sguard (number h =? expected) (ChainError.InvalidBlockNumber expected (number h)) ;;;
  check_consensus h (Some (header parent)).

Definition insert_block (block : Block) : smonad BlockStore ChainError.t InsertOutcome :=
  if number (header block) =? 0 then insert_genesis block
  else
    check_parent (header block) ;;;
    slift (map_err ChainError.Block (validate block)) ;;;
    insert_validated block.

Definition insert_header (h : BlockHeader) : smonad BlockStore ChainError.t InsertOutcome :=
  sguard (negb (number h =? 0)) ChainError.InvalidGenesis ;;;
  check_parent h ;;;
  insert_validated (mkBlock h [] []).
End Store.
End BlockStore.
