(* ===== verification/StoreProps.v ===== *)
(** * The block store: invariant and theorems

    [ancestry m h l] says that [l] is the path of [h] in the block index [m],
    tip first, down to a block of height 0.  Every stored block has one, which is
    what makes the parent walks of [Store] total.  [store_inv] collects what
    every operation maintains; the theorems are stated for [store_reachable]
    stores. *)

From S2P Require Import Prelude Hex Uint UintFacts UintProps Hash Address Bincode Core.
From S2P Require Import Trie State StateProps Crypto Vm Executor Consensus Store.
#[local] Open Scope Z_scope.

(** ** Paths in the block index *)

Inductive ancestry (m : gmap H256 Block) : H256 -> list H256 -> Prop :=
| ancestry_root h b : m !! h = Some b -> number (header b) = 0 -> ancestry m h [h]
| ancestry_step h b l :
    m !! h = Some b -> number (header b) ≠ 0 ->
    ancestry m (parent_hash (header b)) l -> ancestry m h (h :: l).

Definition height (m : gmap H256 Block) (h : H256) : Z :=
  default 0 ((fun b => number (header b)) <$> m !! h).

(** The index up to bodies: same keys, same headers. *)
Definition same_headers (m m' : gmap H256 Block) : Prop :=
  forall h, header <$> m !! h = header <$> m' !! h.

#[export] Instance same_headers_equiv : Equivalence same_headers.
Proof. split; red; unfold same_headers; congruence. Qed.

Lemma same_headers_some m m' h b :
  same_headers m m' -> m !! h = Some b -> exists b', m' !! h = Some b' /\ header b' = header b.
Proof.
  intros E Hb. specialize (E h). rewrite Hb in E. simpl in E.
  symmetry in E. apply fmap_Some in E as (b' & ? & ?). eauto.
Qed.

Lemma ancestry_det m h l1 l2 : ancestry m h l1 -> ancestry m h l2 -> l1 = l2.
Proof.
  intros H1; revert l2; induction H1 as [h b Hb Hn | h b l Hb Hn H1 IH]; intros l2 H2;
    inversion H2; simplify_eq; f_equal; auto.
Qed.

Lemma ancestry_grow m m' h l : m ⊆ m' -> ancestry m h l -> ancestry m' h l.
Proof.
  intros Hm; induction 1 as [h b Hb Hn | h b l Hb Hn H IH].
  - eapply ancestry_root; [by eapply lookup_weaken | done].
  - eapply ancestry_step; [by eapply lookup_weaken | done | done].
Qed.

Lemma ancestry_headers m m' h l : same_headers m m' -> ancestry m h l -> ancestry m' h l.
Proof.
  intros Hm; induction 1 as [h b Hb Hn | h b l Hb Hn H IH];
    destruct (same_headers_some _ _ _ _ Hm Hb) as (b' & Hb' & Eh).
  - eapply ancestry_root; [done | congruence].
  - eapply ancestry_step; [done | congruence | congruence].
Qed.

#[export] Instance ancestry_proper : Proper (same_headers ==> eq ==> eq ==> iff) ancestry.
Proof. intros m m' Hm h _ <- l _ <-. split; apply ancestry_headers; done. Qed.

#[export] Instance height_proper : Proper (same_headers ==> eq ==> eq) height.
Proof.
  intros m m' Hm h _ <-. unfold height. specialize (Hm h).
  destruct (m !! h), (m' !! h); simpl in *; congruence.
Qed.

Lemma height_grow m m' h b : m ⊆ m' -> m !! h = Some b -> height m' h = height m h.
Proof. intros Hm Hb. unfold height. by rewrite Hb, (lookup_weaken _ _ _ _ Hb Hm). Qed.

(** A member of a path starts the rest of it. *)
Lemma ancestry_elem m h l x :
  ancestry m h l -> x ∈ l -> exists l1 l2, l = l1 ++ x :: l2 /\ ancestry m x (x :: l2).
Proof.
  induction 1 as [h b Hb Hn | h b l Hb Hn H IH]; intros Hx.
  - apply list_elem_of_singleton in Hx as ->. exists [], []. split; [done |]. by eapply ancestry_root.
  - apply elem_of_cons in Hx as [->|Hx].
    + exists [], l. split; [done |]. by eapply ancestry_step.
    + destruct (IH Hx) as (l1 & l2 & -> & ?). exists (h :: l1), l2. done.
Qed.

Lemma ancestry_head m h l : ancestry m h l -> exists t, l = h :: t.
Proof. inversion 1; eauto. Qed.

Lemma ancestry_NoDup m h l : ancestry m h l -> NoDup l.
Proof.
  induction 1 as [h b Hb Hn | h b l Hb Hn H IH]; [apply NoDup_singleton |].
  constructor; [| done]. intros Hin.
  destruct (ancestry_elem _ _ _ _ H Hin) as (l1 & l2 & -> & H2).
  pose proof (ancestry_step _ _ _ _ Hb Hn H) as H1.
  pose proof (ancestry_det _ _ _ _ H1 H2) as E. apply (f_equal length) in E.
  rewrite !length_cons, length_app, length_cons in E. lia.
Qed.

Lemma ancestry_dom m h l x : ancestry m h l -> x ∈ l -> is_Some (m !! x).
Proof.
  intros H (l1 & l2 & _ & H2)%(ancestry_elem _ _ _ _ H). inversion H2; eauto.
Qed.

Lemma ancestry_size m h l : ancestry m h l -> (length l <= size m)%nat.
Proof.
  intros H. pose proof (ancestry_NoDup _ _ _ H) as Hnd.
  rewrite <- size_dom, <- (size_list_to_set (C := gset H256) l) by done.
  apply subseteq_size. intros x Hx%elem_of_list_to_set. by eapply elem_of_dom, ancestry_dom.
Qed.

(** The loop of the code computes the path. *)
Lemma parent_walk_ancestry {A} (f : H256 -> Block -> A) (g : H256 -> A) m fuel h l :
  (forall x b, m !! x = Some b -> f x b = g x) ->
  ancestry m h l -> (length l <= fuel)%nat -> BlockStore.parent_walk f m fuel h = map g l.
Proof.
  intros Hf H; revert fuel; induction H as [h b Hb Hn | h b l Hb Hn H IH]; intros [|fuel] Hl;
    simpl in Hl; try lia; simpl; rewrite Hb, (Hf _ _ Hb).
  - by rewrite Hn.
  - rewrite (proj2 (Z.eqb_neq _ _) Hn), IH by lia. done.
Qed.

Lemma chain_from_ancestry (s : BlockStore) h l :
  ancestry (by_hash s) h l -> BlockStore.chain_from s h = rev l.
Proof.
  intros H. unfold BlockStore.chain_from. f_equal.
  rewrite (parent_walk_ancestry _ id _ _ _ l); [apply map_id | done | done |].
  pose proof (ancestry_size _ _ _ H). unfold BlockStore.walk_fuel. lia.
Qed.

Lemma chain_from_unknown (s : BlockStore) h :
  by_hash s !! h = None -> BlockStore.chain_from s h = [].
Proof. intros H. unfold BlockStore.chain_from, BlockStore.walk_fuel. simpl. by rewrite H. Qed.

(** ** Heights along a path *)

(** A child is one above its parent (saturating at the top of [u64]). *)
Definition parents_linked (m : gmap H256 Block) : Prop :=
  forall h b, m !! h = Some b -> number (header b) ≠ 0 ->
  exists p, m !! parent_hash (header b) = Some p /\
            number (header b) = saturating_add64 (number (header p)) 1.
Definition headers_wf (m : gmap H256 Block) : Prop :=
  forall h b, m !! h = Some b -> header_wf (header b).

Lemma saturating_succ n : u64_ok n -> saturating_add64 n 1 < u64_max -> saturating_add64 n 1 = n + 1.
Proof. unfold saturating_add64, u64_ok, u64_max. lia. Qed.

Lemma saturating_ge n : u64_ok n -> n <= saturating_add64 n 1.
Proof. unfold saturating_add64, u64_ok, u64_max. lia. Qed.

Lemma ancestry_heights m h l :
  parents_linked m -> headers_wf m -> ancestry m h l -> height m h < u64_max ->
  Z.of_nat (length l) = height m h + 1 /\
  forall i x, l !! i = Some x -> height m x = height m h - Z.of_nat i.
Proof.
  intros Hp Hw; induction 1 as [h b Hb Hn | h b l Hb Hn H IH]; intros Hmax.
  - unfold height. rewrite Hb. simpl. rewrite Hn. split; [done |].
    intros [|i] x Hx; simpl in Hx; [| done]. simplify_eq. rewrite Hb. simpl. lia.
  - destruct (Hp _ _ Hb Hn) as (p & Hpb & En). pose proof (Hw _ _ Hpb) as (Hpn & _).
    assert (height m h = height m (parent_hash (header b)) + 1) as E.
    { revert Hmax. unfold height. rewrite Hb, Hpb. cbn [fmap option_fmap option_map default].
      rewrite En. apply saturating_succ, Hpn. }
    destruct IH as [IHl IHi]; [lia |]. split; [simpl length; lia |].
    intros [|i] x Hx; simpl in Hx; [simplify_eq; lia |]. rewrite (IHi _ _ Hx). lia.
Qed.

Lemma rev_reverse {A} (l : list A) : rev l = reverse l.
Proof. apply rev_alt. Qed.

Lemma chain_heights (s : BlockStore) h l :
  parents_linked (by_hash s) -> headers_wf (by_hash s) -> ancestry (by_hash s) h l ->
  height (by_hash s) h < u64_max ->
  Z.of_nat (length l) = height (by_hash s) h + 1 /\
  forall i x, BlockStore.chain_from s h !! i = Some x <-> x ∈ l /\ height (by_hash s) x = Z.of_nat i.
Proof.
  intros Hp Hw H Hmax. destruct (ancestry_heights _ _ _ Hp Hw H Hmax) as [Hl Hi].
  split; [done |]. intros i x. rewrite (chain_from_ancestry _ _ _ H).
  rewrite rev_reverse. split.
  - intros Hx. pose proof (lookup_lt_Some _ _ _ Hx) as Hlt. rewrite length_reverse in Hlt.
    rewrite reverse_lookup in Hx by done. split; [by eapply list_elem_of_lookup_2 |].
    rewrite (Hi _ _ Hx). lia.
  - intros [(j & Hj)%list_elem_of_lookup Hh]. pose proof (lookup_lt_Some _ _ _ Hj).
    rewrite (Hi _ _ Hj) in Hh. rewrite reverse_lookup by lia.
    replace (length l - S i)%nat with j by lia. done.
Qed.

(** ** The invariant *)

Definition canonical_index (m : gmap H256 Block) (l : list H256) : gmap Z H256 :=
  StateDB.collect_map (map (fun h => (height m h, h)) l).

(** [h] does not beat the head [hd] under the fork-choice rule. *)
Definition no_better (m : gmap H256 Block) (hd h : H256) : Prop :=
  height m h < height m hd \/
  (height m h = height m hd /\ BlockStore.hash_ltb h hd = false).

Section Inv.
Context {BC : BincodeCrate} {SC : Sha3Crate} {EC : Ed25519Crate}.

Definition keyed (m : gmap H256 Block) : Prop := forall h b, m !! h = Some b -> block_hash b = h.
Definition rooted (m : gmap H256 Block) : Prop := forall h, is_Some (m !! h) -> exists l, ancestry m h l.

Record index_inv (m : gmap H256 Block) : Prop := {
  inv_keyed : keyed m;
  inv_headers : headers_wf m;
  inv_linked : parents_linked m;
  inv_rooted : rooted m }.

Definition head_inv (s : BlockStore) : Prop :=
  match bs_head s with
  | None => by_hash s = ∅ /\ by_number s = ∅
  | Some hd =>
      is_Some (by_hash s !! hd) /\
      (forall h, is_Some (by_hash s !! h) -> no_better (by_hash s) hd h) /\
      exists l, ancestry (by_hash s) hd l /\ by_number s = canonical_index (by_hash s) l
  end.

(** Every entry of the transaction index points into a canonical block, at the
    indexed transaction unless the body was dropped; every transaction of a
    canonical body has an entry. *)
Definition tx_index_sound (s : BlockStore) : Prop :=
  forall th loc, tx_index s !! th = Some loc ->
  by_number s !! tl_block_number loc = Some (tl_block_hash loc) /\
  exists b, by_hash s !! tl_block_hash loc = Some b /\
    match transactions b !! tl_index loc with
    | Some tx => tx_hash tx = th
    | None => transactions b = []
    end.
Definition tx_index_complete (s : BlockStore) : Prop :=
  forall n h b tx, 0 <= n -> by_number s !! n = Some h -> by_hash s !! h = Some b ->
  tx ∈ transactions b -> is_Some (tx_index s !! tx_hash tx).

Record store_inv (s : BlockStore) : Prop := {
  inv_index : index_inv (by_hash s);
  inv_head : head_inv s;
  inv_tx_sound : tx_index_sound s;
  inv_tx_complete : tx_index_complete s }.

(** One operation on the store. *)
Inductive store_step : BlockStore -> BlockStore -> Prop :=
| step_genesis s b : block_wf b -> store_step s (BlockStore.insert_genesis b s).1
| step_block s b : block_wf b -> store_step s (BlockStore.insert_block b s).1
| step_header s h : header_wf h -> store_step s (BlockStore.insert_header h s).1
| step_record s h db : store_step s (BlockStore.record_state h db s)
| step_drop s n a : store_step s (BlockStore.drop_bodies_below n a s)
| step_prune s : store_step s (BlockStore.prune_snapshots s)
| step_prune_keep s n : store_step s (BlockStore.prune_snapshots_keep n s).

Definition store_reachable (s : BlockStore) : Prop :=
  exists c, rtc store_step (BlockStore.new c) s.

Lemma new_store_inv c : store_inv (BlockStore.new c).
Proof.
  split; simpl.
  - split; intros ? *; simpl; rewrite ?lookup_empty; try done.
  - done.
  - intros th loc H. simpl in H. by rewrite lookup_empty in H.
  - intros n h b tx _ H. simpl in H. by rewrite lookup_empty in H.
Qed.

(** *** The transaction index *)

Lemma index_txs_lookup hash n txs i idx th loc :
  BlockStore.index_txs hash n i txs idx !! th = Some loc ->
  idx !! th = Some loc \/
  exists j tx, loc = mkTxLocation hash n (i + j) /\ txs !! j = Some tx /\ tx_hash tx = th.
Proof.
  revert i idx; induction txs as [|tx txs IH]; intros i idx H; simpl in H; [by left |].
  apply IH in H as [H|(j & tx' & -> & Hj & He)].
  - apply lookup_insert_Some in H as [[<- <-]|[_ H]]; [right | by left].
    exists O, tx. by rewrite Nat.add_0_r.
  - right. exists (S j), tx'. by rewrite Nat.add_succ_r.
Qed.

Lemma index_txs_some hash n txs i idx th :
  (is_Some (idx !! th) \/ exists tx, tx ∈ txs /\ tx_hash tx = th) ->
  is_Some (BlockStore.index_txs hash n i txs idx !! th).
Proof.
  revert i idx; induction txs as [|tx txs IH]; intros i idx H; simpl.
  - destruct H as [?|(? & ?%elem_of_nil & _)]; done.
  - apply IH. rewrite lookup_insert_is_Some'.
    destruct H as [H|(tx' & [->|Hin]%elem_of_cons & <-)]; eauto.
Qed.

(** The heights [rebuild_tx_index] visits. *)
Definition index_heights (s : BlockStore) (ns : list Z) : gmap H256 TxLocation :=
  foldl (BlockStore.index_height s) ∅ ns.

Lemma index_heights_sound s ns th loc :
  keyed (by_hash s) -> index_heights s ns !! th = Some loc ->
  by_number s !! tl_block_number loc = Some (tl_block_hash loc) /\
  exists b tx, by_hash s !! tl_block_hash loc = Some b /\
    transactions b !! tl_index loc = Some tx /\ tx_hash tx = th.
Proof.
  intros Hk. unfold index_heights. induction ns as [|n ns IH] using rev_ind; [done |].
  rewrite foldl_app. simpl. unfold BlockStore.index_height at 1, BlockStore.get_block_by_number.
  destruct (by_number s !! n) as [h|] eqn:Hn; simpl; [| done].
  unfold BlockStore.get_block. destruct (by_hash s !! h) as [b|] eqn:Hb; [| done].
  rewrite (Hk _ _ Hb). intros [?|(j & tx & -> & Hj & He)]%index_txs_lookup; [by apply IH |].
  simpl. eauto 10.
Qed.

Lemma index_heights_complete s ns n h b tx :
  keyed (by_hash s) -> n ∈ ns -> by_number s !! n = Some h -> by_hash s !! h = Some b ->
  tx ∈ transactions b -> is_Some (index_heights s ns !! tx_hash tx).
Proof.
  intros Hk. unfold index_heights. induction ns as [|n' ns IH] using rev_ind.
  { by intros ?%elem_of_nil. }
  intros Hin Hn Hb Htx. rewrite foldl_app. simpl. unfold BlockStore.index_height at 1.
  apply elem_of_app in Hin as [Hin|Hin%list_elem_of_singleton]; [| subst n'].
  - specialize (IH Hin Hn Hb Htx). destruct (BlockStore.get_block_by_number s n'); [| done].
    apply index_txs_some. by left.
  - unfold BlockStore.get_block_by_number. rewrite Hn. simpl.
    unfold BlockStore.get_block. rewrite Hb. apply index_txs_some. eauto.
Qed.

(** *** Growing the index *)

Lemma insert_index_inv m b :
  index_inv m -> header_wf (header b) -> m !! block_hash b = None ->
  (number (header b) ≠ 0 -> exists p, m !! parent_hash (header b) = Some p /\
     number (header b) = saturating_add64 (number (header p)) 1) ->
  index_inv (<[block_hash b := b]> m).
Proof.
  intros [Hk Hw Hl Hr] Hb Hf Hp. pose proof (insert_subseteq m (block_hash b) b Hf) as Hsub. split.
  - intros h b' [[<- <-]|[_ ?]]%lookup_insert_Some; [done | by apply Hk].
  - intros h b' [[<- <-]|[_ ?]]%lookup_insert_Some; [done | by eapply Hw].
  - intros h b' [[<- <-]|[_ Hb']]%lookup_insert_Some Hn.
    + destruct (Hp Hn) as (p & Hpp & E). exists p. split; [by eapply lookup_weaken | done].
    + destruct (Hl _ _ Hb' Hn) as (p & Hpp & E). exists p. split; [by eapply lookup_weaken | done].
  - intros h. destruct (decide (h = block_hash b)) as [->|Hne].
    + intros _. destruct (decide (number (header b) = 0)) as [Hn|Hn].
      * exists [block_hash b]. eapply ancestry_root; [apply lookup_insert_eq | done].
      * destruct (Hp Hn) as (p & Hpp & _). destruct (Hr (parent_hash (header b))) as [l Hanc]; [eauto |].
        exists (block_hash b :: l). eapply ancestry_step; [apply lookup_insert_eq | done |].
        by eapply ancestry_grow.
    + rewrite lookup_insert_ne by done. intros [l Hanc]%Hr. exists l. by eapply ancestry_grow.
Qed.

Lemma headers_index_inv m m' : same_headers m m' -> index_inv m -> index_inv m'.
Proof.
  intros E [Hk Hw Hl Hr].
  assert (forall h b, m' !! h = Some b -> exists b', m !! h = Some b' /\ header b' = header b) as Hback
    by (intros; eapply same_headers_some; [symmetry; eassumption | done]).
  split.
  - intros h b (b' & Hb' & Eh)%Hback. unfold block_hash. rewrite <- Eh. by apply Hk.
  - intros h b (b' & Hb' & <-)%Hback. by eapply Hw.
  - intros h b (b' & Hb' & <-)%Hback Hn. destruct (Hl _ _ Hb' Hn) as (p & Hp & En).
    destruct (same_headers_some _ _ _ _ E Hp) as (p' & Hp' & Ep). exists p'. by rewrite Ep.
  - intros h [b (b' & Hb' & _)%Hback]. destruct (Hr h) as [l Hl']; [eauto |].
    exists l. by rewrite <- E.
Qed.

Lemma canonical_index_ext m m' l :
  (forall x, x ∈ l -> height m' x = height m x) -> canonical_index m' l = canonical_index m l.
Proof.
  intros H. unfold canonical_index. f_equal. apply map_ext_in.
  intros x Hx%list_elem_of_In. by rewrite H.
Qed.

Lemma ancestry_height_le m h l x :
  index_inv m -> ancestry m h l -> x ∈ l -> 0 <= height m x <= height m h.
Proof.
  intros [_ Hw Hl _]. induction 1 as [h b Hb Hn | h b l Hb Hn H IH]; intros Hx.
  - apply list_elem_of_singleton in Hx as ->. unfold height. rewrite Hb. simpl. lia.
  - assert (0 <= height m h) as H0.
    { unfold height. rewrite Hb. simpl. apply (Hw _ _ Hb). }
    apply elem_of_cons in Hx as [->|Hx]; [lia |]. specialize (IH Hx).
    destruct (Hl _ _ Hb Hn) as (p & Hp & E). pose proof (Hw _ _ Hp) as (Hpn & _).
    assert (height m (parent_hash (header b)) <= height m h); [| lia].
    unfold height. rewrite Hb, Hp. cbn [fmap option_fmap option_map default].
    rewrite E. by apply saturating_ge.
Qed.

Lemma rebuild_canonical_spec s tip l :
  ancestry (by_hash s) tip l ->
  BlockStore.rebuild_canonical tip s =
  mkBlockStore (by_hash s) (canonical_index (by_hash s) l) (bs_head s) (snapshots s) (tx_index s)
    (consensus s).
Proof.
  intros H. unfold BlockStore.rebuild_canonical.
  rewrite (parent_walk_ancestry _ (fun h => (height (by_hash s) h, h)) _ _ _ l); [done | | done |].
  - intros x b Hx. unfold height. by rewrite Hx.
  - pose proof (ancestry_size _ _ _ H). unfold BlockStore.walk_fuel. lia.
Qed.

Lemma head_after_insert hash n s : is_Some (bs_head (BlockStore.maybe_update_canonical hash n s)).
Proof.
  unfold BlockStore.maybe_update_canonical. destruct (BlockStore.takes_head s hash n) eqn:E; simpl; [eauto |].
  unfold BlockStore.takes_head in E. destruct (bs_head s); [eauto | done].
Qed.

(** [rebuild_tx_index] restores the index part of the invariant. *)
Lemma rebuild_tx_index_inv s :
  index_inv (by_hash s) -> head_inv s -> store_inv (BlockStore.rebuild_tx_index s).
Proof.
  intros Hi Hh. unfold BlockStore.rebuild_tx_index, BlockStore.head_block. unfold head_inv in Hh.
  destruct (bs_head s) as [hd|] eqn:Ehd; simpl.
  2: { destruct Hh as [Hb Hn]. split; simpl.
       - done.
       - unfold head_inv. simpl. by rewrite Ehd.
       - intros th loc H. simpl in H. by rewrite lookup_empty in H.
       - intros n h b tx _ H. simpl in H. by rewrite Hn, lookup_empty in H. }
  destruct Hh as (Hsome & Hbest & l & Hl & Hnum). unfold BlockStore.get_block.
  destruct Hsome as [b Hb]. rewrite Hb. simpl. split; simpl.
  - done.
  - unfold head_inv. simpl. rewrite Ehd. split_and!; eauto.
  - intros th loc H. simpl in H. apply index_heights_sound in H; [| apply Hi].
    destruct H as (Hn & b' & tx & Hb' & Htx & He). split; [done |]. exists b'. simpl. by rewrite Htx.
  - intros n h b' tx Hn0 Hn Hb' Htx. simpl in *.
    eapply index_heights_complete; [apply Hi | | done..]. apply elem_of_seqZ.
    rewrite Hnum in Hn. unfold canonical_index in Hn. rewrite collect_map_rev in Hn.
    apply elem_of_list_to_map_2 in Hn. rewrite <- Permutation_rev in Hn.
    apply list_elem_of_In, in_map_iff in Hn as (x & [= <- <-] & Hx%list_elem_of_In).
    pose proof (ancestry_height_le _ _ _ _ Hi Hl Hx) as Hle. revert Hle.
    unfold height at 3. rewrite Hb. simpl. lia.
Qed.

(** *** One insertion *)

Lemma hash_ltb_asym a b : BlockStore.hash_ltb a b = true -> BlockStore.hash_ltb b a = false.
Proof.
  unfold BlockStore.hash_ltb, Hash.cmp. intros H%bool_decide_eq_true.
  apply bool_decide_eq_false. rewrite bytes_compare_antisym, H. done.
Qed.
Lemma hash_ltb_trans a b c :
  BlockStore.hash_ltb b a = false -> BlockStore.hash_ltb c a = true -> BlockStore.hash_ltb b c = false.
Proof.
  unfold BlockStore.hash_ltb, Hash.cmp. intros H1%bool_decide_eq_false H2%bool_decide_eq_true.
  apply bool_decide_eq_false. intros H3. apply H1. by eapply bytes_compare_lt_trans.
Qed.

Lemma no_better_trans m hd new h :
  no_better m hd h ->
  height m hd < height m new \/ (height m new = height m hd /\ BlockStore.hash_ltb new hd = true) ->
  no_better m new h.
Proof.
  unfold no_better. intros [?|[? H1]] [?|[? H2]]; [left; lia.. |].
  right. split; [lia | by eapply hash_ltb_trans].
Qed.

Lemma takes_head_spec s hd hash n :
  bs_head s = Some hd ->
  BlockStore.takes_head s hash n = true <->
  height (by_hash s) hd < n \/ (n = height (by_hash s) hd /\ BlockStore.hash_ltb hash hd = true).
Proof.
  intros Hhd. unfold BlockStore.takes_head. rewrite Hhd.
  change (default 0 _) with (height (by_hash s) hd).
  rewrite orb_true_iff, andb_true_iff, Z.ltb_lt, Z.eqb_eq. done.
Qed.

(** What [insert_validated] does to a store that accepts the block. *)
Definition with_block (b : Block) (s : BlockStore) : BlockStore :=
  BlockStore.set_by_hash (<[block_hash b := b]> (by_hash s)) s.

Lemma with_block_height s b h :
  by_hash s !! block_hash b = None -> is_Some (by_hash s !! h) ->
  height (by_hash (with_block b s)) h = height (by_hash s) h.
Proof. intros Hf [b' Hb']. eapply height_grow; [by apply insert_subseteq | done]. Qed.

Lemma with_block_new_height s b :
  height (by_hash (with_block b s)) (block_hash b) = number (header b).
Proof. unfold height. simpl. by rewrite lookup_insert_eq. Qed.

Lemma side_block_inv s b :
  store_inv s -> index_inv (by_hash (with_block b s)) -> by_hash s !! block_hash b = None ->
  BlockStore.takes_head (with_block b s) (block_hash b) (number (header b)) = false ->
  store_inv (with_block b s).
Proof.
  intros [Hi Hh Hs Hc] Hi' Hf Ht. pose proof (insert_subseteq _ _ b Hf) as Hsub.
  unfold head_inv in Hh. destruct (bs_head s) as [hd|] eqn:Ehd.
  2: { unfold BlockStore.takes_head in Ht. simpl in Ht. by rewrite Ehd in Ht. }
  destruct Hh as (Hsome & Hbest & l & Hl & Hnum).
  assert (forall x, x ∈ l -> is_Some (by_hash s !! x)) as Hdom by (intros; by eapply ancestry_dom).
  split; [done | | |].
  - unfold head_inv. simpl. rewrite Ehd. split_and!.
    + destruct Hsome as [b' Hb']. exists b'. by eapply lookup_weaken.
    + intros h Hh. destruct (decide (h = block_hash b)) as [->|Hne].
      * apply not_true_iff_false in Ht. rewrite (takes_head_spec _ hd) in Ht by done.
        unfold no_better. pose proof (with_block_new_height s b) as E. simpl in E, Ht. rewrite E.
        destruct (BlockStore.hash_ltb (block_hash b) hd); [left; lia |].
        destruct (Z.eq_dec (number (header b)) (height (<[block_hash b:=b]> (by_hash s)) hd)); [by right |].
        left. lia.
      * rewrite lookup_insert_ne in Hh by done. specialize (Hbest h Hh). unfold no_better.
        change (<[block_hash b:=b]> (by_hash s)) with (by_hash (with_block b s)).
        by rewrite !with_block_height.
    + exists l. split; [by eapply ancestry_grow |]. rewrite Hnum. symmetry.
      apply canonical_index_ext. intros x Hx. by apply (with_block_height s b), Hdom.
  - intros th loc H. simpl in *. apply Hs in H as (Hn & b' & Hb' & Htx). split; [done |].
    exists b'. split; [by eapply lookup_weaken | done].
  - intros n h b' tx Hn0 Hn Hb' Htx. simpl in *. eapply Hc; [done | done | | done].
    apply lookup_insert_Some in Hb' as [[<- _]|[_ ?]]; [exfalso | done].
    rewrite Hnum in Hn. unfold canonical_index in Hn. rewrite collect_map_rev in Hn.
    apply elem_of_list_to_map_2 in Hn. rewrite <- Permutation_rev in Hn.
    apply list_elem_of_In, in_map_iff in Hn as (x & [= _ ->] & Hx%list_elem_of_In).
    destruct (Hdom _ Hx). congruence.
Qed.

Lemma head_block_inv s b :
  store_inv s -> index_inv (by_hash (with_block b s)) -> by_hash s !! block_hash b = None ->
  BlockStore.takes_head (with_block b s) (block_hash b) (number (header b)) = true ->
  head_inv (BlockStore.maybe_update_canonical (block_hash b) (number (header b)) (with_block b s)) /\
  bs_head s ≠ Some (block_hash b) /\
  bs_head (BlockStore.maybe_update_canonical (block_hash b) (number (header b)) (with_block b s))
    = Some (block_hash b).
Proof.
  intros [Hi Hh Hs Hc] Hi' Hf Ht. unfold BlockStore.maybe_update_canonical. rewrite Ht. simpl.
  destruct (inv_rooted _ Hi' (block_hash b)) as [l Hl].
  { exists b. simpl. apply lookup_insert_eq. }
  rewrite (rebuild_canonical_spec _ _ l) by done. simpl.
  unfold head_inv in *. simpl. split_and!; [| | | | done].
  - rewrite lookup_insert_eq. eauto.
  - intros h Hin. destruct (decide (h = block_hash b)) as [->|Hne].
    { right. split; [done |]. unfold BlockStore.hash_ltb.
      apply bool_decide_eq_false. unfold Hash.cmp. by rewrite bytes_compare_refl. }
    rewrite lookup_insert_ne in Hin by done.
    destruct (bs_head s) as [hd|] eqn:Ehd.
    2: { destruct Hh as [E _]. rewrite E, lookup_empty in Hin. by destruct Hin. }
    destruct Hh as (Hsome & Hbest & _). specialize (Hbest h Hin).
    rewrite (takes_head_spec _ hd) in Ht by done. eapply no_better_trans.
    + unfold no_better. change (<[block_hash b:=b]> (by_hash s)) with (by_hash (with_block b s)).
      rewrite !with_block_height; done.
    + pose proof (with_block_new_height s b) as E. simpl in E, Ht. rewrite E. tauto.
  - eauto.
  - intros E. rewrite E in Hh. destruct Hh as ([? ?] & _). congruence.
Qed.

(** The checks before [insert_validated], as one proposition. *)
Definition linkable (s : BlockStore) (h : BlockHeader) : Prop :=
  if decide (number h = 0)
  then parent_hash h = H256.ZERO /\ poa_validate_header (consensus s) h None = Ok tt
  else exists p, by_hash s !! parent_hash h = Some p /\
         number h = saturating_add64 (number (header p)) 1 /\
         poa_validate_header (consensus s) h (Some (header p)) = Ok tt.

Lemma sbind_consensus {B} h p (k : unit -> smonad BlockStore ChainError.t B) s :
  sbind (BlockStore.check_consensus h p) k s =
  match poa_validate_header (consensus s) h p with
  | Ok _ => k tt s
  | Err e => (s, Err (ChainError.Consensus e))
  end.
Proof.
  unfold sbind, BlockStore.check_consensus. simpl.
  by destruct (poa_validate_header _ _ _) as [[]|].
Qed.

Lemma check_parent_cases s h :
  number h ≠ 0 ->
  (exists e, BlockStore.check_parent h s = (s, Err e) /\ ~ linkable s h) \/
  (BlockStore.check_parent h s = (s, Ok tt) /\ linkable s h).
Proof.
  intros Hn. unfold BlockStore.check_parent, linkable. rewrite decide_False by done.
  rewrite sbind_get, sbind_lift. unfold BlockStore.get_block.
  destruct (by_hash s !! parent_hash h) as [p|]; simpl; [| left; eexists; split; [done |]; naive_solver].
  rewrite sbind_guard. destruct (Z.eqb_spec (number h) (saturating_add64 (number (header p)) 1)) as [E|E].
  2: { left. eexists. split; [done |]. naive_solver. }
  unfold BlockStore.check_consensus. simpl.
  destruct (poa_validate_header (consensus s) h (Some (header p))) as [[]|e] eqn:Ev; simpl.
  - right. eauto 10.
  - left. eexists. split; [done |]. naive_solver congruence.
Qed.

Lemma insert_genesis_cases s b :
  number (header b) = 0 ->
  (exists e, BlockStore.insert_genesis b s = (s, Err e) /\ ~ (linkable s (header b) /\ validate b = Ok tt)) \/
  (linkable s (header b) /\ validate b = Ok tt /\
   BlockStore.insert_genesis b s = BlockStore.insert_validated b s).
Proof.
  intros Hn. unfold BlockStore.insert_genesis, linkable. rewrite decide_True by done.
  rewrite sbind_guard, Hn. simpl. case_bool_decide as Hp; [| left; eexists; split; [done |]; naive_solver].
  rewrite sbind_consensus. destruct (poa_validate_header _ _ _) as [[]|e] eqn:Hv; [| left; eexists; split; [done |]; naive_solver].
  rewrite sbind_lift. destruct (validate b) as [[]|e]; simpl; [right; split_and!; done |].
  left. eexists. split; [done |]. naive_solver.
Qed.

Lemma insert_block_cases s b :
  (exists e, BlockStore.insert_block b s = (s, Err e) /\ ~ (linkable s (header b) /\ validate b = Ok tt)) \/
  (linkable s (header b) /\ validate b = Ok tt /\
   BlockStore.insert_block b s = BlockStore.insert_validated b s).
Proof.
  unfold BlockStore.insert_block. destruct (Z.eqb_spec (number (header b)) 0) as [Hn|Hn].
  { by apply insert_genesis_cases. }
  destruct (check_parent_cases s (header b) Hn) as [(e & E & Hl)|[E Hl]];
    rewrite (sbind_run _ _ _ _ _ E).
  { left. eexists. split; [done |]. tauto. }
  rewrite sbind_lift. destruct (validate b) as [[]|e]; simpl; [right; split_and!; done |].
  left. eexists. split; [done |]. naive_solver.
Qed.

Lemma insert_header_cases s h :
  (exists e, BlockStore.insert_header h s = (s, Err e)) \/
  (linkable s h /\ number h ≠ 0 /\
   BlockStore.insert_header h s = BlockStore.insert_validated (mkBlock h [] []) s).
Proof.
  unfold BlockStore.insert_header. rewrite sbind_guard.
  destruct (Z.eqb_spec (number h) 0) as [Hn|Hn]; simpl; [by left; eauto |].
  destruct (check_parent_cases s h Hn) as [(e & E & _)|[E Hl]];
    rewrite (sbind_run _ _ _ _ _ E); [left | right]; eauto.
Qed.

Lemma linkable_index_inv s b :
  index_inv (by_hash s) -> header_wf (header b) -> linkable s (header b) ->
  by_hash s !! block_hash b = None -> index_inv (by_hash (with_block b s)).
Proof.
  intros Hi Hw Hl Hf. apply insert_index_inv; [done.. |]. intros Hn. unfold linkable in Hl.
  rewrite decide_False in Hl by done. naive_solver.
Qed.

(** What an insertion leaves, in every branch. *)
Lemma insert_validated_spec s b :
  store_inv s -> header_wf (header b) -> linkable s (header b) ->
  match by_hash s !! block_hash b with
  | Some _ => BlockStore.insert_validated b s = (s, Err ChainError.DuplicateBlock)
  | None =>
      exists s' o, BlockStore.insert_validated b s = (s', Ok o) /\ store_inv s' /\
        by_hash s' = <[block_hash b := b]> (by_hash s) /\ snapshots s' = snapshots s /\
        consensus s' = consensus s /\
        io_hash o = block_hash b /\ io_old_head o = bs_head s /\
        bs_head s' = Some (io_new_head o) /\
        io_head_changed o = BlockStore.takes_head (with_block b s) (block_hash b) (number (header b)) /\
        io_head_changed o = negb (bool_decide (bs_head s = Some (io_new_head o))) /\
        (io_head_changed o = true -> io_new_head o = block_hash b) /\
        io_ancestor o = match bs_head s with
                        | None => block_hash b
                        | Some old => if negb (io_head_changed o) then old else
                            default (block_hash b) (BlockStore.common_ancestor s' old (block_hash b))
                        end
  end.
Proof.
  intros Hs Hw Hl. unfold BlockStore.insert_validated.
  destruct (by_hash s !! block_hash b) as [b'|] eqn:Hf.
  { by rewrite decide_True by eauto. }
  rewrite decide_False by (by intros [??]). change (BlockStore.set_by_hash _ s) with (with_block b s).
  pose proof (linkable_index_inv s b (inv_index _ Hs) Hw Hl Hf) as Hi'.
  destruct (BlockStore.takes_head (with_block b s) (block_hash b) (number (header b))) eqn:Ht.
  - destruct (head_block_inv s b Hs Hi' Hf Ht) as (Hh & Hne & Ehd).
    set (s2 := BlockStore.maybe_update_canonical _ _ _) in *. rewrite Ehd. simpl.
    assert (by_hash s2 = by_hash (with_block b s) /\ snapshots s2 = snapshots s /\ consensus s2 = consensus s)
      as (E1 & E2 & E3).
    { unfold s2, BlockStore.maybe_update_canonical. by rewrite Ht. }
    rewrite bool_decide_eq_false_2 by done. simpl.
    assert (store_inv (BlockStore.rebuild_tx_index s2)) as Hs2.
    { apply rebuild_tx_index_inv; [by rewrite E1 | done]. }
    assert (forall f g, f = (by_hash (BlockStore.rebuild_tx_index s2),
        snapshots (BlockStore.rebuild_tx_index s2), consensus (BlockStore.rebuild_tx_index s2),
        bs_head (BlockStore.rebuild_tx_index s2)) ->
        g = (by_hash s2, snapshots s2, consensus s2, bs_head s2) -> f = g) as Er.
    { intros f g -> ->. unfold BlockStore.rebuild_tx_index. by destruct (BlockStore.head_block s2). }
    specialize (Er _ _ eq_refl eq_refl). injection Er as R1 R2 R3 R4.
    do 2 eexists. split; [done |]. simpl. rewrite R1, R2, R3, R4.
    split_and!; try done; [by rewrite bool_decide_eq_false_2 |].
    destruct (bs_head s); [| done].
    unfold BlockStore.common_ancestor, BlockStore.chain_from. by rewrite R1.
  - unfold BlockStore.maybe_update_canonical. rewrite Ht. simpl.
    destruct (bs_head s) as [hd|] eqn:Ehd.
    2: { unfold BlockStore.takes_head in Ht. simpl in Ht. by rewrite Ehd in Ht. }
    simpl. rewrite bool_decide_eq_true_2 by done. simpl.
    do 2 eexists. split; [done |]. simpl. rewrite ?bool_decide_eq_true_2 by done.
    split_and!; try done. by apply side_block_inv.
Qed.

Lemma linkable_mkBlock s h : linkable s h -> linkable s (header (mkBlock h [] [])).
Proof. done. Qed.

Lemma insert_validated_inv s b :
  store_inv s -> header_wf (header b) -> linkable s (header b) ->
  store_inv (BlockStore.insert_validated b s).1.
Proof.
  intros Hs Hw Hl. pose proof (insert_validated_spec s b Hs Hw Hl) as H.
  destruct (by_hash s !! block_hash b); [by rewrite H |].
  destruct H as (s' & o & -> & H & _). done.
Qed.

(** *** Snapshots and pruning *)

Lemma set_snapshots_inv m s : store_inv s -> store_inv (BlockStore.set_snapshots m s).
Proof. intros [H1 H2 H3 H4]. by split. Qed.

Lemma drop_bodies_lookup n s h :
  by_hash (BlockStore.drop_bodies_below n false s) !! h =
  (fun b => if number (header b) <? n then BlockStore.drop_body b else b) <$> by_hash s !! h.
Proof. simpl. apply lookup_fmap. Qed.

Lemma drop_bodies_headers n s :
  same_headers (by_hash s) (by_hash (BlockStore.drop_bodies_below n false s)).
Proof.
  intros h. rewrite drop_bodies_lookup. destruct (by_hash s !! h) as [b|]; [| done]. simpl.
  by destruct (number (header b) <? n).
Qed.

Lemma drop_bodies_inv n a s : store_inv s -> store_inv (BlockStore.drop_bodies_below n a s).
Proof.
  destruct a; [done |]. intros [Hi Hh Hs Hc].
  pose proof (drop_bodies_headers n s) as E. set (s' := BlockStore.drop_bodies_below n false s) in *.
  assert (forall h, height (by_hash s') h = height (by_hash s) h) as Eh
    by (intros h; symmetry; by apply height_proper).
  assert (forall h b', by_hash s' !! h = Some b' -> exists b, by_hash s !! h = Some b /\
            (transactions b' = transactions b \/ transactions b' = [])) as Hback.
  { intros h b' H. unfold s' in H. rewrite drop_bodies_lookup in H.
    apply fmap_Some in H as (b & Hb & ->). exists b. split; [done |].
    destruct (number (header b) <? n); [by right | by left]. }
  split.
  - by eapply headers_index_inv.
  - unfold head_inv in *. change (bs_head s') with (bs_head s). change (by_number s') with (by_number s).
    destruct (bs_head s) as [hd|].
    2: { destruct Hh as [H1 H2]. split; [| done]. unfold s'. simpl. by rewrite H1, fmap_empty. }
    destruct Hh as ([b Hb] & Hbest & l & Hl & Hn). split_and!.
    + destruct (same_headers_some _ _ _ _ E Hb) as (b' & ? & _). eauto.
    + intros h [b' (b0 & Hb0 & _)%Hback]. unfold no_better. rewrite !Eh. apply Hbest. eauto.
    + exists l. split; [by eapply ancestry_headers |]. rewrite Hn. symmetry.
      by apply canonical_index_ext.
  - intros th loc (Hn & b & Hb & Ht)%Hs. split; [done |].
    unfold s' at 1. setoid_rewrite drop_bodies_lookup. rewrite Hb. simpl.
    eexists. split; [done |]. by destruct (number (header b) <? n).
  - intros k h b' tx Hk Hn (b & Hb & [Ht|Ht])%Hback Hin; rewrite Ht in Hin.
    + by eapply Hc.
    + by apply elem_of_nil in Hin.
Qed.

Lemma retain_inv k s : store_inv s -> store_inv (BlockStore.retain k s).
Proof. apply set_snapshots_inv. Qed.

Lemma prune_snapshots_inv s : store_inv s -> store_inv (BlockStore.prune_snapshots s).
Proof. unfold BlockStore.prune_snapshots. destruct (bs_head s); [apply retain_inv | done]. Qed.

Lemma store_step_inv s s' : store_step s s' -> store_inv s -> store_inv s'.
Proof.
  destruct 1 as [s b Hb|s b Hb|s h Hh|s h db|s n a|s|s n]; intros Hs.
  - destruct (decide (number (header b) = 0)) as [Hn|Hn].
    + destruct (insert_genesis_cases s b Hn) as [(e & -> & _)|(Hl & _ & ->)]; [done |].
      apply insert_validated_inv; [done | apply Hb | done].
    + unfold BlockStore.insert_genesis. rewrite sbind_guard.
      by rewrite (proj2 (Z.eqb_neq _ _) Hn).
  - destruct (insert_block_cases s b) as [(e & -> & _)|(Hl & _ & ->)]; [done |].
    apply insert_validated_inv; [done | apply Hb | done].
  - destruct (insert_header_cases s h) as [(e & ->)|(Hl & _ & ->)]; [done |].
    by apply insert_validated_inv.
  - by apply set_snapshots_inv.
  - by apply drop_bodies_inv.
  - by apply prune_snapshots_inv.
  - unfold BlockStore.prune_snapshots_keep. apply prune_snapshots_inv in Hs.
    destruct (BlockStore.head_block _); [| done]. by apply retain_inv, drop_bodies_inv.
Qed.

Lemma store_reachable_inv s : store_reachable s -> store_inv s.
Proof.
  intros [c H]. pose proof (new_store_inv c) as Hn. revert Hn.
  induction H; eauto using store_step_inv.
Qed.

Lemma reachable_path s h b :
  store_reachable s -> by_hash s !! h = Some b -> exists l, ancestry (by_hash s) h l.
Proof. intros Hs%store_reachable_inv Hb. apply (inv_rooted _ (inv_index _ Hs)). eauto. Qed.

(** The canonical index holds the members of the head's path, by height. *)
Lemma canonical_index_lookup m hd l n x :
  index_inv m -> ancestry m hd l -> height m hd < u64_max ->
  canonical_index m l !! n = Some x <-> x ∈ l /\ height m x = n.
Proof.
  intros Hi Hl Hmax. unfold canonical_index. rewrite collect_map_lookup.
  - rewrite list_elem_of_In, in_map_iff. setoid_rewrite <- list_elem_of_In. naive_solver.
  - rewrite map_map. change (NoDup (height m <$> l)).
    pose proof (ancestry_heights _ _ _ (inv_linked _ Hi) (inv_headers _ Hi) Hl Hmax) as [_ Hhi].
    apply NoDup_alt. intros i j n'. rewrite !list_lookup_fmap.
    intros (u & Hx & ->)%fmap_Some (v & Hy & E)%fmap_Some.
    pose proof (lookup_lt_Some _ _ _ Hx). pose proof (lookup_lt_Some _ _ _ Hy).
    rewrite (Hhi _ _ Hx), (Hhi _ _ Hy) in E. lia.
Qed.

(** The canonical blocks, one per height, each linked to the one below. *)
Lemma canonical_blocks s hd top :
  store_inv s -> bs_head s = Some hd -> by_hash s !! hd = Some top ->
  number (header top) < u64_max ->
  by_number s !! number (header top) = Some hd /\
  (forall n, 0 <= n <= number (header top) -> exists h, by_number s !! n = Some h) /\
  (forall n h, by_number s !! n = Some h ->
     0 <= n <= number (header top) /\
     exists b, by_hash s !! h = Some b /\ block_hash b = h /\ number (header b) = n /\
       (n ≠ 0 -> by_number s !! (n - 1) = Some (parent_hash (header b)))).
Proof.
  intros [Hi Hh _ _] Ehd Htop Hmax. unfold head_inv in Hh. rewrite Ehd in Hh.
  destruct Hh as (_ & _ & l & Hl & Hn).
  assert (height (by_hash s) hd = number (header top)) as Eh by (unfold height; by rewrite Htop).
  assert (forall n x, by_number s !! n = Some x <-> x ∈ l /\ height (by_hash s) x = n) as Hlook.
  { intros n x. rewrite Hn. apply (canonical_index_lookup _ hd); [done.. | by rewrite Eh]. }
  destruct (chain_heights s hd l (inv_linked _ Hi) (inv_headers _ Hi) Hl) as [Hlen Hch]; [by rewrite Eh |].
  split_and!.
  - apply Hlook. split; [| done]. destruct (ancestry_head _ _ _ Hl) as [t ->]. left.
  - intros n Hr. destruct (lookup_lt_is_Some_2 (BlockStore.chain_from s hd) (Z.to_nat n)) as [x Hx].
    { rewrite (chain_from_ancestry _ _ _ Hl), length_rev. lia. }
    exists x. apply Hlook. apply Hch in Hx as [? ->]. split; [done | lia].
  - intros n h Hnh. apply Hlook in Hnh as [Hin <-].
    pose proof (ancestry_height_le _ _ _ _ Hi Hl Hin). split; [lia |].
    destruct (ancestry_dom _ _ _ _ Hl Hin) as [b Hb]. exists b.
    split_and!; [done | by apply (inv_keyed _ Hi) | unfold height; by rewrite Hb |]. intros Hne.
    assert (number (header b) = height (by_hash s) h) as En by (unfold height; by rewrite Hb).
    destruct (inv_linked _ Hi _ _ Hb) as (q & Hq & Eq); [lia |]. apply Hlook. split.
    + destruct (ancestry_elem _ _ _ _ Hl Hin) as (l1 & l2 & -> & H2).
      inversion H2 as [? b' Hb' Hz | ? b' l' Hb' Hz H2']; simplify_eq; [lia |].
      destruct (ancestry_head _ _ _ H2') as [t ->]. apply elem_of_app. right. right. left.
    + pose proof (inv_headers _ Hi _ _ Hq) as (Hq0 & _). unfold height at 1. rewrite Hq. simpl.
      revert Eq. unfold saturating_add64, u64_ok in *. lia.
Qed.
End Inv.
