(* ===== verification/StoreSpec.v ===== *)
(** * The block store: what it promises

    The theorems about [BlockStore], for every store its operations can build:
    total parent walks, the fork choice and the canonical index, common
    ancestors, insertion, transaction lookup and pruning. *)

From S2P Require Import Prelude Hex Uint UintFacts UintProps Hash Address Bincode Core.
From S2P Require Import Trie State StateProps Crypto Vm Executor Consensus Store.
From S2P Require Import StoreProps.
#[local] Open Scope Z_scope.

(** ** Reading paths *)

Lemma ancestry_link m h l i x y :
  ancestry m h l -> l !! i = Some x -> l !! S i = Some y ->
  exists b, m !! x = Some b /\ number (header b) ≠ 0 /\ parent_hash (header b) = y.
Proof.
  intros H; revert i; induction H as [h b Hb Hn | h b l Hb Hn H IH]; intros [|i] Hx Hy; simpl in *; try done.
  - apply ancestry_head in H as [t ->]. simplify_eq. simpl in Hy. simplify_eq. eauto.
  - eauto.
Qed.

Lemma ancestry_last m h l : ancestry m h l -> exists g b, last l = Some g /\ m !! g = Some b /\ number (header b) = 0.
Proof.
  induction 1 as [h b Hb Hn | h b l Hb Hn H IH]; [by exists h, b |].
  destruct IH as (g & b' & Hl & ? & ?). exists g, b'. split; [| done].
  apply ancestry_head in H as [t ->]. by rewrite last_cons_cons.
Qed.

Lemma ancestry_suffix m h l1 x l2 : ancestry m h (l1 ++ x :: l2) -> ancestry m x (x :: l2).
Proof.
  revert h; induction l1 as [|y l1 IH]; intros h H; simpl in H.
  - pose proof (ancestry_head _ _ _ H) as [t E]. by simplify_eq.
  - inversion H as [h' b Hb Hn E | h' b l Hb Hn H' E]; subst; [by destruct l1 | by eapply IH].
Qed.

Lemma elem_of_rev {A} (x : A) l : x ∈ rev l <-> x ∈ l.
Proof. rewrite !list_elem_of_In, <- in_rev. done. Qed.

Lemma find_split {A} (f : A -> bool) l x :
  List.find f l = Some x -> exists l1 l2, l = l1 ++ x :: l2 /\ f x = true /\ Forall (fun y => f y = false) l1.
Proof.
  induction l as [|y l IH]; simpl; [done |]. destruct (f y) eqn:E.
  - intros [= ->]. by exists [], l.
  - intros (l1 & l2 & -> & ? & ?)%IH. exists (y :: l1), l2. split_and!; [done | done |]. by constructor.
Qed.

Section Spec.
Context {BC : BincodeCrate} {SC : Sha3Crate} {EC : Ed25519Crate}.

(** Walking to the parents terminates with the whole branch: in every
    reachable store, the chain computed from a known block starts at a block of
    height 0, ends in that block, has no repetition, links every block to its
    parent, and does not depend on the number of steps allowed beyond
    [walk_fuel].  An unknown tip gives the empty chain. *)
Theorem parent_walk_complete s tip :
  store_reachable s ->
  match by_hash s !! tip with
  | None => BlockStore.chain_from s tip = []
  | Some _ =>
      let chain := BlockStore.chain_from s tip in
      last chain = Some tip /\
      (exists g b, chain !! O = Some g /\ by_hash s !! g = Some b /\ number (header b) = 0) /\
      NoDup chain /\
      (forall i h h', chain !! i = Some h -> chain !! S i = Some h' ->
         exists b, by_hash s !! h' = Some b /\ parent_hash (header b) = h) /\
      (forall fuel, (BlockStore.walk_fuel (by_hash s) <= fuel)%nat ->
         rev (BlockStore.parent_walk (fun h _ => h) (by_hash s) fuel tip) = chain)
  end.
Proof.
  intros Hs. destruct (by_hash s !! tip) as [b|] eqn:Hb; [| by apply chain_from_unknown].
  destruct (reachable_path s tip b Hs Hb) as [l Hl]. simpl.
  pose proof (chain_from_ancestry s tip l Hl) as ->. split_and!.
  - apply ancestry_head in Hl as [t ->]. simpl. apply last_snoc.
  - destruct (ancestry_last _ _ _ Hl) as (g & b' & Hlast & ? & ?). exists g, b'. split; [| done].
    apply last_Some in Hlast as [l' ->]. by rewrite rev_app_distr.
  - rewrite rev_reverse. rewrite reverse_Permutation. by eapply ancestry_NoDup.
  - intros i h h'. rewrite rev_reverse. intros H1 H2.
    pose proof (lookup_lt_Some _ _ _ H2) as Hlt. rewrite length_reverse in Hlt.
    rewrite reverse_lookup in H1, H2 by lia.
    replace (length l - S i)%nat with (S (length l - S (S i)))%nat in H1 by lia.
    destruct (ancestry_link _ _ _ _ _ _ Hl H2 H1) as (b' & ? & _ & ?). eauto.
  - intros fuel Hfuel. f_equal. rewrite (parent_walk_ancestry _ id _ _ _ l); [apply map_id | done | done |].
    pose proof (ancestry_size _ _ _ Hl). unfold BlockStore.walk_fuel in Hfuel. lia.
Qed.

(** C3: The head is the fork-choice winner and the height index is exactly its
    chain: no stored block is higher than the head, none of the same height has
    a smaller hash, and the block at height [i] is the [i]-th block on the chain
    from genesis to the head (and there is no entry outside it). *)
Theorem canonical_chain_correct s hd b :
  store_reachable s -> bs_head s = Some hd -> by_hash s !! hd = Some b ->
  number (header b) < u64_max ->
  (forall h b', by_hash s !! h = Some b' ->
     number (header b') < number (header b) \/
     (number (header b') = number (header b) /\ BlockStore.hash_ltb h hd = false)) /\
  (forall i, by_number s !! Z.of_nat i = BlockStore.chain_from s hd !! i) /\
  (forall n, n < 0 \/ number (header b) < n -> by_number s !! n = None) /\
  Z.of_nat (length (BlockStore.chain_from s hd)) = number (header b) + 1.
Proof.
  intros Hs%store_reachable_inv Ehd Hb Hmax. destruct Hs as [Hi Hh _ _].
  unfold head_inv in Hh. rewrite Ehd in Hh. destruct Hh as (_ & Hbest & l & Hl & Hn).
  assert (height (by_hash s) hd = number (header b)) as Eh by (unfold height; by rewrite Hb).
  destruct (chain_heights s hd l (inv_linked _ Hi) (inv_headers _ Hi) Hl) as [Hlen Hch]; [by rewrite Eh |].
  assert (forall n x, by_number s !! n = Some x <-> x ∈ l /\ height (by_hash s) x = n) as Hlook.
  { intros n x. rewrite Hn. apply (canonical_index_lookup _ hd); [done.. | by rewrite Eh]. }
  split_and!.
  - intros h b' Hb'. destruct (Hbest h) as [H|H]; [eauto | |]; unfold height in H; rewrite Hb, Hb' in H; simpl in H; tauto.
  - intros i. apply option_eq. intros x. rewrite Hlook, Hch. done.
  - intros n Hn0. apply eq_None_not_Some. intros [x Hx]. apply Hlook in Hx as [Hx <-].
    pose proof (ancestry_height_le _ _ _ _ Hi Hl Hx). lia.
  - rewrite (chain_from_ancestry _ _ _ Hl), length_rev, Hlen, Eh. done.
Qed.

(** [common_ancestor] is the deepest common ancestor: when it returns [c],
    the two chains share a prefix ending in [c] and have no block in common
    after it; when it returns nothing the chains are disjoint. *)
Theorem common_ancestor_deepest s a b :
  store_reachable s -> is_Some (by_hash s !! a) -> is_Some (by_hash s !! b) ->
  match BlockStore.common_ancestor s a b with
  | Some c =>
      exists p ra rb,
        BlockStore.chain_from s a = p ++ [c] ++ ra /\ BlockStore.chain_from s b = p ++ [c] ++ rb /\
        forall h, h ∈ ra -> h ∈ rb -> False
  | None => forall h, h ∈ BlockStore.chain_from s a -> h ∈ BlockStore.chain_from s b -> False
  end.
Proof.
  intros Hs [ba Hba] [bb Hbb]. unfold BlockStore.common_ancestor.
  destruct (reachable_path s a ba Hs Hba) as [la Ha]. destruct (reachable_path s b bb Hs Hbb) as [lb Hb].
  rewrite (chain_from_ancestry _ _ _ Ha), (chain_from_ancestry _ _ _ Hb), rev_involutive.
  destruct (List.find _ lb) as [c|] eqn:Hf.
  - apply find_split in Hf as (l1 & l2 & -> & Hc & Hout). rewrite Forall_forall in Hout.
    apply bool_decide_eq_true in Hc. rewrite elem_of_list_to_set, elem_of_rev in Hc.
    destruct (ancestry_elem _ _ _ _ Ha Hc) as (ta & t & -> & H1).
    pose proof (ancestry_det _ _ _ _ H1 (ancestry_suffix _ _ _ _ _ Hb)) as E. simplify_eq.
    exists (rev l2), (rev ta), (rev l1). rewrite !rev_app_distr. simpl. rewrite <- !app_assoc.
    split_and!; [done | done |]. setoid_rewrite elem_of_rev. intros h Hta Hl1%Hout.
    apply bool_decide_eq_false in Hl1. apply Hl1, elem_of_list_to_set, elem_of_rev. set_solver.
  - setoid_rewrite elem_of_rev. intros h Hla Hlb%list_elem_of_In.
    apply (find_none _ _ Hf) in Hlb. apply bool_decide_eq_false in Hlb.
    by apply Hlb, elem_of_list_to_set, elem_of_rev.
Qed.

(** C27: Inserting a block succeeds exactly when the checks pass, and does
    exactly what its outcome says: the block is accepted if and only if it links
    to the store (a known parent one below it, or a genesis), consensus accepts
    its header, its body matches its header and it is not stored yet; a refused
    block leaves the store unchanged; an accepted one is added to the index, the
    head moves to it exactly when it wins the fork choice, and no other block
    or snapshot is touched. *)
Theorem insert_block_spec s b :
  store_reachable s -> block_wf b ->
  match BlockStore.insert_block b s with
  | (s', Err e) =>
      s' = s /\ ~ (linkable s (header b) /\ validate b = Ok tt /\ by_hash s !! block_hash b = None)
  | (s', Ok o) =>
      linkable s (header b) /\ validate b = Ok tt /\ by_hash s !! block_hash b = None /\
      by_hash s' = <[block_hash b := b]> (by_hash s) /\ snapshots s' = snapshots s /\
      io_hash o = block_hash b /\ io_old_head o = bs_head s /\
      bs_head s' = Some (io_new_head o) /\
      io_head_changed o = negb (bool_decide (bs_head s = Some (io_new_head o))) /\
      io_new_head o =
        (match bs_head s with
         | None => block_hash b
         | Some hd =>
             let n := number (header b) in
             let top := height (by_hash s) hd in
             if (top <? n) || ((n =? top) && BlockStore.hash_ltb (block_hash b) hd)
             then block_hash b else hd
         end)
  end.
Proof.
  intros Hs%store_reachable_inv Hw. destruct (insert_block_cases s b) as [(e & -> & Hn)|(Hl & Hv & ->)].
  { split; [done | tauto]. }
  pose proof (insert_validated_spec s b Hs (proj1 Hw) Hl) as H.
  destruct (by_hash s !! block_hash b) as [b'|] eqn:Hf.
  { rewrite H. split; [done |]. by intros (_ & _ & ?). }
  destruct H as (s' & o & -> & _ & H1 & H2 & _ & H3 & H4 & H5 & H6 & H7 & H8 & _).
  split_and!; try done. pose proof (inv_head _ Hs) as Hh. unfold head_inv in Hh.
  unfold BlockStore.takes_head in H6. simpl in H6.
  destruct (bs_head s) as [hd|]; cbv zeta; [| by apply H8].
  destruct Hh as (Hsome & _). change (default 0 _) with (height (by_hash (with_block b s)) hd) in H6.
  rewrite with_block_height in H6 by done.
  destruct ((height (by_hash s) hd <? number (header b)) || _); [by apply H8 |].
  rewrite H6 in H7. symmetry in H7. apply negb_false_iff, bool_decide_eq_true in H7. congruence.
Qed.

(** Transaction lookup is exact on the canonical chain: what
    [get_transaction] returns has the requested hash and sits in the canonical
    block, height and position it reports; and every transaction of a canonical
    block whose body is still stored is found under its hash, or its index entry
    was taken over by a dropped body. *)
Theorem transaction_lookup_sound s :
  store_reachable s ->
  (forall th tx loc, BlockStore.get_transaction s th = Some (tx, loc) ->
     tx_hash tx = th /\
     by_number s !! tl_block_number loc = Some (tl_block_hash loc) /\
     exists b, by_hash s !! tl_block_hash loc = Some b /\ block_hash b = tl_block_hash loc /\
               transactions b !! tl_index loc = Some tx) /\
  (forall n b tx, 0 <= n -> BlockStore.get_block_by_number s n = Some b -> tx ∈ transactions b ->
     exists loc b', tx_index s !! tx_hash tx = Some loc /\ by_hash s !! tl_block_hash loc = Some b' /\
       (is_Some (BlockStore.get_transaction s (tx_hash tx)) \/ transactions b' = [])).
Proof.
  intros Hs%store_reachable_inv. destruct Hs as [Hi _ Hsound Hcompl]. split.
  - intros th tx loc H. unfold BlockStore.get_transaction in H.
    apply bind_Some in H as (loc' & Hloc & H). apply bind_Some in H as (b & Hb & H).
    apply bind_Some in H as (tx' & Htx & H). simplify_eq.
    destruct (Hsound _ _ Hloc) as (Hn & b' & Hb' & Hm). unfold BlockStore.get_block in Hb. simplify_eq.
    rewrite Htx in Hm. split_and!; [done.. |]. exists b. split_and!; try done. by apply (inv_keyed _ Hi).
  - intros n b tx Hn0 H Htx. unfold BlockStore.get_block_by_number in H.
    apply bind_Some in H as (h & Hn & Hb). destruct (Hcompl n h b tx Hn0 Hn Hb Htx) as [loc Hloc].
    destruct (Hsound _ _ Hloc) as (_ & b' & Hb' & Hm). exists loc, b'. split_and!; try done.
    unfold BlockStore.get_transaction. rewrite Hloc. simpl. unfold BlockStore.get_block. rewrite Hb'. simpl.
    destruct (transactions b' !! tl_index loc); [left; by eexists | by right].
Qed.

Lemma and_iff_l (P Q R : Prop) : (P -> (Q <-> R)) -> (P /\ Q <-> P /\ R).
Proof. tauto. Qed.

Lemma retain_lookup k s h : snapshots (BlockStore.retain k s) !! h =
  if decide (h ∈ k) then snapshots s !! h else None.
Proof.
  unfold BlockStore.retain. simpl. apply option_eq. intros db. rewrite map_lookup_filter_Some.
  case_decide; naive_solver.
Qed.

Lemma prune_snapshots_lookup s hd h :
  bs_head s = Some hd ->
  snapshots (BlockStore.prune_snapshots s) !! h =
  if decide (h ∈ BlockStore.chain_from s hd) then snapshots s !! h else None.
Proof.
  intros Ehd. unfold BlockStore.prune_snapshots. rewrite Ehd, retain_lookup.
  repeat case_decide; set_solver.
Qed.

Lemma prune_snapshots_fields s :
  by_hash (BlockStore.prune_snapshots s) = by_hash s /\
  by_number (BlockStore.prune_snapshots s) = by_number s /\
  bs_head (BlockStore.prune_snapshots s) = bs_head s /\
  tx_index (BlockStore.prune_snapshots s) = tx_index s.
Proof. unfold BlockStore.prune_snapshots. destruct (bs_head s) eqn:E; simpl; by rewrite ?E. Qed.

(** [prune_snapshots_keep], field by field. *)
Lemma prune_keep_fields s hd b keep :
  store_reachable s -> bs_head s = Some hd -> by_hash s !! hd = Some b ->
  let s' := BlockStore.prune_snapshots_keep keep s in
  let cutoff := Z.max 0 (number (header b) - Z.max 0 (keep - 1)) in
  (forall h db, snapshots s' !! h = Some db <->
     snapshots s !! h = Some db /\ h ∈ BlockStore.chain_from s hd /\ cutoff <= height (by_hash s) h) /\
  (forall h, by_hash s' !! h =
     (fun b => if number (header b) <? cutoff then mkBlock (header b) [] [] else b) <$> by_hash s !! h) /\
  bs_head s' = bs_head s /\ by_number s' = by_number s /\ tx_index s' = tx_index s.
Proof.
  intros Hr Ehd Hb s' cutoff. pose proof (store_reachable_inv s Hr) as Hs.
  destruct (reachable_path s hd b Hr Hb) as [l Hl].
  destruct (prune_snapshots_fields s) as (E1 & E2 & E3 & E4).
  assert (block_hash b = hd) as Hk by (by apply (inv_keyed _ (inv_index _ Hs))).
  set (s1 := BlockStore.prune_snapshots s) in *.
  set (s2 := BlockStore.drop_bodies_below cutoff false s1).
  pose proof (drop_bodies_headers cutoff s1) as Eh. fold s2 in Eh.
  assert (BlockStore.chain_from s2 hd = BlockStore.chain_from s hd) as Ec.
  { rewrite (chain_from_ancestry s hd l Hl). apply chain_from_ancestry.
    rewrite <- E1 in Hl. by eapply ancestry_headers. }
  assert (s' = BlockStore.retain (list_to_set (List.filter (fun h =>
      match BlockStore.get_block s2 h with Some b => cutoff <=? number (header b) | None => false end)
      (BlockStore.chain_from s hd))) s2) as ->.
  { unfold s', BlockStore.prune_snapshots_keep, BlockStore.head_block. fold s1.
    rewrite E3, Ehd. cbn [mbind option_bind]. unfold BlockStore.get_block at 1. rewrite E1, Hb.
    replace (saturating_sub64 _ _) with cutoff by (unfold cutoff, saturating_sub64; lia).
    fold s2. by rewrite Hk, Ec. }
  split_and!.
  - intros h db. rewrite retain_lookup.
    change (snapshots s2) with (snapshots s1). unfold s1. rewrite (prune_snapshots_lookup s hd h Ehd).
    set (keep_hashes := List.filter _ _).
    assert (h ∈ (list_to_set keep_hashes : gset H256) <->
            h ∈ BlockStore.chain_from s hd /\ cutoff <= height (by_hash s) h) as Hin.
    { unfold keep_hashes. rewrite elem_of_list_to_set, list_elem_of_In, filter_In, <- list_elem_of_In.
      apply and_iff_l. rewrite (chain_from_ancestry s hd l Hl), elem_of_rev. intros Hh.
      destruct (ancestry_dom _ _ _ _ Hl Hh) as [b' Hb'].
      pose proof Hb' as Hb1. rewrite <- E1 in Hb1.
      destruct (same_headers_some _ _ _ _ Eh Hb1) as (b2 & Hb2 & Ehb). unfold BlockStore.get_block, height.
      rewrite Hb2, Hb', Ehb. apply Z.leb_le. }
    clearbody keep_hashes. repeat case_decide; naive_solver.
  - intros h. change (by_hash (BlockStore.retain _ s2)) with (by_hash s2). unfold s2.
    by rewrite drop_bodies_lookup, E1.
  - done.
  - done.
  - done.
Qed.

(** Pruning keeps exactly the recent canonical history: after
    [prune_snapshots_keep keep], a snapshot is stored for a hash if and only if
    it was and the block is one of the last [keep] canonical blocks (at least the
    head), bodies below that window are dropped and those inside are intact, and
    the head, the height index and the transaction index do not move. *)
Theorem prune_keeps_window s hd b keep :
  store_reachable s -> bs_head s = Some hd -> by_hash s !! hd = Some b ->
  let s' := BlockStore.prune_snapshots_keep keep s in
  let cutoff := Z.max 0 (number (header b) - Z.max 0 (keep - 1)) in
  (forall h db, snapshots s' !! h = Some db <->
     snapshots s !! h = Some db /\ h ∈ BlockStore.chain_from s hd /\ cutoff <= height (by_hash s) h) /\
  (forall h, by_hash s' !! h =
     (fun b => if number (header b) <? cutoff then mkBlock (header b) [] [] else b) <$> by_hash s !! h) /\
  bs_head s' = bs_head s /\ by_number s' = by_number s /\ tx_index s' = tx_index s.
Proof. exact (prune_keep_fields s hd b keep). Qed.
End Spec.

(** ** Witnesses: a two-branch store under the toy crates *)

Definition sample_sk : SecretKey := mkSecretKey (Hash.from_bytes (replicate 32 x01)).
Definition sample_header (n : Z) (parent : H256) (time : Z) (root : H256) : BlockHeader :=
  let h := mkBlockHeader n parent time Address.ZERO 30000000 0 root
             empty_list_roots.1 empty_list_roots.2 U256.ZERO [] in
  match poa_seal_header (sample_poa x01) h (address_from_secret sample_sk) sample_sk with
  | Ok h' => h'
  | Err _ => h
  end.
Definition sample_rooted (n : Z) (parent : H256) (time : Z) (root : H256) : Block :=
  mkBlock (sample_header n parent time root) [] [].
Definition sample_child (n : Z) (parent : H256) (time : Z) : Block :=
  sample_rooted n parent time H256.ZERO.

Definition chain_g : Block := sample_child 0 H256.ZERO 1.
Definition chain_a : Block := sample_child 1 (block_hash chain_g) 10.
Definition chain_b : Block := sample_child 1 (block_hash chain_g) 11.
Definition chain_c : Block := sample_child 2 (block_hash chain_b) 12.
Definition sample_store_blocks : list Block := [chain_g; chain_a; chain_b; chain_c].
Definition insert_all (bs : list Block) (s : BlockStore) : BlockStore :=
  foldl (fun s b => (BlockStore.insert_block b s).1) s bs.
Definition sample_store : BlockStore :=
  BlockStore.record_state (block_hash chain_c) StateDB.new
    (insert_all sample_store_blocks (BlockStore.new (sample_poa x01))).

Lemma empty_block_wf h : header_wf h -> block_wf (mkBlock h [] []).
Proof. intros H. split; [exact H |]. split; (split; [unfold vec_ok; simpl; lia | constructor]). Qed.

Lemma sealed_header_wf cfg h a sk h' :
  header_wf h -> poa_seal_header cfg h a sk = Ok h' -> header_wf h'.
Proof.
  intros (H1 & H2 & H3 & H4 & H5 & _) (_ & _ & ->)%poa_seal_ok. unfold header_wf. simpl.
  split_and!; try assumption. unfold vec_ok, Signature.as_bytes. rewrite hash_length. lia.
Qed.

Lemma sample_rooted_wf n parent time root :
  u64_ok n -> u64_ok time -> block_wf (sample_rooted n parent time root).
Proof.
  intros Hn Ht. apply empty_block_wf. unfold sample_header.
  match goal with |- context [poa_seal_header ?c ?h ?a ?k] =>
    assert (header_wf h) as Hh;
      [| destruct (poa_seal_header c h a k) eqn:E; [by eapply sealed_header_wf | done]] end.
  unfold header_wf. simpl. unfold vec_ok, u64_ok in *. simpl. split_and!; try lia.
  apply u256_wf_mk; unfold u64_ok; lia.
Qed.

Lemma sample_child_wf n parent time :
  u64_ok n -> u64_ok time -> block_wf (sample_child n parent time).
Proof. apply sample_rooted_wf. Qed.

Lemma sample_rooted_fields n parent time root :
  parent_hash (header (sample_rooted n parent time root)) = parent /\
  state_root (header (sample_rooted n parent time root)) = root.
Proof.
  unfold sample_rooted, sample_header. cbn [header].
  destruct (poa_seal_header _ _ _ _) as [h|e] eqn:E; [| split; reflexivity].
  apply poa_seal_ok in E as (_ & _ & ->). split; reflexivity.
Qed.

Lemma insert_all_reachable bs s :
  Forall block_wf bs -> store_reachable s -> store_reachable (insert_all bs s).
Proof.
  intros Hbs; revert s; induction Hbs as [|b bs Hb Hbs IH]; intros s Hs; [done |].
  simpl. apply IH. destruct Hs as [c Hs]. exists c. eapply rtc_r; [done |]. by apply step_block.
Qed.

Lemma sample_store_reachable : store_reachable sample_store.
Proof.
  assert (store_reachable (insert_all sample_store_blocks (BlockStore.new (sample_poa x01)))) as [c H].
  { apply insert_all_reachable; [| by exists (sample_poa x01)].
    unfold sample_store_blocks, chain_g, chain_a, chain_b, chain_c.
    repeat (apply Forall_cons; split; [apply sample_child_wf; unfold u64_ok; lia |]).
    apply Forall_nil, I. }
  exists c. eapply rtc_r; [done |]. apply step_record.
Qed.

Example sample_store_head : bs_head sample_store = Some (block_hash chain_c).
Proof. vm_compute. reflexivity. Qed.
Example sample_store_canonical :
  map (fun n => by_number sample_store !! n) [0; 1; 2; 3] =
  [Some (block_hash chain_g); Some (block_hash chain_b); Some (block_hash chain_c); None].
Proof. vm_compute. reflexivity. Qed.
Lemma sample_store_tip : by_hash sample_store !! block_hash chain_c = Some chain_c.
Proof. vm_compute. reflexivity. Qed.
Lemma sample_store_side : by_hash sample_store !! block_hash chain_a = Some chain_a.
Proof. vm_compute. reflexivity. Qed.

Lemma parent_walk_complete_witness :
  last (BlockStore.chain_from sample_store (block_hash chain_a)) = Some (block_hash chain_a).
Proof.
  pose proof (parent_walk_complete sample_store (block_hash chain_a) sample_store_reachable) as H.
  rewrite sample_store_side in H. exact (proj1 H).
Defined.

Lemma canonical_chain_correct_witness :
  by_number sample_store !! 1 = BlockStore.chain_from sample_store (block_hash chain_c) !! 1%nat.
Proof.
  exact (proj1 (proj2 (canonical_chain_correct sample_store (block_hash chain_c) chain_c
    sample_store_reachable sample_store_head sample_store_tip ltac:(vm_compute; reflexivity))) 1%nat).
Defined.

Lemma common_ancestor_deepest_witness :
  exists p ra rb,
    BlockStore.chain_from sample_store (block_hash chain_a) = p ++ [block_hash chain_g] ++ ra /\
    BlockStore.chain_from sample_store (block_hash chain_c) = p ++ [block_hash chain_g] ++ rb.
Proof.
  pose proof (common_ancestor_deepest sample_store (block_hash chain_a) (block_hash chain_c)
    sample_store_reachable ltac:(rewrite sample_store_side; eexists; reflexivity)
    ltac:(rewrite sample_store_tip; eexists; reflexivity)) as H.
  assert (BlockStore.common_ancestor sample_store (block_hash chain_a) (block_hash chain_c) =
          Some (block_hash chain_g)) as E by (vm_compute; reflexivity).
  rewrite E in H. destruct H as (p & ra & rb & H1 & H2 & _). exact (ex_intro _ p (ex_intro _ ra (ex_intro _ rb (conj H1 H2)))).
Defined.

Lemma insert_block_spec_witness :
  (BlockStore.insert_block chain_a sample_store).1 = sample_store.
Proof.
  pose proof (insert_block_spec sample_store chain_a sample_store_reachable
    ltac:(apply sample_child_wf; unfold u64_ok; lia)) as H.
  destruct (BlockStore.insert_block chain_a sample_store) as [s' [o|e]].
  - destruct H as (_ & _ & H & _). rewrite sample_store_side in H. discriminate.
  - exact (proj1 H).
Defined.

(** A block with a transaction in it, and a store that holds it. *)
Definition body_tx : Transaction := sample_tx x01 (Some (sample_address x02)) 10 21000 0.
Definition body_receipt : Receipt := mkReceipt (tx_hash body_tx) 1 21000 true [].
Definition body_unsealed : BlockHeader :=
  mkBlockHeader 1 (block_hash chain_g) 10 (address_from_secret sample_sk) 30000000 21000 H256.ZERO
    (list_root [body_tx]) (list_root [body_receipt]) U256.ZERO [].
Definition body_block : Block :=
  mkBlock (match poa_seal_header (sample_poa x01) body_unsealed (address_from_secret sample_sk) sample_sk with
           | Ok h => h | Err _ => body_unsealed end) [body_tx] [body_receipt].
Definition body_store : BlockStore := insert_all [chain_g; body_block] (BlockStore.new (sample_poa x01)).

Lemma body_block_wf : block_wf body_block.
Proof.
  split; [| split].
  - unfold body_block. cbn [header].
    assert (header_wf body_unsealed) as Hh.
    { unfold header_wf, vec_ok, u64_ok. simpl. split_and!; try lia. apply u256_wf_mk; unfold u64_ok; lia. }
    destruct (poa_seal_header (sample_poa x01) body_unsealed _ _) as [h|e] eqn:E;
      [exact (sealed_header_wf _ _ _ _ _ Hh E) | exact Hh].
  - split; [unfold vec_ok; simpl; lia |]. apply Forall_cons; split; [| apply Forall_nil, I].
    apply sample_tx_wf; unfold u64_ok; lia.
  - split; [unfold vec_ok; simpl; lia |]. apply Forall_cons; split; [| apply Forall_nil, I].
    unfold receipt_wf, u64_ok, vec_ok. simpl. split_and!; try lia. apply Forall_nil, I.
Qed.

Lemma body_store_reachable : store_reachable body_store.
Proof.
  apply insert_all_reachable; [| by exists (sample_poa x01)].
  apply Forall_cons; split; [apply sample_child_wf; unfold u64_ok; lia |].
  apply Forall_cons; split; [exact body_block_wf | apply Forall_nil, I].
Qed.

Lemma transaction_lookup_sound_witness :
  exists tx loc, BlockStore.get_transaction body_store (tx_hash body_tx) = Some (tx, loc) /\
    tx_hash tx = tx_hash body_tx /\ by_number body_store !! tl_block_number loc = Some (tl_block_hash loc).
Proof.
  assert (exists r, BlockStore.get_transaction body_store (tx_hash body_tx) = Some r) as [[tx loc] H]
    by (eexists; vm_compute; reflexivity).
  destruct (proj1 (transaction_lookup_sound body_store body_store_reachable) _ _ _ H) as (H1 & H2 & _).
  exact (ex_intro _ tx (ex_intro _ loc (conj H (conj H1 H2)))).
Defined.

Lemma prune_keeps_window_witness :
  is_Some (snapshots (BlockStore.prune_snapshots_keep 1 sample_store) !! block_hash chain_c).
Proof.
  assert (exists db, snapshots sample_store !! block_hash chain_c = Some db) as [db Hdb]
    by (eexists; vm_compute; reflexivity).
  assert (block_hash chain_c ∈ BlockStore.chain_from sample_store (block_hash chain_c)) as Hin
    by (apply list_elem_of_In; vm_compute; tauto).
  assert (Z.max 0 (number (header chain_c) - Z.max 0 (1 - 1)) <=
          height (by_hash sample_store) (block_hash chain_c)) as Hh by (vm_compute; discriminate).
  pose proof (prune_keeps_window sample_store (block_hash chain_c) chain_c 1
    sample_store_reachable sample_store_head sample_store_tip) as H. cbv zeta in H.
  exists db. exact (proj2 (proj1 H (block_hash chain_c) db) (conj Hdb (conj Hin Hh))).
Defined.
