(* ===== verification/Producer.v ===== *)
(** * Block production: [crates/ivory-chain/src/producer.rs]

    [produce_block] drains the pool, executes in [(from, nonce)] order on the
    shared state, and seals the header.  It runs over the executor's [StateDB],
    which keeps whatever the transactions did to it, included or not. *)

From S2P Require Import Prelude Hex Uint UintFacts Hash Address Bincode Core Trie State.
From S2P Require Import StateProps Crypto Vm Executor ExecutorProps TxPool Consensus Store.
#[local] Open Scope Z_scope.

Record ProduceParams : Type := mkProduceParams {
  pp_parent : Block;
  pp_pool : TransactionPool;
  pp_gas_config : GasConfig;
  pp_consensus : PoAConfig;
  pp_miner : Address;
  pp_miner_key : SecretKey;
  pp_timestamp : Z;
  pp_max_txs : nat }.

(** [BlockProducer] *)
Record BlockProducer : Type := mkBlockProducer { bp_gas_limit : Z }.

Section Producer.
Context {BC : BincodeCrate} {SC : Sha3Crate} {EC : Ed25519Crate} {WC : WasmiCrate} {DC : DashMapCrate}.

Definition producer_new : BlockProducer := mkBlockProducer (max_gas_per_block gas_config_default).
Definition with_gas_limit (gas_limit : Z) : BlockProducer := mkBlockProducer gas_limit.

(** [a.from.cmp(&b.from).then(a.nonce.cmp(&b.nonce))] *)
Definition tx_order (a b : Transaction) : comparison :=
  match bytes_compare (Address.as_bytes (tx_from a)) (Address.as_bytes (tx_from b)) with
  | Eq => Z.compare (tx_nonce a) (tx_nonce b)
  | c => c
  end.

(** [sort_by] is stable: an element goes before the equal ones already sorted
    behind it. *)
Fixpoint sort_insert (x : Transaction) (l : list Transaction) : list Transaction :=
  match l with
  | [] => [x]
  | y :: l' => match tx_order x y with
               | Gt => y :: sort_insert x l'
               | _ => x :: l
               end
  end.
Definition sort_txs (l : list Transaction) : list Transaction := foldr sort_insert [] l.

(** The loop over the pending transactions; failures are skipped. *)
Fixpoint execute_pending (cfg : GasConfig) (pending : list Transaction) (ctx : ExecutionContext)
    (included : list Transaction) (receipts : list Receipt) (s : StateDB) :
    StateDB * (ExecutionContext * list Transaction * list Receipt) :=
  match pending with
  | [] => (s, (ctx, included, receipts))
  | tx :: pending =>
      match execute_transaction cfg tx ctx s with
      | (s, Ok (out, ctx)) =>
          execute_pending cfg pending ctx (included ++ [tx]) (receipts ++ [eo_receipt out]) s
      | (s, Err _) => execute_pending cfg pending ctx included receipts s
      end
  end.

Definition produce_context (p : ProduceParams) : ExecutionContext :=
  let ctx := context_new (saturating_add64 (number (header (pp_parent p))) 1) (pp_timestamp p) in
  mkExecutionContext (ctx_block_number ctx) (ctx_timestamp ctx) (ctx_gas_used ctx) (pp_miner p).

(** The header before it is sealed. *)
Definition unsealed_header (bp : BlockProducer) (p : ProduceParams) (ctx : ExecutionContext)
    (root : H256) (included : list Transaction) (receipts : list Receipt) : BlockHeader :=
  mkBlockHeader (saturating_add64 (number (header (pp_parent p))) 1) (block_hash (pp_parent p))
    (pp_timestamp p) (pp_miner p) (bp_gas_limit bp) (ctx_gas_used ctx) root
    (list_root included) (list_root receipts) U256.ZERO [].

Definition produce_block (bp : BlockProducer) (p : ProduceParams) : smonad StateDB ChainError.t Block :=
  fun s =>
  let pending := sort_txs (TransactionPool.get_pending (pp_pool p) (pp_max_txs p)) in
  let '(s, (ctx, included, receipts)) :=
    execute_pending (pp_gas_config p) pending (produce_context p) [] [] s in
  let '(s, root) := StateDB.root_hash s in
  (s,
   let? header :=
     map_err ChainError.Consensus
       (seal_header (ConsensusEngine := poa_engine (pp_consensus p))
          (unsealed_header bp p ctx root included receipts) (pp_miner p) (pp_miner_key p)) in
   Ok (mkBlock header included receipts)).
End Producer.
