(* ===== verification/Apply.v ===== *)
(** * Block import: [crates/ivory-chain/src/apply.rs]

    [import_and_apply] re-executes a block on the parent's snapshot, checks the
    state root, inserts it and, when the head moves, resets the live state and
    fixes the pool.  The three objects it is handed are the record [Ledger]. *)

From S2P Require Import Prelude Hex Uint UintFacts Hash Address Bincode Core Trie State.
From S2P Require Import StateProps Crypto Vm Executor ExecutorProps TxPool Consensus Store.
From S2P Require Import StoreProps Producer.
#[local] Open Scope Z_scope.

Record Ledger : Type := mkLedger {
  lg_store : BlockStore;
  lg_live : StateDB;
  lg_pool : TransactionPool }.

Section Apply.
Context {BC : BincodeCrate} {SC : Sha3Crate} {EC : Ed25519Crate} {WC : WasmiCrate} {DC : DashMapCrate}.

(** [for tx in &block.transactions { exec.execute_transaction(tx, &mut ctx)?; }] *)
Fixpoint execute_block (cfg : GasConfig) (txs : list Transaction) (ctx : ExecutionContext) :
    exec ExecutionContext :=
  match txs with
  | [] => sret ctx
  | tx :: txs =>
      r <-! execute_transaction cfg tx ctx ;;
      execute_block cfg txs r.2
  end.

Definition txs_on_path (s : BlockStore) (tip : H256) : list Transaction :=
  flat_map (fun h => match BlockStore.get_block s h with
                     | Some block => transactions block
                     | None => []
                     end) (BlockStore.chain_from s tip).

(** The two loops over the pool; a refused re-admission is ignored. *)
Definition readd_dropped (old_txs : list Transaction) (new_hashes : gset H256)
    (p : TransactionPool) : TransactionPool :=
  foldl (fun p tx => if decide (tx_hash tx ∈ new_hashes) then p
                     else (TransactionPool.add_transaction tx Local p).1) p old_txs.
Definition remove_included (new_txs : list Transaction) (p : TransactionPool) : TransactionPool :=
  foldl (fun p tx => (TransactionPool.remove p (tx_hash tx)).1) p new_txs.

Definition apply_head_change (outcome : InsertOutcome) (l : Ledger) : Ledger :=
  let store := lg_store l in
  let live := match BlockStore.state_at store (io_new_head outcome) with
              | Some post => StateDB.reset_from (lg_live l) post
              | None => lg_live l
              end in
  let old_txs := match io_old_head outcome with
                 | Some h => txs_on_path store h
                 | None => []
                 end in
  let new_txs := txs_on_path store (io_new_head outcome) in
  let new_hashes := list_to_set (map tx_hash new_txs) in
  mkLedger store live (remove_included new_txs (readd_dropped old_txs new_hashes (lg_pool l))).

Definition import_and_apply (block : Block) : smonad Ledger ChainError.t InsertOutcome := fun l =>
  match BlockStore.state_at (lg_store l) (parent_hash (header block)) with
  | None => (l, Err ChainError.UnknownParentState)
  | Some parent_state =>
      let ctx := context_new (number (header block)) (timestamp (header block)) in
      match execute_block gas_config_default (transactions block) ctx parent_state with
      | (_, Err e) => (l, Err (ChainError.Execution e))
      | (trial, Ok _) =>
          let '(trial, root) := StateDB.root_hash trial in
          if decide (root ≠ state_root (header block)) then (l, Err ChainError.InvalidStateRoot)
          else
            match BlockStore.insert_block block (lg_store l) with
            | (store, Err e) => (mkLedger store (lg_live l) (lg_pool l), Err e)
            | (store, Ok outcome) =>
                let store := BlockStore.record_state (io_hash outcome) (StateDB.fork trial) store in
                let l := mkLedger store (lg_live l) (lg_pool l) in
                ((if io_head_changed outcome then apply_head_change outcome l else l), Ok outcome)
            end
      end
  end.
End Apply.
