(* ===== verification/ApplyProps.v ===== *)
(** * Block import: theorems *)

From S2P Require Import Prelude Hex Uint UintFacts UintProps Hash Address Bincode Core.
From S2P Require Import Trie TrieFacts TrieProps State StateProps Crypto Vm Executor.
From S2P Require Import ExecutorProps TxPool Consensus Store StoreProps StoreSpec Producer.
From S2P Require Import Apply ProducerProps.
#[local] Open Scope Z_scope.

Lemma state_fork_id s : StateDB.fork s = s.
Proof. by destruct s. Qed.
Lemma state_reset_id s s' : StateDB.reset_from s s' = s'.
Proof. by destruct s'. Qed.

Section Pool.
Context {BC : BincodeCrate} {SC : Sha3Crate} {EC : Ed25519Crate} {DC : DashMapCrate}.

Lemma pool_remove_pending p h : pending (TransactionPool.remove p h).1 = delete h (pending p).
Proof.
  unfold TransactionPool.remove. destruct (pending p !! h) eqn:E; [done |].
  simpl. by rewrite delete_id.
Qed.

Lemma remove_included_pending txs p :
  pending (remove_included txs p) ⊆ pending p /\
  forall tx, tx ∈ txs -> pending (remove_included txs p) !! tx_hash tx = None.
Proof.
  revert p; induction txs as [|tx txs IH]; intros p; simpl.
  { split; [done |]. by intros tx ?%elem_of_nil. }
  destruct (IH (TransactionPool.remove p (tx_hash tx)).1) as [Hsub Hnone].
  rewrite pool_remove_pending in Hsub. split.
  - etrans; [exact Hsub | apply delete_subseteq].
  - intros tx' [->|Hin]%elem_of_cons; [| by apply Hnone].
    apply eq_None_not_Some. intros [e He]. eapply lookup_weaken in He; [| exact Hsub].
    by rewrite lookup_delete_eq in He.
Qed.
End Pool.

Section ImportBlock.
Context {BC : BincodeCrate} {SC : Sha3Crate} {EC : Ed25519Crate} {WC : WasmiCrate} {DC : DashMapCrate}.

Lemma insert_block_err b s s' e : BlockStore.insert_block b s = (s', Err e) -> s' = s.
Proof.
  intros H. destruct (insert_block_cases s b) as [(e' & E & _)|(_ & _ & E)]; rewrite E in H; [by simplify_eq |].
  unfold BlockStore.insert_validated in H. destruct (decide _); by simplify_eq.
Qed.

Lemma insert_block_ok b s s' o :
  store_inv s -> header_wf (header b) -> BlockStore.insert_block b s = (s', Ok o) ->
  linkable s (header b) /\ validate b = Ok tt /\ by_hash s !! block_hash b = None /\ store_inv s' /\
  by_hash s' = <[block_hash b := b]> (by_hash s) /\ snapshots s' = snapshots s /\
  io_hash o = block_hash b /\ io_old_head o = bs_head s /\ bs_head s' = Some (io_new_head o) /\
  io_head_changed o = negb (bool_decide (bs_head s = Some (io_new_head o))) /\
  (io_head_changed o = true -> io_new_head o = block_hash b).
Proof.
  intros Hs Hw H. destruct (insert_block_cases s b) as [(e' & E & _)|(Hl & Hv & E)]; rewrite E in H; [done |].
  pose proof (insert_validated_spec s b Hs Hw Hl) as Hspec.
  destruct (by_hash s !! block_hash b) eqn:Hf; [by rewrite Hspec in H |].
  destruct Hspec as (s1 & o1 & E1 & H1 & H2 & H3 & _ & H4 & H5 & H6 & _ & H7 & H8 & _).
  rewrite E1 in H. simplify_eq. by split_and!.
Qed.

Lemma import_cases b l :
  store_inv (lg_store l) -> block_wf b ->
  match import_and_apply b l with
  | (l', Err _) => l' = l
  | (l', Ok o) =>
      exists parent_state trial ctx,
        snapshots (lg_store l) !! parent_hash (header b) = Some parent_state /\
        execute_block gas_config_default (transactions b)
          (context_new (number (header b)) (timestamp (header b))) parent_state = (trial, Ok ctx) /\
        (StateDB.root_hash trial).2 = state_root (header b) /\
        linkable (lg_store l) (header b) /\ validate b = Ok tt /\
        by_hash (lg_store l) !! block_hash b = None /\
        lg_store l' = BlockStore.record_state (block_hash b) (StateDB.root_hash trial).1
                        (BlockStore.insert_block b (lg_store l)).1 /\
        by_hash (lg_store l') = <[block_hash b := b]> (by_hash (lg_store l)) /\
        snapshots (lg_store l') = <[block_hash b := (StateDB.root_hash trial).1]> (snapshots (lg_store l)) /\
        (if io_head_changed o
         then bs_head (lg_store l') = Some (block_hash b) /\
              lg_live l' = (StateDB.root_hash trial).1 /\
              forall tx, tx ∈ txs_on_path (lg_store l') (block_hash b) ->
                TransactionPool.contains (lg_pool l') (tx_hash tx) = false
         else bs_head (lg_store l') = bs_head (lg_store l) /\
              lg_live l' = lg_live l /\ lg_pool l' = lg_pool l)
  end.
Proof.
  intros Hs Hw. destruct l as [st live pool]. cbn [lg_store] in Hs.
  unfold import_and_apply, BlockStore.state_at. cbn [lg_store lg_live lg_pool].
  destruct (snapshots st !! _) as [ps|] eqn:Eps; simpl; [| done]. rewrite state_fork_id.
  destruct (execute_block _ _ _ ps) as [trial [ctx|e]] eqn:Ex; [| done].
  destruct (decide _) as [|Hroot]; [done |]. apply dec_stable in Hroot.
  destruct (BlockStore.insert_block b st) as [st' [o|e]] eqn:Ei.
  2: { by rewrite (insert_block_err _ _ _ _ Ei). }
  destruct (insert_block_ok _ _ _ _ Hs (proj1 Hw) Ei)
    as (Hl & Hv & Hf & Hs' & H1 & H2 & H3 & H4 & H5 & H6 & H7).
  exists ps, trial, ctx. rewrite !state_fork_id.
  destruct (io_head_changed o) eqn:Ec; simpl.
  - specialize (H7 eq_refl). rewrite H2, H3. split_and!; try done; [by rewrite state_fork_id | by rewrite H5, H7 | |].
    + unfold BlockStore.state_at. simpl. rewrite H7, lookup_insert_eq. simpl.
      by destruct (StateDB.sync_all_storage_roots trial).
    + intros tx Htx. unfold TransactionPool.contains. apply bool_decide_eq_false.
      rewrite H7. intros [e He]. rewrite (proj2 (remove_included_pending _ _) tx) in He; [done |].
      exact Htx.
  - symmetry in H6. apply negb_false_iff, bool_decide_eq_true in H6.
    rewrite H2, H3. split_and!; try done; [by rewrite state_fork_id | by rewrite H5, H6].
Qed.

(** C2: Import is all or nothing and verified by execution: on an error the
    store, the live state and the pool are untouched.  On success the block's
    transactions all executed on the recorded post-state of its parent, the
    resulting state has the root the header names and is what is recorded for
    the block; the block passed the store's checks; and when the head moved, it
    moved to this block, the live state is exactly that post-state and no
    transaction of the new canonical chain is left in the pool. *)
Theorem import_and_apply_spec b l :
  store_reachable (lg_store l) -> block_wf b ->
  match import_and_apply b l with
  | (l', Err _) => l' = l
  | (l', Ok o) =>
      exists parent_state trial ctx,
        snapshots (lg_store l) !! parent_hash (header b) = Some parent_state /\
        execute_block gas_config_default (transactions b)
          (context_new (number (header b)) (timestamp (header b))) parent_state = (trial, Ok ctx) /\
        (StateDB.root_hash trial).2 = state_root (header b) /\
        linkable (lg_store l) (header b) /\ validate b = Ok tt /\
        by_hash (lg_store l) !! block_hash b = None /\
        by_hash (lg_store l') = <[block_hash b := b]> (by_hash (lg_store l)) /\
        snapshots (lg_store l') = <[block_hash b := (StateDB.root_hash trial).1]> (snapshots (lg_store l)) /\
        (if io_head_changed o
         then bs_head (lg_store l') = Some (block_hash b) /\
              lg_live l' = (StateDB.root_hash trial).1 /\
              forall tx, tx ∈ txs_on_path (lg_store l') (block_hash b) ->
                TransactionPool.contains (lg_pool l') (tx_hash tx) = false
         else bs_head (lg_store l') = bs_head (lg_store l) /\
              lg_live l' = lg_live l /\ lg_pool l' = lg_pool l)
  end.
Proof.
  intros Hs%store_reachable_inv Hw. pose proof (import_cases b l Hs Hw) as H.
  destruct (import_and_apply b l) as [l' [o|e]]; [| done]. naive_solver.
Qed.
End ImportBlock.

(** ** The state root pins the nonces *)

Section Roots.
Context {BC : BincodeCrate} {BL : BincodeLaws} {SC : Sha3Crate}.

Lemma root_accounts s1 s2 addr :
  state_inv s1 -> state_inv s2 -> coll_free (live_encodings s1 ++ live_encodings s2) ->
  patricia_root (StateDB.live_pairs s1) = patricia_root (StateDB.live_pairs s2) ->
  live_account s1 addr = live_account s2 addr.
Proof.
  intros [W1 _] [W2 _] C E.
  pose proof (patricia_root_inj _ _ (live_pairs_ok s1) (live_pairs_ok s2) C E) as Hp.
  specialize (Hp (Address.as_bytes addr)). rewrite !live_pairs_live in Hp. by apply live_account_inj.
Qed.

(** An empty account has nonce zero, so the live accounts tell all nonces. *)
Lemma nonce_live s a : nonce s a = default 0 (acc_nonce <$> live_account s a).
Proof.
  unfold nonce, account_or_default, live_account.
  destruct (StateDB.get_account s a) as [acc|]; [| done]. simpl.
  destruct (account_is_empty acc) eqn:E; [| done]. simpl.
  unfold account_is_empty in E. repeat (apply andb_prop in E as [E ?]). by apply Z.eqb_eq in E.
Qed.

Lemma root_nonce s1 s2 a :
  state_inv s1 -> state_inv s2 -> coll_free (live_encodings s1 ++ live_encodings s2) ->
  nonce s1 a ≠ nonce s2 a ->
  patricia_root (StateDB.live_pairs s1) ≠ patricia_root (StateDB.live_pairs s2).
Proof.
  intros H1 H2 C Hn E. destruct Hn. by rewrite !nonce_live, (root_accounts s1 s2 a H1 H2 C E).
Qed.
End Roots.

Section OwnBlocks.
Context {BC : BincodeCrate} {SC : Sha3Crate} {EC : Ed25519Crate} {WC : WasmiCrate} {DC : DashMapCrate}.
Context {WL : WasmiLaws}.

(** The importing side is set up for the produced block. *)
Record import_ready (p : ProduceParams) (s : StateDB) (l : Ledger) : Prop := {
  ir_store : store_reachable (lg_store l);
  ir_parent : by_hash (lg_store l) !! block_hash (pp_parent p) = Some (pp_parent p);
  ir_state : snapshots (lg_store l) !! block_hash (pp_parent p) = Some s;
  ir_consensus : consensus (lg_store l) = pp_consensus p;
  ir_timestamp : u64_ok (pp_timestamp p) /\ timestamp (header (pp_parent p)) <= pp_timestamp p;
  ir_required : required_signatures (pp_consensus p) = 1%nat }.

Lemma saturating_succ_nonzero n : u64_ok n -> saturating_add64 n 1 ≠ 0.
Proof. unfold u64_ok, saturating_add64, u64_max. lia. Qed.

Context {EL : Ed25519Laws}.

(** The produced header links to the parent in the importer's store. *)
Lemma produced_linkable p s l h sealed :
  import_ready p s l -> validator_from_secret (pp_miner_key p) ∈ validators (pp_consensus p) ->
  address_from_secret (pp_miner_key p) = pp_miner p ->
  poa_seal_header (pp_consensus p) h (pp_miner p) (pp_miner_key p) = Ok sealed ->
  number h = saturating_add64 (number (header (pp_parent p))) 1 ->
  parent_hash h = block_hash (pp_parent p) -> timestamp h = pp_timestamp p ->
  linkable (lg_store l) sealed.
Proof.
  intros [Hr Hp _ Hc [_ Ht] Hreq] Hv Hm Es Hn Hph Hts.
  pose proof (store_reachable_inv _ Hr) as Hi.
  pose proof (inv_headers _ (inv_index _ Hi) _ _ Hp) as (Hnp & _).
  apply poa_seal_ok in Es as (_ & _ & ->). unfold linkable.
  change (number (with_extra _ _)) with (number h). rewrite Hn.
  rewrite decide_False by (by apply saturating_succ_nonzero).
  exists (pp_parent p). change (parent_hash (with_extra _ _)) with (parent_hash h). rewrite Hph.
  split_and!; [done | done |]. rewrite Hc. apply poa_validate_ok. split_and!.
  - by eapply validator_member.
  - change (timestamp (with_extra _ _)) with (timestamp h). by rewrite Hts.
  - assert (required_signatures (pp_consensus p) ≠ O) as Hr0 by (by rewrite Hreq).
    etrans; [exact (sealed_verifies (pp_consensus p) h (pp_miner p) _ Hv Hm Hr0) |]. by rewrite Hreq.
Qed.

(** C14: When a node can import what it produces.  The producing side is set up
    ([produce_ok]): the sealing key is a validator's, the pending transactions and the
    state are well formed, and the gas limit it writes into headers is at least the
    block gas cap of the gas configuration.  The importing side holds the parent and
    the parent's state, has the same validators and asks for one signature
    ([import_ready]).  Every transaction refused during production was refused before
    touching the state, and the gas configuration is the default one.  Then production
    succeeds; and if the block fits its encoding's widths and is not stored yet,
    importing it re-executes to the same state root and succeeds, recording for the
    block exactly the state the producer ended with. *)
Theorem own_block_imports bp p s l :
  produce_ok bp p s -> import_ready p s l -> pp_gas_config p = gas_config_default ->
  refused_cleanly (pp_gas_config p) (pending_sorted p) (produce_context p) s ->
  exists s' b, produce_block bp p s = (s', Ok b) /\
    (block_wf b -> by_hash (lg_store l) !! block_hash b = None ->
     exists l' o, import_and_apply b l = (l', Ok o) /\ io_hash o = block_hash b /\
       snapshots (lg_store l') !! block_hash b = Some s').
Proof.
  intros Hok Hready Hcfg Hclean.
  destruct (produce_block_run bp p s Hok)
    as (inc & rec & ctx' & s' & Hp & Es & E & H1 & H2 & _ & H4 & H5 & _ & H7 & _).
  do 2 eexists. split; [exact E |]. intros Hwf Hf.
  pose proof (store_reachable_inv _ (ir_store _ _ _ Hready)) as Hi.
  set (h := unsealed_header bp p ctx' _ inc rec) in *.
  set (sealed := with_extra _ _) in *.
  pose proof (produced_linkable p s l h sealed Hready (po_validator _ _ _ Hok) (po_miner _ _ _ Hok) Es
    eq_refl eq_refl eq_refl) as Hl.
  assert (validate (mkBlock sealed inc rec) = Ok tt) as Hv.
  { apply validate_ok. simpl. pose proof (po_limit _ _ _ Hok). split_and!; [lia | | done | done].
    apply (f_equal length) in H2. by rewrite !length_map in H2. }
  pose proof (produced_replays _ _ _ _ _ _ _ _ Address.ZERO Hp Hclean) as Hx. rewrite Hcfg in Hx.
  change (with_beneficiary Address.ZERO (produce_context p)) with
    (context_new (number sealed) (timestamp sealed)) in Hx.
  unfold import_and_apply, BlockStore.state_at. cbn [header transactions].
  change (parent_hash sealed) with (block_hash (pp_parent p)).
  rewrite (ir_state _ _ _ Hready). cbn [fmap option_fmap option_map]. rewrite state_fork_id, Hx.
  rewrite state_inv_sync by done.
  change (state_root sealed) with (patricia_root (StateDB.live_pairs s')).
  rewrite decide_False by tauto.
  pose proof (insert_validated_spec (lg_store l) (mkBlock sealed inc rec) Hi (proj1 Hwf) Hl) as Hspec.
  rewrite Hf in Hspec. destruct Hspec as (st' & o & E1 & _ & _ & Hsn & _ & Hh & _).
  destruct (insert_block_cases (lg_store l) (mkBlock sealed inc rec)) as [(e & _ & Hn)|(_ & _ & Ei)].
  { by destruct Hn. }
  rewrite Ei, E1, !state_fork_id. do 2 eexists. split; [done |]. split; [done |].
  assert (snapshots (BlockStore.record_state (io_hash o) s' st') !! block_hash (mkBlock sealed inc rec)
          = Some s') as Hsnap.
  { simpl. by rewrite Hh, lookup_insert_eq, state_fork_id. }
  by destruct (io_head_changed o).
Qed.

Context {BL : BincodeLaws}.

(** C37: A node refuses its own block when it skipped a transaction that had
    already been charged: if the only pending transaction passes the checks and
    then fails in the VM, production drops it from the block but keeps its effect
    in the header's state root, and importing that block on the parent's state
    fails with [InvalidStateRoot] and changes nothing, when no two node encodings
    of the account tries of the state before and after collide. *)
Theorem failed_call_breaks_block bp p s l tx :
  produce_ok bp p s -> import_ready p s l ->
  TransactionPool.get_pending (pp_pool p) (pp_max_txs p) = [tx] ->
  precheck (pp_gas_config p) tx (produce_context p) s = Ok tt ->
  is_ok (execute_transaction (pp_gas_config p) tx (produce_context p) s).2 = false ->
  exists s' b, produce_block bp p s = (s', Ok b) /\ transactions b = [] /\
    (coll_free (live_encodings s ++ live_encodings s') ->
     import_and_apply b l = (l, Err ChainError.InvalidStateRoot)).
Proof.
  intros Hok Hready Hpend Hpre Hfail.
  destruct (produce_block_run bp p s Hok)
    as (inc & rec & ctx' & s' & Hp & Es & E & _ & _ & _ & _ & _ & _ & H7 & _).
  do 2 eexists. split; [exact E |].
  pose proof (po_txs _ _ _ Hok) as Hw. unfold pending_sorted in Hp. rewrite Hpend in Hp, Hw. simpl in Hp.
  apply Forall_cons in Hw as [Hw _].
  assert (u64_ok (ctx_gas_used (produce_context p))) as Hctx by (unfold u64_ok; simpl; lia).
  pose proof (execute_spec (pp_gas_config p) tx (produce_context p) s (po_state _ _ _ Hok) Hw
    (po_gas _ _ _ Hok) Hctx (po_supply _ _ _ Hok)) as Hspec. rewrite Hpre in Hspec.
  inversion Hp as [|? ? ? ? out ctx1 s1 ? ? ? ? E1 H'|? ? ? ? e s1 ? ? ? ? E1 H']; subst;
    rewrite E1 in Hspec, Hfail; [done |].
  inversion H'; subst. split; [done |]. intros C.
  destruct Hspec as (_ & (_ & Hnonce & _) & _).
  unfold import_and_apply, BlockStore.state_at. cbn [header transactions].
  set (h := unsealed_header bp p _ _ [] []) in *. set (sealed := with_extra _ _) in *.
  change (parent_hash sealed) with (block_hash (pp_parent p)).
  rewrite (ir_state _ _ _ Hready). cbn [fmap option_fmap option_map execute_block sret].
  rewrite state_fork_id, state_inv_sync by apply Hok.
  change (state_root sealed) with (patricia_root (StateDB.live_pairs s')).
  destruct (decide _) as [|Heq]; [done |]. apply dec_stable in Heq. exfalso. revert Heq.
  apply (root_nonce s s' (tx_from tx)); [apply Hok | done | done |].
  specialize (Hnonce (tx_from tx)). rewrite decide_True in Hnonce by done. lia.
Qed.
End OwnBlocks.

(** ** The live state follows the head *)

Section Live.
Context {BC : BincodeCrate} {SC : Sha3Crate} {EC : Ed25519Crate} {WC : WasmiCrate} {DC : DashMapCrate}.

(** A node's life: a genesis recorded with its state, then imports, pruning and
    pool traffic in any order. *)
Inductive ledger_reachable : Ledger -> Prop :=
| ledger_genesis c g st o db pool :
    block_wf g -> BlockStore.insert_block g (BlockStore.new c) = (st, Ok o) ->
    state_root (header g) = (StateDB.root_hash db).2 ->
    ledger_reachable (mkLedger (BlockStore.record_state (io_hash o) (StateDB.root_hash db).1 st)
                               (StateDB.root_hash db).1 pool)
| ledger_import l b :
    ledger_reachable l -> block_wf b -> ledger_reachable (import_and_apply b l).1
| ledger_prune l :
    ledger_reachable l ->
    ledger_reachable (mkLedger (BlockStore.prune_snapshots (lg_store l)) (lg_live l) (lg_pool l))
| ledger_prune_keep l n :
    ledger_reachable l ->
    ledger_reachable (mkLedger (BlockStore.prune_snapshots_keep n (lg_store l)) (lg_live l) (lg_pool l))
| ledger_pool l p : ledger_reachable l -> ledger_reachable (mkLedger (lg_store l) (lg_live l) p).

(** [db] is a synced state whose root the header of block [h] names. *)
Definition post_state_of (s : BlockStore) (h : H256) (db : StateDB) : Prop :=
  exists b, by_hash s !! h = Some b /\ StateDB.root_hash db = (db, state_root (header b)).

Record ledger_inv (l : Ledger) : Prop := {
  li_store : store_reachable (lg_store l);
  li_snapshots h db : snapshots (lg_store l) !! h = Some db -> post_state_of (lg_store l) h db;
  li_live : exists hd, bs_head (lg_store l) = Some hd /\
                       snapshots (lg_store l) !! hd = Some (lg_live l) }.

Lemma root_hash_idem db : StateDB.root_hash (StateDB.root_hash db).1 = StateDB.root_hash db.
Proof.
  unfold StateDB.root_hash. simpl. rewrite (sync_id (StateDB.sync_all_storage_roots db)); [done |].
  intros a. destruct (sync_spec db) as (Hs & _ & Ha). rewrite Ha.
  rewrite (storage_root_ext _ db); [apply synced_idem |]. intros. by rewrite Hs.
Qed.

Lemma reachable_step s s' : store_reachable s -> store_step s s' -> store_reachable s'.
Proof. intros [c H] Hs. exists c. by eapply rtc_r. Qed.

Lemma post_state_headers s s' h db :
  same_headers (by_hash s) (by_hash s') -> post_state_of s h db -> post_state_of s' h db.
Proof.
  intros E (b & Hb & Hr). destruct (same_headers_some _ _ _ _ E Hb) as (b' & Hb' & Eb).
  exists b'. by rewrite Eb.
Qed.

(** Pruning in either form: fewer snapshots, the head's kept, headers and head as before. *)
Lemma prune_ledger_inv l st :
  ledger_inv l -> store_reachable st ->
  same_headers (by_hash (lg_store l)) (by_hash st) -> bs_head st = bs_head (lg_store l) ->
  (forall h db, snapshots st !! h = Some db -> snapshots (lg_store l) !! h = Some db) ->
  (forall hd db, bs_head (lg_store l) = Some hd -> snapshots (lg_store l) !! hd = Some db ->
     snapshots st !! hd = Some db) ->
  ledger_inv (mkLedger st (lg_live l) (lg_pool l)).
Proof.
  intros [_ Hs (hd & Hhd & Hlive)] Hr Eh Ehd Hsub Hkeep. split; cbn [lg_store lg_live]; [done | |].
  - intros h db H. eapply post_state_headers; eauto.
  - exists hd. rewrite Ehd. eauto.
Qed.

Lemma head_in_chain s hd b :
  store_reachable s -> by_hash s !! hd = Some b -> hd ∈ BlockStore.chain_from s hd.
Proof.
  intros Hr Hb. destruct (reachable_path s hd b Hr Hb) as [l Hl].
  rewrite (chain_from_ancestry _ _ _ Hl), elem_of_rev.
  apply ancestry_head in Hl as [t ->]. by left.
Qed.

Lemma ledger_genesis_inv c g st o db pool :
  block_wf g -> BlockStore.insert_block g (BlockStore.new c) = (st, Ok o) ->
  state_root (header g) = (StateDB.root_hash db).2 ->
  ledger_inv (mkLedger (BlockStore.record_state (io_hash o) (StateDB.root_hash db).1 st)
                       (StateDB.root_hash db).1 pool).
Proof.
  intros Hg Hins Hroot.
  assert (store_reachable st) as Hr.
  { exists c. replace st with (BlockStore.insert_block g (BlockStore.new c)).1 by (by rewrite Hins).
    apply rtc_once. by apply step_block. }
  destruct (insert_block_ok _ _ _ _ (new_store_inv c) (proj1 Hg) Hins)
    as (_ & _ & _ & _ & Hb & Hsn & Hh & Ho & Hhd & Hch & Hnew).
  simpl in Ho, Hch. rewrite Hnew in Hhd by done. split; cbn [lg_store lg_live].
  - eapply reachable_step; [done | apply step_record].
  - intros h db'. unfold post_state_of, BlockStore.record_state, BlockStore.set_snapshots.
    cbn [snapshots by_hash]. rewrite Hsn, Hh, Hb, state_fork_id.
    cbn [snapshots by_hash BlockStore.new]. rewrite insert_empty.
    intros [<- <-]%lookup_singleton_Some. exists g. split; [by rewrite lookup_insert_eq |].
    by rewrite root_hash_idem, Hroot, <- surjective_pairing.
  - exists (block_hash g). simpl. rewrite Hhd, Hh, lookup_insert_eq. by rewrite state_fork_id.
Qed.

Lemma ledger_import_inv l b : ledger_inv l -> block_wf b -> ledger_inv (import_and_apply b l).1.
Proof.
  intros Hl Hw. pose proof (import_cases b l (store_reachable_inv _ (li_store _ Hl)) Hw) as H.
  destruct (import_and_apply b l) as [l' [o|e]]; cbn [fst]; [| by rewrite H].
  destruct H as (ps & trial & ctx & _ & _ & Hroot & _ & _ & Hf & Est & Hb & Hsn & Hhead).
  destruct Hl as [Hr Hs (hd & Hhd & Hlive)]. split.
  - rewrite Est. eapply reachable_step; [| apply step_record].
    eapply reachable_step; [done | by apply step_block].
  - intros h db. rewrite Hsn. intros [[<- <-]|[Hne Hdb]]%lookup_insert_Some.
    + exists b. rewrite Hb, lookup_insert_eq. split; [done |].
      by rewrite root_hash_idem, <- Hroot, <- surjective_pairing.
    + destruct (Hs _ _ Hdb) as (b' & Hb' & Hr'). exists b'. split; [| done].
      by rewrite Hb, lookup_insert_ne.
  - destruct (io_head_changed o).
    + destruct Hhead as (H1 & H2 & _). exists (block_hash b). by rewrite H1, Hsn, H2, lookup_insert_eq.
    + destruct Hhead as (H1 & H2 & _). exists hd. rewrite H1, Hsn, H2. split; [done |].
      rewrite lookup_insert_ne; [done |]. intros E; subst hd.
      destruct (Hs _ _ Hlive) as (b' & Hb' & _). congruence.
Qed.

Lemma ledger_prune_inv l :
  ledger_inv l -> ledger_inv (mkLedger (BlockStore.prune_snapshots (lg_store l)) (lg_live l) (lg_pool l)).
Proof.
  intros IH. destruct (prune_snapshots_fields (lg_store l)) as (E1 & _ & E3 & _).
  pose proof (li_store _ IH) as Hr. apply prune_ledger_inv; try done.
  - eapply reachable_step; [done | apply step_prune].
  - by rewrite E1.
  - intros h db. destruct (li_live _ IH) as (hd & Hhd & _).
    rewrite (prune_snapshots_lookup _ _ _ Hhd). by case_decide.
  - intros hd db Hhd Hdb. rewrite (prune_snapshots_lookup _ _ _ Hhd).
    destruct (li_snapshots _ IH _ _ Hdb) as (b & Hb & _). by rewrite decide_True by (by eapply head_in_chain).
Qed.

Lemma ledger_prune_keep_inv l n :
  ledger_inv l ->
  ledger_inv (mkLedger (BlockStore.prune_snapshots_keep n (lg_store l)) (lg_live l) (lg_pool l)).
Proof.
  intros IH. destruct (li_live _ IH) as (hd & Hhd & Hlive). pose proof (li_store _ IH) as Hr.
  destruct (li_snapshots _ IH _ _ Hlive) as (b & Hb & _).
  destruct (prune_keep_fields _ hd b n Hr Hhd Hb) as (H1 & H2 & H3 & _).
  apply prune_ledger_inv; try done.
  - eapply reachable_step; [done | apply step_prune_keep].
  - intros h. rewrite H2. destruct (by_hash (lg_store l) !! h) as [b'|]; [| done]. simpl.
    by destruct (_ <? _).
  - intros h db H%H1. tauto.
  - intros hd' db Hhd' Hdb. simplify_eq. apply H1. split_and!; [done | by eapply head_in_chain |].
    unfold height. rewrite Hb. simpl.
    pose proof (inv_headers _ (inv_index _ (store_reachable_inv _ Hr)) _ _ Hb) as (Hn & _).
    unfold u64_ok in Hn. lia.
Qed.

Lemma ledger_pool_inv l p : ledger_inv l -> ledger_inv (mkLedger (lg_store l) (lg_live l) p).
Proof. intros [H1 H2 H3]. by split. Qed.

Lemma ledger_reachable_inv l : ledger_reachable l -> ledger_inv l.
Proof.
  induction 1 as [c g st o db pool Hg Hins Hroot|l b Hl IH Hb|l Hl IH|l n Hl IH|l p Hl IH].
  - by eapply ledger_genesis_inv.
  - by apply ledger_import_inv.
  - by apply ledger_prune_inv.
  - by apply ledger_prune_keep_inv.
  - by apply ledger_pool_inv.
Qed.

(** In every reachable ledger the live state is the recorded post-state of
    the canonical head, with the state root the head's header names; and every
    snapshot kept is a state whose root is the one in the header of its block. *)
Theorem live_state_is_head_state l :
  ledger_reachable l ->
  (exists hd b, bs_head (lg_store l) = Some hd /\ by_hash (lg_store l) !! hd = Some b /\
     snapshots (lg_store l) !! hd = Some (lg_live l) /\
     (StateDB.root_hash (lg_live l)).2 = state_root (header b)) /\
  (forall h db, snapshots (lg_store l) !! h = Some db ->
     exists b, by_hash (lg_store l) !! h = Some b /\
       (StateDB.root_hash db).2 = state_root (header b)).
Proof.
  intros [_ Hs (hd & Hhd & Hlive)]%ledger_reachable_inv. split.
  - destruct (Hs _ _ Hlive) as (b & Hb & Hr). exists hd, b. by rewrite Hr.
  - intros h db (b & Hb & Hr)%Hs. exists b. by rewrite Hr.
Qed.

(** After pruning, a branch that is not canonical can never be extended:
    a block on top of it is refused for want of its parent's state, and sending
    the parent (or any block already stored) again never succeeds, so that state
    is not recovered. *)
Theorem pruned_branch_is_stuck l hd b child parent :
  ledger_reachable l -> bs_head (lg_store l) = Some hd ->
  by_hash (lg_store l) !! block_hash parent = Some b ->
  block_hash parent ∉ BlockStore.chain_from (lg_store l) hd ->
  parent_hash (header child) = block_hash parent -> block_wf parent ->
  let l' := mkLedger (BlockStore.prune_snapshots (lg_store l)) (lg_live l) (lg_pool l) in
  import_and_apply child l' = (l', Err ChainError.UnknownParentState) /\
  exists e, import_and_apply parent l' = (l', Err e).
Proof.
  intros Hl Hhd Hb Hout Hpar Hw l'. pose proof (ledger_reachable_inv _ Hl) as Hi.
  assert (store_inv (lg_store l')) as Hs.
  { apply prune_snapshots_inv, store_reachable_inv, Hi. }
  split.
  - unfold import_and_apply, BlockStore.state_at. rewrite Hpar. simpl lg_store.
    rewrite (prune_snapshots_lookup _ _ _ Hhd). by rewrite decide_False by done.
  - pose proof (import_cases parent l' Hs Hw) as H.
    destruct (import_and_apply parent l') as [l'' [o|e]]; [| subst; eauto].
    destruct H as (_ & _ & _ & _ & _ & _ & _ & _ & Hf & _). simpl in Hf.
    destruct (prune_snapshots_fields (lg_store l)) as (E1 & _). rewrite E1 in Hf. congruence.
Qed.
End Live.

(** ** Witnesses: one block on a genesis, under the toy crates *)

Definition pool_of (tx : Transaction) : TransactionPool :=
  mkTransactionPool pool_config_default {[tx_hash tx := mkPendingTx (tx_hash tx) tx Local 0]} ∅ ∅.
Definition sample_params (tx : Transaction) : ProduceParams :=
  mkProduceParams chain_g (pool_of tx) gas_config_default (sample_poa x01)
    (address_from_secret sample_sk) sample_sk 2 8.
Definition sample_transfer : Transaction := sample_tx x01 (Some (sample_address x02)) 10 21000 0.
Definition sample_trap : Transaction := sample_tx x01 (Some (sample_address x08)) 10 30000 0.
Definition genesis_ledger : Ledger :=
  mkLedger (BlockStore.record_state (block_hash chain_g) funded_state
              (insert_all [chain_g] (BlockStore.new (sample_poa x01))))
    funded_state TransactionPool.new.

Lemma sample_pending tx :
  TransactionPool.get_pending (pool_of tx) 8 = [tx].
Proof.
  unfold TransactionPool.get_pending, TransactionPool.get_pending_entries. simpl.
  by rewrite map_to_list_singleton.
Qed.

Lemma sample_produce_ok tx : tx_wf tx -> produce_ok producer_new (sample_params tx) funded_state.
Proof.
  intros Hw. split; try done.
  - cbn [pp_pool pp_max_txs sample_params]. rewrite sample_pending.
    apply Forall_cons; split; [exact Hw | apply Forall_nil; exact I].
  - exact funded_inv.
  - by left.
Qed.

Lemma sample_import_ready tx : import_ready (sample_params tx) funded_state genesis_ledger.
Proof.
  split.
  - assert (store_reachable (insert_all [chain_g] (BlockStore.new (sample_poa x01)))) as H.
    { apply insert_all_reachable; [| by exists (sample_poa x01)].
      apply Forall_cons; split; [| apply Forall_nil; exact I].
      apply sample_child_wf; unfold u64_ok; lia. }
    eapply reachable_step; [exact H | apply step_record].
  - vm_compute. reflexivity.
  - change (pp_parent (sample_params tx)) with chain_g.
    unfold genesis_ledger, BlockStore.record_state, BlockStore.set_snapshots. cbn [lg_store snapshots].
    rewrite state_fork_id. apply lookup_insert_eq.
  - vm_compute. reflexivity.
  - vm_compute. split; [split |]; done.
  - done.
Qed.

Lemma sample_refused tx ctx s cfg :
  is_ok (execute_transaction cfg tx ctx s).2 = true -> refused_cleanly cfg [tx] ctx s.
Proof.
  destruct (execute_transaction cfg tx ctx s) as [s1 [[out ctx1]|e]] eqn:E; simpl; intros H; [| done].
  eapply refused_ok; [exact E | constructor].
Qed.

Lemma produced_block_valid_witness :
  exists s' b, produce_block producer_new (sample_params sample_transfer) funded_state = (s', Ok b) /\
    validate b = Ok tt /\ gas_used (header b) = gas_sum (receipts b).
Proof.
  destruct (produced_block_valid producer_new (sample_params sample_transfer) funded_state
    (sample_produce_ok sample_transfer ltac:(apply sample_tx_wf; done)))
    as (s' & b & H1 & H2 & _ & _ & _ & _ & _ & _ & H3 & _).
  exact (ex_intro _ s' (ex_intro _ b (conj H1 (conj H2 H3)))).
Defined.

(** What [sample_params] produces, as its peers decode it, is well formed and new. *)
Definition produced_sample : StateDB * result Block ChainError.t :=
  produce_block producer_new (sample_params sample_transfer) funded_state.
Lemma produced_sample_ok s' b :
  produced_sample = (s', Ok b) -> block_wf b /\ by_hash (lg_store genesis_ledger) !! block_hash b = None.
Proof.
  intros E.
  assert (match produced_sample.2 with
          | Ok b => bool_decide (deserialize (A := Block) (serialize b) = Some b) &&
                    bool_decide (by_hash (lg_store genesis_ledger) !! block_hash b = None)
          | Err _ => false
          end = true) as H by (vm_compute; reflexivity).
  rewrite E in H. cbn [snd] in H. cbv beta iota in H. apply andb_prop in H as [H1 H2].
  apply bool_decide_eq_true in H1, H2. split; [exact (deserialize_wf (A := Block) _ _ H1) | exact H2].
Qed.

Lemma own_block_imports_witness :
  exists s' b l' o, produced_sample = (s', Ok b) /\ transactions b = [sample_transfer] /\
    import_and_apply b genesis_ledger = (l', Ok o) /\ snapshots (lg_store l') !! block_hash b = Some s'.
Proof.
  destruct (own_block_imports producer_new (sample_params sample_transfer) funded_state genesis_ledger
    (sample_produce_ok sample_transfer ltac:(apply sample_tx_wf; done))
    (sample_import_ready sample_transfer) eq_refl) as (s' & b & E & Himp).
  { unfold pending_sorted. cbn [pp_pool pp_max_txs sample_params]. rewrite sample_pending.
    apply sample_refused. vm_compute. reflexivity. }
  destruct (produced_sample_ok s' b E) as [Hw Hnew].
  destruct (Himp Hw Hnew) as (l' & o & H1 & _ & H2). exists s', b, l', o.
  split; [exact E | split; [| split; [exact H1 | exact H2]]].
  assert (match produced_sample.2 with Ok b => transactions b | Err _ => [] end = [sample_transfer]) as Ht
    by (apply (bool_decide_eq_true_1 _); vm_compute; reflexivity).
  change (produce_block producer_new (sample_params sample_transfer) funded_state) with produced_sample in E.
  rewrite E in Ht. exact Ht.
Defined.

(** The gas limit of the genesis goes into the headers, but the executor's cap is the
    default configuration's: with a genesis limit of 1,000 the node seals a block with
    one transfer that it then refuses itself. *)
Example low_gas_limit_refused :
  match produce_block (mkBlockProducer 1000) (sample_params sample_transfer) funded_state with
  | (_, Ok b) => (import_and_apply b genesis_ledger).2 = Err (ChainError.Block GasExceeded)
  | _ => False
  end.
Proof. vm_compute. reflexivity. Qed.

Lemma failed_call_breaks_block_witness :
  exists s' b, produce_block producer_new (sample_params sample_trap) funded_state = (s', Ok b) /\
    transactions b = [] /\
    import_and_apply b genesis_ledger = (genesis_ledger, Err ChainError.InvalidStateRoot).
Proof.
  assert (precheck (pp_gas_config (sample_params sample_trap)) sample_trap
    (produce_context (sample_params sample_trap)) funded_state = Ok tt) as Hpre by (vm_compute; reflexivity).
  assert (is_ok (execute_transaction (pp_gas_config (sample_params sample_trap)) sample_trap
    (produce_context (sample_params sample_trap)) funded_state).2 = false) as Hf by (vm_compute; reflexivity).
  destruct (failed_call_breaks_block producer_new (sample_params sample_trap) funded_state genesis_ledger
    sample_trap (sample_produce_ok sample_trap ltac:(apply sample_tx_wf; done))
    (sample_import_ready sample_trap) (sample_pending sample_trap) Hpre Hf) as (s' & b & E & Ht & Hi).
  exists s', b. refine (conj E (conj Ht (Hi _))).
  assert (bool_decide (coll_free (live_encodings funded_state ++
    live_encodings (produce_block producer_new (sample_params sample_trap) funded_state).1)) = true) as C
    by (vm_compute; reflexivity).
  apply bool_decide_eq_true in C. rewrite E in C. exact C.
Defined.

(** A ledger that went through a fork: two blocks on the genesis, no transactions. *)
Definition funded_root : H256 := (StateDB.root_hash funded_state).2.
Definition fork_genesis : Block := sample_rooted 0 H256.ZERO 1 funded_root.
Definition fork_a : Block := sample_rooted 1 (block_hash fork_genesis) 10 funded_root.
Definition fork_b : Block := sample_rooted 1 (block_hash fork_genesis) 11 funded_root.
Definition fork_start : Ledger :=
  match BlockStore.insert_block fork_genesis (BlockStore.new (sample_poa x01)) with
  | (st, Ok o) => mkLedger (BlockStore.record_state (io_hash o) (StateDB.root_hash funded_state).1 st)
                    (StateDB.root_hash funded_state).1 TransactionPool.new
  | (st, Err _) => genesis_ledger
  end.
Definition fork_ledger : Ledger :=
  (import_and_apply fork_b (import_and_apply fork_a fork_start).1).1.

Lemma fork_start_reachable : ledger_reachable fork_start.
Proof.
  assert (is_ok (BlockStore.insert_block fork_genesis (BlockStore.new (sample_poa x01))).2 = true) as H
    by (vm_compute; reflexivity).
  unfold fork_start.
  destruct (BlockStore.insert_block fork_genesis (BlockStore.new (sample_poa x01))) as [st [o|e]] eqn:E;
    [| discriminate H].
  eapply ledger_genesis; [| exact E | apply sample_rooted_fields].
  apply sample_rooted_wf; unfold u64_ok; lia.
Qed.

Lemma fork_a_wf : block_wf fork_a.
Proof. apply sample_rooted_wf; unfold u64_ok; lia. Qed.

Lemma fork_ledger_reachable : ledger_reachable fork_ledger.
Proof.
  apply ledger_import; [apply ledger_import; [apply fork_start_reachable | apply fork_a_wf] |].
  apply sample_rooted_wf; unfold u64_ok; lia.
Qed.

Lemma fork_ledger_head : bs_head (lg_store fork_ledger) = Some (block_hash fork_b).
Proof. vm_compute. reflexivity. Qed.

Lemma import_and_apply_spec_witness :
  is_ok (import_and_apply fork_a fork_start).2 = true /\
  snapshots (lg_store (import_and_apply fork_a fork_start).1) !! block_hash fork_a ≠ None.
Proof.
  assert (is_ok (import_and_apply fork_a fork_start).2 = true) as Hok by (vm_compute; reflexivity).
  pose proof (import_and_apply_spec fork_a fork_start
    (li_store _ (ledger_reachable_inv _ fork_start_reachable)) fork_a_wf) as H.
  revert Hok H. generalize (import_and_apply fork_a fork_start).
  intros [l' [o|e]] Hok H; [| discriminate Hok].
  split; [reflexivity |]. destruct H as (ps & trial & ctx & _ & _ & _ & _ & _ & _ & _ & H & _).
  cbn [fst]. rewrite H, lookup_insert_eq. discriminate.
Defined.

Lemma live_state_is_head_state_witness :
  exists hd b, bs_head (lg_store fork_ledger) = Some hd /\ by_hash (lg_store fork_ledger) !! hd = Some b /\
    snapshots (lg_store fork_ledger) !! hd = Some (lg_live fork_ledger) /\
    (StateDB.root_hash (lg_live fork_ledger)).2 = state_root (header b).
Proof. exact (proj1 (live_state_is_head_state fork_ledger fork_ledger_reachable)). Defined.

Lemma pruned_branch_is_stuck_witness :
  let l' := mkLedger (BlockStore.prune_snapshots (lg_store fork_ledger)) (lg_live fork_ledger)
              (lg_pool fork_ledger) in
  exists e, import_and_apply fork_a l' = (l', Err e).
Proof.
  assert (by_hash (lg_store fork_ledger) !! block_hash fork_a = Some fork_a) as Ha
    by (vm_compute; reflexivity).
  assert (block_hash fork_a ∉ BlockStore.chain_from (lg_store fork_ledger) (block_hash fork_b)) as Hout
    by (apply (bool_decide_unpack _); vm_compute; exact I).
  exact (proj2 (pruned_branch_is_stuck fork_ledger (block_hash fork_b) fork_a
    (sample_rooted 2 (block_hash fork_a) 12 funded_root) fork_a fork_ledger_reachable fork_ledger_head
    Ha Hout (proj1 (sample_rooted_fields 2 (block_hash fork_a) 12 funded_root)) fork_a_wf)).
Defined.
