(* ===== verification/Concurrent.v ===== *)
(** * Overlapping imports: [crates/ivory-chain/src/apply.rs] on several threads

    [import_and_apply] takes shared references and no lock of its own, and the import
    task and the producer task of [bin/ivory/src/node.rs] run on different threads.
    Here an import is split at its calls on the store, the live state and the pool
    ([task_step]), and several imports interleave with each other and with pruning and
    pool traffic ([shared_step]).  Each call is one step: the locks inside a call, of
    which [insert_block] and [reset_from] take several, are not modelled, so the
    interleavings are those between calls. *)

From S2P Require Import Prelude Hex Uint UintFacts Hash Address Bincode Core Trie State.
From S2P Require Import StateProps Crypto Vm Executor ExecutorProps TxPool Consensus Store.
From S2P Require Import StoreProps StoreSpec Producer ProducerProps Apply ApplyProps.
#[local] Open Scope Z_scope.

Section Concurrent.
Context {BC : BincodeCrate} {SC : Sha3Crate} {EC : Ed25519Crate} {WC : WasmiCrate} {DC : DashMapCrate}.






(** ** Alone, the steps are the function *)





(** ** What every interleaving keeps *)











(** ** The lost race *)


(** ** The lost race *)



End Concurrent.

(** ** Witness: an empty block, and a block with a transfer on it *)


