(* ===== verification/Persist.v ===== *)
(** * Persistence of the canonical chain

    [bin/ivory/src/persist.rs] over [crates/ivory-storage/src/backend.rs].
    [RocksDbBackend] forwards to the RocksDB crate, which is the class
    [RocksDbCrate]; [RocksDbLaws] states what the crate documents about a
    database whose calls do not fail.  [ChainPersist] writes one key per block,
    header, height, snapshot and trie node, each behind its own prefix byte. *)

From S2P Require Import Prelude Hex Uint UintFacts Hash Address Bincode Core Trie State.
From S2P Require Import Crypto Vm Executor Consensus Store.
#[local] Open Scope Z_scope.

(** ** The crate *)

Class RocksDbCrate := {
  rocks : Type;
  rocks_error : Type;
  rocks_get : rocks -> bytes -> result (option bytes) rocks_error;
  rocks_put : bytes -> bytes -> smonad rocks rocks_error unit;
  rocks_delete : bytes -> smonad rocks rocks_error unit;
  rocks_flush : smonad rocks rocks_error unit }.

(** [contents db] is what the database answers with; in a [healthy] one no call
    meets an I/O error, a read returns the last write and a flush changes nothing
    that reads can see. *)
Class RocksDbLaws `{RocksDbCrate} := {
  contents : rocks -> gmap bytes bytes;
  healthy : rocks -> Prop;
  rocks_get_ok db k : healthy db -> rocks_get db k = Ok (contents db !! k);
  rocks_put_ok db k v :
    healthy db -> exists db', rocks_put k v db = (db', Ok tt) /\ healthy db' /\
                              contents db' = <[k := v]> (contents db);
  rocks_delete_ok db k :
    healthy db -> exists db', rocks_delete k db = (db', Ok tt) /\ healthy db' /\
                              contents db' = delete k (contents db);
  rocks_flush_ok db :
    healthy db -> exists db', rocks_flush db = (db', Ok tt) /\ healthy db' /\
                              contents db' = contents db }.

(** ** [backend.rs] *)

Module StorageError.
Inductive t `{RocksDbCrate} : Type := RocksDb (e : rocks_error).
End StorageError.

Module RocksDbBackend.
Section Backend.
Context {RC : RocksDbCrate}.
Definition get (db : rocks) (key : bytes) : result (option bytes) StorageError.t :=
  map_err StorageError.RocksDb (rocks_get db key).
Definition put (key value : bytes) : smonad rocks StorageError.t unit :=
  smap_err StorageError.RocksDb (rocks_put key value).
Definition delete (key : bytes) : smonad rocks StorageError.t unit :=
  smap_err StorageError.RocksDb (rocks_delete key).
Definition flush : smonad rocks StorageError.t unit :=
  smap_err StorageError.RocksDb rocks_flush.
End Backend.
End RocksDbBackend.

(** ** [persist.rs] *)

(** The [anyhow] contexts, one constructor each. *)
Module PersistError.
Inductive t `{RocksDbCrate} : Type :=
| ReadHead (e : StorageError.t)
| ReadBlock (e : StorageError.t)
| ReadHeader (e : StorageError.t)
| ReadHeight (number : Z) (e : StorageError.t)
| ReadSnapshot (e : StorageError.t)
| ReadTrieNode (e : StorageError.t)
| WriteHead (e : StorageError.t)
| WriteBlock (e : StorageError.t)
| WriteHeader (e : StorageError.t)
| WriteHeight (number : Z) (e : StorageError.t)
| WriteSnapshot (e : StorageError.t)
| WriteTrieNode (e : StorageError.t)
| DropPrunedBody (e : StorageError.t)
| FlushChain (e : StorageError.t)
| FlushTrieNodes (e : StorageError.t)
| HeadHashLength
| HeightHashLength
| DecodeBlock
| DecodeHeader
| DecodeSnapshot
| HeadBlockMissing
| GenesisMissing
| GenesisMismatch (stored expected : H256)
| ReloadGenesis (e : ChainError.t)
| ReloadBlock (n : Z) (e : ChainError.t)
| ReloadHeader (n : Z) (e : ChainError.t)
| HeightMissing (n : Z)
| PrunedHeaderMissing (n : Z).
End PersistError.

Record ChainPersist `{RocksDbCrate} : Type := mkChainPersist {
  cp_db : rocks;
  cp_archive : bool;
  cp_archive_keep : Z }.
Arguments mkChainPersist {_}.

Definition KEY_HEAD : bytes := str "head".
Definition height_key (number : Z) : bytes := x68 :: be_bytes 8 number.
Definition block_key (hash : H256) : bytes := x62 :: hash_bytes hash.
Definition header_key (hash : H256) : bytes := x48 :: hash_bytes hash.
Definition snapshot_key (hash : H256) : bytes := x73 :: hash_bytes hash.
Definition trie_key (hash : H256) : bytes := x74 :: hash_bytes hash.

Module ChainPersist.
Section Persist.
Context {BC : BincodeCrate} {SC : Sha3Crate} {EC : Ed25519Crate} {RC : RocksDbCrate}.

Definition open_with (db : rocks) (archive : bool) (archive_keep : Z) : ChainPersist :=
  mkChainPersist db archive (Z.max archive_keep 1).
Definition open (db : rocks) : ChainPersist := open_with db true 256.
Definition is_archive (p : ChainPersist) : bool := cp_archive p.
Definition archive_keep (p : ChainPersist) : Z := cp_archive_keep p.

(** Run a backend call on [self.db]. *)
Definition on_db (c : smonad rocks StorageError.t unit) (ctx : StorageError.t -> PersistError.t) :
    smonad ChainPersist PersistError.t unit := fun p =>
  let '(db, r) := c (cp_db p) in
  (mkChainPersist db (cp_archive p) (cp_archive_keep p), map_err ctx r).
Definition read (p : ChainPersist) (key : bytes) (ctx : StorageError.t -> PersistError.t) :
    result (option bytes) PersistError.t :=
  map_err ctx (RocksDbBackend.get (cp_db p) key).

Definition put_header (h : BlockHeader) : smonad ChainPersist PersistError.t unit :=
  on_db (RocksDbBackend.put (header_key (header_hash h)) (serialize h)) PersistError.WriteHeader.
Definition put_block (b : Block) : smonad ChainPersist PersistError.t unit :=
  on_db (RocksDbBackend.put (block_key (block_hash b)) (serialize b)) PersistError.WriteBlock.
Definition put_height (number : Z) (hash : H256) : smonad ChainPersist PersistError.t unit :=
  on_db (RocksDbBackend.put (height_key number) (hash_bytes hash)) (PersistError.WriteHeight number).

Definition get_header (p : ChainPersist) (hash : H256) : result (option BlockHeader) PersistError.t :=
  let? raw := read p (header_key hash) PersistError.ReadHeader in
  match raw with
  | None => Ok None
  | Some raw => let? h := ok_or (deserialize raw) PersistError.DecodeHeader in Ok (Some h)
  end.
Definition get_block (p : ChainPersist) (hash : H256) : result (option Block) PersistError.t :=
  let? raw := read p (block_key hash) PersistError.ReadBlock in
  match raw with
  | None => Ok None
  | Some raw => let? b := ok_or (deserialize raw) PersistError.DecodeBlock in Ok (Some b)
  end.
Definition get_height_hash (p : ChainPersist) (number : Z) : result (option H256) PersistError.t :=
  let? raw := read p (height_key number) (PersistError.ReadHeight number) in
  match raw with
  | None => Ok None
  | Some raw => let? h := ok_or (Hash.from_slice raw) PersistError.HeightHashLength in Ok (Some h)
  end.
Definition get_block_by_height (p : ChainPersist) (number : Z) :
    result (option Block) PersistError.t :=
  let? raw := read p (height_key number) (PersistError.ReadHeight number) in
  match raw with
  | None => Ok None
  | Some raw =>
      let? hash := ok_or (Hash.from_slice raw) PersistError.HeightHashLength in get_block p hash
  end.
Definition get_snapshot (p : ChainPersist) (hash : H256) : result (option StateDB) PersistError.t :=
  let? raw := read p (snapshot_key hash) PersistError.ReadSnapshot in
  match raw with
  | None => Ok None
  | Some raw =>
      let? snap := ok_or (deserialize raw) PersistError.DecodeSnapshot in
      Ok (Some (StateDB.from_snapshot snap))
  end.
Definition get_trie_node (p : ChainPersist) (hash : H256) : result (option bytes) PersistError.t :=
  read p (trie_key hash) PersistError.ReadTrieNode.

Definition persist_snapshot (hash : H256) (state : StateDB) :
    smonad ChainPersist PersistError.t unit :=
  on_db (RocksDbBackend.put (snapshot_key hash) (serialize (StateDB.to_snapshot state)))
    PersistError.WriteSnapshot.
Definition persist_trie_nodes (nodes : list (H256 * bytes)) :
    smonad ChainPersist PersistError.t unit :=
  sfor nodes (fun '(hash, bytes) =>
    on_db (RocksDbBackend.put (trie_key hash) bytes) PersistError.WriteTrieNode) ;;;
  on_db RocksDbBackend.flush PersistError.FlushTrieNodes.

(** [0..=n] *)
Definition heights (n : Z) : list Z := seqZ 0 (n + 1).

(** One turn of each of the two loops of [persist_canonical]. *)
Definition keeps (p : ChainPersist) (head n : Z) : bool :=
  cp_archive p || (n =? 0) || (saturating_sub64 head n <? cp_archive_keep p).
Definition persist_height (store : BlockStore) (head n : Z) :
    smonad ChainPersist PersistError.t unit :=
  match BlockStore.get_block_by_number store n with
  | None => sret tt
  | Some b =>
      keep <-! sget (fun p => keeps p head n) ;;
      (if (keep : bool) then put_block b
       else put_header (header b) ;;;
            on_db (RocksDbBackend.delete (block_key (block_hash b))) PersistError.DropPrunedBody) ;;;
      put_height n (block_hash b)
  end.
Definition persist_state (store : BlockStore) (n : Z) : smonad ChainPersist PersistError.t unit :=
  match BlockStore.get_block_by_number store n with
  | None => sret tt
  | Some b =>
      match BlockStore.state_at store (block_hash b) with
      | None => sret tt
      | Some state =>
          let '(state, nodes) := StateDB.trie_nodes state in
          persist_trie_nodes nodes ;;; persist_snapshot (block_hash b) state
      end
  end.

Definition persist_canonical (store : BlockStore) (block : Block) :
    smonad ChainPersist PersistError.t unit :=
  put_block block ;;;
  match BlockStore.head_block store with
  | None => sret tt
  | Some head =>
      on_db (RocksDbBackend.put KEY_HEAD (hash_bytes (block_hash head))) PersistError.WriteHead ;;;
      sfor (heights (number (header head))) (persist_height store (number (header head))) ;;;
      sfor (heights (number (header head))) (persist_state store) ;;;
      on_db RocksDbBackend.flush PersistError.FlushChain
  end.

(** One turn of each of the two loops of [load_into]. *)
Definition reload_height (p : ChainPersist) (n : Z) : smonad BlockStore PersistError.t unit :=
  found <-! slift (get_block_by_height p n) ;;
  match found with
  | Some block =>
      smap_err (PersistError.ReloadBlock n) (BlockStore.insert_block block) ;;; sret tt
  | None =>
      hash <-! slift (get_height_hash p n) ;;
      hash <-! slift (ok_or hash (PersistError.HeightMissing n)) ;;
      h <-! slift (get_header p hash) ;;
      h <-! slift (ok_or h (PersistError.PrunedHeaderMissing n)) ;;
      smap_err (PersistError.ReloadHeader n) (BlockStore.insert_header h) ;;; sret tt
  end.
Definition reload_state (p : ChainPersist) (n : Z) : smonad BlockStore PersistError.t unit :=
  found <-! sget (fun store => BlockStore.get_block_by_number store n) ;;
  match found with
  | None => sret tt
  | Some block =>
      snap <-! slift (get_snapshot p (block_hash block)) ;;
      match snap with
      | Some snap => smodify (BlockStore.record_state (block_hash block) snap)
      | None => sret tt
      end
  end.

Definition load_into (p : ChainPersist) (expected_genesis : Block) :
    smonad BlockStore PersistError.t (option Z) :=
  head_raw <-! slift (read p KEY_HEAD PersistError.ReadHead) ;;
  match head_raw with
  | None => sret None
  | Some head_raw =>
      head_hash <-! slift (ok_or (Hash.from_slice head_raw) PersistError.HeadHashLength) ;;
      head <-! slift (get_block p head_hash) ;;
      head <-! slift (ok_or head PersistError.HeadBlockMissing) ;;
      genesis <-! slift (get_block_by_height p 0) ;;
      genesis <-! slift (ok_or genesis PersistError.GenesisMissing) ;;
      sguard (bool_decide (block_hash genesis = block_hash expected_genesis))
        (PersistError.GenesisMismatch (block_hash genesis) (block_hash expected_genesis)) ;;;
      smap_err PersistError.ReloadGenesis (BlockStore.insert_genesis genesis) ;;;
      sfor (seqZ 1 (number (header head))) (reload_height p) ;;;
      sfor (heights (number (header head))) (reload_state p) ;;;
      sret (Some (number (header head)))
  end.
End Persist.
End ChainPersist.

(** ** A database in memory *)

#[export] Instance memory_rocks : RocksDbCrate := {|
  rocks := gmap bytes bytes;
  rocks_error := Empty_set;
  rocks_get db k := Ok (db !! k);
  rocks_put k v := smodify (insert k v);
  rocks_delete k := smodify (base.delete k);
  rocks_flush := sret tt |}.
#[export] Instance memory_rocks_laws : RocksDbLaws.
Proof.
  refine (@Build_RocksDbLaws memory_rocks (fun db : gmap bytes bytes => db) (fun _ => True) _ _ _ _);
    intros; try done; by eexists.
Defined.
