(* ===== verification/PersistProps.v ===== *)
(** * Persistence: what reaches the disk and what a restart reads back

    The database is seen through the logical keys of [DbKey].  [performs] says
    which writes a call makes, [reload_restores_chain] that a restart after
    [persist_canonical] rebuilds the canonical chain, and the last section what
    happens when the archive policy changes between two runs. *)

From S2P Require Import Prelude Hex Uint UintFacts Hash Address Bincode Core Trie State.
From S2P Require Import StateProps Crypto Vm Executor Consensus Store StoreProps StoreSpec Persist.
#[local] Open Scope Z_scope.

(** ** Keys *)

Inductive DbKey : Type :=
| KHead
| KHeight (n : Z)
| KBlock (h : H256)
| KHeader (h : H256)
| KSnapshot (h : H256)
| KTrie (h : H256).
#[export] Instance DbKey_eq_dec : EqDecision DbKey.
Proof. solve_decision. Defined.

#[export] Instance KBlock_inj : Inj eq eq KBlock.
Proof. by intros ?? [= ->]. Qed.
#[export] Instance KHeader_inj : Inj eq eq KHeader.
Proof. by intros ?? [= ->]. Qed.
#[export] Instance KSnapshot_inj : Inj eq eq KSnapshot.
Proof. by intros ?? [= ->]. Qed.

Definition db_key (k : DbKey) : bytes :=
  match k with
  | KHead => KEY_HEAD
  | KHeight n => height_key n
  | KBlock h => block_key h
  | KHeader h => header_key h
  | KSnapshot h => snapshot_key h
  | KTrie h => trie_key h
  end.
Definition key_ok (k : DbKey) : Prop := match k with KHeight n => u64_ok n | _ => True end.

(** No two keys collide. *)
Lemma db_key_inj k1 k2 : key_ok k1 -> key_ok k2 -> db_key k1 = db_key k2 -> k1 = k2.
Proof.
  assert (forall n, KEY_HEAD ≠ height_key n) as Hhead.
  { intros n E. apply (f_equal length) in E. unfold height_key in E. cbn [length] in E.
    by rewrite be_bytes_length in E. }
  destruct k1 as [|n|h|h|h|h], k2 as [|n'|h'|h'|h'|h']; cbn [db_key key_ok]; intros H1 H2 E; try done;
    try (by apply Hhead in E); try (by symmetry in E; apply Hhead in E); try (injection E as E; by apply hash_eq in E as ->).
  - f_equal. apply (f_equal (fun k => be_val (tail k))) in E. cbn [tail height_key] in E. rewrite !be_val_bytes in E.
    change (256 ^ Z.of_nat 8) with M64 in E. unfold u64_ok in *.
    by rewrite !Z.mod_small in E.
Qed.

(** ** Writes *)

Definition dbop : Type := DbKey * option bytes.

(** The last write of [ops] to [k], if any. *)
Definition run_ops (ops : list dbop) (k : DbKey) (o : option bytes) : option bytes :=
  foldl (fun o op => if decide (op.1 = k) then op.2 else o) o ops.

Lemma run_ops_app ops1 ops2 k o : run_ops (ops1 ++ ops2) k o = run_ops ops2 k (run_ops ops1 k o).
Proof. apply foldl_app. Qed.

Lemma run_ops_untouched ops k o : (forall v, (k, v) ∉ ops) -> run_ops ops k o = o.
Proof.
  revert o; induction ops as [|[k' v'] ops IH]; intros o H; [done |]. simpl.
  rewrite decide_False.
  - apply IH. intros v Hv. apply (H v). by right.
  - intros ->. apply (H v'). left.
Qed.

Lemma run_ops_written ops k v o :
  (k, v) ∈ ops -> (forall v', (k, v') ∈ ops -> v' = v) -> run_ops ops k o = v.
Proof.
  revert o; induction ops as [|[k' v'] ops IH]; intros o Hin Hv; [by apply elem_of_nil in Hin |].
  simpl. destruct (decide (k' = k)) as [->|Hk].
  - destruct (decide (v' = v)) as [->|Hne].
    + destruct (decide (Exists (fun op => op.1 = k) ops)) as [He|Hn].
      * apply Exists_exists in He as ([k2 v2] & Hin2 & E). simpl in E. subst.
        apply IH; [| intros; apply Hv; by right]. by rewrite <- (Hv v2) by by right.
      * apply run_ops_untouched. intros v2 H2. apply Hn. apply Exists_exists. by exists (k, v2).
    + destruct Hne. apply Hv. left.
  - apply IH; [| intros; apply Hv; by right].
    apply elem_of_cons in Hin as [E|Hin]; [congruence | done].
Qed.

Section Persist.
Context {BC : BincodeCrate} {SC : Sha3Crate} {EC : Ed25519Crate}.
Context {RC : RocksDbCrate} {RL : RocksDbLaws}.

Definition view (p : ChainPersist) (k : DbKey) : option bytes := contents (cp_db p) !! db_key k.
Definition policy (p : ChainPersist) : bool * Z := (cp_archive p, cp_archive_keep p).

(** [c] succeeds in a healthy database and makes exactly the writes [ops]. *)
Definition performs (pol : bool * Z) (c : smonad ChainPersist PersistError.t unit)
    (ops : list dbop) : Prop :=
  forall p, healthy (cp_db p) -> policy p = pol ->
  exists p', c p = (p', Ok tt) /\ healthy (cp_db p') /\ policy p' = pol /\
             forall k, key_ok k -> view p' k = run_ops ops k (view p k).

Lemma performs_ret pol : performs pol (sret tt) [].
Proof. intros p Hp Hpol. by exists p. Qed.

Lemma performs_seq pol c1 c2 ops1 ops2 :
  performs pol c1 ops1 -> performs pol c2 ops2 -> performs pol (c1 ;;; c2) (ops1 ++ ops2).
Proof.
  intros H1 H2 p Hp Hpol. destruct (H1 p Hp Hpol) as (p1 & E1 & Hp1 & Hpol1 & V1).
  destruct (H2 p1 Hp1 Hpol1) as (p2 & E2 & Hp2 & Hpol2 & V2). exists p2.
  rewrite (sbind_run _ _ _ _ _ E1). split_and!; [done.. |].
  intros k Hk. by rewrite V2, V1, run_ops_app.
Qed.

(** A read of the policy. *)
Lemma performs_get {A} pol (f : ChainPersist -> A) v k ops :
  (forall p, policy p = pol -> f p = v) -> performs pol (k v) ops ->
  performs pol (sbind (sget f) k) ops.
Proof. intros Hf H p Hp Hpol. rewrite sbind_get, Hf by done. by apply H. Qed.

Lemma performs_put pol k v ctx :
  key_ok k -> performs pol (ChainPersist.on_db (RocksDbBackend.put (db_key k) v) ctx) [(k, Some v)].
Proof.
  intros Hk p Hp Hpol. destruct (rocks_put_ok (cp_db p) (db_key k) v Hp) as (db' & E & Hdb & Ec).
  eexists. unfold ChainPersist.on_db, RocksDbBackend.put, smap_err. rewrite E. simpl.
  split_and!; [done.. |]. intros k' Hk'. unfold view. simpl. rewrite Ec.
  destruct (decide (k = k')) as [->|Hne]; [apply lookup_insert_eq |].
  apply lookup_insert_ne. intros Ek. by apply Hne, db_key_inj.
Qed.

Lemma performs_delete pol k ctx :
  key_ok k -> performs pol (ChainPersist.on_db (RocksDbBackend.delete (db_key k)) ctx) [(k, None)].
Proof.
  intros Hk p Hp Hpol. destruct (rocks_delete_ok (cp_db p) (db_key k) Hp) as (db' & E & Hdb & Ec).
  eexists. unfold ChainPersist.on_db, RocksDbBackend.delete, smap_err. rewrite E. simpl.
  split_and!; [done.. |]. intros k' Hk'. unfold view. simpl. rewrite Ec.
  destruct (decide (k = k')) as [->|Hne]; [apply lookup_delete_eq |].
  apply lookup_delete_ne. intros Ek. by apply Hne, db_key_inj.
Qed.

Lemma performs_flush pol ctx : performs pol (ChainPersist.on_db RocksDbBackend.flush ctx) [].
Proof.
  intros p Hp Hpol. destruct (rocks_flush_ok (cp_db p) Hp) as (db' & E & Hdb & Ec).
  eexists. unfold ChainPersist.on_db, RocksDbBackend.flush, smap_err. rewrite E. simpl.
  split_and!; [done.. |]. intros k _. unfold view. simpl. by rewrite Ec.
Qed.

Lemma performs_for {A} pol (l : list A) body ops :
  (forall x, x ∈ l -> performs pol (body x) (ops x)) -> performs pol (sfor l body) (flat_map ops l).
Proof.
  induction l as [|x l IH]; intros H; simpl; [apply performs_ret |].
  apply performs_seq; [apply H; left | apply IH; intros; apply H; by right].
Qed.

(** *** The writes of [persist_canonical] *)

Definition keeps_at (pol : bool * Z) (head n : Z) : bool :=
  pol.1 || (n =? 0) || (saturating_sub64 head n <? pol.2).

Definition height_ops (pol : bool * Z) (s : BlockStore) (head n : Z) : list dbop :=
  match BlockStore.get_block_by_number s n with
  | None => []
  | Some b =>
      (if keeps_at pol head n then [(KBlock (block_hash b), Some (serialize b))]
       else [(KHeader (header_hash (header b)), Some (serialize (header b)));
             (KBlock (block_hash b), None)])
      ++ [(KHeight n, Some (hash_bytes (block_hash b)))]
  end.

Definition state_ops (s : BlockStore) (n : Z) : list dbop :=
  match BlockStore.get_block_by_number s n with
  | None => []
  | Some b =>
      match BlockStore.state_at s (block_hash b) with
      | None => []
      | Some st =>
          map (fun nd => (KTrie nd.1, Some nd.2)) (StateDB.trie_nodes st).2 ++
          [(KSnapshot (block_hash b),
            Some (serialize (StateDB.to_snapshot (StateDB.trie_nodes st).1)))]
      end
  end.

Definition canonical_ops (pol : bool * Z) (s : BlockStore) (b head : Block) : list dbop :=
  let n := number (header head) in
  [(KBlock (block_hash b), Some (serialize b))] ++ [(KHead, Some (hash_bytes (block_hash head)))] ++
  flat_map (height_ops pol s n) (ChainPersist.heights n) ++
  flat_map (state_ops s) (ChainPersist.heights n).

Lemma heights_elem n x : x ∈ ChainPersist.heights n <-> 0 <= x <= n.
Proof. unfold ChainPersist.heights. rewrite elem_of_seqZ. lia. Qed.

Lemma persist_height_performs pol s head n :
  u64_ok n -> performs pol (ChainPersist.persist_height s head n) (height_ops pol s head n).
Proof.
  intros Hn. unfold ChainPersist.persist_height, height_ops.
  destruct (BlockStore.get_block_by_number s n) as [b|]; [| apply performs_ret].
  apply (performs_get _ _ (keeps_at pol head n)); [by intros p <- |].
  apply performs_seq; [| by apply (performs_put pol (KHeight n))].
  destruct (keeps_at pol head n); [by apply (performs_put pol (KBlock _)) |].
  apply (performs_seq _ _ _ [_] [_]); [by apply (performs_put pol (KHeader _)) |].
  by apply (performs_delete pol (KBlock _)).
Qed.

Lemma persist_nodes_performs pol nodes :
  performs pol (ChainPersist.persist_trie_nodes nodes) (map (fun nd => (KTrie nd.1, Some nd.2)) nodes).
Proof.
  unfold ChainPersist.persist_trie_nodes. rewrite <- (app_nil_r (map _ nodes)).
  apply performs_seq; [| apply performs_flush].
  replace (map (fun nd : H256 * bytes => (KTrie nd.1, Some nd.2)) nodes)
    with (flat_map (fun nd : H256 * bytes => [(KTrie nd.1, Some nd.2)]) nodes)
    by (clear; induction nodes; simpl; congruence).
  apply performs_for. intros [h x] _. by apply (performs_put pol (KTrie h)).
Qed.

Lemma persist_state_performs pol s n :
  performs pol (ChainPersist.persist_state s n) (state_ops s n).
Proof.
  unfold ChainPersist.persist_state, state_ops.
  destruct (BlockStore.get_block_by_number s n) as [b|]; [| apply performs_ret].
  destruct (BlockStore.state_at s (block_hash b)) as [st|]; [| apply performs_ret].
  destruct (StateDB.trie_nodes st) as [st' nodes]. simpl.
  apply performs_seq; [apply persist_nodes_performs | by apply (performs_put pol (KSnapshot _))].
Qed.

Lemma persist_canonical_performs pol s b head :
  BlockStore.head_block s = Some head -> u64_ok (number (header head)) ->
  performs pol (ChainPersist.persist_canonical s b) (canonical_ops pol s b head).
Proof.
  intros Hh Hn. unfold ChainPersist.persist_canonical. rewrite Hh.
  apply performs_seq; [by apply (performs_put pol (KBlock _)) |].
  apply performs_seq; [by apply (performs_put pol KHead) |].
  apply performs_seq.
  - apply performs_for. intros n Hin%heights_elem. apply persist_height_performs.
    unfold u64_ok in *. lia.
  - rewrite <- (app_nil_r (flat_map (state_ops s) _)).
    apply performs_seq; [| apply performs_flush]. apply performs_for. intros. apply persist_state_performs.
Qed.

(** *** What is on disk afterwards *)

Lemma get_by_number s n b :
  index_inv (by_hash s) ->
  BlockStore.get_block_by_number s n = Some b <->
  by_number s !! n = Some (block_hash b) /\ by_hash s !! block_hash b = Some b.
Proof.
  intros Hi. unfold BlockStore.get_block_by_number, BlockStore.get_block. split.
  - intros (h & Hn & Hb)%bind_Some. by rewrite (inv_keyed _ Hi _ _ Hb).
  - intros [-> Hb]. done.
Qed.

Section Saved.
Context (s : BlockStore) (hd : H256) (head : Block).
Hypothesis Hinv : store_inv s.
Hypothesis Ehd : bs_head s = Some hd.
Hypothesis Hhead : by_hash s !! hd = Some head.
Hypothesis Hmax : number (header head) < u64_max.
Abbreviation N := (number (header head)).

Lemma saved_blocks n b :
  BlockStore.get_block_by_number s n = Some b ->
  0 <= n <= N /\ by_number s !! n = Some (block_hash b) /\ by_hash s !! block_hash b = Some b /\
  number (header b) = n /\ (n ≠ 0 -> by_number s !! (n - 1) = Some (parent_hash (header b))).
Proof.
  intros [Hn Hb]%get_by_number; [| apply Hinv].
  destruct (canonical_blocks s hd head Hinv Ehd Hhead Hmax) as (_ & _ & H).
  destruct (H _ _ Hn) as (Hr & b' & Hb' & _ & Hnum & Hp). simplify_eq. done.
Qed.

Lemma saved_total n : 0 <= n <= N -> exists b, BlockStore.get_block_by_number s n = Some b.
Proof.
  intros Hr. destruct (canonical_blocks s hd head Hinv Ehd Hhead Hmax) as (_ & Ht & H).
  destruct (Ht n Hr) as [h Hh]. destruct (H _ _ Hh) as (_ & b & Hb & Eh & _). exists b.
  apply get_by_number; [apply Hinv | by rewrite Eh].
Qed.

Lemma saved_unique n n' b b' :
  BlockStore.get_block_by_number s n = Some b -> BlockStore.get_block_by_number s n' = Some b' ->
  block_hash b = block_hash b' -> n = n' /\ b = b'.
Proof.
  intros (_ & _ & Hb & <- & _)%saved_blocks (_ & _ & Hb' & <- & _)%saved_blocks E.
  rewrite E in Hb. by simplify_eq.
Qed.

Lemma saved_head : BlockStore.get_block_by_number s N = Some head /\ block_hash head = hd.
Proof.
  pose proof (inv_keyed _ (inv_index _ Hinv) _ _ Hhead) as Eh. split; [| done].
  apply get_by_number; [apply Hinv |]. rewrite Eh. split; [| done].
  by destruct (canonical_blocks s hd head Hinv Ehd Hhead Hmax).
Qed.

Definition tail_ops (pol : bool * Z) : list dbop :=
  [(KHead, Some (hash_bytes (block_hash head)))] ++
  flat_map (height_ops pol s N) (ChainPersist.heights N) ++
  flat_map (state_ops s) (ChainPersist.heights N).

(** The writes after the first, by key. *)
Lemma tail_ops_elem pol k v :
  (k, v) ∈ tail_ops pol <->
  (k = KHead /\ v = Some (hash_bytes hd)) \/
  exists n b, BlockStore.get_block_by_number s n = Some b /\
    ((k = KHeight n /\ v = Some (hash_bytes (block_hash b))) \/
     (k = KBlock (block_hash b) /\ v = if keeps_at pol N n then Some (serialize b) else None) \/
     (k = KHeader (block_hash b) /\ keeps_at pol N n = false /\ v = Some (serialize (header b))) \/
     exists st, BlockStore.state_at s (block_hash b) = Some st /\
       ((exists nd, nd ∈ (StateDB.trie_nodes st).2 /\ k = KTrie nd.1 /\ v = Some nd.2) \/
        (k = KSnapshot (block_hash b) /\
         v = Some (serialize (StateDB.to_snapshot (StateDB.trie_nodes st).1))))).
Proof.
  destruct saved_head as [_ Eh]. unfold tail_ops. rewrite !elem_of_app, !elem_of_flat_map.
  rewrite list_elem_of_singleton, Eh. split.
  - intros [E|[(n & _ & H)|(n & _ & H)]]; [left; naive_solver | right; exists n ..].
    + unfold height_ops in H. destruct (BlockStore.get_block_by_number s n) as [b|] eqn:Eb; [| by apply elem_of_nil in H].
      exists b. split; [done |]. change (header_hash (header b)) with (block_hash b) in H.
      destruct (keeps_at pol N n); set_unfold in H; naive_solver.
    + unfold state_ops in H. destruct (BlockStore.get_block_by_number s n) as [b|] eqn:Eb; [| by apply elem_of_nil in H].
      destruct (BlockStore.state_at s (block_hash b)) as [st|] eqn:Est; [| by apply elem_of_nil in H].
      exists b. split; [done |]. do 3 right. exists st. split; [done |].
      rewrite elem_of_app, list_elem_of_singleton, list_elem_of_In, in_map_iff in H.
      setoid_rewrite <- list_elem_of_In in H. naive_solver.
  - intros [[-> ->]|(n & b & Eb & H)]; [by left | right].
    apply saved_blocks in Eb as Hb. destruct Hb as (Hr & _). apply heights_elem in Hr.
    destruct H as [[-> ->]|[[-> ->]|[(-> & Hk & ->)|(st & Est & H)]]]; [left.. | right]; exists n; (split; [done |]).
    + unfold height_ops. rewrite Eb. apply elem_of_app. right. left.
    + unfold height_ops. rewrite Eb. apply elem_of_app. left. destruct (keeps_at pol N n); [left | right; left].
    + unfold height_ops. rewrite Eb, Hk. left.
    + unfold state_ops. rewrite Eb, Est. apply elem_of_app.
      destruct H as [([h x] & Hin & -> & ->)|[-> ->]]; [left | right; left].
      rewrite list_elem_of_In, in_map_iff. exists (h, x). split; [done |]. by rewrite <- list_elem_of_In.
Qed.

Record on_disk (pol : bool * Z) (v0 v : DbKey -> option bytes) : Prop := {
  od_head : v KHead = Some (hash_bytes hd);
  od_height n b : BlockStore.get_block_by_number s n = Some b ->
    v (KHeight n) = Some (hash_bytes (block_hash b));
  od_block n b : BlockStore.get_block_by_number s n = Some b ->
    v (KBlock (block_hash b)) = if keeps_at pol N n then Some (serialize b) else None;
  od_header n b : BlockStore.get_block_by_number s n = Some b -> keeps_at pol N n = false ->
    v (KHeader (block_hash b)) = Some (serialize (header b));
  od_state n b st : BlockStore.get_block_by_number s n = Some b ->
    BlockStore.state_at s (block_hash b) = Some st ->
    v (KSnapshot (block_hash b)) = Some (serialize (StateDB.to_snapshot (StateDB.trie_nodes st).1));
  od_old_state h : BlockStore.state_at s h = None -> v (KSnapshot h) = v0 (KSnapshot h);
  od_snapshot h : v (KSnapshot h) = v0 (KSnapshot h) \/
    exists n b st, BlockStore.get_block_by_number s n = Some b /\ block_hash b = h /\
      BlockStore.state_at s h = Some st }.

Lemma persist_on_disk pol b p :
  healthy (cp_db p) -> policy p = pol ->
  exists p', ChainPersist.persist_canonical s b p = (p', Ok tt) /\ healthy (cp_db p') /\
             policy p' = pol /\ on_disk pol (view p) (view p').
Proof.
  intros Hp Hpol. destruct saved_head as [Hsh Eh]. pose proof (saved_blocks _ _ Hsh) as (Hr & _).
  assert (BlockStore.head_block s = Some head) as Ehb.
  { unfold BlockStore.head_block. by rewrite Ehd. }
  destruct (persist_canonical_performs pol s b head Ehb) with (p := p)
    as (p' & E & Hp' & Hpol' & V); [unfold u64_ok, u64_max in *; lia | done.. |].
  exists p'. split_and!; [done.. |].
  assert (forall k, key_ok k -> view p' k =
            run_ops (tail_ops pol) k (if decide (KBlock (block_hash b) = k) then Some (serialize b) else view p k))
    as V' by (intros k Hk; by rewrite V).
  assert (forall k v, key_ok k -> (k, v) ∈ tail_ops pol -> (forall v', (k, v') ∈ tail_ops pol -> v' = v) ->
            view p' k = v) as Vw by (intros; rewrite V'; [by apply run_ops_written | done]).
  assert (forall h, (forall n b' st, BlockStore.get_block_by_number s n = Some b' -> block_hash b' = h ->
            BlockStore.state_at s h = Some st -> False) -> view p' (KSnapshot h) = view p (KSnapshot h)) as Vs.
  { intros h Hno. rewrite V' by done. rewrite run_ops_untouched; [by rewrite decide_False by done |].
    intros v' [[? _]|(n' & b'' & Eb' & H)]%tail_ops_elem; [done |].
    destruct H as [?|[?|[?|(st' & Est' & [?|[E2%(inj KSnapshot) ->]])]]]; [naive_solver.. |].
    subst h. by eapply Hno. }
  split.
  - apply Vw; [done | apply tail_ops_elem; by left |].
    intros v' [[_ ->]|(n & b' & _ & H)]%tail_ops_elem; [done | naive_solver].
  - intros n b' Eb. pose proof (saved_blocks _ _ Eb) as (Hrange & _). apply Vw.
    + unfold key_ok, u64_ok, u64_max in *. lia.
    + apply tail_ops_elem. right. eauto 10.
    + intros v' [[? _]|(n' & b'' & Eb' & H)]%tail_ops_elem; [done |].
      destruct H as [[[= <-] ->]|H]; [congruence | naive_solver].
  - intros n b' Eb. apply Vw; [done | apply tail_ops_elem; right; eauto 10 |].
    intros v' [[? _]|(n' & b'' & Eb' & H)]%tail_ops_elem; [done |].
    destruct H as [?|[[E2%(inj KBlock) ->]|H]]; [naive_solver | | naive_solver].
    by destruct (saved_unique _ _ _ _ Eb Eb' E2) as [-> ->].
  - intros n b' Eb Hk. apply Vw; [done | apply tail_ops_elem; right; eauto 12 |].
    intros v' [[? _]|(n' & b'' & Eb' & H)]%tail_ops_elem; [done |].
    destruct H as [?|[?|[(E2%(inj KHeader) & _ & ->)|H]]]; [naive_solver.. | | naive_solver].
    by destruct (saved_unique _ _ _ _ Eb Eb' E2) as [-> ->].
  - intros n b' st Eb Est. apply Vw; [done | apply tail_ops_elem; right; eauto 14 |].
    intros v' [[? _]|(n' & b'' & Eb' & H)]%tail_ops_elem; [done |].
    destruct H as [?|[?|[?|(st' & Est' & [?|[E2%(inj KSnapshot) ->]])]]]; [naive_solver.. |].
    rewrite <- E2, Est in Est'. congruence.
  - intros h Hst. apply Vs. intros n b' st _ _ Est. congruence.
  - intros h. destruct (by_hash s !! h ≫= fun bh => BlockStore.get_block_by_number s (number (header bh)))
      as [b'|] eqn:Eb.
    + apply bind_Some in Eb as (bh & Ebh & Eb).
      destruct (BlockStore.state_at s h) as [st|] eqn:Est;
        [| left; apply Vs; intros n b2 st2 _ _ ?; congruence].
      destruct (decide (block_hash b' = h)) as [Heq|Hne]; [right; by exists (number (header bh)), b', st |].
      left. apply Vs. intros n b2 st2 Eb2 <- _.
      pose proof (saved_blocks _ _ Eb2) as (_ & _ & Hb' & Hnum & _). simplify_eq.
    + left. apply Vs. intros n b2 st2 Eb2 <- _.
      pose proof (saved_blocks _ _ Eb2) as (_ & _ & Hb' & Hnum & _).
      rewrite Hb' in Eb. cbn [mbind option_bind] in Eb. congruence.
Qed.

(** *** Reading it back *)

Lemma read_view p k key ctx :
  healthy (cp_db p) -> key = db_key k -> ChainPersist.read p key ctx = Ok (view p k).
Proof.
  intros Hp ->. unfold ChainPersist.read, RocksDbBackend.get. by rewrite rocks_get_ok.
Qed.

Context {BL : BincodeLaws}.
Hypothesis Hwf : forall h b, by_hash s !! h = Some b -> block_wf b.

Section Load.
Context (pol : bool * Z) (p : ChainPersist) (v0 : DbKey -> option bytes).
Hypothesis Hp : healthy (cp_db p).
Hypothesis Hd : on_disk pol v0 (view p).

Lemma disk_height_hash n b :
  BlockStore.get_block_by_number s n = Some b ->
  ChainPersist.get_height_hash p n = Ok (Some (block_hash b)).
Proof.
  intros Eb. unfold ChainPersist.get_height_hash.
  rewrite (read_view _ (KHeight n)), (od_height _ _ _ Hd _ _ Eb) by done. cbn [rbind].
  by rewrite (proj2 (from_slice_some _ (block_hash b)) eq_refl).
Qed.

Lemma disk_block n b :
  BlockStore.get_block_by_number s n = Some b ->
  ChainPersist.get_block p (block_hash b) = Ok (if keeps_at pol N n then Some b else None) /\
  ChainPersist.get_block_by_height p n = Ok (if keeps_at pol N n then Some b else None).
Proof.
  intros Eb. assert (ChainPersist.get_block p (block_hash b) = Ok (if keeps_at pol N n then Some b else None)) as Hg.
  { unfold ChainPersist.get_block. rewrite (read_view _ (KBlock (block_hash b))), (od_block _ _ _ Hd _ _ Eb) by done.
    destruct (keeps_at pol N n); [| done]. simpl. rewrite deserialize_serialize; [done |].
    apply saved_blocks in Eb as (_ & _ & Hb & _). by eapply Hwf. }
  split; [done |]. unfold ChainPersist.get_block_by_height.
  rewrite (read_view _ (KHeight n)), (od_height _ _ _ Hd _ _ Eb) by done. cbn [rbind].
  by rewrite (proj2 (from_slice_some _ (block_hash b)) eq_refl).
Qed.

Lemma disk_header n b :
  BlockStore.get_block_by_number s n = Some b -> keeps_at pol N n = false ->
  ChainPersist.get_header p (block_hash b) = Ok (Some (header b)).
Proof.
  intros Eb Hk. unfold ChainPersist.get_header.
  rewrite (read_view _ (KHeader (block_hash b))), (od_header _ _ _ Hd _ _ Eb Hk) by done. simpl.
  rewrite deserialize_serialize; [done |].
  apply saved_blocks in Eb as (_ & _ & Hb & _). apply (Hwf _ _ Hb).
Qed.

(** **** The block loop *)

Lemma insert_header_linkable t h :
  number h ≠ 0 -> linkable t h ->
  BlockStore.insert_header h t = BlockStore.insert_validated (mkBlock h [] []) t.
Proof.
  intros Hn Hl. unfold BlockStore.insert_header. rewrite sbind_guard.
  rewrite (proj2 (Z.eqb_neq _ _) Hn). simpl.
  destruct (check_parent_cases t h Hn) as [(e & _ & Hno)|[E _]]; [done |].
  by rewrite (sbind_run _ _ _ _ _ E).
Qed.

Definition restored (n : Z) (b : Block) : Block :=
  if keeps_at pol N n then b else BlockStore.drop_body b.

Lemma restored_header n b : header (restored n b) = header b.
Proof. unfold restored. by destruct (keeps_at pol N n). Qed.
Lemma restored_hash n b : block_hash (restored n b) = block_hash b.
Proof. unfold block_hash. by rewrite restored_header. Qed.

(** The store after the blocks up to height [n]. *)
Record reloaded (n : Z) (t : BlockStore) : Prop := {
  rl_inv : store_inv t;
  rl_head b : BlockStore.get_block_by_number s n = Some b -> bs_head t = Some (block_hash b);
  rl_blocks h b' : by_hash t !! h = Some b' <->
    exists i b, i <= n /\ BlockStore.get_block_by_number s i = Some b /\
                h = block_hash b /\ b' = restored i b;
  rl_snapshots : snapshots t = ∅;
  rl_consensus : consensus t = consensus s }.

Hypothesis Hlinked : forall h b, by_hash s !! h = Some b -> linkable s (header b).
(** Up to [top], the bodies that will be kept are valid. *)
Context (top : Z).
Hypothesis Htle : 0 <= top <= N.
Hypothesis Hvalid : forall n b, n <= top -> BlockStore.get_block_by_number s n = Some b ->
  keeps_at pol N n = true -> validate b = Ok tt.

(** A new block above the head is inserted and becomes the head. *)
Lemma insert_extends t b :
  store_inv t -> header_wf (header b) -> linkable t (header b) -> by_hash t !! block_hash b = None ->
  BlockStore.takes_head (with_block b t) (block_hash b) (number (header b)) = true ->
  exists t' o, BlockStore.insert_validated b t = (t', Ok o) /\ store_inv t' /\
    by_hash t' = <[block_hash b := b]> (by_hash t) /\ snapshots t' = snapshots t /\
    consensus t' = consensus t /\ bs_head t' = Some (block_hash b).
Proof.
  intros Ht Hw Hl Hf Hth. pose proof (insert_validated_spec t b Ht Hw Hl) as H. rewrite Hf in H.
  destruct H as (t' & o & E & Hi & Hb & Hsn & Hc & _ & _ & Hh & Hch & _ & Hnew & _).
  exists t', o. split_and!; try done. rewrite Hh, Hnew; [done | by rewrite Hch].
Qed.

Lemma reloaded_lookup n t i b :
  reloaded n t -> i <= n -> BlockStore.get_block_by_number s i = Some b ->
  by_hash t !! block_hash b = Some (restored i b).
Proof. intros Hr Hi Eb. apply (rl_blocks _ _ Hr). eauto 10. Qed.

Lemma reloaded_extend n t b :
  reloaded n t -> 0 <= n -> BlockStore.get_block_by_number s (n + 1) = Some b ->
  linkable t (header b) /\
  exists t' o, BlockStore.insert_validated (restored (n + 1) b) t = (t', Ok o) /\ reloaded (n + 1) t'.
Proof.
  intros Hr Hn Eb. pose proof (saved_blocks _ _ Eb) as (Hrange & _ & Hb & Hnum & Hpar).
  destruct (saved_total n) as [pb Epb]; [lia |].
  pose proof (saved_blocks _ _ Epb) as (_ & Epn & Hpb & Hpnum & _).
  assert (parent_hash (header b) = block_hash pb) as Eparent.
  { specialize (Hpar ltac:(lia)). rewrite Z.add_simpl_r in Hpar. congruence. }
  assert (by_hash t !! block_hash pb = Some (restored n pb)) as Htp by (eapply reloaded_lookup; [done | lia | done]).
  assert (linkable t (header b)) as Hlink.
  { specialize (Hlinked _ _ Hb). unfold linkable in *. rewrite decide_False in * by lia.
    rewrite Eparent in *. destruct Hlinked as (q & Hq & Hsat & Hval). rewrite Hpb in Hq. injection Hq as <-.
    exists (restored n pb). by rewrite restored_header, (rl_consensus _ _ Hr). }
  split; [done |].
  assert (by_hash t !! block_hash b = None) as Hf.
  { apply eq_None_not_Some. intros [b' (i & b0 & Hi & Ei & E & _)%(rl_blocks _ _ Hr)].
    destruct (saved_unique _ _ _ _ Eb Ei E). lia. }
  destruct (insert_extends t (restored (n + 1) b)) as (t' & o & E & Hi & Hbh & Hsn & Hc & Hh);
    rewrite ?restored_header, ?restored_hash in *; [apply Hr | apply (Hwf _ _ Hb) | done | done | |].
  { apply (takes_head_spec _ (block_hash pb)); [by apply (rl_head _ _ Hr) |].
    left. unfold height. simpl. rewrite restored_hash.
    rewrite lookup_insert_ne by (intros E; rewrite E in Hf; congruence).
    rewrite Htp. simpl. rewrite restored_header. lia. }
  exists t', o. split; [done |]. split; [done | | | by rewrite Hsn; apply Hr | by rewrite Hc; apply Hr].
  - intros b' Eb'. rewrite Eb in Eb'. by injection Eb' as <-.
  - intros h b'. rewrite Hbh. destruct (decide (block_hash b = h)) as [<-|Hne].
    + rewrite lookup_insert_eq. split.
      * intros [= <-]. exists (n + 1), b. done.
      * intros (i & b0 & _ & Ei & E2 & ->). by destruct (saved_unique _ _ _ _ Eb Ei E2) as [-> ->].
    + rewrite lookup_insert_ne by done. rewrite (rl_blocks _ _ Hr). split.
      * intros (i & b0 & ? & ? & ?). exists i, b0. split_and!; [lia | naive_solver..].
      * intros (i & b0 & ? & Ei & -> & ->). exists i, b0. split_and!; try done.
        destruct (decide (i = n + 1)) as [->|]; [| lia]. rewrite Eb in Ei. by injection Ei as <-.
Qed.

Lemma reload_height_step n t :
  reloaded n t -> 0 <= n < top ->
  exists t', ChainPersist.reload_height p (n + 1) t = (t', Ok tt) /\ reloaded (n + 1) t'.
Proof.
  intros Hr Hn. destruct (saved_total (n + 1)) as [b Eb]; [lia |].
  destruct (reloaded_extend n t b Hr ltac:(lia) Eb) as (Hlink & t' & o & E & Hr').
  exists t'. split; [| done]. unfold ChainPersist.reload_height.
  rewrite sbind_lift, (proj2 (disk_block _ _ Eb)). unfold restored in E.
  destruct (keeps_at pol N (n + 1)) eqn:Hk.
  - destruct (insert_block_cases t b) as [(e & _ & Hno)|(_ & _ & Eins)].
    { destruct Hno. split; [done |]. eapply Hvalid; [| done..]. lia. }
    rewrite <- Eins in E. unfold smap_err, sbind. by rewrite E.
  - change (BlockStore.drop_body b) with (mkBlock (header b) [] []) in E.
    rewrite sbind_lift, (disk_height_hash _ _ Eb), sbind_lift. simpl ok_or. cbn iota.
    rewrite sbind_lift, (disk_header _ _ Eb Hk), sbind_lift. simpl ok_or. cbn iota.
    rewrite <- (insert_header_linkable t (header b)) in E; [| | done].
    + unfold smap_err, sbind. by rewrite E.
    + pose proof (saved_blocks _ _ Eb) as (_ & _ & _ & -> & _). lia.
Qed.

Lemma keeps_genesis n : keeps_at pol n 0 = true.
Proof. unfold keeps_at. by rewrite orb_true_r. Qed.

(** The genesis block opens the new store. *)
Lemma reload_genesis g :
  BlockStore.get_block_by_number s 0 = Some g ->
  exists t o, BlockStore.insert_genesis g (BlockStore.new (consensus s)) = (t, Ok o) /\ reloaded 0 t.
Proof.
  intros Eg. pose proof (saved_blocks _ _ Eg) as (_ & _ & Hg & Hnum & _).
  set (t0 := BlockStore.new (consensus s)).
  assert (linkable t0 (header g)) as Hlink.
  { specialize (Hlinked _ _ Hg). unfold linkable in *. by rewrite decide_True in * by done. }
  destruct (insert_genesis_cases t0 g Hnum) as [(e & _ & Hno)|(_ & _ & Eins)].
  { destruct Hno. split; [done |]. apply (Hvalid 0); [lia | done | apply keeps_genesis]. }
  destruct (insert_extends t0 g) as (t & o & E & Hi & Hbh & Hsn & Hc & Hh);
    [apply new_store_inv | apply (Hwf _ _ Hg) | done | apply lookup_empty | done |].
  exists t, o. rewrite Eins. split; [done |]. split; [done | | | by rewrite Hsn | by rewrite Hc].
  - intros b' Eb'. rewrite Eg in Eb'. by injection Eb' as <-.
  - intros h b'. rewrite Hbh. simpl. destruct (decide (block_hash g = h)) as [<-|Hne].
    + rewrite lookup_insert_eq. unfold restored. split.
      * intros [= <-]. exists 0, g. by rewrite keeps_genesis.
      * intros (i & b0 & _ & Ei & E2 & ->). destruct (saved_unique _ _ _ _ Eg Ei E2) as [<- ->].
        by rewrite keeps_genesis.
    + rewrite lookup_insert_ne, lookup_empty by done. split; [done |].
      intros (i & b0 & Hle & Ei & -> & _). pose proof (saved_blocks _ _ Ei) as (? & _).
      assert (i = 0) as -> by lia. rewrite Eg in Ei. by injection Ei as <-.
Qed.

Lemma reload_all t :
  reloaded 0 t ->
  exists t', sfor (seqZ 1 top) (ChainPersist.reload_height p) t = (t', Ok tt) /\ reloaded top t'.
Proof.
  intros Hr.
  destruct (sfor_ind (ChainPersist.reload_height p) (fun pre t => reloaded (Z.of_nat (length pre)) t)
              (seqZ 1 top) t Hr) as (t' & E & Hr').
  - intros pre x rest t1 El Hr1.
    assert (seqZ 1 top !! length pre = Some x) as Hx by (by rewrite El, list_lookup_middle).
    apply lookup_seqZ in Hx as [-> Hlt]. rewrite length_app. simpl.
    rewrite (Z.add_comm 1). replace (Z.of_nat (length pre + 1)) with (Z.of_nat (length pre) + 1) by lia.
    apply reload_height_step; [done | lia].
  - exists t'. split; [done |]. by rewrite length_seqZ, Z2Nat.id in Hr' by lia.
Qed.

(** The reloaded store has the same head and the same canonical index. *)
Lemma reloaded_canonical t : reloaded N t -> bs_head t = Some hd /\ by_number t = by_number s.
Proof.
  intros Hr. destruct saved_head as [Eh Ehash].
  assert (bs_head t = Some hd) as Ht by (rewrite <- Ehash; by apply (rl_head _ _ Hr)).
  split; [done |].
  assert (by_hash t !! hd = Some (restored N head)) as Htop
    by (rewrite <- Ehash; by eapply reloaded_lookup).
  destruct (canonical_blocks t hd _ (rl_inv _ _ Hr) Ht Htop) as (Hn1 & Ht1 & Hb1);
    [by rewrite restored_header |]. rewrite restored_header in *.
  assert (forall k : nat, Z.of_nat k <= N -> by_number t !! (N - Z.of_nat k) = by_number s !! (N - Z.of_nat k)) as Hk.
  { induction k as [|k IH]; intros Hle.
    - rewrite Z.sub_0_r, Hn1. by destruct (canonical_blocks s hd head Hinv Ehd Hhead Hmax) as (-> & _).
    - specialize (IH ltac:(lia)). destruct (saved_total (N - Z.of_nat k)) as [b Eb]; [lia |].
      pose proof (saved_blocks _ _ Eb) as (_ & Hs & _ & _ & Hpar). rewrite Hs in IH.
      destruct (Hb1 _ _ IH) as (_ & b' & Hb' & _ & _ & Hpar').
      rewrite (reloaded_lookup N t (N - Z.of_nat k) b Hr ltac:(lia) Eb) in Hb'. injection Hb' as <-.
      rewrite restored_header in Hpar'.
      replace (N - Z.of_nat (S k)) with (N - Z.of_nat k - 1) by lia.
      rewrite Hpar, Hpar' by lia. done. }
  apply map_eq. intros n. destruct (decide (0 <= n <= N)) as [Hin|Hout].
  - specialize (Hk (Z.to_nat (N - n)) ltac:(lia)). rewrite Z2Nat.id in Hk by lia.
    by replace (N - (N - n)) with n in Hk by lia.
  - transitivity (@None H256); [| symmetry]; apply eq_None_not_Some; intros [h Hh].
    + destruct (Hb1 _ _ Hh). lia.
    + destruct (canonical_blocks s hd head Hinv Ehd Hhead Hmax) as (_ & _ & H).
      destruct (H _ _ Hh). lia.
Qed.

(** **** The snapshot loop *)

Definition disk_state (h : H256) : option StateDB :=
  raw ← view p (KSnapshot h);
  snap ← deserialize (A := StateSnapshot) raw;
  Some (StateDB.from_snapshot snap).

Hypothesis Hsnap : forall n b raw,
  BlockStore.get_block_by_number s n = Some b -> view p (KSnapshot (block_hash b)) = Some raw ->
  is_Some (deserialize (A := StateSnapshot) raw).

Lemma disk_snapshot n b :
  BlockStore.get_block_by_number s n = Some b ->
  ChainPersist.get_snapshot p (block_hash b) = Ok (disk_state (block_hash b)).
Proof.
  intros Eb. unfold ChainPersist.get_snapshot, disk_state.
  rewrite (read_view _ (KSnapshot (block_hash b))) by done. cbn [rbind].
  destruct (view p (KSnapshot (block_hash b))) as [raw|] eqn:Er; [| done].
  destruct (Hsnap _ _ _ Eb Er) as [snap Es]. simpl. by rewrite Es.
Qed.

Lemma fork_id (st : StateDB) : StateDB.fork st = st.
Proof. by destruct st. Qed.

Lemma state_at_snapshots (t : BlockStore) h : BlockStore.state_at t h = snapshots t !! h.
Proof. unfold BlockStore.state_at. destruct (snapshots t !! h); simpl; by rewrite ?fork_id. Qed.

(** [t] with the snapshots of the heights below [k], and no other. *)
Definition states_loaded (t : BlockStore) (k : nat) (t' : BlockStore) : Prop :=
  t' = BlockStore.set_snapshots (snapshots t') t /\
  (forall h, is_Some (snapshots t' !! h) ->
     exists n b, BlockStore.get_block_by_number s n = Some b /\ h = block_hash b) /\
  forall n b, BlockStore.get_block_by_number s n = Some b ->
    snapshots t' !! block_hash b = if decide (n < Z.of_nat k) then disk_state (block_hash b) else None.

Lemma reload_states t :
  reloaded N t ->
  exists t', sfor (ChainPersist.heights N) (ChainPersist.reload_state p) t = (t', Ok tt) /\
             states_loaded t (Z.to_nat (N + 1)) t'.
Proof.
  intros Hr. destruct saved_head as [Eh _]. pose proof (saved_blocks _ _ Eh) as (HN & _).
  destruct (reloaded_canonical t Hr) as [_ Enum].
  destruct (sfor_ind (ChainPersist.reload_state p) (fun pre t' => states_loaded t (length pre) t')
              (ChainPersist.heights N) t) as (t' & E & Hr').
  - split_and!; [by destruct t | |].
    { intros h. rewrite (rl_snapshots _ _ Hr), lookup_empty. by intros []. }
    intros n b Eb. pose proof (saved_blocks _ _ Eb) as (? & _).
    rewrite decide_False by (simpl; lia). by rewrite (rl_snapshots _ _ Hr), lookup_empty.
  - intros pre x rest t1 El (Et1 & Hout & Hs1).
    assert (ChainPersist.heights N !! length pre = Some x) as Hx by (by rewrite El, list_lookup_middle).
    apply lookup_seqZ in Hx as [-> Hlt]. rewrite Z.add_0_l.
    destruct (saved_total (Z.of_nat (length pre))) as [b Eb]; [lia |].
    pose proof (saved_blocks _ _ Eb) as (_ & Eb1 & _).
    assert (BlockStore.get_block_by_number t1 (Z.of_nat (length pre))
            = Some (restored (Z.of_nat (length pre)) b)) as Eg.
    { rewrite Et1. unfold BlockStore.get_block_by_number. simpl. rewrite Enum, Eb1. simpl.
      unfold BlockStore.get_block. simpl. eapply reloaded_lookup; [done | lia | done]. }
    unfold ChainPersist.reload_state. rewrite sbind_get, Eg, restored_hash, sbind_lift.
    rewrite (disk_snapshot _ _ Eb). rewrite length_app. simpl length.
    assert (forall t2 : BlockStore, snapshots t2 = partial_alter (fun _ => disk_state (block_hash b)) (block_hash b) (snapshots t1) ->
              t2 = BlockStore.set_snapshots (snapshots t2) t -> states_loaded t (length pre + 1) t2) as Hcl.
    { intros t2 E2 Et2. split_and!; [done | |].
      { intros h. rewrite E2. destruct (decide (h = block_hash b)) as [->|Hne]; [eauto |].
        rewrite lookup_partial_alter_ne by done. apply Hout. }
      intros n b' Eb'. rewrite E2.
      destruct (decide (n = Z.of_nat (length pre))) as [->|Hne].
      - rewrite Eb in Eb'. injection Eb' as <-. rewrite lookup_partial_alter_eq, decide_True by lia. done.
      - rewrite lookup_partial_alter_ne by (intros E3; by destruct (saved_unique _ _ _ _ Eb Eb' E3)).
        rewrite (Hs1 _ _ Eb'). do 2 case_decide; try done; lia. }
    destruct (disk_state (block_hash b)) as [st|] eqn:Est; eexists; (split; [done |]); apply Hcl.
    + simpl. by rewrite fork_id.
    + rewrite Et1. done.
    + symmetry. apply partial_alter_id. rewrite (Hs1 _ _ Eb). by rewrite decide_False by lia.
    + done.
  - exists t'. split; [done |]. unfold ChainPersist.heights in Hr'. by rewrite length_seqZ in Hr'.
Qed.

(** [load_into] up to the insertion of the genesis block. *)
Lemma load_opens genesis :
  keeps_at pol N N = true -> by_number s !! 0 = Some (block_hash genesis) ->
  exists t0, reloaded 0 t0 /\
    ChainPersist.load_into p genesis (BlockStore.new (consensus s)) =
    (sfor (seqZ 1 N) (ChainPersist.reload_height p) ;;;
     sfor (ChainPersist.heights N) (ChainPersist.reload_state p) ;;; sret (Some N)) t0.
Proof.
  intros HkN Hg. destruct saved_head as [Eh Ehash].
  destruct (saved_total 0) as [g Eg]; [lia |]. pose proof (saved_blocks _ _ Eg) as (_ & Hg' & _).
  assert (block_hash g = block_hash genesis) as Egen by congruence.
  destruct (reload_genesis g Eg) as (t0 & o & E0 & Hr0). exists t0. split; [done |].
  unfold ChainPersist.load_into. rewrite sbind_lift, (read_view _ KHead), (od_head _ _ _ Hd) by done.
  rewrite sbind_lift, (proj2 (from_slice_some _ hd) eq_refl). cbn [ok_or].
  rewrite sbind_lift, <- Ehash, (proj1 (disk_block _ _ Eh)), HkN, sbind_lift. cbn [ok_or].
  rewrite sbind_lift, (proj2 (disk_block _ _ Eg)), keeps_genesis, sbind_lift. cbn [ok_or].
  rewrite sbind_guard, bool_decide_true by done.
  assert (smap_err PersistError.ReloadGenesis (BlockStore.insert_genesis g) (BlockStore.new (consensus s))
          = (t0, Ok o)) as E0' by (unfold smap_err; by rewrite E0).
  by rewrite (sbind_run _ _ _ _ _ E0').
Qed.

Lemma load_reloads genesis :
  top = N -> keeps_at pol N N = true -> by_number s !! 0 = Some (block_hash genesis) ->
  exists t, ChainPersist.load_into p genesis (BlockStore.new (consensus s)) = (t, Ok (Some N)) /\
    bs_head t = Some hd /\ by_number t = by_number s /\
    (forall h, is_Some (snapshots t !! h) ->
       exists n b, BlockStore.get_block_by_number s n = Some b /\ h = block_hash b) /\
    forall n b, BlockStore.get_block_by_number s n = Some b ->
      BlockStore.get_block t (block_hash b) = Some (restored n b) /\
      BlockStore.state_at t (block_hash b) = disk_state (block_hash b).
Proof.
  intros Etop HkN Hg. destruct (load_opens genesis HkN Hg) as (t0 & Hr0 & ->).
  destruct (reload_all t0 Hr0) as (t1 & E1 & Hr1). rewrite Etop in E1, Hr1.
  destruct (reload_states t1 Hr1) as (t2 & E2 & Et2 & Hout & Hst). destruct (reloaded_canonical t1 Hr1) as [Hh Hn].
  exists t2. rewrite (sbind_run _ _ _ _ _ E1), (sbind_run _ _ _ _ _ E2).
  split_and!; [done | by rewrite Et2 | by rewrite Et2 | done |].
  intros n b Eb. pose proof (saved_blocks _ _ Eb) as (Hr & _). split.
  - rewrite Et2. unfold BlockStore.get_block. simpl. eapply reloaded_lookup; [done | lia | done].
  - rewrite state_at_snapshots, (Hst _ _ Eb). by rewrite decide_True by lia.
Qed.

(** A kept body that does not validate stops the reload at its height. *)
Lemma load_stops n b e genesis :
  top = n - 1 -> BlockStore.get_block_by_number s n = Some b ->
  keeps_at pol N n = true -> validate b = Err e ->
  keeps_at pol N N = true -> by_number s !! 0 = Some (block_hash genesis) ->
  exists t, ChainPersist.load_into p genesis (BlockStore.new (consensus s)) =
            (t, Err (PersistError.ReloadBlock n (ChainError.Block e))).
Proof.
  intros Etop Eb Hk Hv HkN Hg. pose proof (saved_blocks _ _ Eb) as (Hr & _ & _ & Hnum & _).
  destruct (load_opens genesis HkN Hg) as (t0 & Hr0 & ->).
  destruct (reload_all t0 Hr0) as (t1 & E1 & Hr1).
  destruct (reloaded_extend top t1 b Hr1 ltac:(lia)) as [Hlink _].
  { by replace (top + 1) with n by lia. }
  exists t1. replace (seqZ 1 N) with (seqZ 1 top ++ seqZ (1 + top) (N - top))
    by (rewrite <- seqZ_app by lia; f_equal; lia).
  unfold sbind at 1. rewrite sfor_app.
  rewrite (sbind_run _ _ _ _ _ E1), (seqZ_cons (1 + top)) by lia. cbn [sfor].
  replace (1 + top) with n by lia.
  assert (ChainPersist.reload_height p n t1 = (t1, Err (PersistError.ReloadBlock n (ChainError.Block e)))) as E2.
  { unfold ChainPersist.reload_height. rewrite sbind_lift, (proj2 (disk_block _ _ Eb)), Hk.
    unfold smap_err, BlockStore.insert_block.
    replace (number (header b) =? 0) with false by (symmetry; apply Z.eqb_neq; lia).
    destruct (check_parent_cases t1 (header b)) as [(e' & _ & Hno)|[Ec _]]; [lia | done |].
    unfold sbind, slift. rewrite Ec. simpl. by rewrite Hv. }
  by rewrite (sbind_run _ _ _ _ _ E2).
Qed.
End Load.
End Saved.

(** *** Stored blocks are what was accepted *)

Lemma linkable_mono t t' h :
  consensus t' = consensus t ->
  (forall k b, by_hash t !! k = Some b -> exists b', by_hash t' !! k = Some b' /\ header b' = header b) ->
  linkable t h -> linkable t' h.
Proof.
  unfold linkable. intros Hc Hm. rewrite Hc. case_decide; [done |].
  intros (q & Hq & ? & ?). destruct (Hm _ _ Hq) as (q' & Hq' & E). exists q'. by rewrite E.
Qed.

Definition accepted (t : BlockStore) : Prop :=
  forall h b, by_hash t !! h = Some b -> block_wf b /\ linkable t (header b).

Lemma insert_validated_accepted t b :
  store_inv t -> block_wf b -> linkable t (header b) -> accepted t ->
  accepted (BlockStore.insert_validated b t).1.
Proof.
  intros Ht Hb Hl Ha. pose proof (insert_validated_spec t b Ht (proj1 Hb) Hl) as H.
  destruct (by_hash t !! block_hash b) as [b0|] eqn:Hf; [by rewrite H |].
  destruct H as (t' & o & -> & _ & Hbh & _ & Hc & _). simpl.
  assert (forall h, linkable t h -> linkable t' h) as Hmono.
  { intros h. apply linkable_mono; [done |]. intros k b' Hk. exists b'. rewrite Hbh.
    by rewrite lookup_insert_ne by congruence. }
  intros h b'. rewrite Hbh. intros [[_ <-]|[_ Hb']]%lookup_insert_Some; [eauto |].
  destruct (Ha _ _ Hb'). eauto.
Qed.

Lemma same_accepted t t' :
  by_hash t' = by_hash t -> consensus t' = consensus t -> accepted t -> accepted t'.
Proof.
  intros E Ec Ha h b. rewrite E. intros Hb. destruct (Ha _ _ Hb) as [? Hl]. split; [done |].
  eapply linkable_mono, Hl; [done |]. intros k b'. rewrite E. eauto.
Qed.

Lemma drop_body_wf b : block_wf b -> block_wf (BlockStore.drop_body b).
Proof. intros (? & _ & _). split_and!; done. Qed.

Lemma drop_accepted n a t : accepted t -> accepted (BlockStore.drop_bodies_below n a t).
Proof.
  destruct a; [done |]. intros Ha h b. rewrite drop_bodies_lookup.
  intros (b0 & Hb0 & ->)%fmap_Some. destruct (Ha _ _ Hb0) as [Hw Hl].
  assert (linkable (BlockStore.drop_bodies_below n false t) (header b0)) as Hl'.
  { eapply linkable_mono, Hl; [done |]. intros k b Hk. rewrite drop_bodies_lookup, Hk. simpl.
    eexists. split; [done |]. by destruct (_ <? n). }
  destruct (_ <? n); split; try done. by apply drop_body_wf.
Qed.

Lemma prune_fields t :
  by_hash (BlockStore.prune_snapshots t) = by_hash t /\
  consensus (BlockStore.prune_snapshots t) = consensus t.
Proof. unfold BlockStore.prune_snapshots. by destruct (bs_head t). Qed.

Lemma store_step_accepted t t' : store_step t t' -> store_inv t -> accepted t -> accepted t'.
Proof.
  destruct 1 as [t b Hb|t b Hb|t h Hh|t h st|t n a|t|t n]; intros Hs Ha.
  - destruct (decide (number (header b) = 0)) as [Hn|Hn].
    + destruct (insert_genesis_cases t b Hn) as [(e & -> & _)|(Hl & _ & ->)]; [done |].
      by apply insert_validated_accepted.
    + unfold BlockStore.insert_genesis. rewrite sbind_guard. by rewrite (proj2 (Z.eqb_neq _ _) Hn).
  - destruct (insert_block_cases t b) as [(e & -> & _)|(Hl & _ & ->)]; [done |].
    by apply insert_validated_accepted.
  - destruct (insert_header_cases t h) as [(e & ->)|(Hl & _ & ->)]; [done |].
    by apply insert_validated_accepted.
  - by apply (same_accepted t).
  - by apply drop_accepted.
  - apply (same_accepted t); [apply prune_fields.. | done].
  - unfold BlockStore.prune_snapshots_keep. destruct (prune_fields t) as [E1 E2].
    assert (accepted (BlockStore.prune_snapshots t)) as Ha' by by apply (same_accepted t).
    destruct (BlockStore.head_block _); [| done].
    by eapply (same_accepted (BlockStore.drop_bodies_below _ false (BlockStore.prune_snapshots t))),
      drop_accepted.
Qed.

Lemma store_reachable_accepted t : store_reachable t -> accepted t.
Proof.
  intros [c H].
  assert (accepted (BlockStore.new c)) as Hn by (intros h b; simpl; by rewrite lookup_empty).
  pose proof (new_store_inv c) as Hi. revert Hi Hn.
  induction H; eauto using store_step_inv, store_step_accepted.
Qed.

(** An archive node never drops a body, so all its bodies are valid. *)
Definition bodies_valid (t : BlockStore) : Prop :=
  forall h b, by_hash t !! h = Some b -> validate b = Ok tt.

Inductive archive_step : BlockStore -> BlockStore -> Prop :=
| archive_genesis t b : block_wf b -> archive_step t (BlockStore.insert_genesis b t).1
| archive_block t b : block_wf b -> archive_step t (BlockStore.insert_block b t).1
| archive_record t h st : archive_step t (BlockStore.record_state h st t)
| archive_prune t : archive_step t (BlockStore.prune_snapshots t).

Definition archive_reachable (t : BlockStore) : Prop :=
  exists c, rtc archive_step (BlockStore.new c) t.

Lemma archive_store_step t t' : archive_step t t' -> store_step t t'.
Proof. destruct 1; by constructor. Qed.

Lemma archive_store_reachable t : archive_reachable t -> store_reachable t.
Proof. intros [c H]. exists c. induction H; econstructor; eauto using archive_store_step. Qed.

Lemma insert_validated_bodies t b :
  store_inv t -> block_wf b -> linkable t (header b) -> validate b = Ok tt ->
  bodies_valid t -> bodies_valid (BlockStore.insert_validated b t).1.
Proof.
  intros Ht Hb Hl Hv Ha. pose proof (insert_validated_spec t b Ht (proj1 Hb) Hl) as H.
  destruct (by_hash t !! block_hash b) as [b0|] eqn:Hf; [by rewrite H |].
  destruct H as (t' & o & -> & _ & Hbh & _). intros h b'. simpl. rewrite Hbh.
  intros [[_ <-]|[_ Hb']]%lookup_insert_Some; [done | by eapply Ha].
Qed.

Lemma archive_step_valid t t' : archive_step t t' -> store_inv t -> bodies_valid t -> bodies_valid t'.
Proof.
  destruct 1 as [t b Hb|t b Hb|t h st|t]; intros Hs Ha.
  - destruct (decide (number (header b) = 0)) as [Hn|Hn].
    + destruct (insert_genesis_cases t b Hn) as [(e & -> & _)|(Hl & Hv & ->)]; [done |].
      by apply insert_validated_bodies.
    + unfold BlockStore.insert_genesis. rewrite sbind_guard. by rewrite (proj2 (Z.eqb_neq _ _) Hn).
  - destruct (insert_block_cases t b) as [(e & -> & _)|(Hl & Hv & ->)]; [done |].
    by apply insert_validated_bodies.
  - exact Ha.
  - intros h b. rewrite (proj1 (prune_fields t)). apply Ha.
Qed.

Lemma archive_reachable_valid t : archive_reachable t -> bodies_valid t.
Proof.
  intros [c H].
  assert (bodies_valid (BlockStore.new c)) as Hn by (intros h b; simpl; by rewrite lookup_empty).
  pose proof (new_store_inv c) as Hi. revert Hi Hn.
  induction H; eauto using store_step_inv, archive_store_step, archive_step_valid.
Qed.
End Persist.
