(* ===== verification/PersistSpec.v ===== *)
(** * Persistence: what a restart recovers

    The theorems about [ChainPersist]: a restart rebuilds the chain that
    [persist_canonical] saved, refuses another genesis, and is blocked when the
    retention policy was widened after bodies had been pruned. *)

From S2P Require Import Prelude Hex Uint UintFacts Hash Address Bincode Core Trie State.
From S2P Require Import StateProps Crypto Vm Executor Consensus Store StoreProps StoreSpec.
From S2P Require Import Persist PersistProps.
#[local] Open Scope Z_scope.

Section Spec.
Context {BC : BincodeCrate} {BL : BincodeLaws} {SC : Sha3Crate} {EC : Ed25519Crate}.
Context {RC : RocksDbCrate} {RL : RocksDbLaws}.

(** What the database already has for a canonical block without a recorded state can
    be decoded. *)
Definition snapshots_decode (s : BlockStore) (p : ChainPersist) : Prop :=
  forall n b raw, BlockStore.get_block_by_number s n = Some b ->
    BlockStore.state_at s (block_hash b) = None -> view p (KSnapshot (block_hash b)) = Some raw ->
    is_Some (deserialize (A := StateSnapshot) raw).
(** The recorded states are sound, and none of their tables has 2^64 entries. *)
Definition states_ok (s : BlockStore) : Prop :=
  forall h st, BlockStore.state_at s h = Some st -> state_inv st /\ state_sized st.

Lemma keeps_head p n : 1 <= cp_archive_keep p -> keeps_at (policy p) n n = true.
Proof.
  intros Hk. unfold keeps_at, saturating_sub64. rewrite Z.sub_diag.
  rewrite (proj2 (Z.ltb_lt _ _)); [apply orb_true_r | cbn; lia].
Qed.

Lemma saved_state_back st :
  state_inv st -> state_sized st ->
  StateDB.from_snapshot <$>
    deserialize (serialize (StateDB.to_snapshot (StateDB.trie_nodes st).1)) = Some st.
Proof.
  intros [Hw Hr] Hs. unfold StateDB.trie_nodes. simpl. rewrite sync_id by done.
  rewrite deserialize_serialize by by apply to_snapshot_wf. simpl. by rewrite from_to_snapshot.
Qed.

(** Snapshots on disk after a save can all be decoded. *)
Lemma saved_snapshots_decode pol s hd head p p' :
  states_ok s -> snapshots_decode s p -> on_disk s hd head pol (view p) (view p') ->
  forall n b raw, BlockStore.get_block_by_number s n = Some b ->
    view p' (KSnapshot (block_hash b)) = Some raw -> is_Some (deserialize (A := StateSnapshot) raw).
Proof.
  intros Hst Hd Ho n b raw Eb Hraw. destruct (BlockStore.state_at s (block_hash b)) as [st|] eqn:Es.
  - rewrite (od_state _ _ _ _ _ _ Ho _ _ _ Eb Es) in Hraw. apply (inj Some) in Hraw as <-.
    destruct (Hst _ _ Es) as [H1 H2]. pose proof (saved_state_back st H1 H2) as H.
    apply fmap_Some in H as (snap & -> & _). eauto.
  - rewrite (od_old_state _ _ _ _ _ _ Ho _ Es) in Hraw. by eapply Hd.
Qed.

(** What a restart reads back, and where each state it finds comes from. *)
Lemma reload_chain s p block genesis hd head :
  store_reachable s -> bs_head s = Some hd -> by_hash s !! hd = Some head ->
  number (header head) < u64_max -> by_number s !! 0 = Some (block_hash genesis) ->
  healthy (cp_db p) -> 1 <= cp_archive_keep p -> snapshots_decode s p -> states_ok s ->
  (forall n b, BlockStore.get_block_by_number s n = Some b ->
     ChainPersist.keeps p (number (header head)) n = true -> validate b = Ok tt) ->
  exists p' t,
    ChainPersist.persist_canonical s block p = (p', Ok tt) /\
    ChainPersist.load_into p' genesis (BlockStore.new (consensus s)) =
      (t, Ok (Some (number (header head)))) /\
    bs_head t = Some hd /\ by_number t = by_number s /\ healthy (cp_db p') /\
    (forall h db, BlockStore.state_at t h = Some db ->
       exists n b, BlockStore.get_block_by_number s n = Some b /\ h = block_hash b /\
         (BlockStore.state_at s h = Some db \/
          BlockStore.state_at s h = None /\
          exists raw snap, view p (KSnapshot h) = Some raw /\
            deserialize (A := StateSnapshot) raw = Some snap /\ db = StateDB.from_snapshot snap)) /\
    forall n b, BlockStore.get_block_by_number s n = Some b ->
      BlockStore.get_block t (block_hash b) =
        Some (if ChainPersist.keeps p (number (header head)) n then b else BlockStore.drop_body b) /\
      (is_Some (BlockStore.state_at s (block_hash b)) ->
       BlockStore.state_at t (block_hash b) = BlockStore.state_at s (block_hash b)).
Proof.
  intros Hs Ehd Hhd Hmax Hg Hp Hk Hdec Hst Hval. pose proof (store_reachable_inv _ Hs) as Hi.
  pose proof (store_reachable_accepted _ Hs) as Ha.
  destruct (persist_on_disk s hd head Hi Ehd Hhd Hmax (policy p) block p Hp eq_refl)
    as (p' & E & Hp' & Hpol & Ho).
  destruct (load_reloads s hd head Hi Ehd Hhd Hmax) with (pol := policy p) (p := p') (v0 := view p)
    (top := number (header head)) (genesis := genesis) as (t & El & Eh & En & Hout & Hb); try done.
  - intros h b Hb. by apply (Ha _ _ Hb).
  - intros h b Hb. by apply (Ha _ _ Hb).
  - destruct (saved_head s hd head Hi Ehd Hhd Hmax) as [Eh _].
    apply (saved_blocks s hd head Hi Ehd Hhd Hmax) in Eh as (? & _). lia.
  - intros n b _. apply Hval.
  - by eapply saved_snapshots_decode.
  - by apply keeps_head.
  - assert (forall n b st, BlockStore.get_block_by_number s n = Some b ->
            BlockStore.state_at s (block_hash b) = Some st -> disk_state p' (block_hash b) = Some st) as Hback.
    { intros n b st Eb Es. unfold disk_state. rewrite (od_state _ _ _ _ _ _ Ho _ _ _ Eb Es).
      cbn [mbind option_bind]. destruct (Hst _ _ Es) as [H1 H2]. pose proof (saved_state_back st H1 H2) as H.
      apply fmap_Some in H as (snap & -> & ->). done. }
    exists p', t. split_and!; try done.
    + intros h db Hdb. destruct (Hout h) as (n & b & Eb & ->); [rewrite <- state_at_snapshots; eauto |].
      exists n, b. split_and!; [done | done |]. rewrite (proj2 (Hb n b Eb)) in Hdb.
      destruct (BlockStore.state_at s (block_hash b)) as [st|] eqn:Es.
      * left. by rewrite (Hback n b st Eb Es) in Hdb.
      * right. split; [done |]. unfold disk_state in Hdb.
        rewrite (od_old_state _ _ _ _ _ _ Ho _ Es) in Hdb.
        destruct (view p (KSnapshot (block_hash b))) as [raw|]; [| done]. simpl in Hdb.
        destruct (deserialize raw) as [snap|] eqn:Ed; simpl in Hdb; [| done].
        exists raw, snap. by simplify_eq.
    + intros n b Eb. destruct (Hb n b Eb) as [Hb1 Hb2].
      split; [exact Hb1 |]. intros [st Es]. rewrite Hb2, Es. by apply (Hback n).
Qed.

(** C24: When a restart recovers the chain.  Take a reachable store whose canonical
    blocks inside the retention window validate ([widened_archive_blocks_restart] is
    what happens when one does not) and whose recorded states are sound and of fewer
    than 2^64 entries, and a healthy database whose older snapshots of canonical blocks
    without a recorded state, if any, decode.  Then after [persist_canonical],
    [load_into] fills an empty store with the same head, the same canonical block at
    every height and, for every canonical block with a recorded post-state, that
    post-state; a block outside the retention window comes back as its header with an
    empty body. *)
Theorem reload_restores_chain s p block genesis hd head :
  store_reachable s -> bs_head s = Some hd -> by_hash s !! hd = Some head ->
  number (header head) < u64_max -> by_number s !! 0 = Some (block_hash genesis) ->
  healthy (cp_db p) -> 1 <= cp_archive_keep p -> snapshots_decode s p -> states_ok s ->
  (forall n b, BlockStore.get_block_by_number s n = Some b ->
     ChainPersist.keeps p (number (header head)) n = true -> validate b = Ok tt) ->
  exists p' t,
    ChainPersist.persist_canonical s block p = (p', Ok tt) /\
    ChainPersist.load_into p' genesis (BlockStore.new (consensus s)) =
      (t, Ok (Some (number (header head)))) /\
    bs_head t = Some hd /\ by_number t = by_number s /\
    forall n b, BlockStore.get_block_by_number s n = Some b ->
      BlockStore.get_block t (block_hash b) =
        Some (if ChainPersist.keeps p (number (header head)) n then b else BlockStore.drop_body b) /\
      (is_Some (BlockStore.state_at s (block_hash b)) ->
       BlockStore.state_at t (block_hash b) = BlockStore.state_at s (block_hash b)).
Proof.
  intros Hs Ehd Hhd Hmax Hg Hp Hk Hdec Hst Hval.
  destruct (reload_chain s p block genesis hd head Hs Ehd Hhd Hmax Hg Hp Hk Hdec Hst Hval)
    as (p' & t & H1 & H2 & H3 & H4 & _ & _ & H5).
  by exists p', t.
Qed.

(** A non-empty block that lost its body no longer validates. *)
Lemma dropped_body_invalid b :
  block_wf b -> validate b = Ok tt -> transactions b ≠ [] ->
  coll_free [serialize (transactions b); serialize (A := list Transaction) []] ->
  validate (BlockStore.drop_body b) = Err InvalidTransactionsRoot.
Proof.
  intros (_ & [Hv Ht] & _) Hval Hne C. unfold validate in *. simpl in *.
  destruct (gas_limit (header b) <? gas_used (header b)); [done |].
  destruct (negb _); [done |]. case_decide as Hroot; [done |].
  destruct (decide (transactions_root (header b) ≠ list_root (A := Transaction) [])) as [|Hroot2%dec_stable];
    [done |].
  rewrite Hroot in Hroot2. unfold list_root, keccak_bincode in Hroot2.
  apply serialize_hash_inj in Hroot2; [done | by split | split; [done | constructor] | done].
Qed.

(** C38: Widening the retention policy after a prune blocks the next restart.  A
    valid, non-empty canonical block that the store holds without its body (as a
    reload of a pruned chain leaves it), and that the policy now in force keeps,
    is written back as a block with an empty body; the restart stops at its
    height with a transactions-root error, although the chain is valid (the block's
    transaction list does not collide with the empty list). *)
Theorem widened_archive_blocks_restart s p block genesis hd head n b :
  store_reachable s -> bs_head s = Some hd -> by_hash s !! hd = Some head ->
  number (header head) < u64_max -> by_number s !! 0 = Some (block_hash genesis) ->
  healthy (cp_db p) -> 1 <= cp_archive_keep p -> 0 < n ->
  block_wf b -> validate b = Ok tt -> transactions b ≠ [] ->
  coll_free [serialize (transactions b); serialize (A := list Transaction) []] ->
  BlockStore.get_block_by_number s n = Some (BlockStore.drop_body b) ->
  ChainPersist.keeps p (number (header head)) n = true ->
  (forall i bi, i < n -> BlockStore.get_block_by_number s i = Some bi ->
     ChainPersist.keeps p (number (header head)) i = true -> validate bi = Ok tt) ->
  exists p' t,
    ChainPersist.persist_canonical s block p = (p', Ok tt) /\
    ChainPersist.load_into p' genesis (BlockStore.new (consensus s)) =
      (t, Err (PersistError.ReloadBlock n (ChainError.Block InvalidTransactionsRoot))).
Proof.
  intros Hs Ehd Hhd Hmax Hg Hp Hk Hn Hbw Hbv Hbt Hc Eb Hkn Hval.
  pose proof (dropped_body_invalid b Hbw Hbv Hbt Hc) as Hve.
  pose proof (store_reachable_inv _ Hs) as Hi. pose proof (store_reachable_accepted _ Hs) as Ha.
  destruct (persist_on_disk s hd head Hi Ehd Hhd Hmax (policy p) block p Hp eq_refl)
    as (p' & E & Hp' & Hpol & Ho).
  pose proof (saved_blocks s hd head Hi Ehd Hhd Hmax _ _ Eb) as (Hr & _).
  destruct (load_stops s hd head Hi Ehd Hhd Hmax) with (pol := policy p) (p := p') (v0 := view p)
    (top := n - 1) (genesis := genesis) (n := n) (b := BlockStore.drop_body b)
    (e := InvalidTransactionsRoot) as (t & El); try done; try lia.
  - intros h b' Hb. by apply (Ha _ _ Hb).
  - intros h b' Hb. by apply (Ha _ _ Hb).
  - intros i bi Hle. apply Hval. lia.
  - by apply keeps_head.
  - eauto.
Qed.

(** [load_into] on a database without a head leaves the store alone and
    reports nothing loaded; with a chain whose genesis is not the configured one
    it refuses before anything is inserted, and so it does when the head block or
    the genesis is missing. *)
Theorem load_guards p genesis s :
  healthy (cp_db p) ->
  match view p KHead with
  | None => ChainPersist.load_into p genesis s = (s, Ok None)
  | Some raw =>
      match Hash.from_slice raw with
      | None => ChainPersist.load_into p genesis s = (s, Err PersistError.HeadHashLength)
      | Some hd =>
          forall head stored,
          ChainPersist.get_block p hd = Ok head ->
          ChainPersist.get_block_by_height p 0 = Ok stored ->
          match head, stored with
          | None, _ => ChainPersist.load_into p genesis s = (s, Err PersistError.HeadBlockMissing)
          | _, None => ChainPersist.load_into p genesis s = (s, Err PersistError.GenesisMissing)
          | Some _, Some g =>
              block_hash g ≠ block_hash genesis ->
              ChainPersist.load_into p genesis s =
              (s, Err (PersistError.GenesisMismatch (block_hash g) (block_hash genesis)))
          end
      end
  end.
Proof.
  intros Hp. unfold ChainPersist.load_into. rewrite sbind_lift, (read_view _ KHead) by done.
  destruct (view p KHead) as [raw|]; [| done]. rewrite sbind_lift.
  destruct (Hash.from_slice raw) as [hd|]; [| done]. cbn [ok_or].
  intros head stored Eh Es. rewrite sbind_lift, Eh, sbind_lift.
  destruct head as [head|]; [| done]. cbn [ok_or]. rewrite sbind_lift, Es, sbind_lift.
  destruct stored as [g|]; [| done]. cbn [ok_or]. intros Hne.
  by rewrite sbind_guard, bool_decide_false.
Qed.
End Spec.

(** ** Witnesses *)

(** [body_store] with one more block, and the same after pruning to one height. *)
Definition chain_d : Block := sample_child 2 (block_hash body_block) 12.
Definition saved_store : BlockStore := insert_all [chain_d] body_store.
Definition pruned_store : BlockStore := BlockStore.prune_snapshots_keep 1 saved_store.
Definition memory_persist (archive : bool) : ChainPersist :=
  ChainPersist.open_with (RC := memory_rocks) (∅ : gmap bytes bytes) archive 1.

Lemma insert_all_archive bs s :
  Forall block_wf bs -> archive_reachable s -> archive_reachable (insert_all bs s).
Proof.
  intros Hbs; revert s; induction Hbs as [|b bs Hb Hbs IH]; intros s Hs; [done |].
  simpl. apply IH. destruct Hs as [c Hs]. exists c. eapply rtc_r; [done |]. by apply archive_block.
Qed.
Lemma chain_d_wf : block_wf chain_d.
Proof. apply sample_child_wf; unfold u64_ok; lia. Qed.
Lemma saved_store_archive : archive_reachable saved_store.
Proof.
  apply (insert_all_archive [chain_d] body_store); [apply Forall_cons; split; [exact chain_d_wf | apply Forall_nil, I] |].
  apply insert_all_archive; [| by exists (sample_poa x01)].
  apply Forall_cons; split; [apply sample_child_wf; unfold u64_ok; lia |].
  apply Forall_cons; split; [exact body_block_wf | apply Forall_nil, I].
Qed.
Lemma pruned_store_reachable : store_reachable pruned_store.
Proof.
  destruct (archive_store_reachable _ saved_store_archive) as [c H]. exists c.
  eapply rtc_r; [exact H |]. apply step_prune_keep.
Qed.
Lemma saved_store_fields :
  bs_head saved_store = Some (block_hash chain_d) /\
  by_hash saved_store !! block_hash chain_d = Some chain_d /\
  by_number saved_store !! 0 = Some (block_hash chain_g) /\ snapshots saved_store = ∅.
Proof. split_and!; vm_compute; reflexivity. Qed.
Lemma pruned_store_fields :
  bs_head pruned_store = Some (block_hash chain_d) /\
  by_hash pruned_store !! block_hash chain_d = Some chain_d /\
  by_number pruned_store !! 0 = Some (block_hash chain_g) /\
  BlockStore.get_block_by_number pruned_store 1 = Some (BlockStore.drop_body body_block) /\
  BlockStore.get_block_by_number pruned_store 0 = Some chain_g.
Proof. split_and!; vm_compute; reflexivity. Qed.
Lemma memory_snapshots_decode s archive : snapshots_decode s (memory_persist archive).
Proof. intros n b raw _ _ H. unfold view in H. cbn in H. by rewrite lookup_empty in H. Qed.

Lemma reload_restores_chain_witness :
  exists p' t,
    ChainPersist.persist_canonical saved_store chain_d (memory_persist false) = (p', Ok tt) /\
    ChainPersist.load_into p' chain_g (BlockStore.new (consensus saved_store)) =
      (t, Ok (Some (number (header chain_d)))).
Proof.
  destruct saved_store_fields as (H1 & H2 & H3 & H4).
  destruct (reload_restores_chain saved_store (memory_persist false) chain_d chain_g
    (block_hash chain_d) chain_d) as (p' & t & E1 & E2 & _).
  - exact (archive_store_reachable _ saved_store_archive).
  - exact H1.
  - exact H2.
  - vm_compute. reflexivity.
  - exact H3.
  - exact I.
  - cbn. lia.
  - apply memory_snapshots_decode.
  - intros h st. rewrite state_at_snapshots, H4, lookup_empty. discriminate.
  - intros n b Hb _. apply get_by_number in Hb as [_ Hb].
    + exact (archive_reachable_valid _ saved_store_archive _ _ Hb).
    + exact (inv_index _ (store_reachable_inv _ (archive_store_reachable _ saved_store_archive))).
  - exact (ex_intro _ p' (ex_intro _ t (conj E1 E2))).
Defined.

Lemma widened_archive_blocks_restart_witness :
  exists p' t,
    ChainPersist.persist_canonical pruned_store chain_d (memory_persist true) = (p', Ok tt) /\
    ChainPersist.load_into p' chain_g (BlockStore.new (consensus pruned_store)) =
      (t, Err (PersistError.ReloadBlock 1 (ChainError.Block InvalidTransactionsRoot))).
Proof.
  destruct pruned_store_fields as (H1 & H2 & H3 & H4 & H5).
  apply (widened_archive_blocks_restart pruned_store (memory_persist true) chain_d chain_g
    (block_hash chain_d) chain_d 1 body_block).
  - exact pruned_store_reachable.
  - exact H1.
  - exact H2.
  - vm_compute. reflexivity.
  - exact H3.
  - exact I.
  - cbn. lia.
  - lia.
  - exact body_block_wf.
  - vm_compute. reflexivity.
  - discriminate.
  - apply (bool_decide_eq_true_1 _). vm_compute. reflexivity.
  - exact H4.
  - reflexivity.
  - intros i bi Hi Hbi _. pose proof (saved_blocks _ _ _ (store_reachable_inv _ pruned_store_reachable)
      H1 H2 ltac:(vm_compute; reflexivity) _ _ Hbi) as (Hr & _).
    assert (i = 0) as -> by lia. rewrite H5 in Hbi. apply (inj Some) in Hbi as <-. vm_compute. reflexivity.
Defined.

Lemma load_guards_witness :
  ChainPersist.load_into (memory_persist true) chain_g (BlockStore.new (sample_poa x01)) =
  (BlockStore.new (sample_poa x01), Ok None).
Proof. exact (load_guards (memory_persist true) chain_g (BlockStore.new (sample_poa x01)) I). Defined.
