(* ===== verification/Network.v ===== *)
(** * Gossip: [crates/ivory-network/src]

    [codec.rs], [error.rs], [behaviour.rs] (the topics) and [service.rs].  The
    swarm is libp2p's: the class [Libp2pCrate] lists the calls the sources make
    on it, [Libp2pLaws] what they rely on.  [NetService] is the state of the task
    [run_loop] runs: the swarm, the command queue, the events sent to the node
    and the connection counter. *)

From S2P Require Import Prelude Hex Uint UintFacts Hash Address Bincode Core Trie State.
From S2P Require Import StateProps Crypto Vm Executor ExecutorProps TxPool Consensus Store StoreSpec.
#[local] Open Scope Z_scope.

(** ** [error.rs] *)

Module NetworkError.
Inductive t : Type :=
| Swarm (what : bytes)
| Publish (what : bytes)
| Stopped
| InvalidMessage
| InvalidAddress (what : bytes).
End NetworkError.

(** ** [codec.rs] *)

Module NetworkMessage.
Inductive t : Type :=
| Block (b : Core.Block)
| Transaction (tx : Core.Transaction)
| GetBlock (h : H256)
| Header (h : BlockHeader)
| GetHeader (h : H256).
End NetworkMessage.

Definition message_wf (m : NetworkMessage.t) : Prop :=
  match m with
  | NetworkMessage.Block b => block_wf b
  | NetworkMessage.Transaction tx => tx_wf tx
  | NetworkMessage.Header h => header_wf h
  | NetworkMessage.GetBlock _ | NetworkMessage.GetHeader _ => True
  end.

#[export] Instance serde_message : Serde NetworkMessage.t := {|
  serde_shape :=
    ShSum (serde_shape (A := Core.Block)) (ShSum (serde_shape (A := Core.Transaction))
      (ShSum (ShArr 32) (ShSum (serde_shape (A := BlockHeader)) (ShLast (ShArr 32)))));
  to_serde m := match m with
    | NetworkMessage.Block b => inl (to_serde b)
    | NetworkMessage.Transaction tx => inr (inl (to_serde tx))
    | NetworkMessage.GetBlock h => inr (inr (inl h))
    | NetworkMessage.Header h => inr (inr (inr (inl (to_serde h))))
    | NetworkMessage.GetHeader h => inr (inr (inr (inr h)))
    end;
  from_serde d := match d with
    | inl b => NetworkMessage.Block (from_serde (A := Core.Block) b)
    | inr (inl tx) => NetworkMessage.Transaction (from_serde (A := Core.Transaction) tx)
    | inr (inr (inl h)) => NetworkMessage.GetBlock h
    | inr (inr (inr (inl h))) => NetworkMessage.Header (from_serde (A := BlockHeader) h)
    | inr (inr (inr (inr h))) => NetworkMessage.GetHeader h
    end;
  serde_wf := message_wf |}.
#[export] Instance serde_message_laws : SerdeLaws NetworkMessage.t.
Proof.
  split.
  - simpl. lia.
  - intros [b|tx|h|h|h] Hw; cbn -[serde_block serde_tx serde_header] in *; try done.
    + by rewrite (serde_from_to (A := Core.Block)).
    + by rewrite (serde_from_to (A := Core.Transaction)).
    + by rewrite (serde_from_to (A := BlockHeader)).
  - intros [b|tx|h|h|h] Hw; try done.
    + exact (serde_to_ok (A := Core.Block) b Hw).
    + exact (serde_to_ok (A := Core.Transaction) tx Hw).
    + exact (serde_to_ok (A := BlockHeader) h Hw).
  - intros [b|[tx|[h|[h|h]]]] Hw; try done.
    + exact (serde_from_wf (A := Core.Block) b Hw).
    + exact (serde_from_wf (A := Core.Transaction) tx Hw).
    + exact (serde_from_wf (A := BlockHeader) h Hw).
Qed.

Definition encode `{BincodeCrate} (m : NetworkMessage.t) : result bytes NetworkError.t :=
  Ok (serialize m).
Definition decode `{BincodeCrate} (bs : bytes) : result NetworkMessage.t NetworkError.t :=
  ok_or (deserialize bs) NetworkError.InvalidMessage.

(** ** [behaviour.rs] *)

Definition TOPIC_BLOCKS : bytes := str "ivory/blocks/1".
Definition TOPIC_TXS : bytes := str "ivory/txs/1".
Definition TOPIC_SYNC : bytes := str "ivory/sync/1".

(** ** The crate *)

(** [gossipsub::PublishError] and the display of its other cases. *)
Inductive PublishError : Type := InsufficientPeers | OtherPublishError (what : bytes).

Class Libp2pCrate := {
  Swarm : Type;
  PeerId : Type;
  Multiaddr : Type;
  PeerId_eq_dec :: EqDecision PeerId;
  swarm_publish : bytes -> bytes -> smonad Swarm PublishError unit;
  swarm_dial : Multiaddr -> smonad Swarm bytes unit;
  swarm_disconnect : PeerId -> Swarm -> Swarm;
  swarm_add_explicit : PeerId -> Swarm -> Swarm;
  swarm_remove_explicit : PeerId -> Swarm -> Swarm;
  swarm_add_address : PeerId -> Multiaddr -> Swarm -> Swarm }.

(** [sent sw] is what the swarm has handed to the mesh.  An accepted payload is
    handed over unchanged, under its topic; without peers nothing is. *)
Class Libp2pLaws `{Libp2pCrate} := {
  sent : Swarm -> list (bytes * bytes);
  dial_sent a sw : sent (swarm_dial a sw).1 = sent sw;
  publish_sent topic data sw :
    sent (swarm_publish topic data sw).1 =
    sent sw ++ match (swarm_publish topic data sw).2 with
               | Ok _ => [(topic, data)] | Err _ => [] end }.

(** ** [service.rs] *)

Section Service.
Context {BC : BincodeCrate} {LC : Libp2pCrate}.

Inductive NetworkEvent : Type :=
| BlockReceived (b : Core.Block)
| TxReceived (tx : Core.Transaction)
| BlockRequest (h : H256)
| HeaderReceived (h : BlockHeader)
| HeaderRequest (h : H256)
| PeerConnected (p : PeerId)
| PeerDisconnected (p : PeerId)
| ListenAddr (a : Multiaddr).

Inductive Command : Type :=
| BroadcastBlock (b : Core.Block)
| BroadcastHeader (h : BlockHeader)
| BroadcastTx (tx : Core.Transaction)
| RequestBlock (h : H256)
| RequestHeader (h : H256)
| Dial (a : Multiaddr).

(** [SwarmEvent<IvoryBehaviourEvent>], the cases the match names. *)
Inductive SwarmEvent : Type :=
| NewListenAddr (a : Multiaddr)
| ConnectionEstablished (p : PeerId)
| ConnectionClosed (p : PeerId)
| GossipMessage (data : bytes)
| RoutingUpdated (p : PeerId)
| IdentifyReceived (p : PeerId) (listen_addrs : list Multiaddr)
| OtherSwarmEvent.

(** The sending end of the command channel; a send fails once the task is gone. *)
Record NetworkHandle : Type := mkNetworkHandle {
  nh_queue : list Command;
  nh_stopped : bool;
  nh_peers : Z }.

Definition send (c : Command) : smonad NetworkHandle NetworkError.t unit := fun h =>
  if nh_stopped h then (h, Err NetworkError.Stopped)
  else (mkNetworkHandle (nh_queue h ++ [c]) (nh_stopped h) (nh_peers h), Ok tt).
Definition broadcast_block (b : Core.Block) := send (BroadcastBlock b).
Definition broadcast_header (h : BlockHeader) := send (BroadcastHeader h).
Definition broadcast_transaction (tx : Core.Transaction) := send (BroadcastTx tx).
Definition request_block (h : H256) := send (RequestBlock h).
Definition request_header (h : H256) := send (RequestHeader h).
Definition dial (a : Multiaddr) := send (Dial a).
Definition peer_count (h : NetworkHandle) : Z := nh_peers h.

Definition publish (topic : bytes) (msg : NetworkMessage.t) : smonad Swarm NetworkError.t unit := fun sw =>
  match encode msg with
  | Err e => (sw, Err e)
  | Ok data =>
      match swarm_publish topic data sw with
      | (sw, Ok _) => (sw, Ok tt)
      | (sw, Err InsufficientPeers) => (sw, Ok tt)
      | (sw, Err (OtherPublishError e)) => (sw, Err (NetworkError.Publish e))
      end
  end.

Definition handle_command (cmd : Command) : smonad Swarm NetworkError.t unit :=
  match cmd with
  | BroadcastBlock b =>
      publish TOPIC_BLOCKS (NetworkMessage.Header (header b)) ;;;
      publish TOPIC_BLOCKS (NetworkMessage.Block b)
  | BroadcastHeader h => publish TOPIC_BLOCKS (NetworkMessage.Header h)
  | BroadcastTx tx => publish TOPIC_TXS (NetworkMessage.Transaction tx)
  | RequestBlock h => publish TOPIC_SYNC (NetworkMessage.GetBlock h)
  | RequestHeader h => publish TOPIC_SYNC (NetworkMessage.GetHeader h)
  | Dial a => smap_err NetworkError.Swarm (swarm_dial a)
  end.

(** The state of [run_loop]. *)
Record NetService : Type := mkNetService {
  ns_swarm : Swarm;
  ns_commands : list Command;
  ns_events : list NetworkEvent;
  ns_peers : Z;
  ns_allowlist : list PeerId }.

Definition on_swarm (f : Swarm -> Swarm) (s : NetService) : NetService :=
  mkNetService (f (ns_swarm s)) (ns_commands s) (ns_events s) (ns_peers s) (ns_allowlist s).
Definition emit (e : NetworkEvent) (s : NetService) : NetService :=
  mkNetService (ns_swarm s) (ns_commands s) (ns_events s ++ [e]) (ns_peers s) (ns_allowlist s).
Definition set_peers (n : Z) (s : NetService) : NetService :=
  mkNetService (ns_swarm s) (ns_commands s) (ns_events s) n (ns_allowlist s).

(** [!allowlist.is_empty() && !allowlist.contains(&peer_id)] *)
Definition rejected (allowlist : list PeerId) (p : PeerId) : bool :=
  negb (bool_decide (allowlist = [])) && negb (bool_decide (p ∈ allowlist)).

Definition dispatch (m : NetworkMessage.t) : NetworkEvent :=
  match m with
  | NetworkMessage.Block b => BlockReceived b
  | NetworkMessage.Transaction tx => TxReceived tx
  | NetworkMessage.GetBlock h => BlockRequest h
  | NetworkMessage.Header h => HeaderReceived h
  | NetworkMessage.GetHeader h => HeaderRequest h
  end.

Definition handle_swarm_event (event : SwarmEvent) (s : NetService) : NetService :=
  match event with
  | NewListenAddr a => emit (ListenAddr a) s
  | ConnectionEstablished p =>
      if rejected (ns_allowlist s) p then on_swarm (swarm_disconnect p) s
      else
        let s := on_swarm (swarm_add_explicit p) s in
        let s := set_peers ((ns_peers s + 1) mod M64) s in
        emit (PeerConnected p) s
  | ConnectionClosed p =>
      if rejected (ns_allowlist s) p then s
      else
        let s := on_swarm (swarm_remove_explicit p) s in
        let s := set_peers (saturating_sub64 (ns_peers s) 1) s in
        emit (PeerDisconnected p) s
  | GossipMessage data =>
      match decode data with
      | Ok m => emit (dispatch m) s
      | Err _ => s
      end
  | RoutingUpdated _ => s
  | IdentifyReceived p addrs =>
      on_swarm (fun sw => foldl (fun sw a => swarm_add_address p a sw) sw addrs) s
  | OtherSwarmEvent => s
  end.

(** One turn of [select!]: a command or a swarm event, whichever is ready. *)
Inductive run_loop : NetService -> NetService -> Prop :=
| loop_command s cmd rest :
    ns_commands s = cmd :: rest ->
    run_loop s (mkNetService (handle_command cmd (ns_swarm s)).1 rest (ns_events s) (ns_peers s)
                  (ns_allowlist s))
| loop_event s event : run_loop s (handle_swarm_event event s).
End Service.

(** ** Starting the swarm *)

(** What [start] uses of the crate: building a swarm with a fresh identity and the
    three subscriptions (a failure is the builder's), listening, and addresses.
    [multiaddr_peers] is the [P2p] components of an address, in order. *)
Class Libp2pHost `{Libp2pCrate} := {
  swarm_build : result Swarm bytes;
  swarm_listen : Multiaddr -> smonad Swarm bytes unit;
  local_peer_id : Swarm -> PeerId;
  multiaddr_peers : Multiaddr -> list PeerId;
  parse_multiaddr : bytes -> option Multiaddr;
  parse_peer_id : bytes -> option PeerId;
  peer_id_text : PeerId -> bytes }.

Record NetworkConfig `{Libp2pCrate} : Type := mkNetworkConfig {
  nc_listen : Multiaddr;
  nc_bootstrap : list Multiaddr;
  nc_allowlist : list PeerId }.
Arguments mkNetworkConfig {_}.

Section Start.
Context {LC : Libp2pCrate} {LH : Libp2pHost}.

(** The default's [expect] is [None] here. *)
Definition network_config_default : option NetworkConfig :=
  listen ← parse_multiaddr (str "/ip4/127.0.0.1/tcp/0");
  Some (mkNetworkConfig listen [] []).

Definition build_swarm : result Swarm NetworkError.t := map_err NetworkError.Swarm swarm_build.
Definition peer_id_from_multiaddr (addr : Multiaddr) : option PeerId := head (multiaddr_peers addr).

(** One turn of the loop over [config.bootstrap]. *)
Definition start_dial (addr : Multiaddr) : smonad Swarm NetworkError.t unit :=
  smap_err NetworkError.Swarm (swarm_dial addr) ;;;
  match peer_id_from_multiaddr addr with
  | Some pid => smodify (swarm_add_address pid addr)
  | None => sret tt
  end.

(** The handle with its peer id, and the state [run_loop] is spawned with. *)
Definition start (config : NetworkConfig) : result (NetworkHandle * PeerId * NetService) NetworkError.t :=
  let? swarm := build_swarm in
  let '(swarm, r) :=
    (smap_err NetworkError.Swarm (swarm_listen (nc_listen config)) ;;;
     peer_id <-! sget local_peer_id ;;
     sfor (nc_bootstrap config) start_dial ;;;
     sret peer_id) swarm in
  let? peer_id := r in
  Ok (mkNetworkHandle [] false 0, peer_id, mkNetService swarm [] [] 0 (nc_allowlist config)).

Lemma start_fields config h pid s :
  start config = Ok (h, pid, s) ->
  h = mkNetworkHandle [] false 0 /\ ns_commands s = [] /\ ns_events s = [] /\ ns_peers s = 0 /\
  ns_allowlist s = nc_allowlist config.
Proof.
  unfold start. destruct build_swarm as [sw|e]; [| done]. cbn [rbind].
  match goal with |- context [?c sw] => destruct (c sw) as [sw' [p|e]] end; [| done].
  cbn [rbind]. by intros [= <- _ <-].
Qed.
End Start.

(** ** Theorems *)

Section Spec.
Context {BC : BincodeCrate} {BL : BincodeLaws} {LC : Libp2pCrate} {LL : Libp2pLaws}.

Lemma decode_encode m : message_wf m -> decode (serialize m) = Ok m.
Proof. intros Hw. unfold decode. by rewrite (deserialize_serialize (A := NetworkMessage.t)). Qed.

(** The gossip codec is a bijection on well-formed messages: encoding never
    fails, decoding gives the message back, two messages with the same encoding
    are equal, and whatever bytes a peer sends, a payload that decodes is a
    well-formed message. *)
Theorem gossip_codec :
  (forall m, message_wf m -> exists data, encode m = Ok data /\ decode data = Ok m) /\
  (forall m1 m2, message_wf m1 -> message_wf m2 -> encode m1 = encode m2 -> m1 = m2) /\
  (forall data m, decode data = Ok m -> message_wf m).
Proof.
  split_and!.
  - intros m Hw. exists (serialize m). split; [done | by apply decode_encode].
  - intros m1 m2 H1 H2 E. injection E as E. by apply (serialize_inj (A := NetworkMessage.t)).
  - intros data m E. unfold decode in E. rewrite ok_or_ok in E.
    exact (deserialize_wf (A := NetworkMessage.t) _ _ E).
Qed.

(** *** From a command to the events of the peer that hears it *)

Definition command_wf (c : Command) : Prop :=
  match c with
  | BroadcastBlock b => block_wf b
  | BroadcastHeader h => header_wf h
  | BroadcastTx tx => tx_wf tx
  | RequestBlock _ | RequestHeader _ | Dial _ => True
  end.

(** The messages a command publishes, in order, with their topics. *)
Definition command_messages (c : Command) : list (bytes * NetworkMessage.t) :=
  match c with
  | BroadcastBlock b =>
      [(TOPIC_BLOCKS, NetworkMessage.Header (header b)); (TOPIC_BLOCKS, NetworkMessage.Block b)]
  | BroadcastHeader h => [(TOPIC_BLOCKS, NetworkMessage.Header h)]
  | BroadcastTx tx => [(TOPIC_TXS, NetworkMessage.Transaction tx)]
  | RequestBlock h => [(TOPIC_SYNC, NetworkMessage.GetBlock h)]
  | RequestHeader h => [(TOPIC_SYNC, NetworkMessage.GetHeader h)]
  | Dial _ => []
  end.

Definition deliver (s : NetService) (payload : bytes * bytes) : NetService :=
  handle_swarm_event (GossipMessage payload.2) s.

(** The events those messages raise where they are heard. *)
Definition command_events (c : Command) : list NetworkEvent :=
  match c with
  | BroadcastBlock b => [HeaderReceived (header b); BlockReceived b]
  | BroadcastHeader h => [HeaderReceived h]
  | BroadcastTx tx => [TxReceived tx]
  | RequestBlock h => [BlockRequest h]
  | RequestHeader h => [HeaderRequest h]
  | Dial _ => []
  end.

(** A message as the mesh carries it. *)
Definition wire (tm : bytes * NetworkMessage.t) : bytes * bytes := (tm.1, serialize tm.2).

(** Offering messages to a swarm, one after the other: a message the swarm accepts is
    kept, one it has no peers for is passed over, any other refusal ends the
    sequence with its error.  The swarm after it, what was accepted, the outcome. *)
Fixpoint offer (ms : list (bytes * NetworkMessage.t)) (sw : Swarm) :
    Swarm * list (bytes * NetworkMessage.t) * result unit NetworkError.t :=
  match ms with
  | [] => (sw, [], Ok tt)
  | tm :: ms =>
      match swarm_publish (wire tm).1 (wire tm).2 sw with
      | (sw, Ok _) => let '(sw, accepted, r) := offer ms sw in (sw, tm :: accepted, r)
      | (sw, Err InsufficientPeers) => offer ms sw
      | (sw, Err (OtherPublishError e)) => (sw, [], Err (NetworkError.Publish e))
      end
  end.

(** The swarm accepts every one of the messages. *)
Fixpoint accepts (ms : list (bytes * NetworkMessage.t)) (sw : Swarm) : Prop :=
  match ms with
  | [] => True
  | tm :: ms => (swarm_publish (wire tm).1 (wire tm).2 sw).2 = Ok tt /\
                accepts ms (swarm_publish (wire tm).1 (wire tm).2 sw).1
  end.

Lemma offer_accepts ms sw : accepts ms sw -> exists sw', offer ms sw = (sw', ms, Ok tt).
Proof.
  revert sw; induction ms as [|tm ms IH]; intros sw H; [by exists sw |].
  destruct H as [H1 H2]. cbn [offer].
  destruct (swarm_publish (wire tm).1 (wire tm).2 sw) as [sw1 r]. simpl in H1, H2. subst r.
  destruct (IH _ H2) as [sw2 ->]. by exists sw2.
Qed.

Lemma offer_sent ms sw : sent (offer ms sw).1.1 = sent sw ++ map wire (offer ms sw).1.2.
Proof.
  revert sw; induction ms as [|tm ms IH]; intros sw; cbn [offer]; [by rewrite app_nil_r |].
  pose proof (publish_sent (wire tm).1 (wire tm).2 sw) as H.
  destruct (swarm_publish (wire tm).1 (wire tm).2 sw) as [sw1 [[]|[|e]]]; simpl in H |- *.
  - specialize (IH sw1). destruct (offer ms sw1) as [[sw2 acc] r]. simpl in *.
    rewrite IH, H, <- app_assoc. by destruct tm.
  - rewrite app_nil_r in H. by rewrite IH, H.
  - exact H.
Qed.

Lemma offer_sublist ms sw : (offer ms sw).1.2 `sublist_of` ms.
Proof.
  revert sw; induction ms as [|tm ms IH]; intros sw; cbn [offer]; [done |].
  destruct (swarm_publish (wire tm).1 (wire tm).2 sw) as [sw1 [u|[|e]]].
  - specialize (IH sw1). destruct (offer ms sw1) as [[sw2 acc] r]. by apply sublist_skip.
  - by apply sublist_cons.
  - apply sublist_nil_l.
Qed.

(** A command offers its messages, in order. *)
Lemma handle_command_offer c sw :
  (forall a, c ≠ Dial a) ->
  handle_command c sw =
  ((offer (command_messages c) sw).1.1, (offer (command_messages c) sw).2).
Proof.
  intros Hd. destruct c as [b|h|tx|h|h|a]; [| | | | |by destruct (Hd a)];
    cbn [handle_command command_messages offer]; unfold sbind, publish, encode, wire; cbn [fst snd];
    repeat match goal with |- context [swarm_publish ?t ?d ?s] =>
      destruct (swarm_publish t d s) as [? [?|[|?]]] end; done.
Qed.

Lemma deliver_messages ms s :
  Forall (fun tm => message_wf tm.2) ms ->
  foldl deliver s (map wire ms) =
  mkNetService (ns_swarm s) (ns_commands s) (ns_events s ++ map (fun tm => dispatch tm.2) ms)
    (ns_peers s) (ns_allowlist s).
Proof.
  intros Hms; revert s; induction Hms as [|[tp m] ms Hm Hms IH]; intros s; simpl.
  - rewrite app_nil_r. by destruct s.
  - rewrite IH. unfold deliver. simpl in *. rewrite decode_encode by done. simpl.
    by rewrite <- app_assoc.
Qed.

Lemma command_messages_wf c : command_wf c -> Forall (fun tm => message_wf tm.2) (command_messages c).
Proof.
  destruct c as [b| | | | |]; cbn [command_messages command_wf]; intros Hw;
    repeat (apply Forall_cons; split); try apply Forall_nil, I; try done; try exact Hw; apply Hw.
Qed.

Lemma command_dispatch c : map (fun tm => dispatch tm.2) (command_messages c) = command_events c.
Proof. by destruct c. Qed.

(** C34: What a node asks the swarm to gossip is what a listening node hears.  When
    the swarm accepts the messages of a well-formed command, exactly those messages
    are handed to the mesh, each under its topic and in order (a block after its
    header), the command succeeds, and delivering them to another node raises
    exactly the command's events there and changes nothing else.  In general the
    messages are offered one after the other: one the swarm has no peers for is
    passed over, any other refusal ends the command with its error, and the other
    node hears exactly the accepted ones.  A dial hands nothing to the mesh and
    reports the swarm's error. *)
Theorem gossip_delivered c sw (receiver : NetService) :
  command_wf c ->
  let '(sw', r) := handle_command c sw in
  let hears ms s' :=
    s' = mkNetService (ns_swarm receiver) (ns_commands receiver) (ns_events receiver ++ ms)
           (ns_peers receiver) (ns_allowlist receiver) in
  match c with
  | Dial a => sent sw' = sent sw /\ r = map_err NetworkError.Swarm (swarm_dial a sw).2
  | _ =>
      (accepts (command_messages c) sw ->
       r = Ok tt /\ sent sw' = sent sw ++ map wire (command_messages c) /\
       hears (command_events c) (foldl deliver receiver (map wire (command_messages c)))) /\
      let '(swarm, accepted, outcome) := offer (command_messages c) sw in
      sw' = swarm /\ r = outcome /\ sent sw' = sent sw ++ map wire accepted /\
      hears (map (fun tm => dispatch tm.2) accepted) (foldl deliver receiver (map wire accepted))
  end.
Proof.
  intros Hw. destruct c as [b|h|tx|h|h|a].
  6: { cbn [handle_command]. unfold smap_err. rewrite <- (dial_sent a sw).
       by destruct (swarm_dial a sw). }
  all: rewrite handle_command_offer by done;
    match goal with |- context [command_messages ?c] =>
      set (cmd := c) in *; pose proof (command_messages_wf cmd Hw) as Hms;
      pose proof (offer_sent (command_messages cmd) sw) as Hs;
      pose proof (offer_sublist (command_messages cmd) sw) as Hsub;
      pose proof (offer_accepts (command_messages cmd) sw) as Hacc
    end;
    destruct (offer (command_messages cmd) sw) as [[sw1 acc] r]; cbn [fst snd] in *;
    (split; [intros H; destruct (Hacc H) as [? [= -> -> ->]]; split_and!; [done | done |];
             rewrite <- command_dispatch; by apply deliver_messages
            | split_and!; [done | done | done |]; apply deliver_messages;
              rewrite Forall_forall in Hms |- *; intros x Hx; eapply Hms, elem_of_sublist; eauto]).
Qed.

(** *** Connections *)

(** A trace of swarm events with the connections open after it, one entry per
    connection: libp2p reports the closing of connections that were open. *)
Inductive connections : list SwarmEvent -> list PeerId -> Prop :=
| conn_start : connections [] []
| conn_open evs l p : connections evs l -> connections (evs ++ [ConnectionEstablished p]) (p :: l)
| conn_close evs l l' p :
    connections evs l -> l ≡ₚ p :: l' -> connections (evs ++ [ConnectionClosed p]) l'
| conn_other evs l e :
    connections evs l ->
    match e with ConnectionEstablished _ | ConnectionClosed _ => False | _ => True end ->
    connections (evs ++ [e]) l.

Definition run_events (s : NetService) (evs : list SwarmEvent) : NetService :=
  foldl (fun s e => handle_swarm_event e s) s evs.
Definition admitted (allow : list PeerId) (l : list PeerId) : list PeerId :=
  List.filter (fun p => negb (rejected allow p)) l.

Lemma handle_allowlist e s : ns_allowlist (handle_swarm_event e s) = ns_allowlist s.
Proof.
  destruct e as [|p|p|d| | |]; simpl; try done.
  - by destruct (rejected _ p).
  - by destruct (rejected _ p).
  - by destruct (decode d).
Qed.

Lemma run_allowlist s evs : ns_allowlist (run_events s evs) = ns_allowlist s.
Proof.
  unfold run_events. induction evs as [|e evs IH] using rev_ind; [done |].
  rewrite foldl_app. simpl. by rewrite handle_allowlist.
Qed.

Lemma filter_perm {A} (f : A -> bool) l l' : l ≡ₚ l' -> List.filter f l ≡ₚ List.filter f l'.
Proof.
  induction 1 as [|x l l' H IH|x y l|l1 l2 l3 H1 IH1 H2 IH2]; simpl; [done | | |].
  - destruct (f x); by rewrite IH.
  - destruct (f x), (f y); try done. by constructor.
  - by rewrite IH1.
Qed.

Lemma connections_length evs l : connections evs l -> (length l <= length evs)%nat.
Proof.
  induction 1 as [|evs l p H IH|evs l l' p H IH Hp|evs l e H IH He]; rewrite ?length_app; simpl in *; try lia.
  apply Permutation_length in Hp. simpl in Hp. lia.
Qed.

(** The connection counter is exact and the allowlist is enforced: after any
    sequence of swarm events, the counter the node reports is the number of open
    connections to admitted peers (its saturating decrement never saturates), and
    the node was told of connections of admitted peers only. *)
Theorem peer_counter_exact s evs l :
  connections evs l -> ns_peers s = 0 -> Z.of_nat (length evs) < M64 ->
  (forall p, PeerConnected p ∈ ns_events s -> rejected (ns_allowlist s) p = false) ->
  ns_peers (run_events s evs) = Z.of_nat (length (admitted (ns_allowlist s) l)) /\
  (forall p, PeerConnected p ∈ ns_events (run_events s evs) -> rejected (ns_allowlist s) p = false).
Proof.
  intros H Hs Hlen Hev. revert Hlen. induction H as [|evs l p H IH|evs l l' p H IH Hp|evs l e H IH He];
    intros Hlen; [done |..]; rewrite length_app in Hlen; simpl in Hlen;
    destruct IH as [IHp IHe]; try lia;
    unfold run_events in *; rewrite foldl_app; simpl; change (foldl _ s evs) with (run_events s evs) in *.
  - rewrite run_allowlist. unfold admitted in *. cbn [List.filter].
    destruct (rejected (ns_allowlist s) p) eqn:Er; cbn [negb]; [done |]. split.
    + cbn [emit set_peers on_swarm ns_peers]. rewrite IHp. pose proof (connections_length _ _ H).
      pose proof (List.filter_length_le (fun p => negb (rejected (ns_allowlist s) p)) l).
      cbn [length]. rewrite Z.mod_small by lia. lia.
    + intros q [Hq|[= ->]%list_elem_of_singleton]%elem_of_app; [by apply IHe | done].
  - rewrite run_allowlist. pose proof (filter_perm (fun p => negb (rejected (ns_allowlist s) p)) _ _ Hp) as Hf.
    apply Permutation_length in Hf. simpl in Hf. unfold admitted in *.
    destruct (rejected (ns_allowlist s) p) eqn:Er; simpl in *.
    + split; [by rewrite IHp, Hf | done].
    + split; [rewrite IHp, Hf; unfold saturating_sub64; simpl; lia |].
      intros q [Hq|Hq%list_elem_of_singleton]%elem_of_app; [by apply IHe | done].
  - assert (ns_peers (handle_swarm_event e (run_events s evs)) = ns_peers (run_events s evs) /\
            forall p, PeerConnected p ∈ ns_events (handle_swarm_event e (run_events s evs)) ->
                      PeerConnected p ∈ ns_events (run_events s evs)) as [E1 E2].
    { destruct e as [a|p|p|d|p|p addrs|]; try done; simpl.
      - split; [done |]. intros p [?|Hq%list_elem_of_singleton]%elem_of_app; done.
      - destruct (decode d) as [m|]; [| done]. split; [done |].
        intros p [?|Hq%list_elem_of_singleton]%elem_of_app; [done |]. by destruct m. }
    rewrite E1. split; [done |]. intros p Hp. apply IHe, E2, Hp.
Qed.
End Spec.

(** ** A mesh in memory, and witnesses *)

#[export] Instance memory_mesh : Libp2pCrate := {|
  Swarm := list (bytes * bytes);
  PeerId := nat;
  Multiaddr := bytes;
  swarm_publish topic data := smodify (fun log => log ++ [(topic, data)]);
  swarm_dial _ := sret tt;
  swarm_disconnect _ sw := sw;
  swarm_add_explicit _ sw := sw;
  swarm_remove_explicit _ sw := sw;
  swarm_add_address _ _ sw := sw |}.
#[export] Instance memory_mesh_laws : Libp2pLaws.
Proof. by refine (@Build_Libp2pLaws memory_mesh (fun log : list (bytes * bytes) => log) _ _). Defined.

(** Peer ids are one decimal digit, and an address names at most one peer. *)
Definition digit_peer (text : bytes) : option nat :=
  match text with
  | [b] => let d := byte_val b - 48 in if (0 <=? d) && (d <? 10) then Some (Z.to_nat d) else None
  | _ => None
  end.
#[export] Instance memory_host : Libp2pHost (H := memory_mesh) := {|
  swarm_build := Ok [];
  swarm_listen _ := sret tt;
  local_peer_id _ := 0%nat;
  multiaddr_peers a := match digit_peer a with Some p => [p] | None => [] end;
  parse_multiaddr a := match a with [] => None | _ => Some a end;
  parse_peer_id := digit_peer;
  peer_id_text p := [byte_of_Z (48 + Z.of_nat p)] |}.

Definition quiet_service (allow : list nat) : NetService (LC := memory_mesh) :=
  mkNetService (LC := memory_mesh) [] [] [] 0 allow.

Lemma gossip_codec_witness :
  exists data, encode (NetworkMessage.Block chain_g) = Ok data /\
               decode data = Ok (NetworkMessage.Block chain_g).
Proof.
  apply (proj1 gossip_codec (NetworkMessage.Block chain_g)). apply sample_child_wf; unfold u64_ok; lia.
Defined.

Lemma gossip_delivered_witness :
  let '(sw', r) := handle_command (LC := memory_mesh) (BroadcastBlock chain_g) [] in
  r = Ok tt /\ length sw' = 2%nat /\
  ns_events (foldl deliver (quiet_service []) sw') =
    [HeaderReceived (header chain_g); BlockReceived chain_g].
Proof.
  assert (command_wf (LC := memory_mesh) (BroadcastBlock chain_g)) as Hw
    by (apply sample_child_wf; unfold u64_ok; lia).
  pose proof (gossip_delivered (LC := memory_mesh) (BroadcastBlock chain_g) [] (quiet_service []) Hw) as H.
  destruct (handle_command (LC := memory_mesh) (BroadcastBlock chain_g) []) as [sw' r].
  destruct H as [H _]. destruct (H (conj eq_refl (conj eq_refl I))) as (Hr & Hs & He).
  cbn [sent memory_mesh_laws app] in Hs. rewrite Hs.
  split; [exact Hr | split; [reflexivity | rewrite He; reflexivity]].
Defined.

Lemma peer_counter_exact_witness :
  ns_peers (run_events (quiet_service [1%nat])
    [ConnectionEstablished 1%nat; ConnectionEstablished 2%nat; ConnectionEstablished 1%nat;
     ConnectionClosed 2%nat; ConnectionClosed 1%nat]) = 1.
Proof.
  refine (proj1 (peer_counter_exact (quiet_service [1%nat]) _ [1%nat] _ eq_refl _ _)).
  - apply (conn_close (LC := memory_mesh) [_; _; _; _] [1%nat; 1%nat]); [| reflexivity].
    apply (conn_close (LC := memory_mesh) [_; _; _] [1%nat; 2%nat; 1%nat]); [| constructor].
    apply (conn_open (LC := memory_mesh) [_; _] [2%nat; 1%nat]). apply (conn_open (LC := memory_mesh) [_] [1%nat]).
    apply (conn_open (LC := memory_mesh) [] []), conn_start.
  - cbn. lia.
  - intros p H. cbn in H. by apply elem_of_nil in H.
Defined.
