(* ===== verification/Config.v ===== *)
(** * Configuration and genesis: [bin/ivory/src/config.rs]

    A configuration string is its UTF-8 bytes; the TOML and JSON files are read
    by their crates into the records below.  The [alloc] map of the genesis file
    is the list of its entries in the order its [HashMap] iterates them, which is
    unspecified.  [init_datadir_with] draws a key and writes three files; the
    genesis file it writes for a key is [init_genesis]. *)

From S2P Require Import Prelude Hex Text Uint UintFacts UintProps Hash Address Bincode Core.
From S2P Require Import Trie State StateProps Crypto Vm Executor Consensus Store StoreProps.
#[local] Open Scope Z_scope.

Module ConfigError.
Inductive t : Type :=
| UnknownRole (role : bytes)
| ValidatorAddress (e : PrimitiveError)
| PublicKeyHex (e : PrimitiveError)
| AllocAddress (e : PrimitiveError)
| AllocBalanceHex (e : PrimitiveError)
| AllocBalanceDecimal
| GenesisExtraData
| SecretKeyHex (e : PrimitiveError)
| SecretKey (e : CryptoError)
| Consensus (e : ConsensusError.t).
End ConfigError.

(** ** Roles *)

Inductive ServerRole : Type := Master | Slave.
#[export] Instance ServerRole_eq_dec : EqDecision ServerRole.
Proof. solve_decision. Defined.

Module ServerRole.
Definition parse (s : bytes) : result ServerRole ConfigError.t :=
  let s := to_ascii_lowercase (trim s) in
  if bool_decide (s ∈ [str "master"; str "validator"; str "producer"]) then Ok Master
  else if bool_decide (s ∈ [str "slave"; str "follower"]) then Ok Slave
  else Err (ConfigError.UnknownRole s).
Definition as_str (r : ServerRole) : bytes :=
  match r with Master => str "master" | Slave => str "slave" end.
Definition may_produce (r : ServerRole) : bool :=
  match r with Master => true | Slave => false end.
End ServerRole.

(** ** The files *)

Record NodeFileConfig : Type := mkNodeFileConfig {
  chain_id : Z;
  rpc_addr : bytes;
  p2p_listen : bytes;
  bootstrap : list bytes;
  block_interval_ms : Z;
  contracts_dir : bytes;
  role : ServerRole;
  p2p_allowlist : list bytes;
  archive : bool;
  archive_keep : Z;
  rpc_read_addr : bytes }.

Definition default_archive : bool := true.
Definition default_archive_keep : Z := 256.
Definition node_config_default : NodeFileConfig :=
  mkNodeFileConfig 1 (str "127.0.0.1:8545") (str "/ip4/127.0.0.1/tcp/0") [] 2000 [] Master [] true 256 [].

Record GenesisValidator : Type := mkGenesisValidator { gv_address : bytes; gv_public_key : bytes }.
Record GenesisFile : Type := mkGenesisFile {
  gf_timestamp : Z;
  gf_gas_limit : Z;
  gf_validator : GenesisValidator;
  gf_extra_data : bytes;
  gf_alloc : list (bytes * bytes) }.

(** [for x in l { out.push(f(x)?) }] *)
Fixpoint try_map {A B E} (f : A -> result B E) (l : list A) : result (list B) E :=
  match l with
  | [] => Ok []
  | x :: l => let? y := f x in let? ys := try_map f l in Ok (y :: ys)
  end.

Lemma try_map_ok {A B E} (f : A -> result B E) l ys :
  try_map f l = Ok ys <-> Forall2 (fun x y => f x = Ok y) l ys.
Proof.
  revert ys; induction l as [|x l IH]; intros ys; simpl.
  - split; [intros [= <-]; constructor | intros H; by inversion H].
  - rewrite rbind_ok. split.
    + intros (y & Hy & H). apply rbind_ok in H as (ys' & Hys & [= <-]). constructor; [done | by apply IH].
    + intros H. inversion H as [|? y ? ys' Hy Hys]; subst. exists y. split; [done |].
      apply IH in Hys as ->. done.
Qed.

Section Config.
Context {HC : HexCrate} {BC : BincodeCrate} {SC : Sha3Crate} {EC : Ed25519Crate}.

Definition parse_u256 (s : bytes) : result U256 ConfigError.t :=
  if bool_decide (is_Some (strip_prefix (str "0x") s)) || bool_decide (is_Some (strip_prefix (str "0X") s))
  then map_err ConfigError.AllocBalanceHex (U256.from_hex s)
  else let? n := ok_or (parse_u128 s) ConfigError.AllocBalanceDecimal in Ok (U256.from_u128 n).

Definition parse_public_key (s : bytes) : result PublicKey ConfigError.t :=
  let? h := map_err ConfigError.PublicKeyHex (Hash.from_hex (n := 32) s) in
  Ok (PublicKey.from_bytes (hash_bytes h)).

(** [s.trim_start_matches("0x")]: a repeated two-character pattern. *)
Definition trim_0x (s : bytes) : bytes := trim_loop [str "0x"] (length s) s.

Definition poa_config (g : GenesisFile) : result PoAConfig ConfigError.t :=
  let? pk := parse_public_key (gv_public_key (gf_validator g)) in
  let? address :=
    map_err ConfigError.ValidatorAddress
      (match Address.from_hex (gv_address (gf_validator g)) with
       | Ok a => Ok a
       | Err _ => Address.from_hex (str "0x" ++ trim_0x (gv_address (gf_validator g)))
       end) in
  Ok (poa_single (mkValidator address pk)).

Definition parse_alloc_entry (e : bytes * bytes) : result (Address * U256) ConfigError.t :=
  let? address := map_err ConfigError.AllocAddress (Address.from_hex e.1) in
  let? balance := parse_u256 e.2 in
  Ok (address, balance).
Definition parsed_alloc (g : GenesisFile) : result (list (Address * U256)) ConfigError.t :=
  try_map parse_alloc_entry (gf_alloc g).

(** The loop shared by [alloc_state_root] and [run_node]. *)
Definition alloc_state (entries : list (Address * U256)) : StateDB :=
  foldl (fun s e => StateDB.set_account e.1 (with_balance e.2 account_new) s) StateDB.new entries.
Definition alloc_state_root (g : GenesisFile) : result H256 ConfigError.t :=
  let? entries := parsed_alloc g in
  Ok (StateDB.root_hash (alloc_state entries)).2.

(** [load_secret_key] on the text of the file, and what [write_secret_key] writes. *)
Definition parse_secret_key (text : bytes) : result SecretKey ConfigError.t :=
  let? h := map_err ConfigError.SecretKeyHex (Hash.from_hex (n := 32) (trim text)) in
  map_err ConfigError.SecretKey (secret_from_bytes h).
Definition secret_key_text (sk : SecretKey) : bytes := SecretKey.to_hex sk.

(** [init_datadir_with] after [generate_keypair]. *)
Definition init_header (addr : Address) : BlockHeader :=
  let '(tx_root, rx_root) := empty_list_roots in
  let state := StateDB.set_account addr (with_balance (U256.from_u128 1000000000000000000) account_new)
                 StateDB.new in
  mkBlockHeader 0 H256.ZERO 1 addr 30000000 0 (StateDB.root_hash state).2 tx_root rx_root U256.ZERO [].
Definition init_genesis (sk : SecretKey) : result GenesisFile ConfigError.t :=
  let pk := public_key_from_secret sk in
  let addr := address_from_secret sk in
  let? poa := map_err ConfigError.Consensus (poa_from_secret sk) in
  let? header :=
    map_err ConfigError.Consensus
      (seal_header (ConsensusEngine := poa_engine poa) (init_header addr) addr sk) in
  Ok (mkGenesisFile 1 30000000 (mkGenesisValidator (Address.to_hex addr) (PublicKey.to_hex pk))
        (str "0x" ++ hex_encode (extra_data header))
        [(Address.to_hex addr, str "1000000000000000000")]).

(** ** [genesis_block] of [node.rs] *)

Definition decode_extra (s : bytes) : result bytes ConfigError.t :=
  ok_or (hex_decode (strip_0x s)) ConfigError.GenesisExtraData.

Definition genesis_block (g : GenesisFile) : result Block ConfigError.t :=
  let? miner := map_err ConfigError.ValidatorAddress (Address.from_hex (gv_address (gf_validator g))) in
  let? extra := decode_extra (gf_extra_data g) in
  let '(tx_root, rx_root) := empty_list_roots in
  let? root := alloc_state_root g in
  Ok (mkBlock (mkBlockHeader 0 H256.ZERO (gf_timestamp g) miner (gf_gas_limit g) 0 root tx_root rx_root
                 U256.ZERO extra) [] []).
End Config.
