(* ===== verification/ConfigProps.v ===== *)
(** * Configuration and genesis: theorems *)

From S2P Require Import Prelude Hex Text Uint UintFacts UintProps Hash Address Bincode Core.
From S2P Require Import Trie State StateProps Crypto Vm Executor Consensus Store StoreProps StoreSpec.
From S2P Require Import Persist PersistProps Config.
#[local] Open Scope Z_scope.

Section Spec.
Context {HC : HexCrate} {HL : HexLaws} {BC : BincodeCrate} {SC : Sha3Crate}.
Context {EC : Ed25519Crate} {EL : Ed25519Laws}.

Definition init_balance : U256 := U256.from_u128 1000000000000000000.

Lemma parse_init_balance : parse_u256 (str "1000000000000000000") = Ok init_balance.
Proof. reflexivity. Qed.

Lemma public_key_text pk : parse_public_key (PublicKey.to_hex pk) = Ok pk.
Proof.
  unfold parse_public_key, PublicKey.to_hex. rewrite hash_from_to_hex. simpl.
  unfold PublicKey.from_bytes, Hash.from_bytes. rewrite fit_hash_bytes. by destruct pk.
Qed.

Lemma decode_extra_text bs : decode_extra (str "0x" ++ hex_encode bs) = Ok bs.
Proof.
  unfold decode_extra. rewrite strip_0x_prefixed, hex_decode_spec, hex_encode_spec.
  by rewrite spec_decode_encode.
Qed.

(** The header [init_datadir_with] seals. *)
Definition init_sealed (sk : SecretKey) : BlockHeader :=
  let h := with_miner (address_from_secret sk) (init_header (address_from_secret sk)) in
  with_extra (Signature.as_bytes (sign (hash_bytes (seal_hash h)) sk)) h.
Definition init_poa (sk : SecretKey) : PoAConfig := poa_single (validator_from_secret sk).

Lemma init_validator sk : poa_is_validator (init_poa sk) (address_from_secret sk) = true.
Proof. unfold poa_is_validator. simpl. by rewrite bool_decide_true. Qed.

Lemma init_genesis_file sk :
  init_genesis sk =
  Ok (mkGenesisFile 1 30000000
        (mkGenesisValidator (Address.to_hex (address_from_secret sk))
           (PublicKey.to_hex (public_key_from_secret sk)))
        (str "0x" ++ hex_encode (extra_data (init_sealed sk)))
        [(Address.to_hex (address_from_secret sk), str "1000000000000000000")]).
Proof.
  unfold init_genesis. change (poa_from_secret sk) with (@Ok PoAConfig ConsensusError.t (init_poa sk)).
  cbn [map_err rbind]. change (seal_header (init_header _) _ sk) with
    (poa_seal_header (init_poa sk) (init_header (address_from_secret sk)) (address_from_secret sk) sk).
  assert (poa_seal_header (init_poa sk) (init_header (address_from_secret sk)) (address_from_secret sk) sk
          = Ok (init_sealed sk)) as ->; [| done].
  apply poa_seal_ok. split_and!; [apply init_validator | done | done].
Qed.

Lemma init_sealed_wf sk : header_wf (init_sealed sk).
Proof.
  unfold header_wf, init_sealed, init_header, vec_ok, u64_ok, Signature.as_bytes. simpl.
  rewrite hash_length. split_and!; try lia. apply u256_wf_mk; unfold u64_ok; lia.
Qed.

Lemma init_sealed_valid sk :
  let b := mkBlock (init_sealed sk) [] [] in
  linkable (BlockStore.new (init_poa sk)) (header b) /\ validate b = Ok tt.
Proof.
  split.
  - unfold linkable. rewrite decide_True by done. split; [done |]. apply poa_validate_ok.
    split_and!; [apply init_validator | done |]. unfold init_sealed. cbv zeta. cbn [header].
    assert (validator_from_secret sk ∈ validators (init_poa sk)) as Hin by (by left).
    assert (required_signatures (init_poa sk) ≠ O) as Hreq by discriminate.
    exact (sealed_verifies (init_poa sk) (init_header (address_from_secret sk)) (address_from_secret sk)
             sk Hin eq_refl Hreq).
  - unfold validate. simpl. rewrite !decide_False by tauto. done.
Qed.

(** The genesis file of a key, read back. *)
Definition init_block (sk : SecretKey) : Block := mkBlock (init_sealed sk) [] [].

Lemma init_boot sk :
  exists g,
    init_genesis sk = Ok g /\ genesis_block g = Ok (init_block sk) /\
    poa_config g = Ok (init_poa sk) /\
    parsed_alloc g = Ok [(address_from_secret sk, init_balance)] /\
    state_root (header (init_block sk)) =
      (StateDB.root_hash (alloc_state [(address_from_secret sk, init_balance)])).2 /\
    exists s o, BlockStore.insert_genesis (init_block sk) (BlockStore.new (init_poa sk)) = (s, Ok o) /\
      bs_head s = Some (block_hash (init_block sk)) /\ by_hash s = {[ block_hash (init_block sk) := init_block sk ]} /\ consensus s = init_poa sk.
Proof.
  destruct (init_sealed_valid sk) as [Hl Hv]. pose proof (init_sealed_wf sk) as Hw.
  change (mkBlock (init_sealed sk) [] []) with (init_block sk) in *.
  set (b := init_block sk) in *.
  eexists. split; [apply init_genesis_file |].
  assert (poa_config (mkGenesisFile 1 30000000
        (mkGenesisValidator (Address.to_hex (address_from_secret sk))
           (PublicKey.to_hex (public_key_from_secret sk)))
        (str "0x" ++ hex_encode (extra_data (init_sealed sk)))
        [(Address.to_hex (address_from_secret sk), str "1000000000000000000")]) = Ok (init_poa sk)) as Hpoa.
  { unfold poa_config. cbn [gf_validator gv_public_key gv_address].
    by rewrite public_key_text, address_from_to_hex. }
  assert (try_map parse_alloc_entry [(Address.to_hex (address_from_secret sk), str "1000000000000000000")]
          = Ok [(address_from_secret sk, init_balance)]) as Halloc.
  { cbn [try_map]. unfold parse_alloc_entry. cbn [fst snd]. rewrite address_from_to_hex.
    cbn [map_err rbind]. by rewrite parse_init_balance. }
  split_and!; [| exact Hpoa | exact Halloc | done |].
  - unfold genesis_block, alloc_state_root, parsed_alloc.
    cbn [gf_validator gf_extra_data gf_alloc gv_address gf_timestamp gf_gas_limit].
    rewrite address_from_to_hex. cbn [map_err rbind]. rewrite decode_extra_text. cbn [rbind].
    rewrite Halloc. done.
  - destruct (insert_genesis_cases (BlockStore.new (init_poa sk)) b eq_refl)
      as [(e & _ & Hno)|(_ & _ & E)]; [by destruct Hno |].
    destruct (insert_extends (BlockStore.new (init_poa sk)) b) as (s & o & Ei & _ & Hb & _ & Hc & Hh);
      [apply new_store_inv | exact Hw | exact Hl | apply lookup_empty | reflexivity |].
    exists s, o. rewrite E. split_and!; [done | done | by rewrite Hb | done].
Qed.

(** A freshly initialised data directory starts: for every key, the genesis
    file [init_datadir_with] writes is read back to the block it sealed, to a
    validator set of that key alone and to the single funded account; the block
    names the state root of that allocation, and an empty store accepts it as the
    head of the chain. *)
Theorem init_genesis_boots sk :
  exists g b,
    init_genesis sk = Ok g /\ genesis_block g = Ok b /\ header b = init_sealed sk /\
    poa_config g = Ok (init_poa sk) /\
    parsed_alloc g = Ok [(address_from_secret sk, init_balance)] /\
    state_root (header b) =
      (StateDB.root_hash (alloc_state [(address_from_secret sk, init_balance)])).2 /\
    exists s o, BlockStore.insert_genesis b (BlockStore.new (init_poa sk)) = (s, Ok o) /\
      bs_head s = Some (block_hash b) /\ by_hash s = {[ block_hash b := b ]}.
Proof.
  destruct (init_boot sk) as (g & H1 & H2 & H3 & H4 & H5 & s & o & H6 & H7 & H8 & _).
  exists g, (init_block sk). split_and!; try done. by exists s, o.
Qed.

(** *** The allocation does not depend on the iteration order *)

Lemma alloc_state_app l1 l2 : alloc_state (l1 ++ l2) =
  foldl (fun s e => StateDB.set_account e.1 (with_balance e.2 account_new) s) (alloc_state l1) l2.
Proof. apply foldl_app. Qed.

(** The funded account: no slots, so no storage root. *)
Definition funded (b : U256) : Account := with_balance b account_new.

Lemma alloc_state_storage l : storage (alloc_state l) = ∅ /\ code (alloc_state l) = ∅.
Proof.
  induction l as [|e l IH] using rev_ind; [done |]. by rewrite alloc_state_app.
Qed.

Lemma alloc_state_accounts l a :
  accounts (alloc_state l) !! a =
  funded <$> foldl (fun acc e => if decide (e.1 = a) then Some e.2 else acc) None l.
Proof.
  induction l as [|[a' b] l IH] using rev_ind; [done |].
  rewrite alloc_state_app, foldl_app. cbn [foldl fst snd].
  unfold StateDB.set_account, StateDB.set_accounts. cbn [accounts].
  rewrite storage_root_none by (intros; by rewrite (proj1 (alloc_state_storage l)), lookup_empty).
  destruct (decide (a' = a)) as [->|Hne]; [by rewrite lookup_insert_eq | by rewrite lookup_insert_ne].
Qed.

Lemma alloc_last l a b :
  NoDup (map fst l) ->
  foldl (fun acc (e : Address * U256) => if decide (e.1 = a) then Some e.2 else acc) None l = Some b <->
  (a, b) ∈ l.
Proof.
  induction l as [|[a' b'] l IH] using rev_ind; intros Hnd.
  { simpl. split; [done | by intros ?%elem_of_nil]. }
  rewrite map_app in Hnd. apply NoDup_app in Hnd as (Hnd & Hd & _).
  rewrite foldl_app, elem_of_app, list_elem_of_singleton. cbn [foldl fst snd].
  destruct (decide (a' = a)) as [->|Hne].
  - split; [intros [= ->]; by right |]. intros [Hin|[= ->]]; [| done].
    destruct (Hd a); [| simpl; by left]. rewrite list_elem_of_In, in_map_iff. exists (a, b).
    by rewrite <- list_elem_of_In.
  - rewrite IH by done. split; [by left |]. intros [?|[= ->]]; done.
Qed.

(** The genesis allocation is well defined: whatever order the [HashMap] of
    the genesis file is iterated in, an allocation whose keys parse to pairwise
    distinct addresses gives the same state and the same state root, in which
    every listed account holds its balance and no other account exists. *)
Theorem alloc_order_irrelevant (g g' : GenesisFile) entries :
  gf_alloc g ≡ₚ gf_alloc g' -> parsed_alloc g = Ok entries -> NoDup (map fst entries) ->
  alloc_state_root g' = alloc_state_root g /\
  (exists entries', parsed_alloc g' = Ok entries' /\ alloc_state entries' = alloc_state entries) /\
  (forall a b, (a, b) ∈ entries <->
     StateDB.get_account (alloc_state entries) a = Some (with_balance b account_new)) /\
  (forall a acc, StateDB.get_account (alloc_state entries) a = Some acc -> exists b, acc = with_balance b account_new).
Proof.
  intros Hp He Hnd. unfold alloc_state_root, parsed_alloc in *.
  apply try_map_ok in He as Hf. destruct (Permutation_Forall2 Hp Hf) as (es & Hes & Hf').
  apply try_map_ok in Hf'. rewrite Hf', He. cbn [rbind].
  assert (NoDup (map fst es)) as Hnd' by by rewrite <- Hes.
  assert (alloc_state es = alloc_state entries) as E.
  { destruct (alloc_state_storage es) as [S1 C1], (alloc_state_storage entries) as [S2 C2].
    apply state_eq; [| congruence..]. apply map_eq. intros a. rewrite !alloc_state_accounts. f_equal.
    apply option_eq. intros b. rewrite !alloc_last by done. by rewrite Hes. }
  split_and!; [by rewrite E | eauto | |].
  - intros a b. unfold StateDB.get_account. rewrite alloc_state_accounts, <- alloc_last by done.
    destruct (foldl _ None entries) as [b'|]; [| done]. simpl. unfold funded, with_balance.
    split; [by intros [= ->] | by intros [= ->]].
  - intros a acc. unfold StateDB.get_account. rewrite alloc_state_accounts.
    intros (b & _ & ->)%fmap_Some. by exists b.
Qed.

(** *** Key files and roles *)

Lemma spec_encode_last bs : bs ≠ [] -> exists s d, spec_encode bs = s ++ [hex_digit d] /\ 0 <= d < 16.
Proof.
  intros Hne. destruct (exists_last Hne) as (bs' & b & ->).
  exists (spec_encode bs' ++ [hex_digit (byte_val b / 16)]), (byte_val b mod 16).
  split; [| apply Z.mod_pos_bound; lia].
  unfold spec_encode. rewrite flat_map_app. simpl. by rewrite <- !app_assoc.
Qed.

(** What [write_secret_key] writes, [load_secret_key] reads back; a trailing
    newline does not matter.  Role names written to the configuration are read
    back, and only a master may produce. *)
Theorem key_and_role_files sk r :
  parse_secret_key (secret_key_text sk) = Ok sk /\
  parse_secret_key (secret_key_text sk ++ [x0a]) = Ok sk /\
  ServerRole.parse (ServerRole.as_str r) = Ok r /\
  (ServerRole.may_produce r = true <-> ServerRole.parse (str " Master ") = Ok r).
Proof.
  assert (exists s d, secret_key_text sk = x30 :: s ++ [hex_digit d] /\ 0 <= d < 16) as (s & d & Es & Hd).
  { unfold secret_key_text, SecretKey.to_hex, Hash.to_hex. rewrite hex_encode_spec.
    destruct (spec_encode_last (hash_bytes (secret_key_h256 sk))) as (s & d & -> & Hd).
    { intros E. apply (f_equal length) in E. by rewrite hash_length in E. }
    exists (x78 :: s), d. done. }
  assert (trim (secret_key_text sk) = secret_key_text sk) as Ht.
  { apply trim_id; rewrite Es; [done |]. rewrite app_comm_cons, rev_app_distr. simpl.
    by apply hex_digit_not_space. }
  assert (Hash.from_hex (n := 32) (secret_key_text sk) = Ok (secret_key_h256 sk)) as Hh
    by apply hash_from_to_hex.
  assert (mkSecretKey (secret_key_h256 sk) = sk) as Esk by by destruct sk.
  split_and!.
  - unfold parse_secret_key. rewrite Ht, Hh. simpl. by rewrite Esk.
  - unfold parse_secret_key.
    replace (trim (secret_key_text sk ++ [x0a])) with (secret_key_text sk); [rewrite Hh; simpl; by rewrite Esk |].
    rewrite Es. unfold trim, trim_start. rewrite trim_loop_id by done. unfold trim_end.
    rewrite (rev_app_distr (x30 :: s ++ [hex_digit d])), length_app. cbn [length].
    rewrite Nat.add_1_r. set (t := x30 :: s ++ [hex_digit d]).
    assert (rev t = hex_digit d :: rev (x30 :: s)) as Et.
    { unfold t. by rewrite (app_comm_cons s), rev_app_distr. }
    change (t = rev (trim_loop (map (@rev byte) white_space) (length t) (rev t))).
    rewrite trim_loop_id; [by rewrite rev_involutive |]. rewrite Et. by apply hex_digit_not_space.
  - by destruct r.
  - destruct r; split; done.
Qed.
End Spec.

(** ** Witnesses *)

Definition sample_genesis_file (alloc : list (bytes * bytes)) : GenesisFile :=
  mkGenesisFile 1 30000000 (mkGenesisValidator (str "0x00") (str "0x00")) [] alloc.
Definition sample_alloc_key (b : byte) : bytes := str "0x" ++ hex_encode (replicate 20 b).

Lemma alloc_order_irrelevant_witness :
  alloc_state_root (sample_genesis_file [(sample_alloc_key x02, str "7"); (sample_alloc_key x01, str "0x05")]) =
  alloc_state_root (sample_genesis_file [(sample_alloc_key x01, str "0x05"); (sample_alloc_key x02, str "7")]).
Proof.
  refine (proj1 (alloc_order_irrelevant
    (sample_genesis_file [(sample_alloc_key x01, str "0x05"); (sample_alloc_key x02, str "7")])
    (sample_genesis_file [(sample_alloc_key x02, str "7"); (sample_alloc_key x01, str "0x05")])
    [(mkAddress (Hash.from_bytes (replicate 20 x01)), U256.from_u64 5);
     (mkAddress (Hash.from_bytes (replicate 20 x02)), U256.from_u64 7)] _ _ _)).
  - apply perm_swap.
  - vm_compute. reflexivity.
  - apply (bool_decide_unpack _). vm_compute. reflexivity.
Defined.

Lemma init_genesis_boots_witness :
  exists g, init_genesis (mkSecretKey (Hash.from_bytes (replicate 32 x01))) = Ok g.
Proof.
  destruct (init_genesis_boots (mkSecretKey (Hash.from_bytes (replicate 32 x01)))) as (g & b & E & _).
  exists g. exact E.
Defined.

Lemma key_and_role_files_witness :
  parse_secret_key (secret_key_text (mkSecretKey (Hash.from_bytes (replicate 32 x01))) ++ [x0a]) =
  Ok (mkSecretKey (Hash.from_bytes (replicate 32 x01))).
Proof. exact (proj1 (proj2 (key_and_role_files _ Master))). Defined.

(** Two spellings of one address are two keys of the map, and the balance that
    wins depends on which one is iterated last. *)
Example alloc_spelling_race :
  let upper := str "0xAA" ++ hex_encode (replicate 19 x01) in
  let lower := str "0xaa" ++ hex_encode (replicate 19 x01) in
  match alloc_state_root (sample_genesis_file [(upper, str "1"); (lower, str "2")]),
        alloc_state_root (sample_genesis_file [(lower, str "2"); (upper, str "1")]) with
  | Ok r1, Ok r2 => bool_decide (r1 = r2)
  | _, _ => true
  end = false.
Proof. vm_compute. reflexivity. Qed.
