(* ===== verification/Path.v ===== *)
(** * Paths and files: what the sources use of [std::path] and [std::fs]

    A path is its text, as on Unix.  [components] is the iterator most of the
    [Path] methods go through.  A file system without links is a tree of absolute
    names: [..] is resolved by dropping a name. *)

From S2P Require Import Prelude Hex Text Bincode.
From stdpp Require Import gmap.
#[local] Open Scope Z_scope.

Definition is_sep (c : byte) : bool := bool_decide (c = x2f).

(** [str::split('/')] *)
Fixpoint split_sep (p : bytes) : list bytes :=
  match p with
  | [] => [[]]
  | c :: p =>
      if is_sep c then [] :: split_sep p
      else match split_sep p with
           | [] => [[c]]
           | x :: xs => (c :: x) :: xs
           end
  end.

Inductive Component : Type := RootDir | CurDir | ParentDir | Normal (s : bytes).
#[export] Instance Component_eq_dec : EqDecision Component.
Proof. solve_decision. Defined.

Module Path.
Definition is_absolute (p : bytes) : bool := match p with c :: _ => is_sep c | [] => false end.

Definition component (s : bytes) : option Component :=
  if decide (s = [] \/ s = str ".") then None
  else if decide (s = str "..") then Some ParentDir
  else Some (Normal s).
Definition components (p : bytes) : list Component :=
  (if is_absolute p then [RootDir]
   else if bool_decide (head (split_sep p) = Some (str ".")) then [CurDir] else []) ++
  omap component (split_sep p).

Definition join (p q : bytes) : bytes :=
  if is_absolute q then q
  else match last p with
       | None => q
       | Some c => if is_sep c then p ++ q else p ++ [x2f] ++ q
       end.

(** Trailing separators and [/.], on the reversed text; a lone root stays. *)
Fixpoint trim_right (r : bytes) : bytes :=
  match r with
  | x2f :: (_ :: _) as r' => trim_right r'
  | x2e :: (x2f :: _) as r' => trim_right r'
  | _ => r
  end.
Fixpoint drop_name (r : bytes) : bytes :=
  match r with
  | [] => []
  | c :: r' => if is_sep c then r else drop_name r'
  end.
Definition parent (p : bytes) : option bytes :=
  match last (components p) with
  | None | Some RootDir => None
  | Some _ => Some (rev (trim_right (drop_name (trim_right (rev p)))))
  end.

Definition file_name (p : bytes) : option bytes :=
  match last (components p) with Some (Normal s) => Some s | _ => None end.

(** The last dot of a name: what is before it and what is after it. *)
Fixpoint rsplit_dot (s : bytes) : option (bytes * bytes) :=
  match s with
  | [] => None
  | c :: s =>
      match rsplit_dot s with
      | Some (a, b) => Some (c :: a, b)
      | None => if decide (c = x2e) then Some ([], s) else None
      end
  end.
Definition file_stem (p : bytes) : option bytes :=
  name ← file_name p;
  match rsplit_dot name with
  | None | Some ([], _) => Some name
  | Some (stem, _) => Some stem
  end.
Definition extension (p : bytes) : option bytes :=
  name ← file_name p;
  match rsplit_dot name with
  | None | Some ([], _) => None
  | Some (_, ext) => Some ext
  end.
(** [OsStr::to_str] *)
Definition to_str (s : bytes) : option bytes := if utf8_ok s then Some s else None.

(** [PathBuf]s are equal and ordered by their components. *)
Definition component_rank (c : Component) : Z :=
  match c with RootDir => 1 | CurDir => 2 | ParentDir => 3 | Normal _ => 4 end.
Definition component_compare (a b : Component) : comparison :=
  match a, b with
  | Normal s, Normal t => bytes_compare s t
  | _, _ => Z.compare (component_rank a) (component_rank b)
  end.
Fixpoint components_compare (a b : list Component) : comparison :=
  match a, b with
  | [], [] => Eq
  | [], _ :: _ => Lt
  | _ :: _, [] => Gt
  | x :: a, y :: b =>
      match component_compare x y with Eq => components_compare a b | c => c end
  end.
Definition compare (p q : bytes) : comparison := components_compare (components p) (components q).
Definition eqb (p q : bytes) : bool := bool_decide (components p = components q).

(** [Vec<PathBuf>::sort], which is stable, and [dedup]. *)
Fixpoint insert_sorted (p : bytes) (l : list bytes) : list bytes :=
  match l with
  | [] => [p]
  | q :: l' => match compare p q with Gt => q :: insert_sorted p l' | _ => p :: l end
  end.
Definition sort (l : list bytes) : list bytes := foldr insert_sorted [] l.
Fixpoint dedup_from (p : bytes) (l : list bytes) : list bytes :=
  match l with
  | [] => [p]
  | q :: l => if eqb p q then dedup_from p l else p :: dedup_from q l
  end.
Definition dedup (l : list bytes) : list bytes :=
  match l with [] => [] | p :: l => dedup_from p l end.
End Path.

(** ** Files *)

Inductive IoError : Type := NotFound | NotAFile | NotADirectory | InvalidUtf8.

Record Fs : Type := mkFs {
  fs_cwd : list bytes;
  fs_files : gmap (list bytes) bytes;
  fs_dirs : gset (list bytes) }.

Module Fs.
Definition resolve_step (acc : list bytes) (c : Component) : list bytes :=
  match c with
  | RootDir => []
  | CurDir => acc
  | ParentDir => take (pred (length acc)) acc
  | Normal s => acc ++ [s]
  end.
Definition resolve (f : Fs) (p : bytes) : list bytes := foldl resolve_step (fs_cwd f) (Path.components p).

Definition is_file (f : Fs) (p : bytes) : bool := bool_decide (is_Some (fs_files f !! resolve f p)).
Definition exists_ (f : Fs) (p : bytes) : bool :=
  is_file f p || bool_decide (resolve f p ∈ fs_dirs f).
Definition read (f : Fs) (p : bytes) : result bytes IoError := ok_or (fs_files f !! resolve f p) NotFound.
Definition read_to_string (f : Fs) (p : bytes) : result bytes IoError :=
  let? raw := read f p in if utf8_ok raw then Ok raw else Err InvalidUtf8.

(** The name of [q] in the directory [d], if it is directly inside it. *)
Definition name_in (d q : list bytes) : option bytes :=
  match last q with
  | Some n => if decide (q = d ++ [n]) then Some n else None
  | None => None
  end.
(** [std::fs::read_dir]: the names of the entries, in no particular order. *)
Definition read_dir (f : Fs) (p : bytes) : option (list bytes) :=
  let d := resolve f p in
  if decide (d ∈ fs_dirs f)
  then Some (omap (name_in d) (map fst (map_to_list (fs_files f)) ++ elements (fs_dirs f)))
  else None.

Definition write (p content : bytes) : smonad Fs IoError unit := fun f =>
  let q := resolve f p in
  if decide (q ∈ fs_dirs f \/ take (pred (length q)) q ∉ fs_dirs f) then (f, Err NotADirectory)
  else (mkFs (fs_cwd f) (<[q := content]> (fs_files f)) (fs_dirs f), Ok tt).
(** Every prefix becomes a directory unless one of them is a file. *)
Definition create_dir_all (p : bytes) : smonad Fs IoError unit := fun f =>
  let q := resolve f p in
  let prefixes := map (fun n => take n q) (seq 0 (S (length q))) in
  if decide (Exists (fun d => is_Some (fs_files f !! d)) prefixes) then (f, Err NotAFile)
  else (mkFs (fs_cwd f) (fs_files f) (list_to_set prefixes ∪ fs_dirs f), Ok tt).
(** [std::fs::copy] opens the source and then truncates the destination: copying a
    file onto itself empties it. *)
Definition copy (src dst : bytes) : smonad Fs IoError unit := fun f =>
  match read f src with
  | Err e => (f, Err e)
  | Ok raw => write dst (if decide (resolve f src = resolve f dst) then [] else raw) f
  end.
End Fs.

(** ** A name under a directory *)

Lemma split_sep_cons p : exists x xs, split_sep p = x :: xs.
Proof.
  induction p as [|c p (x & xs & IH)]; simpl; [eauto |]. destruct (is_sep c); [eauto |]. rewrite IH. eauto.
Qed.
Lemma split_sep_app p q : split_sep (p ++ x2f :: q) = split_sep p ++ split_sep q.
Proof.
  induction p as [|c p IH]; [done |]. simpl. destruct (is_sep c); [by rewrite IH |].
  rewrite IH. by destruct (split_sep_cons p) as (x & xs & ->).
Qed.

(** A single component that is a name. *)
Definition plain (n : bytes) : Prop := split_sep n = [n] /\ Path.component n = Some (Normal n).

Lemma plain_relative n : plain n -> Path.is_absolute n = false.
Proof.
  intros [H1 H2]. destruct n as [|c n]; [done |]. simpl in *. destruct (is_sep c); [| done].
  injection H1 as H _. done.
Qed.

Lemma components_join p n :
  plain n -> Path.components (Path.join p n) = Path.components p ++ [Normal n].
Proof.
  intros Hn. pose proof (plain_relative n Hn) as Hr. destruct Hn as [H1 H2].
  assert (forall p', Path.is_absolute (p' ++ x2f :: n) = Path.is_absolute (p' ++ [x2f])) as Habs by by intros [].
  assert (forall p', Path.components (p' ++ x2f :: n) = Path.components (p' ++ [x2f]) ++ [Normal n]) as Hc.
  { intros p'. unfold Path.components. rewrite Habs, !split_sep_app, H1.
    destruct (split_sep_cons p') as (x & xs & ->). cbn [app head].
    rewrite <- app_assoc. f_equal. cbn [omap list_omap]. rewrite !omap_app. cbn. rewrite H2.
    by destruct (Path.component x); rewrite ?app_nil_r. }
  unfold Path.join. rewrite Hr. destruct (last p) as [c|] eqn:El.
  - apply last_Some in El as (p' & ->). destruct (is_sep c) eqn:Ec.
    + unfold is_sep in Ec. apply bool_decide_eq_true in Ec as ->. rewrite <- app_assoc. apply Hc.
    + change ((p' ++ [c]) ++ [x2f] ++ n) with ((p' ++ [c]) ++ x2f :: n). rewrite Hc. f_equal.
      unfold Path.components. rewrite split_sep_app. cbn [split_sep]. rewrite omap_app. cbn [omap list_omap].
      change (Path.component []) with (@None Component). rewrite app_nil_r.
      destruct (split_sep_cons (p' ++ [c])) as (x & xs & ->). by destruct p'.
  - apply last_None in El as ->. unfold Path.components. rewrite Hr, H1. cbn. rewrite H2.
    rewrite bool_decide_false; [done |]. intros [= ->]. done.
Qed.

Lemma resolve_join f p n : plain n -> Fs.resolve f (Path.join p n) = Fs.resolve f p ++ [n].
Proof. intros Hn. unfold Fs.resolve. by rewrite components_join, foldl_app. Qed.

(** ** Examples *)

Example parent_file : Path.parent (str "contracts/a.yaml") = Some (str "contracts").
Proof. reflexivity. Qed.
Example parent_root : Path.parent (str "/a//b/./") = Some (str "/a") /\ Path.parent (str "/a") = Some (str "/")
  /\ Path.parent (str "a") = Some [] /\ Path.parent (str "./a") = Some (str ".") /\ Path.parent (str "/") = None.
Proof. by split_and!. Qed.
Example stem_and_extension :
  Path.file_stem (str "x/tracker.tar.wat") = Some (str "tracker.tar") /\
  Path.extension (str "x/tracker.tar.wat") = Some (str "wat") /\ Path.extension (str ".wat") = None.
Proof. by split_and!. Qed.
