(* ===== verification/Json.v ===== *)
(** * JSON values: what the RPC uses of [serde_json::Value]

    A [Value] is the usual tree.  An object is a [BTreeMap] (the [preserve_order]
    feature is off), a number is an unsigned or negative integer or an [f64].
    [from_value] deserialises a tree the way a [derive]d implementation does: an
    object by its keys, unknown ones ignored, or an array by position. *)

From Stdlib Require Import Floats.SpecFloat.
From S2P Require Import Prelude Hex Uint UintFacts Hash Address Text Btree.
#[local] Open Scope Z_scope.

Inductive json_number : Type :=
| PosInt (n : Z)
| NegInt (n : Z)
| Float (f : spec_float).

Inductive value : Type :=
| JNull
| JBool (b : bool)
| JNumber (n : json_number)
| JString (s : bytes)
| JArray (l : list value)
| JObject (o : list (bytes * value)).

Definition as_u64 (v : value) : option Z :=
  match v with JNumber (PosInt n) => Some n | _ => None end.
Definition as_str (v : value) : option bytes :=
  match v with JString s => Some s | _ => None end.
Definition as_array (v : value) : option (list value) :=
  match v with JArray l => Some l | _ => None end.
Definition as_object (v : value) : option (btree bytes value) :=
  match v with JObject o => Some o | _ => None end.
Definition is_null (v : value) : bool := match v with JNull => true | _ => false end.
(** [Value::get] with a key: [None] unless [v] is an object. *)
Definition get (k : bytes) (v : value) : option value :=
  match v with JObject o => btree_get k o | _ => None end.

(** The [json!] macro: an object is built by inserting its members in order. *)
Definition object (fields : list (bytes * value)) : value :=
  JObject (foldl (fun o '(k, v) => btree_insert k v o) [] fields).
Definition json_opt {A} (f : A -> value) (o : option A) : value :=
  match o with Some a => f a | None => JNull end.
(** [u64] and [usize]. *)
Definition json_u64 (n : Z) : value := JNumber (PosInt n).
Definition json_strs (l : list bytes) : value := JArray (map JString l).

(** ** Deserialisation *)

Class FromValue (A : Type) := { from_value : value -> option A }.

#[export] Instance from_value_value : FromValue value := {| from_value := Some |}.
#[export] Instance from_value_string : FromValue bytes := {| from_value := as_str |}.
#[export] Instance from_value_option {A} `{FromValue A} : FromValue (option A) := {|
  from_value v := if is_null v then Some None else Some <$> from_value v |}.

Definition ok {A E} (r : result A E) : option A :=
  match r with Ok a => Some a | Err _ => None end.

Section Primitives.
Context {HC : HexCrate} {SC : Sha3Crate}.
(** The human-readable branches of [Address] and [U256]. *)
#[export] Instance from_value_address : FromValue Address := {|
  from_value v := s ← as_str v; ok (Address.from_hex s) |}.
#[export] Instance from_value_u256 : FromValue U256 := {|
  from_value v := s ← as_str v; ok (U256.from_hex s) |}.
End Primitives.

(** A member of an object, or what [missing] gives when it is absent. *)
Definition field {A} `{FromValue A} (k : bytes) (missing : option A) (o : btree bytes value) : option A :=
  match btree_get k o with Some v => from_value v | None => missing end.
(** An element of an array, likewise. *)
Definition element {A} `{FromValue A} (i : nat) (missing : option A) (l : list value) : option A :=
  match l !! i with Some v => from_value v | None => missing end.

(** ** Lemmas *)

Lemma object_wf fields : exists o, object fields = JObject o /\ btree_wf o.
Proof.
  eexists. split; [done |]. cut (btree_wf (@nil (bytes * value))); [| constructor].
  generalize (@nil (bytes * value)). induction fields as [|[k v] fields IH]; intros o Ho; [done |].
  simpl. apply IH. by apply btree_insert_wf.
Qed.

(** Members with distinct keys can be looked up. *)
Lemma get_object k v fields :
  NoDup (map fst fields) -> (k, v) ∈ fields -> get k (object fields) = Some v.
Proof.
  intros Hnd Hin. unfold object. simpl.
  cut (forall o, btree_wf o -> (k, v) ∈ fields \/ (k ∉ map fst fields /\ btree_get k o = Some v) ->
         btree_get k (foldl (fun o '(k, v) => btree_insert k v o) o fields) = Some v).
  { intros Hc. apply Hc; [constructor | by left]. }
  clear Hin. induction fields as [|[k' v'] fields IH]; intros o Ho Hk; simpl.
  - destruct Hk as [Hk|[_ Hk]]; [by apply not_elem_of_nil in Hk | done].
  - simpl in Hnd. apply NoDup_cons in Hnd as [Hk' Hnd]. apply IH; [done | by apply btree_insert_wf |].
    destruct Hk as [[[= -> ->]|Hin]%elem_of_cons|[Hk Ho']].
    + right. split; [done | apply btree_get_insert_eq].
    + by left.
    + right. simpl in Hk. apply not_elem_of_cons in Hk as [Hne Hk]. split; [done |].
      by rewrite btree_get_insert_ne.
Qed.

(** Look up a literal key in a literal object. *)
Ltac json_member := first [apply list_elem_of_here | apply list_elem_of_further; json_member].
Ltac json_get :=
  match goal with
  | |- context [get ?k (object ?fields)] =>
      erewrite (get_object k _ fields) by
        first [ json_member | by apply (bool_decide_unpack _); vm_compute ]
  end.
