(* ===== verification/Metrics.v ===== *)
(** * Process metrics: [crates/ivory-rpc/src/metrics.rs]

    [IvoryMetrics] as a record of its counters, gauges and histogram; the
    [Mutex]es and atomics are the threading of one value.  [f64] is binary64 of
    the Standard Library; its decimal text, which only [encode] shows, is the
    parameter [FloatText]. *)

From Stdlib Require Import Floats.SpecFloat.
From S2P Require Import Prelude Hex Text Btree.
#[local] Open Scope Z_scope.

Definition f64_of_Z (n : Z) : spec_float := binary_normalize 53 1024 n 0 false.
(** The literal closest to [a / b]; exact operands make the quotient correctly rounded. *)
Definition f64_ratio (a b : Z) : spec_float := SFdiv 53 1024 (f64_of_Z a) (f64_of_Z b).
Definition f64_add : spec_float -> spec_float -> spec_float := SFadd 53 1024.
Definition f64_le : spec_float -> spec_float -> bool := SFleb.

(** [impl Display for f64] *)
Class FloatText := { fmt_f64 : spec_float -> bytes }.

Definition PRODUCE_BOUNDS : list spec_float :=
  map (fun '(a, b) => f64_ratio a b)
    [(1, 1000); (5, 1000); (1, 100); (25, 1000); (5, 100); (1, 10); (25, 100); (5, 10);
     (1, 1); (25, 10); (5, 1)].

Record IvoryMetrics : Type := mkIvoryMetrics {
  rpc_requests : btree bytes Z;
  rpc_errors : btree (bytes * Z) Z;
  head_number : Z;
  head_timestamp : Z;
  txpool_pending : Z;
  blocks_imported : Z;
  blocks_produced : Z;
  p2p_peers : Z;
  p2p_messages : btree bytes Z;
  produce_buckets : list Z;
  produce_sum : spec_float;
  produce_count : Z }.

Module IvoryMetrics.
Definition new : IvoryMetrics :=
  mkIvoryMetrics [] [] 0 0 0 0 0 0 [] (replicate (length PRODUCE_BOUNDS + 1) 0) (f64_of_Z 0) 0.

Definition rpc_request (method : bytes) (m : IvoryMetrics) : IvoryMetrics :=
  mkIvoryMetrics (btree_incr method (rpc_requests m)) (rpc_errors m) (head_number m)
    (head_timestamp m) (txpool_pending m) (blocks_imported m) (blocks_produced m) (p2p_peers m)
    (p2p_messages m) (produce_buckets m) (produce_sum m) (produce_count m).
Definition rpc_error (method : bytes) (code : Z) (m : IvoryMetrics) : IvoryMetrics :=
  mkIvoryMetrics (rpc_requests m) (btree_incr (method, code) (rpc_errors m)) (head_number m)
    (head_timestamp m) (txpool_pending m) (blocks_imported m) (blocks_produced m) (p2p_peers m)
    (p2p_messages m) (produce_buckets m) (produce_sum m) (produce_count m).
Definition set_head (n t : Z) (m : IvoryMetrics) : IvoryMetrics :=
  mkIvoryMetrics (rpc_requests m) (rpc_errors m) n t (txpool_pending m) (blocks_imported m)
    (blocks_produced m) (p2p_peers m) (p2p_messages m) (produce_buckets m) (produce_sum m)
    (produce_count m).
Definition set_txpool_pending (n : Z) (m : IvoryMetrics) : IvoryMetrics :=
  mkIvoryMetrics (rpc_requests m) (rpc_errors m) (head_number m) (head_timestamp m) n
    (blocks_imported m) (blocks_produced m) (p2p_peers m) (p2p_messages m) (produce_buckets m)
    (produce_sum m) (produce_count m).
Definition set_p2p_peers (n : Z) (m : IvoryMetrics) : IvoryMetrics :=
  mkIvoryMetrics (rpc_requests m) (rpc_errors m) (head_number m) (head_timestamp m)
    (txpool_pending m) (blocks_imported m) (blocks_produced m) n (p2p_messages m)
    (produce_buckets m) (produce_sum m) (produce_count m).
(** [fetch_add] wraps. *)
Definition inc_blocks_imported (m : IvoryMetrics) : IvoryMetrics :=
  mkIvoryMetrics (rpc_requests m) (rpc_errors m) (head_number m) (head_timestamp m)
    (txpool_pending m) ((blocks_imported m + 1) mod M64) (blocks_produced m) (p2p_peers m)
    (p2p_messages m) (produce_buckets m) (produce_sum m) (produce_count m).
Definition inc_blocks_produced (m : IvoryMetrics) : IvoryMetrics :=
  mkIvoryMetrics (rpc_requests m) (rpc_errors m) (head_number m) (head_timestamp m)
    (txpool_pending m) (blocks_imported m) ((blocks_produced m + 1) mod M64) (p2p_peers m)
    (p2p_messages m) (produce_buckets m) (produce_sum m) (produce_count m).
Definition p2p_message (kind : bytes) (m : IvoryMetrics) : IvoryMetrics :=
  mkIvoryMetrics (rpc_requests m) (rpc_errors m) (head_number m) (head_timestamp m)
    (txpool_pending m) (blocks_imported m) (blocks_produced m) (p2p_peers m)
    (btree_incr kind (p2p_messages m)) (produce_buckets m) (produce_sum m) (produce_count m).

(** The index the [for] loop stops at, or the last bucket. *)
Fixpoint bucket_of (seconds : spec_float) (bounds : list spec_float) (i : nat) : option nat :=
  match bounds with
  | [] => None
  | bound :: bounds => if f64_le seconds bound then Some i else bucket_of seconds bounds (S i)
  end.
Definition observe_produce_seconds (seconds : spec_float) (m : IvoryMetrics) : IvoryMetrics :=
  let buckets := produce_buckets m in
  let i := default (length buckets - 1)%nat (bucket_of seconds PRODUCE_BOUNDS 0) in
  mkIvoryMetrics (rpc_requests m) (rpc_errors m) (head_number m) (head_timestamp m)
    (txpool_pending m) (blocks_imported m) (blocks_produced m) (p2p_peers m) (p2p_messages m)
    (alter (fun n => (n + 1) mod M64) i buckets) (f64_add (produce_sum m) seconds)
    ((produce_count m + 1) mod M64).

(** [s.replace(c, by)] for one character. *)
Definition replace_char (c : byte) (by_ : bytes) (s : bytes) : bytes :=
  flat_map (fun b => if decide (b = c) then by_ else [b]) s.
Definition quote : byte := x22.
Definition backslash : byte := x5c.
Definition newline : bytes := [x0a].
Definition escape (s : bytes) : bytes :=
  replace_char quote [backslash; quote] (replace_char backslash [backslash; backslash] s).

Definition in_quotes (s : bytes) : bytes := [quote] ++ s ++ [quote].
Definition header_lines (name help kind : bytes) : bytes :=
  str "# HELP " ++ name ++ str " " ++ help ++ newline ++
  str "# TYPE " ++ name ++ str " " ++ kind ++ newline.
Definition sample (name : bytes) (n : Z) : bytes := name ++ str " " ++ fmt_dec n ++ newline.

(** The running sums of the histogram; [buckets] covers [bounds]. *)
Fixpoint cumulative (acc : Z) (ns : list Z) : list Z :=
  match ns with
  | [] => []
  | n :: ns => let acc := (acc + n) mod M64 in acc :: cumulative acc ns
  end.

Section Encode.
Context {FT : FloatText}.
Definition encode (m : IvoryMetrics) : bytes :=
  header_lines (str "ivory_rpc_requests_total") (str "JSON-RPC requests") (str "counter") ++
  flat_map (fun '(method, n) =>
    sample (str "ivory_rpc_requests_total{method=" ++ in_quotes (escape method) ++ str "}") n)
    (rpc_requests m) ++
  header_lines (str "ivory_rpc_errors_total") (str "JSON-RPC errors") (str "counter") ++
  flat_map (fun '((method, code), n) =>
    sample (str "ivory_rpc_errors_total{method=" ++ in_quotes (escape method) ++ str ",code=" ++
            in_quotes (fmt_i64 code) ++ str "}") n)
    (rpc_errors m) ++
  header_lines (str "ivory_head_number") (str "Canonical head height") (str "gauge") ++
  sample (str "ivory_head_number") (head_number m) ++
  header_lines (str "ivory_head_timestamp") (str "Canonical head timestamp") (str "gauge") ++
  sample (str "ivory_head_timestamp") (head_timestamp m) ++
  header_lines (str "ivory_txpool_pending") (str "Pending transactions") (str "gauge") ++
  sample (str "ivory_txpool_pending") (txpool_pending m) ++
  header_lines (str "ivory_blocks_imported_total") (str "Imported blocks") (str "counter") ++
  sample (str "ivory_blocks_imported_total") (blocks_imported m) ++
  header_lines (str "ivory_blocks_produced_total") (str "Produced blocks") (str "counter") ++
  sample (str "ivory_blocks_produced_total") (blocks_produced m) ++
  header_lines (str "ivory_p2p_peers") (str "Connected peers") (str "gauge") ++
  sample (str "ivory_p2p_peers") (p2p_peers m) ++
  header_lines (str "ivory_p2p_messages_total") (str "Gossip messages") (str "counter") ++
  flat_map (fun '(kind, n) =>
    sample (str "ivory_p2p_messages_total{kind=" ++ in_quotes (escape kind) ++ str "}") n)
    (p2p_messages m) ++
  header_lines (str "ivory_block_produce_seconds") (str "Block production latency") (str "histogram") ++
  flat_map (fun '(le, n) =>
    sample (str "ivory_block_produce_seconds_bucket{le=" ++ in_quotes le ++ str "}") n)
    (zip (map fmt_f64 PRODUCE_BOUNDS ++ [str "+Inf"]) (cumulative 0 (produce_buckets m))) ++
  str "ivory_block_produce_seconds_sum " ++ fmt_f64 (produce_sum m) ++ newline ++
  sample (str "ivory_block_produce_seconds_count") (produce_count m).
End Encode.
End IvoryMetrics.

(** ** Properties *)

(** The state of a metrics value the operations keep: one bucket per bound and
    one for the rest, ordered counter maps. *)
Record metrics_wf (m : IvoryMetrics) : Prop := {
  mw_buckets : length (produce_buckets m) = S (length PRODUCE_BOUNDS);
  mw_requests : btree_wf (rpc_requests m);
  mw_errors : btree_wf (rpc_errors m);
  mw_messages : btree_wf (p2p_messages m) }.

Lemma btree_incr_wf {K} `{OrdKeyLaws K} (k : K) (m : btree K Z) : btree_wf m -> btree_wf (btree_incr k m).
Proof. apply btree_insert_wf. Qed.

Lemma bucket_of_lt s bounds i n :
  IvoryMetrics.bucket_of s bounds i = Some n -> (n < i + length bounds)%nat.
Proof.
  revert i; induction bounds as [|b bounds IH]; intros i; simpl; [done |].
  destruct (f64_le s b); [intros [= <-]; lia |]. intros H%IH. lia.
Qed.

Lemma metrics_new_wf : metrics_wf IvoryMetrics.new.
Proof. split; [done | constructor..]. Qed.

Lemma sum_alter (f : Z -> Z) i l n :
  l !! i = Some n -> foldr Z.add 0 (alter f i l) = foldr Z.add 0 l - n + f n.
Proof.
  revert i; induction l as [|x l IH]; intros [|i]; simpl; try done; [intros [= ->]; lia |].
  intros H%IH. change (list_alter f i l) with (alter f i l). lia.
Qed.

(** An observation falls in exactly one bucket, whatever its value (a NaN or a
    value over every bound goes to the last one). *)
Lemma observe_one_bucket s m :
  metrics_wf m -> Forall (fun n => 0 <= n < u64_max) (produce_buckets m) ->
  let m' := IvoryMetrics.observe_produce_seconds s m in
  metrics_wf m' /\
  foldr Z.add 0 (produce_buckets m') = foldr Z.add 0 (produce_buckets m) + 1.
Proof.
  intros [H1 H2 H3 H4] Hb. cbv zeta. unfold IvoryMetrics.observe_produce_seconds. simpl produce_buckets.
  set (i := default _ _).
  assert (i < length (produce_buckets m))%nat as Hi.
  { unfold i. destruct (IvoryMetrics.bucket_of _ _ _) eqn:E; simpl; [| lia].
    apply bucket_of_lt in E. lia. }
  split; [split; simpl; [by rewrite length_alter | done..] |].
  destruct (lookup_lt_is_Some_2 _ _ Hi) as [n Hn]. rewrite (sum_alter _ _ _ n) by done.
  pose proof (Forall_lookup_1 _ _ _ _ Hb Hn) as Hnb. unfold u64_max in Hnb. simpl in Hnb.
  rewrite Z.mod_small by lia. lia.
Qed.

(** What [escape] leaves alone. *)
Lemma escape_plain s :
  Forall (fun b => b ≠ IvoryMetrics.quote /\ b ≠ IvoryMetrics.backslash) s -> IvoryMetrics.escape s = s.
Proof.
  assert (forall c r s, Forall (fun b => b ≠ c) s -> IvoryMetrics.replace_char c r s = s) as Hr.
  { intros c r l. induction 1 as [|b l Hb Hl IH]; [done |]. simpl. rewrite decide_False by done.
    simpl. f_equal. exact IH. }
  intros Hs. unfold IvoryMetrics.escape. rewrite (Hr IvoryMetrics.backslash), (Hr IvoryMetrics.quote); [done |..];
    eapply Forall_impl; try exact Hs; naive_solver.
Qed.

(** [sub] occurs in [s]. *)
Definition occurs (sub s : bytes) : Prop := exists a b, s = a ++ sub ++ b.

Lemma occurs_l sub s t : occurs sub s -> occurs sub (s ++ t).
Proof. intros (a & b & ->). exists a, (b ++ t). by rewrite !(assoc_L app). Qed.
Lemma occurs_r sub s t : occurs sub t -> occurs sub (s ++ t).
Proof. intros (a & b & ->). exists (s ++ a), b. by rewrite !(assoc_L app). Qed.
Lemma occurs_refl sub : occurs sub sub.
Proof. exists [], []. by rewrite app_nil_r. Qed.
Lemma occurs_flat_map {A} sub (f : A -> bytes) x l : x ∈ l -> occurs sub (f x) -> occurs sub (flat_map f l).
Proof.
  intros Hx Hs. induction l as [|y l IH]; [by apply elem_of_nil in Hx |]. simpl.
  apply elem_of_cons in Hx as [->|Hx]; [by apply occurs_l | apply occurs_r, IH, Hx].
Qed.

(** A method name is exported as it came, line breaks included. *)
Lemma request_line_exported {FT : FloatText} m line n :
  let method := IvoryMetrics.newline ++ line ++ IvoryMetrics.newline in
  (method, n) ∈ rpc_requests m ->
  Forall (fun b => b ≠ IvoryMetrics.quote /\ b ≠ IvoryMetrics.backslash) line ->
  occurs method (IvoryMetrics.encode m).
Proof.
  cbv zeta. set (method := _ ++ _ ++ _). intros Hin Hl. unfold IvoryMetrics.encode.
  apply occurs_r, occurs_l, (occurs_flat_map _ _ (method, n)); [done |].
  cbv beta iota. unfold IvoryMetrics.sample. apply occurs_l, occurs_r, occurs_l.
  unfold IvoryMetrics.in_quotes. apply occurs_r, occurs_l. rewrite escape_plain; [apply occurs_refl |].
  unfold method, IvoryMetrics.newline. apply Forall_app. split; [by repeat constructor |].
  apply Forall_app. split; [done | by repeat constructor].
Qed.

Lemma request_counted m method :
  metrics_wf m -> exists n, (method, n) ∈ rpc_requests (IvoryMetrics.rpc_request method m).
Proof.
  intros Hm. eexists. apply btree_get_elem; [by apply btree_incr_wf, mw_requests |].
  apply btree_get_insert_eq.
Qed.
