(* ===== verification/Rpc.v ===== *)
(** * The JSON-RPC methods: [crates/ivory-rpc/src]

    [error.rs], [jsonrpc.rs], [types.rs], [context.rs] and [handler.rs].  A
    method is a function of the context and its parameters; only
    [send_raw_transaction] changes anything, and [handle] threads the context
    through it and through the metrics.  [fork] copies a state, so what a query
    does to the copy is dropped with it.  The texts of third-party errors that
    end up in a message are the parameter [ErrorTexts]. *)

From S2P Require Import Prelude Hex Uint UintFacts Hash Address Text Btree Bincode Core Trie State.
From S2P Require Import Crypto Vm Executor TxPool Consensus Store Apply Json Metrics.
#[local] Open Scope Z_scope.

(** ** [error.rs] and [jsonrpc.rs] *)

Module RpcError.
Inductive t : Type :=
| MethodNotFound (m : bytes)
| InvalidParams (m : bytes)
| Internal (m : bytes)
| Server (m : bytes)
| TransactionNotFound
| BlockNotFound
| AccountNotFound.
#[global] Instance eq_dec : EqDecision t.
Proof. solve_decision. Defined.
End RpcError.

Record JsonRpcError : Type := mkJsonRpcError {
  je_code : Z;
  je_message : bytes;
  je_data : option value }.

Definition parse_error : JsonRpcError := mkJsonRpcError (-32700) (str "Parse error") None.
Definition invalid_request : JsonRpcError := mkJsonRpcError (-32600) (str "Invalid Request") None.
Definition method_not_found (method : bytes) : JsonRpcError :=
  mkJsonRpcError (-32601) (str "Method not found: " ++ method) None.
Definition invalid_params (msg : bytes) : JsonRpcError :=
  mkJsonRpcError (-32602) (str "Invalid params: " ++ msg) None.
Definition internal_error (msg : bytes) : JsonRpcError :=
  mkJsonRpcError (-32603) (str "Internal error: " ++ msg) None.
Definition custom (code : Z) (message : bytes) : JsonRpcError := mkJsonRpcError code message None.

(** [impl From<RpcError> for JsonRpcError] *)
Definition json_rpc_error (err : RpcError.t) : JsonRpcError :=
  match err with
  | RpcError.MethodNotFound m => method_not_found m
  | RpcError.InvalidParams m => invalid_params m
  | RpcError.Internal m => internal_error m
  | RpcError.Server m => internal_error m
  | RpcError.TransactionNotFound => custom (-32000) (str "Transaction not found")
  | RpcError.BlockNotFound => custom (-32001) (str "Block not found")
  | RpcError.AccountNotFound => custom (-32002) (str "Account not found")
  end.

Record JsonRpcRequest : Type := mkJsonRpcRequest {
  jr_jsonrpc : bytes;
  jr_method : bytes;
  jr_params : value;
  jr_id : value }.

Definition default_version : bytes := str "2.0".

(** [#[derive(Deserialize)]]: by name, or by position. *)
Definition request_from_value (v : value) : option JsonRpcRequest :=
  match v with
  | JObject o =>
      version ← field (str "jsonrpc") (Some default_version) o;
      method ← field (str "method") None o;
      params ← field (str "params") (Some JNull) o;
      id ← field (str "id") (Some JNull) o;
      Some (mkJsonRpcRequest version method params id)
  | JArray l =>
      if (4 <? length l)%nat then None
      else
        version ← element 0 (Some default_version) l;
        method ← element 1 None l;
        params ← element 2 (Some JNull) l;
        id ← element 3 (Some JNull) l;
        Some (mkJsonRpcRequest version method params id)
  | _ => None
  end.

Record JsonRpcResponse : Type := mkJsonRpcResponse {
  rs_jsonrpc : bytes;
  rs_result : option value;
  rs_error : option JsonRpcError;
  rs_id : value }.

Definition response_success (id result : value) : JsonRpcResponse :=
  mkJsonRpcResponse (str "2.0") (Some result) None id.
Definition response_error (id : value) (error : JsonRpcError) : JsonRpcResponse :=
  mkJsonRpcResponse (str "2.0") None (Some error) id.
(** [#[derive(Serialize)]], which skips what is [None]. *)
Definition json_i64 (n : Z) : value := JNumber (if 0 <=? n then PosInt n else NegInt n).
Definition error_value (e : JsonRpcError) : value :=
  object ([(str "code", json_i64 (je_code e)); (str "message", JString (je_message e))] ++
          match je_data e with Some d => [(str "data", d)] | None => [] end).
Definition response_value (r : JsonRpcResponse) : value :=
  object ([(str "jsonrpc", JString (rs_jsonrpc r))] ++
          match rs_result r with Some v => [(str "result", v)] | None => [] end ++
          match rs_error r with Some e => [(str "error", error_value e)] | None => [] end ++
          [(str "id", rs_id r)]).

(** ** [types.rs] *)

Inductive BlockTag : Type := Latest | Earliest | Pending | Safe | Finalized.
Inductive BlockNumberOrTag : Type := Number (n : Z) | Tag (t : BlockTag).

Record TransactionRequest : Type := mkTransactionRequest {
  tr_from : option Address;
  tr_to : option Address;
  tr_gas : option U256;
  tr_gas_price : option U256;
  tr_value : option U256;
  tr_data : option bytes;
  tr_nonce : option U256 }.

Section TransactionRequest.
Context {HC : HexCrate}.
Definition tx_request_from_value (v : value) : option TransactionRequest :=
  match v with
  | JObject o =>
      from ← field (str "from") (Some None) o;
      to ← field (str "to") (Some None) o;
      gas ← field (str "gas") (Some None) o;
      gas_price ← field (str "gasPrice") (Some None) o;
      val ← field (str "value") (Some None) o;
      data ← field (str "data") (Some None) o;
      nonce ← field (str "nonce") (Some None) o;
      Some (mkTransactionRequest from to gas gas_price val data nonce)
  | JArray l =>
      if (7 <? length l)%nat then None
      else
        from ← element 0 None l;
        to ← element 1 None l;
        gas ← element 2 None l;
        gas_price ← element 3 None l;
        val ← element 4 None l;
        data ← element 5 None l;
        nonce ← element 6 None l;
        Some (mkTransactionRequest from to gas gas_price val data nonce)
  | _ => None
  end.
End TransactionRequest.

(** ** Error texts *)

Definition primitive_error_display (e : PrimitiveError) : bytes :=
  match e with
  | Overflow => str "Integer overflow"
  | InvalidHex => str "Invalid hex string"
  | InvalidLength expected got =>
      str "Invalid length: expected " ++ fmt_dec (Z.of_nat expected) ++ str ", got " ++
      fmt_dec (Z.of_nat got)
  end.
Definition pool_error_display (e : TxPoolError.t) : bytes :=
  match e with
  | TxPoolError.NonceTooLow expected got =>
      str "nonce too low: expected " ++ fmt_dec expected ++ str ", got " ++ fmt_dec got
  | TxPoolError.NonceGap expected got =>
      str "nonce gap: expected " ++ fmt_dec expected ++ str ", got " ++ fmt_dec got
  | TxPoolError.AlreadyKnown => str "transaction already known"
  | TxPoolError.GasLimitTooLow min got =>
      str "gas limit " ++ fmt_dec got ++ str " below minimum " ++ fmt_dec min
  | TxPoolError.PoolFull => str "pool is full"
  | TxPoolError.SenderLimitReached => str "sender pending limit reached"
  | TxPoolError.InvalidSignature => str "invalid transaction signature"
  end.
Definition execution_error_display (e : ExecutionError.t) : bytes :=
  match e with
  | ExecutionError.NonceMismatch expected got =>
      str "nonce mismatch: expected " ++ fmt_dec expected ++ str ", got " ++ fmt_dec got
  | ExecutionError.InsufficientBalance => str "insufficient balance"
  | ExecutionError.OutOfGas => str "out of gas"
  | ExecutionError.Overflow => str "integer overflow"
  | ExecutionError.BlockGasLimitExceeded => str "block gas limit exceeded"
  | ExecutionError.Vm e => str "vm: " ++ e
  end.
Definition proof_error_display (e : ProofError) : bytes :=
  match e with
  | InvalidNode => str "invalid trie node encoding"
  | HashMismatch => str "trie proof hash mismatch"
  | Incomplete => str "incomplete trie proof"
  end.

(** The messages of [hex], [bincode] and [serde_json] for an input they refuse. *)
Class ErrorTexts := {
  hex_error_text : bytes -> bytes;
  bincode_error_text : bytes -> bytes;
  serde_json_error_text : value -> bytes }.

(** ** [context.rs] *)

Inductive NodeRole : Type := Producer | Follower.
Definition node_role_as_str (r : NodeRole) : bytes :=
  match r with Producer => str "producer" | Follower => str "follower" end.

Record ContractMeta : Type := mkContractMeta {
  cm_name : bytes;
  cm_schema : bytes;
  cm_source : bytes;
  cm_description : bytes }.

Inductive RpcEvent : Type :=
| NewHead (number : Z) (hash parent_hash : H256) (miner : Address) (timestamp : Z)
    (state_root : H256) (gas_limit gas_used : Z)
| NewPendingTx (hash : H256)
| NewLogs (logs : list Log) (block_number : Z) (block_hash : H256).

(** [store], [pool] and [state] are the handles of the node's [Ledger].  [W] is
    what the [on_tx] callback captures; the broadcast channel is the list of the
    events sent so far. *)
Record RpcContext {W : Type} : Type := mkRpcContext {
  cx_ledger : Ledger;
  cx_chain_id : Z;
  cx_on_tx : option (Transaction -> W -> W);
  cx_world : W;
  cx_role : NodeRole;
  cx_address : Address;
  cx_peer_id : bytes;
  cx_peers : Z;
  cx_bootstrap : list bytes;
  cx_contract_lookup : option (H256 -> option ContractMeta);
  cx_events : list RpcEvent;
  cx_metrics : IvoryMetrics;
  cx_allow_methods : option (list bytes) }.
Arguments RpcContext W : clear implicits.
Arguments mkRpcContext {W}.

(** [RpcContext::new] and its builders. *)
Section Builders.
Context {W : Type}.
Definition rpc_context_new (l : Ledger) (chain_id : Z) (world : W) : RpcContext W :=
  mkRpcContext l chain_id None world Follower Address.ZERO [] 0 [] None [] IvoryMetrics.new None.
Definition with_gossip (f : Transaction -> W -> W) (c : RpcContext W) : RpcContext W :=
  mkRpcContext (cx_ledger c) (cx_chain_id c) (Some f) (cx_world c) (cx_role c) (cx_address c)
    (cx_peer_id c) (cx_peers c) (cx_bootstrap c) (cx_contract_lookup c) (cx_events c) (cx_metrics c)
    (cx_allow_methods c).
Definition with_node_info (role : NodeRole) (address : Address) (peer_id : bytes) (peers : Z)
    (bootstrap : list bytes) (c : RpcContext W) : RpcContext W :=
  mkRpcContext (cx_ledger c) (cx_chain_id c) (cx_on_tx c) (cx_world c) role address
    peer_id peers bootstrap (cx_contract_lookup c) (cx_events c) (cx_metrics c) (cx_allow_methods c).
Definition with_contract_lookup (f : H256 -> option ContractMeta) (c : RpcContext W) : RpcContext W :=
  mkRpcContext (cx_ledger c) (cx_chain_id c) (cx_on_tx c) (cx_world c) (cx_role c) (cx_address c)
    (cx_peer_id c) (cx_peers c) (cx_bootstrap c) (Some f) (cx_events c) (cx_metrics c)
    (cx_allow_methods c).
End Builders.

Section Events.
Context {BC : BincodeCrate} {SC : Sha3Crate}.
Definition block_logs (b : Block) : list Log := flat_map rc_logs (receipts b).
Definition new_logs (b : Block) : RpcEvent :=
  NewLogs (block_logs b) (number (header b)) (block_hash b).
Definition new_head (b : Block) : RpcEvent :=
  let h := header b in
  NewHead (number h) (block_hash b) (parent_hash h) (miner h) (timestamp h) (state_root h)
    (gas_limit h) (gas_used h).
End Events.

(** ** [handler.rs]: encoding *)

Definition encode_qty (n : Z) : bytes := if n =? 0 then str "0x0" else str "0x" ++ fmt_hex n.

Section Handler.
Context {HC : HexCrate} {BC : BincodeCrate} {SC : Sha3Crate} {EC : Ed25519Crate} {WC : WasmiCrate}.
Context {ET : ErrorTexts} {W : Type}.

Definition json_hash {n} (h : Hash n) : value := JString (Hash.to_hex h).
Definition json_address (a : Address) : value := JString (Address.to_hex a).
Definition json_qty (n : Z) : value := JString (encode_qty n).
(** [format!("0x{}", hex::encode(..))] *)
Definition json_bytes (bs : bytes) : value := JString (str "0x" ++ hex_encode bs).

Definition header_to_json (b : Block) : value :=
  let h := header b in
  object [(str "number", json_qty (number h));
          (str "hash", json_hash (block_hash b));
          (str "parentHash", json_hash (parent_hash h));
          (str "miner", json_address (miner h));
          (str "timestamp", json_qty (timestamp h));
          (str "gasLimit", json_qty (gas_limit h));
          (str "gasUsed", json_qty (gas_used h));
          (str "stateRoot", json_hash (state_root h));
          (str "transactionsRoot", json_hash (transactions_root h));
          (str "receiptsRoot", json_hash (receipts_root h));
          (str "difficulty", JString (U256.to_hex (difficulty h)));
          (str "extraData", json_bytes (extra_data h))].

Definition block_to_json (b : Block) : value :=
  let h := header b in
  object [(str "number", json_qty (number h));
          (str "hash", json_hash (block_hash b));
          (str "parentHash", json_hash (parent_hash h));
          (str "miner", json_address (miner h));
          (str "timestamp", json_qty (timestamp h));
          (str "gasLimit", json_qty (gas_limit h));
          (str "gasUsed", json_qty (gas_used h));
          (str "stateRoot", json_hash (state_root h));
          (str "transactionsRoot", json_hash (transactions_root h));
          (str "receiptsRoot", json_hash (receipts_root h));
          (str "extraData", json_bytes (extra_data h));
          (str "transactions", JArray (map (fun t => json_hash (tx_hash t)) (transactions b)))].

Definition tx_to_json (tx : Transaction) (bh : option H256) (bn index : option Z) : value :=
  object [(str "hash", json_hash (tx_hash tx));
          (str "nonce", json_qty (tx_nonce tx));
          (str "blockHash", json_opt json_hash bh);
          (str "blockNumber", json_opt json_qty bn);
          (str "transactionIndex", json_opt json_qty index);
          (str "from", json_address (tx_from tx));
          (str "to", json_opt json_address (tx_to tx));
          (str "value", JString (U256.to_hex (tx_value tx)));
          (str "gas", json_qty (tx_gas tx));
          (str "gasPrice", JString (U256.to_hex (tx_gas_price tx)));
          (str "input", json_bytes (tx_data tx))].

Definition log_to_json (l : Log) : value :=
  object [(str "address", json_address (log_address l));
          (str "topics", JArray (map json_hash (log_topics l)));
          (str "data", json_bytes (log_data l))].

Definition encode_proof_nodes (nodes : list bytes) : value := JArray (map json_bytes nodes).

(** ** [handler.rs]: parameters *)

Definition params_array (params : value) : result (list value) RpcError.t :=
  ok_or (as_array params) (RpcError.InvalidParams (str "expected array")).

Definition parse_string_at (params : value) (idx : nat) : result bytes RpcError.t :=
  let? arr := params_array params in
  ok_or (arr !! idx ≫= as_str)
    (RpcError.InvalidParams (str "missing string at " ++ fmt_dec (Z.of_nat idx))).

Definition decode_hex (s : bytes) : result bytes bytes :=
  let s := strip_0x s in ok_or (hex_decode s) (hex_error_text s).

Definition primitive_param {A} (r : result A PrimitiveError) : result A RpcError.t :=
  map_err (fun e => RpcError.InvalidParams (primitive_error_display e)) r.

Definition parse_address_at (params : value) (idx : nat) : result Address RpcError.t :=
  let? s := parse_string_at params idx in primitive_param (Address.from_hex s).
Definition parse_h256_at (params : value) (idx : nat) : result H256 RpcError.t :=
  let? s := parse_string_at params idx in primitive_param (Hash.from_hex s).

Definition parse_block_id (v : value) : result BlockNumberOrTag RpcError.t :=
  match as_u64 v with
  | Some n => Ok (Number n)
  | None =>
      let? s := ok_or (as_str v) (RpcError.InvalidParams (str "block id must be string or number")) in
      if decide (s = str "latest") then Ok (Tag Latest)
      else if decide (s = str "earliest") then Ok (Tag Earliest)
      else if decide (s = str "pending") then Ok (Tag Pending)
      else if decide (s = str "safe") then Ok (Tag Safe)
      else if decide (s = str "finalized") then Ok (Tag Finalized)
      else
        let? n := ok_or (parse_hex_u64 (strip_0x s)) (RpcError.InvalidParams (str "invalid block number")) in
        Ok (Number n)
  end.

Definition optional_block_id (params : value) (idx : nat) : result BlockNumberOrTag RpcError.t :=
  let? arr := params_array params in
  match arr !! idx with
  | None | Some JNull => Ok (Tag Latest)
  | Some v => parse_block_id v
  end.

Definition parse_block_id_at (params : value) (idx : nat) : result BlockNumberOrTag RpcError.t :=
  let? arr := params_array params in
  let? v := ok_or (arr !! idx)
              (RpcError.InvalidParams (str "missing block id at " ++ fmt_dec (Z.of_nat idx))) in
  parse_block_id v.

(** [iter().map(f).collect::<Result<Vec<_>, _>>()] *)
Fixpoint collect {A B E} (f : A -> result B E) (l : list A) : result (list B) E :=
  match l with
  | [] => Ok []
  | x :: l => let? y := f x in let? ys := collect f l in Ok (y :: ys)
  end.

Definition parse_storage_keys (params : value) (idx : nat) : result (list H256) RpcError.t :=
  let? arr := params_array params in
  match arr !! idx with
  | None | Some JNull => Ok []
  | Some v =>
      let? keys := ok_or (as_array v) (RpcError.InvalidParams (str "storage keys must be an array")) in
      collect (fun k =>
        let? s := ok_or (as_str k) (RpcError.InvalidParams (str "storage key must be hex")) in
        primitive_param (Hash.from_hex s)) keys
  end.

Definition parse_log_addresses (v : option value) : result (list Address) RpcError.t :=
  match v with
  | None | Some JNull => Ok []
  | Some (JString s) => let? a := primitive_param (Address.from_hex s) in Ok [a]
  | Some v =>
      let? arr := ok_or (as_array v) (RpcError.InvalidParams (str "address must be hex or array")) in
      collect (fun x =>
        let? s := ok_or (as_str x) (RpcError.InvalidParams (str "address entry must be hex")) in
        primitive_param (Address.from_hex s)) arr
  end.

Definition rpc_gas_limit (gas : option U256) : Z :=
  match gas with
  | None => 10000000
  | Some v =>
      if U256.is_zero v then 10000000
      else if U256.ltb (U256.from_u64 u64_max) v then u64_max
      else U256.low_u64 v
  end.

Definition parse_call_args (params : value) : result (SimulateRequest * BlockNumberOrTag) RpcError.t :=
  let? arr := params_array params in
  let? obj := ok_or (arr !! 0%nat) (RpcError.InvalidParams (str "missing transaction object")) in
  let? req := ok_or (tx_request_from_value obj) (RpcError.InvalidParams (serde_json_error_text obj)) in
  let? tag := match arr !! 1%nat with Some v => parse_block_id v | None => Ok (Tag Latest) end in
  let? data := match tr_data req with
               | None | Some [] => Ok []
               | Some s => map_err RpcError.InvalidParams (decode_hex s)
               end in
  Ok (mkSimulateRequest (default Address.ZERO (tr_from req)) (tr_to req)
        (default U256.ZERO (tr_value req)) data (rpc_gas_limit (tr_gas req)), tag).

(** ** [handler.rs]: methods *)

Implicit Types (c : RpcContext W) (params : value).

Definition ctx_store c : BlockStore := lg_store (cx_ledger c).
Definition ctx_pool c : TransactionPool := lg_pool (cx_ledger c).
Definition ctx_state c : StateDB := lg_live (cx_ledger c).

Definition block_by_tag c (tag : BlockNumberOrTag) : option Block :=
  match tag with
  | Number n => BlockStore.get_block_by_number (ctx_store c) n
  | Tag Earliest => BlockStore.get_block_by_number (ctx_store c) 0
  | Tag (Latest | Pending | Safe | Finalized) => BlockStore.head_block (ctx_store c)
  end.

Definition state_for_tag c (tag : BlockNumberOrTag) : result StateDB RpcError.t :=
  match tag with
  | Tag (Latest | Pending | Safe | Finalized) => Ok (StateDB.fork (ctx_state c))
  | other =>
      let? block := ok_or (block_by_tag c other) RpcError.BlockNotFound in
      ok_or (BlockStore.state_at (ctx_store c) (block_hash block)) RpcError.BlockNotFound
  end.

Definition rpc_chain_id c : result value RpcError.t := Ok (json_qty (cx_chain_id c)).

Definition rpc_block_number c : result value RpcError.t :=
  let? n := ok_or ((fun b => number (header b)) <$> BlockStore.head_block (ctx_store c))
              RpcError.BlockNotFound in
  Ok (json_qty n).

Definition rpc_get_balance c params : result value RpcError.t :=
  let? addr := parse_address_at params 0 in
  let? tag := optional_block_id params 1 in
  let? state := state_for_tag c tag in
  let balance := default U256.ZERO (acc_balance <$> StateDB.get_account state addr) in
  Ok (JString (U256.to_hex balance)).

Definition rpc_get_code c params : result value RpcError.t :=
  let? addr := parse_address_at params 0 in
  let? tag := optional_block_id params 1 in
  let? state := state_for_tag c tag in
  Ok (json_bytes (StateDB.get_code state addr)).

Definition rpc_get_storage_at c params : result value RpcError.t :=
  let? addr := parse_address_at params 0 in
  let? slot := parse_h256_at params 1 in
  let? tag := optional_block_id params 2 in
  let? state := state_for_tag c tag in
  Ok (JString (U256.to_hex (StateDB.get_storage state addr slot))).

Definition rpc_get_transaction_count c params : result value RpcError.t :=
  let? addr := parse_address_at params 0 in
  let? tag := optional_block_id params 1 in
  let? state := state_for_tag c tag in
  Ok (json_qty (default 0 (acc_nonce <$> StateDB.get_account state addr))).

Definition check_proof (root : H256) (key : bytes) (nodes : list bytes) : result unit RpcError.t :=
  let? _ := map_err (fun e => RpcError.Server (proof_error_display e)) (verify root key nodes) in Ok tt.

(** One turn of the loop over the storage keys. *)
Definition storage_entry (state : StateDB) (addr : Address) (slot : H256) : result value RpcError.t :=
  let p := StateDB.storage_proof state addr slot in
  let? _ := check_proof (proof_root p) (hash_bytes slot) (proof_nodes p) in
  Ok (object [(str "key", json_hash slot);
              (str "value", JString (U256.to_hex (StateDB.get_storage state addr slot)));
              (str "proof", encode_proof_nodes (proof_nodes p))]).

Definition rpc_get_proof c params : result value RpcError.t :=
  let? addr := parse_address_at params 0 in
  let? slots := parse_storage_keys params 1 in
  let? tag := optional_block_id params 2 in
  let? state := state_for_tag c tag in
  let '(state, account_proof) := StateDB.account_proof state addr in
  let? _ := check_proof (proof_root account_proof) (Address.as_bytes addr) (proof_nodes account_proof) in
  let acc := default account_new (StateDB.get_account state addr) in
  let? storage_proof := collect (storage_entry state addr) slots in
  Ok (object [(str "address", json_address addr);
              (str "accountProof", encode_proof_nodes (proof_nodes account_proof));
              (str "balance", JString (U256.to_hex (acc_balance acc)));
              (str "codeHash", json_hash (acc_code_hash acc));
              (str "nonce", json_qty (acc_nonce acc));
              (str "storageHash", json_hash (acc_storage_root acc));
              (str "storageProof", JArray storage_proof)]).

Definition rpc_get_block_by_number c params : result value RpcError.t :=
  let? tag := parse_block_id_at params 0 in
  let? block := ok_or (block_by_tag c tag) RpcError.BlockNotFound in
  Ok (block_to_json block).

Definition rpc_get_block_by_hash c params : result value RpcError.t :=
  let? hash := parse_h256_at params 0 in
  let? block := ok_or (BlockStore.get_block (ctx_store c) hash) RpcError.BlockNotFound in
  Ok (block_to_json block).

Definition rpc_get_header_by_number c params : result value RpcError.t :=
  let? tag := parse_block_id_at params 0 in
  let? block := ok_or (block_by_tag c tag) RpcError.BlockNotFound in
  Ok (header_to_json block).

Definition rpc_get_transaction_by_hash c params : result value RpcError.t :=
  let? hash := parse_h256_at params 0 in
  match TransactionPool.get (ctx_pool c) hash with
  | Some tx => Ok (tx_to_json tx None None None)
  | None =>
      let? r := ok_or (BlockStore.get_transaction (ctx_store c) hash) RpcError.TransactionNotFound in
      let '(tx, loc) := r in
      Ok (tx_to_json tx (Some (tl_block_hash loc)) (Some (tl_block_number loc))
            (Some (Z.of_nat (tl_index loc))))
  end.

Definition rpc_get_transaction_receipt c params : result value RpcError.t :=
  let? hash := parse_h256_at params 0 in
  let? r := ok_or (BlockStore.get_transaction (ctx_store c) hash) RpcError.TransactionNotFound in
  let '(tx, loc) := r in
  let? block := ok_or (BlockStore.get_block (ctx_store c) (tl_block_hash loc)) RpcError.BlockNotFound in
  let? receipt := ok_or (receipts block !! tl_index loc) RpcError.TransactionNotFound in
  let contract_address :=
    if is_create tx then json_address (Address.create (tx_from tx) (tx_nonce tx)) else JNull in
  Ok (object [(str "transactionHash", json_hash hash);
              (str "transactionIndex", json_qty (Z.of_nat (tl_index loc)));
              (str "blockHash", json_hash (tl_block_hash loc));
              (str "blockNumber", json_qty (tl_block_number loc));
              (str "from", json_address (tx_from tx));
              (str "to", json_opt json_address (tx_to tx));
              (str "gasUsed", json_qty (rc_gas_used receipt));
              (str "cumulativeGasUsed", json_qty (rc_gas_used receipt));
              (str "status", JString (if rc_status receipt then str "0x1" else str "0x0"));
              (str "logs", JArray (map log_to_json (rc_logs receipt)));
              (str "contractAddress", contract_address)]).

Definition rpc_simulate c params : result SimulateOutcome RpcError.t :=
  let? args := parse_call_args params in
  let '(req, tag) := args in
  let? state := state_for_tag c tag in
  map_err (fun e => RpcError.Server (execution_error_display e))
    (simulate gas_config_default req state).2.

Definition rpc_eth_call c params : result value RpcError.t :=
  let? out := rpc_simulate c params in Ok (json_bytes (cr_output (so_call out))).
Definition rpc_estimate_gas c params : result value RpcError.t :=
  let? out := rpc_simulate c params in Ok (json_qty (so_gas_used out)).

Definition rpc_node_info c : result value RpcError.t :=
  let '(head_number, head_hash) :=
    match BlockStore.head_block (ctx_store c) with
    | Some block => (encode_qty (number (header block)), json_hash (block_hash block))
    | None => (str "0x0", JNull)
    end in
  Ok (object [(str "role", JString (node_role_as_str (cx_role c)));
              (str "address", json_address (cx_address c));
              (str "chainId", json_qty (cx_chain_id c));
              (str "peerId", JString (cx_peer_id c));
              (str "peers", json_u64 (cx_peers c));
              (str "pending", json_u64 (Z.of_nat (TransactionPool.pending_count (ctx_pool c))));
              (str "headNumber", JString head_number);
              (str "headHash", head_hash);
              (str "bootstrap", json_strs (cx_bootstrap c))]).

(** The rows one block contributes to [list_contracts]. *)
Definition contract_row c (n : Z) (tx : Transaction) : value :=
  let addr := Address.create (tx_from tx) (tx_nonce tx) in
  let code := StateDB.get_code (ctx_state c) addr in
  let meta := f ← cx_contract_lookup c; f (keccak256 code) in
  let text (f : ContractMeta -> bytes) := json_opt (fun m => JString (f m)) meta in
  object [(str "address", json_address addr);
          (str "codeSize", json_u64 (Z.of_nat (length code)));
          (str "blockNumber", json_qty n);
          (str "transactionHash", json_hash (tx_hash tx));
          (str "name", text cm_name);
          (str "schema", text cm_schema);
          (str "source", text cm_source);
          (str "description", text cm_description);
          (str "registered", JBool (bool_decide (is_Some meta)))].
Definition block_contracts c (n : Z) : list value :=
  match BlockStore.get_block_by_number (ctx_store c) n with
  | None => []
  | Some block =>
      flat_map (fun '(tx, receipt) =>
        if negb (is_create tx) || negb (rc_status receipt) then [] else [contract_row c n tx])
        (zip (transactions block) (receipts block))
  end.
Definition rpc_list_contracts c : result value RpcError.t :=
  match BlockStore.head_block (ctx_store c) with
  | None => Ok (JArray [])
  | Some head => Ok (JArray (flat_map (block_contracts c) (seqZ 1 (number (header head)))))
  end.

(** One end of the block range of [eth_getLogs]. *)
Definition log_bound c (v : option value) (unknown absent : Z) : result Z RpcError.t :=
  match v with
  | None => Ok absent
  | Some v =>
      let? tag := parse_block_id v in
      match tag with
      | Number n => Ok n
      | tag => Ok (default unknown ((fun b => number (header b)) <$> block_by_tag c tag))
      end
  end.
Definition log_matches (addrs : list Address) (l : Log) : bool :=
  bool_decide (addrs = []) || bool_decide (log_address l ∈ addrs).
Definition log_row (n : Z) (hash : H256) (receipt : Receipt) (tx_idx log_idx : nat) (l : Log) : value :=
  object [(str "address", json_address (log_address l));
          (str "topics", JArray (map json_hash (log_topics l)));
          (str "data", json_bytes (log_data l));
          (str "blockNumber", json_qty n);
          (str "blockHash", json_hash hash);
          (str "transactionHash", json_hash (rc_tx_hash receipt));
          (str "transactionIndex", json_qty (Z.of_nat tx_idx));
          (str "logIndex", json_qty (Z.of_nat log_idx))].
Definition block_log_rows c (addrs : list Address) (n : Z) : list value :=
  match BlockStore.get_block_by_number (ctx_store c) n with
  | None => []
  | Some block =>
      let hash := block_hash block in
      flat_map (fun '(tx_idx, receipt) =>
        flat_map (fun '(log_idx, l) =>
          if log_matches addrs l then [log_row n hash receipt tx_idx log_idx l] else [])
          (imap pair (rc_logs receipt)))
        (imap pair (receipts block))
  end.
Definition rpc_get_logs c params : result value RpcError.t :=
  let? arr := params_array params in
  let? filter := ok_or (head arr ≫= as_object) (RpcError.InvalidParams (str "expected filter object")) in
  let? head := ok_or (BlockStore.head_block (ctx_store c)) RpcError.BlockNotFound in
  let head := number (header head) in
  let? from := log_bound c (btree_get (str "fromBlock") filter) 0 0 in
  let? to := log_bound c (btree_get (str "toBlock") filter) head head in
  if to <? from then Err (RpcError.InvalidParams (str "toBlock < fromBlock"))
  else if 1000 <? saturating_sub64 to from
  then Err (RpcError.InvalidParams (str "log scan exceeds 1000 blocks"))
  else
    let? addrs := parse_log_addresses (btree_get (str "address") filter) in
    Ok (JArray (flat_map (block_log_rows c addrs) (seqZ from (to - from + 1)))).

(** ** [handler.rs]: the method that changes something, and the dispatcher *)

Definition set_ctx_pool (p : TransactionPool) c : RpcContext W :=
  mkRpcContext (mkLedger (ctx_store c) (ctx_state c) p) (cx_chain_id c) (cx_on_tx c) (cx_world c)
    (cx_role c) (cx_address c) (cx_peer_id c) (cx_peers c) (cx_bootstrap c) (cx_contract_lookup c)
    (cx_events c) (cx_metrics c) (cx_allow_methods c).
Definition set_ctx_world (w : W) c : RpcContext W :=
  mkRpcContext (cx_ledger c) (cx_chain_id c) (cx_on_tx c) w
    (cx_role c) (cx_address c) (cx_peer_id c) (cx_peers c) (cx_bootstrap c) (cx_contract_lookup c)
    (cx_events c) (cx_metrics c) (cx_allow_methods c).
(** [RpcContext::emit] *)
Definition ctx_emit (e : RpcEvent) c : RpcContext W :=
  mkRpcContext (cx_ledger c) (cx_chain_id c) (cx_on_tx c) (cx_world c)
    (cx_role c) (cx_address c) (cx_peer_id c) (cx_peers c) (cx_bootstrap c) (cx_contract_lookup c)
    (cx_events c ++ [e]) (cx_metrics c) (cx_allow_methods c).
Definition on_metrics (f : IvoryMetrics -> IvoryMetrics) c : RpcContext W :=
  mkRpcContext (cx_ledger c) (cx_chain_id c) (cx_on_tx c) (cx_world c)
    (cx_role c) (cx_address c) (cx_peer_id c) (cx_peers c) (cx_bootstrap c) (cx_contract_lookup c)
    (cx_events c) (f (cx_metrics c)) (cx_allow_methods c).

Definition notify (tx : Transaction) c : RpcContext W :=
  match cx_on_tx c with Some cb => set_ctx_world (cb tx (cx_world c)) c | None => c end.

Definition send_raw_transaction (params : value) : smonad (RpcContext W) RpcError.t value := fun c =>
  match
    (let? hex_str := parse_string_at params 0 in
     let? raw := map_err RpcError.InvalidParams (decode_hex hex_str) in
     ok_or (deserialize (A := Transaction) raw) (RpcError.InvalidParams (bincode_error_text raw)))
  with
  | Err e => (c, Err e)
  | Ok tx =>
      match TransactionPool.add_transaction tx Local (ctx_pool c) with
      | (p, Err e) => (set_ctx_pool p c, Err (RpcError.InvalidParams (pool_error_display e)))
      | (p, Ok hash) =>
          (ctx_emit (NewPendingTx hash) (notify tx (set_ctx_pool p c)), Ok (json_hash hash))
      end
  end.

Definition query (f : RpcContext W -> result value RpcError.t) : smonad (RpcContext W) RpcError.t value :=
  fun c => (c, f c).

(** The [match method]. *)
Definition dispatch_method (method : bytes) (params : value) : smonad (RpcContext W) RpcError.t value :=
  let is_method m := bool_decide (method = m) in
  if is_method (str "eth_chainId") then query rpc_chain_id
  else if is_method (str "eth_blockNumber") then query rpc_block_number
  else if is_method (str "eth_getBalance") then query (fun c => rpc_get_balance c params)
  else if is_method (str "eth_getCode") then query (fun c => rpc_get_code c params)
  else if is_method (str "eth_getStorageAt") then query (fun c => rpc_get_storage_at c params)
  else if is_method (str "eth_getBlockByNumber") then query (fun c => rpc_get_block_by_number c params)
  else if is_method (str "eth_getBlockByHash") then query (fun c => rpc_get_block_by_hash c params)
  else if is_method (str "eth_getTransactionByHash") then query (fun c => rpc_get_transaction_by_hash c params)
  else if is_method (str "eth_getTransactionReceipt") then query (fun c => rpc_get_transaction_receipt c params)
  else if is_method (str "eth_getTransactionCount") then query (fun c => rpc_get_transaction_count c params)
  else if is_method (str "eth_sendRawTransaction") then send_raw_transaction params
  else if is_method (str "eth_call") then query (fun c => rpc_eth_call c params)
  else if is_method (str "eth_estimateGas") then query (fun c => rpc_estimate_gas c params)
  else if is_method (str "eth_getLogs") then query (fun c => rpc_get_logs c params)
  else if is_method (str "eth_getProof") then query (fun c => rpc_get_proof c params)
  else if is_method (str "eth_subscribe") || is_method (str "eth_unsubscribe")
       then sfail (RpcError.Server (str "WebSocket only"))
  else if is_method (str "ivory_nodeInfo") then query rpc_node_info
  else if is_method (str "ivory_listContracts") then query rpc_list_contracts
  else if is_method (str "ivory_getHeaderByNumber") then query (fun c => rpc_get_header_by_number c params)
  else sfail (RpcError.MethodNotFound method).

Definition allowed c (method : bytes) : bool :=
  match cx_allow_methods c with
  | Some allow => existsb (fun m => bool_decide (m = method)) allow
  | None => true
  end.

Definition handle (method : bytes) (params : value) : smonad (RpcContext W) RpcError.t value := fun c =>
  if negb (allowed c method) then
    (on_metrics (fun m => IvoryMetrics.rpc_error method (-32601) (IvoryMetrics.rpc_request method m)) c,
     Err (RpcError.MethodNotFound method))
  else
    let '(c, result) := dispatch_method method params c in
    let c := on_metrics (IvoryMetrics.rpc_request method) c in
    match result with
    | Ok v => (c, Ok v)
    | Err err => (on_metrics (IvoryMetrics.rpc_error method (je_code (json_rpc_error err))) c, Err err)
    end.
End Handler.
