(* ===== verification/Light.v ===== *)
(** * The light client: [tools/ivory-light/src/lib.rs] and [main.rs]

    Decoding a header from the answer of [ivory_getHeaderByNumber], the checks
    on it and on its link to the previous header, and the [follow] command.  The
    full node is a function from a method and its parameters to its answer;
    [follow] threads the lines it has printed. *)

From S2P Require Import Prelude Hex Uint UintFacts Hash Address Text Btree Bincode Core.
From S2P Require Import Trie State Crypto Vm Executor TxPool Consensus Store Apply Json Metrics Rpc.
#[local] Open Scope Z_scope.

Module LightError.
Inductive t : Type :=
| ParentMismatch
| NumberMismatch
| MissingSeal
| InvalidRpc (field : bytes)
| HashMismatch.
#[global] Instance eq_dec : EqDecision t.
Proof. solve_decision. Defined.
End LightError.

Section Light.
Context {HC : HexCrate} {BC : BincodeCrate} {SC : Sha3Crate}.

Definition verify_header_link (prev next : BlockHeader) : result unit LightError.t :=
  if decide (parent_hash next ≠ header_hash prev) then Err LightError.ParentMismatch
  else if negb (number next =? saturating_add64 (number prev) 1) then Err LightError.NumberMismatch
  else if decide (extra_data next = []) then Err LightError.MissingSeal
  else Ok tt.

Definition light_str (what : bytes) (v : value) : result bytes LightError.t :=
  ok_or (as_str v) (LightError.InvalidRpc what).
Definition parse_qty (v : value) : result Z LightError.t :=
  let? s := light_str (str "qty") v in
  ok_or (parse_hex_u64 (strip_0x s)) (LightError.InvalidRpc (str "qty")).
Definition parse_h256 (v : value) : result H256 LightError.t :=
  let? s := light_str (str "hash") v in
  map_err (fun _ => LightError.InvalidRpc (str "hash")) (Hash.from_hex s).
Definition parse_address (v : value) : result Address LightError.t :=
  let? s := light_str (str "address") v in
  map_err (fun _ => LightError.InvalidRpc (str "address")) (Address.from_hex s).
Definition parse_light_u256 (v : value) : result U256 LightError.t :=
  let? s := light_str (str "u256") v in
  map_err (fun _ => LightError.InvalidRpc (str "u256")) (U256.from_hex s).
Definition parse_bytes (v : value) : result bytes LightError.t :=
  let? s := light_str (str "bytes") v in
  ok_or (hex_decode (strip_0x s)) (LightError.InvalidRpc (str "bytes")).

(** [parse(v.get(k).ok_or(LightError::InvalidRpc(k))?)?] *)
Definition member {A} (k : bytes) (parse : value -> result A LightError.t) (v : value) :
    result A LightError.t :=
  let? x := ok_or (get k v) (LightError.InvalidRpc k) in parse x.

Definition header_from_rpc (v : value) : result BlockHeader LightError.t :=
  let? number := member (str "number") parse_qty v in
  let? parent_hash := member (str "parentHash") parse_h256 v in
  let? timestamp := member (str "timestamp") parse_qty v in
  let? miner := member (str "miner") parse_address v in
  let? gas_limit := member (str "gasLimit") parse_qty v in
  let? gas_used := member (str "gasUsed") parse_qty v in
  let? state_root := member (str "stateRoot") parse_h256 v in
  let? transactions_root := member (str "transactionsRoot") parse_h256 v in
  let? receipts_root := member (str "receiptsRoot") parse_h256 v in
  let? difficulty := match get (str "difficulty") v with
                     | Some d => parse_light_u256 d
                     | None => Ok U256.ZERO
                     end in
  let? extra_data := member (str "extraData") parse_bytes v in
  Ok (mkBlockHeader number parent_hash timestamp miner gas_limit gas_used state_root
        transactions_root receipts_root difficulty extra_data).

Definition verify_rpc_hash (h : BlockHeader) (v : value) : result unit LightError.t :=
  let? reported := member (str "hash") parse_h256 v in
  if decide (reported ≠ header_hash h) then Err LightError.HashMismatch else Ok tt.

(** ** [main.rs] *)

Inductive FollowError : Type :=
| BadHeight
| BadQuantity
| EmptyRange (first last : Z)
| CallFailed (method : bytes)
| DecodeHeader (e : LightError.t)
| HeaderHash (e : LightError.t)
| GenesisSeal
| LinkAt (n : Z) (e : LightError.t)
| FirstNumber (got first : Z).

Definition parse_height (s : bytes) : result Z FollowError :=
  let s := trim s in
  match strip_prefix (str "0x") s, strip_prefix (str "0X") s with
  | Some hex, _ | None, Some hex => ok_or (parse_hex_u64 hex) BadHeight
  | None, None => ok_or (parse_u64 s) BadHeight
  end.

Definition parse_rpc_qty (v : value) : result Z FollowError :=
  let? s := ok_or (as_str v) BadQuantity in ok_or (parse_hex_u64 (strip_0x s)) BadQuantity.

Definition print_header (h : BlockHeader) : bytes :=
  encode_qty (number h) ++ str " " ++ Hash.to_hex (header_hash h).

(** The checks on the header served for height [n]. *)
Definition fetch_header (server : bytes -> value -> option value) (n : Z) : result BlockHeader FollowError :=
  let? raw := ok_or (server (str "ivory_getHeaderByNumber") (JArray [json_qty n]))
                (CallFailed (str "ivory_getHeaderByNumber")) in
  let? h := map_err DecodeHeader (header_from_rpc raw) in
  let? _ := map_err HeaderHash (verify_rpc_hash h raw) in
  if (n =? 0) && bool_decide (extra_data h = []) then Err GenesisSeal else Ok h.

(** [for n in start..=end]; [prev] is the header of the turn before. *)
Fixpoint follow_loop (server : bytes -> value -> option value) (start : Z) (prev : option BlockHeader)
    (ns : list Z) : smonad (list bytes) FollowError unit :=
  match ns with
  | [] => sret tt
  | n :: ns =>
      h <-! slift (fetch_header server n) ;;
      slift (match prev with
             | Some p => map_err (LinkAt n) (verify_header_link p h)
             | None => if number h =? start then Ok tt else Err (FirstNumber (number h) start)
             end) ;;;
      smodify (fun out => out ++ [print_header h]) ;;;
      follow_loop server start (Some h) ns
  end.

Definition follow (server : bytes -> value -> option value) (from to : bytes) :
    smonad (list bytes) FollowError unit :=
  start <-! slift (parse_height from) ;;
  finish <-! slift (if decide (to_ascii_lowercase to = str "latest")
                    then let? n := ok_or (server (str "eth_blockNumber") (JArray []))
                                     (CallFailed (str "eth_blockNumber")) in
                         parse_rpc_qty n
                    else parse_height to) ;;
  sguard (start <=? finish) (EmptyRange start finish) ;;;
  follow_loop server start None (seqZ start (finish - start + 1)).
End Light.
