(* ===== verification/RpcServer.v ===== *)
(** * HTTP and WebSocket front ends: [crates/ivory-rpc/src/server.rs] and [websocket.rs]

    Axum's routing is the function [route]; a request is what the handlers look
    at: path, [Authorization] text, parsed body.  JSON text is the parameter
    [SerdeJson].  A socket is a state machine over the frames and events it
    receives; a send that fails ends the loop and is an input of its own. *)

From S2P Require Import Prelude Hex Uint UintFacts Hash Address Text Btree Bincode Core.
From S2P Require Import Trie State Crypto Vm Executor TxPool Consensus Store Apply Json Metrics Rpc.
#[local] Open Scope Z_scope.

(** [serde_json::from_str::<JsonRpcRequest>] and the two [to_string]s. *)
Class SerdeJson := {
  request_from_str : bytes -> option JsonRpcRequest;
  response_to_string : JsonRpcResponse -> bytes;
  value_to_string : value -> bytes }.

(** ** [server.rs]: configuration *)

Record RpcHttpConfig : Type := mkRpcHttpConfig {
  http_token : option bytes;
  http_cors : bytes }.

(** [read_file] is [std::fs::read_to_string(path).ok()]. *)
Definition file_token (read_file : bytes -> option bytes) (path : bytes) : option bytes :=
  if decide (path = []) then None
  else t ← read_file path; let t := trim t in if decide (t = []) then None else Some t.

(** [env] is [std::env::var(name).ok()]. *)
Definition read_token (env : bytes -> option bytes) (read_file : bytes -> option bytes) : option bytes :=
  let from_var :=
    s ← env (str "IVORY_RPC_TOKEN"); let s := trim s in if decide (s = []) then None else Some s in
  match env (str "IVORY_RPC_TOKEN_FILE") with
  | Some path => match file_token read_file (trim path) with Some t => Some t | None => from_var end
  | None => from_var
  end.

Definition config_from_env (env : bytes -> option bytes) (read_file : bytes -> option bytes) : RpcHttpConfig :=
  mkRpcHttpConfig (read_token env read_file) (default [] (env (str "IVORY_CORS"))).

(** [str::split] at a character. *)
Fixpoint split_on (c : byte) (s : bytes) : list bytes :=
  match s with
  | [] => [[]]
  | b :: s =>
      if decide (b = c) then [] :: split_on c s
      else match split_on c s with p :: ps => (b :: p) :: ps | [] => [[b]] end
  end.

Inductive CorsLayer : Type := Permissive | Origins (l : list bytes).

(** [parse_origin] is [str::parse::<HeaderValue>]. *)
Definition cors_layer (parse_origin : bytes -> option bytes) (spec : bytes) : option CorsLayer :=
  let spec := trim spec in
  if decide (spec = []) then None
  else if decide (spec = str "*") then Some Permissive
  else
    let parts := List.filter (fun s => negb (bool_decide (s = []))) (map trim (split_on x2c spec)) in
    match omap parse_origin parts with
    | [] => None
    | origins => Some (Origins origins)
    end.

(** ** [server.rs]: requests *)

Inductive HttpMethod : Type := Get | Post.

(** [req_auth] is the text of the [Authorization] header, when there is one;
    [req_body] is the parsed JSON body, when it parses. *)
Record HttpRequest : Type := mkHttpRequest {
  req_method : HttpMethod;
  req_path : bytes;
  req_auth : option bytes;
  req_body : option value }.

Inductive HttpReply : Type :=
| Unauthorized
| NotFound
| MethodNotAllowed
| Live
| Ready
| ServiceUnavailable
| MetricsText (text : bytes)
| PanelHtml
| JsonReply (r : JsonRpcResponse)
| Upgrade.

Section Server.
Context {HC : HexCrate} {BC : BincodeCrate} {SC : Sha3Crate} {EC : Ed25519Crate} {WC : WasmiCrate}.
Context {ET : ErrorTexts} {FT : FloatText} {SJ : SerdeJson} {W : Type}.
Implicit Types (c : RpcContext W).

Definition dispatch (request : JsonRpcRequest) c : RpcContext W * JsonRpcResponse :=
  match handle (jr_method request) (jr_params request) c with
  | (c, Ok result) => (c, response_success (jr_id request) result)
  | (c, Err e) => (c, response_error (jr_id request) (json_rpc_error e))
  end.

Definition http_jsonrpc (body : option value) c : RpcContext W * JsonRpcResponse :=
  match body with
  | None => (c, response_error JNull parse_error)
  | Some v =>
      match request_from_value v with
      | None => (c, response_error JNull invalid_request)
      | Some request => dispatch request c
      end
  end.

Definition readyz c : RpcContext W * HttpReply :=
  match handle (str "eth_blockNumber") (JArray []) c with
  | (c, Ok _) => (c, Ready)
  | (c, Err _) => (c, ServiceUnavailable)
  end.

Definition metrics_endpoint c : RpcContext W * HttpReply :=
  let c :=
    match BlockStore.head_block (ctx_store c) with
    | Some head => on_metrics (IvoryMetrics.set_head (number (header head)) (timestamp (header head))) c
    | None => c
    end in
  let c := on_metrics (IvoryMetrics.set_txpool_pending
                         (Z.of_nat (TransactionPool.pending_count (ctx_pool c)))) c in
  let c := on_metrics (IvoryMetrics.set_p2p_peers (cx_peers c)) c in
  (c, MetricsText (IvoryMetrics.encode (cx_metrics c))).

(** The probes that stay open when a token is set. *)
Definition open_path (path : bytes) : bool :=
  bool_decide (path = str "/livez") || bool_decide (path = str "/readyz") ||
  bool_decide (path = str "/metrics").

Definition token_ok (expected : bytes) (auth : option bytes) : bool :=
  match auth with
  | Some v => match strip_prefix (str "Bearer ") v with
              | Some got => bool_decide (got = expected)
              | None => false
              end
  | None => false
  end.

(** The routes of [router_with_config]. *)
Definition route (r : HttpRequest) c : RpcContext W * HttpReply :=
  let at_path p := bool_decide (req_path r = p) in
  if at_path (str "/") then
    match req_method r with
    | Post => let '(c, resp) := http_jsonrpc (req_body r) c in (c, JsonReply resp)
    | Get => (c, Upgrade)
    end
  else
    let get (k : RpcContext W * HttpReply) :=
      match req_method r with Get => k | Post => (c, MethodNotAllowed) end in
    if at_path (str "/ui") || at_path (str "/ui/") then get (c, PanelHtml)
    else if at_path (str "/livez") then get (c, Live)
    else if at_path (str "/readyz") then get (readyz c)
    else if at_path (str "/metrics") then get (metrics_endpoint c)
    else (c, NotFound).

(** [auth_mw] in front of the routes. *)
Definition serve (token : option bytes) (r : HttpRequest) c : RpcContext W * HttpReply :=
  if open_path (req_path r) then route r c
  else match token with
       | Some expected => if token_ok expected (req_auth r) then route r c else (c, Unauthorized)
       | None => route r c
       end.

(** ** [websocket.rs] *)

Inductive SubKind : Type :=
| SubNewHeads
| SubNewPendingTx
| SubLogs (address : option Address).

Abbreviation Subs := (gmap bytes SubKind).

Definition sub_id_text (n : Z) : bytes := str "0x" ++ fmt_hex n.

(** [subs] and [next_id] are what the two methods mutate. *)
Definition subscribe (id params : value) (subs : Subs) (next_id : Z) : Subs * Z * JsonRpcResponse :=
  let fail msg := (subs, next_id, response_error id (invalid_params msg)) in
  match as_array params with
  | None => fail (str "expected array")
  | Some arr =>
      match head arr ≫= as_str with
      | None => fail (str "missing topic")
      | Some topic =>
          let kind :=
            if decide (topic = str "newHeads") then Some SubNewHeads
            else if decide (topic = str "newPendingTransactions") then Some SubNewPendingTx
            else if decide (topic = str "logs") then
              Some (SubLogs (v ← arr !! 1%nat; a ← get (str "address") v; s ← as_str a;
                             ok (Address.from_hex s)))
            else None in
          match kind with
          | None => fail (str "unknown subscription " ++ topic)
          | Some kind =>
              let sub_id := sub_id_text next_id in
              (<[sub_id := kind]> subs, saturating_add64 next_id 1, response_success id (JString sub_id))
          end
      end
  end.

Definition unsubscribe (id params : value) (subs : Subs) : Subs * JsonRpcResponse :=
  match as_array params with
  | None => (subs, response_error id (invalid_params (str "expected array")))
  | Some arr =>
      match head arr ≫= as_str with
      | None => (subs, response_error id (invalid_params (str "missing subscription id")))
      | Some sub_id =>
          (delete sub_id subs, response_success id (JBool (bool_decide (is_Some (subs !! sub_id)))))
      end
  end.

Definition head_json (e : RpcEvent) : value :=
  match e with
  | NewHead n hash parent miner ts root gl gu =>
      object [(str "number", json_qty n);
              (str "hash", json_hash hash);
              (str "parentHash", json_hash parent);
              (str "miner", json_address miner);
              (str "timestamp", json_qty ts);
              (str "stateRoot", json_hash root);
              (str "gasLimit", json_qty gl);
              (str "gasUsed", json_qty gu)]
  | _ => JNull
  end.

Definition logs_json (logs : list Log) (filter : option Address) (n : Z) (hash : H256) : value :=
  JArray (map (fun l => object [(str "address", json_address (log_address l));
                                (str "topics", JArray (map json_hash (log_topics l)));
                                (str "data", json_bytes (log_data l));
                                (str "blockNumber", json_qty n);
                                (str "blockHash", json_hash hash)])
    (List.filter (fun l => match filter with
                           | None => true
                           | Some a => bool_decide (log_address l = a)
                           end) logs)).

Definition notification (kind : SubKind) (e : RpcEvent) : option value :=
  match kind, e with
  | SubNewHeads, NewHead _ _ _ _ _ _ _ _ => Some (head_json e)
  | SubNewPendingTx, NewPendingTx hash => Some (json_hash hash)
  | SubLogs address, NewLogs logs n hash => Some (logs_json logs address n hash)
  | _, _ => None
  end.

Definition note_value (sub_id : bytes) (result : value) : value :=
  object [(str "jsonrpc", JString (str "2.0"));
          (str "method", JString (str "eth_subscription"));
          (str "params", object [(str "subscription", JString sub_id); (str "result", result)])].

(** [HashMap] order is [map_to_list]'s; the theorems do not depend on it. *)
Definition notifications_for (subs : Subs) (e : RpcEvent) : list bytes :=
  omap (fun '(sub_id, kind) => (fun result => value_to_string (note_value sub_id result)) <$> notification kind e)
    (map_to_list subs).

Record WsState : Type := mkWsState {
  ws_ctx : RpcContext W;
  ws_subs : Subs;
  ws_next_id : Z;
  ws_open : bool }.

Definition ws_start c : WsState := mkWsState c ∅ 1 true.

Definition handle_ws_message (text : bytes) (s : WsState) : WsState * bytes :=
  match request_from_str text with
  | None => (s, response_to_string (response_error JNull parse_error))
  | Some r =>
      if decide (jr_method r = str "eth_subscribe") then
        let '(subs, next, resp) := subscribe (jr_id r) (jr_params r) (ws_subs s) (ws_next_id s) in
        (mkWsState (ws_ctx s) subs next (ws_open s), response_to_string resp)
      else if decide (jr_method r = str "eth_unsubscribe") then
        let '(subs, resp) := unsubscribe (jr_id r) (jr_params r) (ws_subs s) in
        (mkWsState (ws_ctx s) subs (ws_next_id s) (ws_open s), response_to_string resp)
      else
        let '(c, resp) := dispatch r (ws_ctx s) in
        (mkWsState c (ws_subs s) (ws_next_id s) (ws_open s), response_to_string resp)
  end.

(** What the [select!] of [handle_socket] can receive; [Stop] is the end of the
    stream, an error, a close frame, a closed event channel or a failed send. *)
Inductive WsInput : Type :=
| TextFrame (text : bytes)
| BinaryFrame (data : bytes)
| PingFrame (data : bytes)
| PongFrame
| EventReceived (e : RpcEvent)
| Lagged
| Stop.

Inductive WsOutput : Type := SendText (text : bytes) | SendPong (data : bytes).

Definition socket_step (i : WsInput) (s : WsState) : WsState * list WsOutput :=
  if negb (ws_open s) then (s, [])
  else match i with
  | TextFrame text => let '(s, response) := handle_ws_message text s in (s, [SendText response])
  | BinaryFrame data =>
      if utf8_ok data
      then let '(s, response) := handle_ws_message data s in (s, [SendText response])
      else (s, [])
  | PingFrame data => (s, [SendPong data])
  | PongFrame => (s, [])
  | EventReceived e => (s, map SendText (notifications_for (ws_subs s) e))
  | Lagged => (s, [])
  | Stop => (mkWsState (ws_ctx s) (ws_subs s) (ws_next_id s) false, [])
  end.

Fixpoint run_socket (inputs : list WsInput) (s : WsState) : WsState * list WsOutput :=
  match inputs with
  | [] => (s, [])
  | i :: inputs => let '(s, out) := socket_step i s in
               let '(s, outs) := run_socket inputs s in (s, out ++ outs)
  end.
End Server.
