(* ===== verification/RpcProps.v ===== *)
(** * The JSON-RPC methods: theorems *)

From S2P Require Import Prelude Hex Uint UintFacts UintProps Hash Address Text Btree Bincode Core.
From S2P Require Import Trie TrieProps State StateProps Crypto Vm Executor TxPool Consensus Store.
From S2P Require Import StoreProps StoreSpec Apply ApplyProps PersistProps Json Metrics Rpc Light.
#[local] Open Scope Z_scope.

Section Spec.
Context {HC : HexCrate} {HL : HexLaws} {BC : BincodeCrate} {BL : BincodeLaws} {SC : Sha3Crate}.
Context {EC : Ed25519Crate} {WC : WasmiCrate} {DC : DashMapCrate} {ET : ErrorTexts} {W : Type}.
Implicit Types (c : RpcContext W).

(** ** Encodings that come back *)

Lemma encode_qty_text n : encode_qty n = str "0x" ++ fmt_hex n \/ (n = 0 /\ encode_qty n = str "0x0").
Proof. unfold encode_qty. destruct (Z.eqb_spec n 0); auto. Qed.

Lemma parse_encode_qty n : u64_ok n -> parse_hex_u64 (strip_0x (encode_qty n)) = Some n.
Proof.
  intros Hn. destruct (encode_qty_text n) as [->|[-> ->]]; [| reflexivity].
  rewrite strip_0x_prefixed. by apply parse_fmt_hex.
Qed.

Lemma parse_qty_json n : u64_ok n -> parse_qty (json_qty n) = Ok n.
Proof. intros Hn. unfold parse_qty, json_qty. simpl. by rewrite parse_encode_qty. Qed.
Lemma parse_h256_json (h : H256) : parse_h256 (json_hash h) = Ok h.
Proof. unfold parse_h256, json_hash. simpl. by rewrite hash_from_to_hex. Qed.
Lemma parse_address_json a : parse_address (json_address a) = Ok a.
Proof. unfold parse_address, json_address. simpl. by rewrite address_from_to_hex. Qed.
Lemma parse_u256_json x : u256_wf x -> parse_light_u256 (JString (U256.to_hex x)) = Ok x.
Proof. intros Hx. unfold parse_light_u256. simpl. by rewrite to_from_hex. Qed.
Lemma decode_hex_text bs : hex_decode (strip_0x (str "0x" ++ hex_encode bs)) = Some bs.
Proof. by rewrite strip_0x_prefixed, hex_decode_spec, hex_encode_spec, spec_decode_encode. Qed.
Lemma parse_bytes_json bs : parse_bytes (json_bytes bs) = Ok bs.
Proof. unfold parse_bytes, json_bytes. cbn [light_str as_str ok_or rbind]. by rewrite decode_hex_text. Qed.

(** A header survives the RPC. *)
Lemma header_json b :
  header_wf (header b) ->
  header_from_rpc (header_to_json b) = Ok (header b) /\
  verify_rpc_hash (header b) (header_to_json b) = Ok tt.
Proof.
  intros (? & ? & ? & ? & ? & ?). unfold header_from_rpc, verify_rpc_hash, member, header_to_json.
  split; repeat first
    [ json_get
    | progress cbn [ok_or rbind]
    | rewrite parse_qty_json by done | rewrite parse_h256_json | rewrite parse_address_json
    | rewrite parse_u256_json by done | rewrite parse_bytes_json ].
  - by destruct (header b).
  - by rewrite decide_False by tauto.
Qed.

(** ** Dispatch *)

Lemma dispatch_query method params c :
  method ≠ str "eth_sendRawTransaction" -> exists r, dispatch_method method params c = (c, r).
Proof.
  intros Hm. unfold dispatch_method, query, sfail.
  repeat case_bool_decide; simpl; eauto; done.
Qed.

Lemma send_raw_metrics params c : cx_metrics (send_raw_transaction params c).1 = cx_metrics c.
Proof.
  unfold send_raw_transaction. destruct (rbind _ _) as [tx|e]; [| done].
  destruct (TransactionPool.add_transaction _ _ _) as [p [h|e]]; [| done]. simpl.
  unfold notify. by destruct (cx_on_tx _).
Qed.

Lemma dispatch_metrics method params c : cx_metrics (dispatch_method method params c).1 = cx_metrics c.
Proof.
  destruct (decide (method = str "eth_sendRawTransaction")) as [->|Hm]; [apply send_raw_metrics |].
  by destruct (dispatch_query method params c Hm) as [r ->].
Qed.

Lemma on_metrics_eq f g c : f (cx_metrics c) = g (cx_metrics c) -> on_metrics f c = on_metrics g c.
Proof. unfold on_metrics. by intros ->. Qed.

(** Every call is counted once, and a failed one once more under the code its
    JSON-RPC error carries.  Apart from the counters, no method but
    [eth_sendRawTransaction] changes anything, and on an endpoint with an
    allowlist a method outside the list is answered [MethodNotFound] and
    changes nothing either. *)
Theorem handle_effects method params c :
  let c' := (handle method params c).1 in
  let r := (handle method params c).2 in
  cx_metrics c' =
    (let m := IvoryMetrics.rpc_request method (cx_metrics c) in
     match r with
     | Ok _ => m
     | Err e => IvoryMetrics.rpc_error method (je_code (json_rpc_error e)) m
     end) /\
  (method ≠ str "eth_sendRawTransaction" \/ allowed c method = false ->
   c' = on_metrics (fun _ => cx_metrics c') c) /\
  (allowed c method = false -> r = Err (RpcError.MethodNotFound method)).
Proof.
  unfold handle. destruct (allowed c method) eqn:Ea; simpl; [| done].
  pose proof (dispatch_metrics method params c) as Hm.
  pose proof (dispatch_query method params c) as Hq.
  destruct (dispatch_method method params c) as [c1 [v|e]]; simpl in *.
  - split_and!; [by rewrite Hm | | done]. intros [Hne|]; [| done].
    destruct (Hq Hne) as [r E]. by injection E as -> _.
  - split_and!; [by rewrite Hm | | done]. intros [Hne|]; [| done].
    destruct (Hq Hne) as [r E]. by injection E as -> _.
Qed.

(** ** Raw transactions *)

Lemma set_ctx_pool_id c : set_ctx_pool (ctx_pool c) c = c.
Proof. by destruct c as [[]]. Qed.

Lemma send_raw_decoded text rest tx c :
  (ok (decode_hex text) ≫= deserialize (A := Transaction)) = Some tx ->
  send_raw_transaction (JArray (JString text :: rest)) c =
  match TransactionPool.add_transaction tx Local (ctx_pool c) with
  | (p, Err e) => (set_ctx_pool p c, Err (RpcError.InvalidParams (pool_error_display e)))
  | (p, Ok hash) => (ctx_emit (NewPendingTx hash) (notify tx (set_ctx_pool p c)), Ok (json_hash hash))
  end.
Proof.
  intros H. unfold send_raw_transaction. simpl.
  destruct (decode_hex text) as [raw|]; simpl in *; [| done]. by rewrite H.
Qed.

(** Raw transactions: a refused request changes nothing.  An accepted one
    carried the encoding of a transaction whose signature recovers to its sender
    and whose nonce is the sender's next; it is pending under the hash that is
    answered, the pool's invariant is kept, and it is gossiped and announced
    once.  The encoding of any well-formed transaction reaches the pool. *)
Theorem send_raw_transaction_spec params c :
  (let '(c', r) := send_raw_transaction params c in
   match r with
   | Err _ => c' = c
   | Ok v =>
       exists text rest raw tx,
         params = JArray (JString text :: rest) /\ decode_hex text = Ok raw /\
         deserialize (A := Transaction) raw = Some tx /\ v = json_hash (tx_hash tx) /\
         recover_sender tx = Ok (tx_from tx) /\
         tx_nonce tx = TransactionPool.expected_nonce (ctx_pool c) (tx_from tx) /\
         TransactionPool.get (ctx_pool c') (tx_hash tx) = Some tx /\
         (pool_inv (ctx_pool c) -> pool_inv (ctx_pool c')) /\
         ctx_store c' = ctx_store c /\ ctx_state c' = ctx_state c /\
         cx_events c' = cx_events c ++ [NewPendingTx (tx_hash tx)] /\
         cx_world c' = match cx_on_tx c with Some cb => cb tx (cx_world c) | None => cx_world c end
   end) /\
  (forall tx, tx_wf tx ->
     (send_raw_transaction (JArray [JString (str "0x" ++ hex_encode (serialize tx))]) c).2 =
     match (TransactionPool.add_transaction tx Local (ctx_pool c)).2 with
     | Ok hash => Ok (json_hash hash)
     | Err e => Err (RpcError.InvalidParams (pool_error_display e))
     end).
Proof.
  split.
  - destruct (send_raw_transaction params c) as [c' r] eqn:E.
    unfold send_raw_transaction, parse_string_at, params_array in E.
    destruct params as [| | | |arr|]; try (by injection E as <- <-). simpl in E.
    destruct arr as [|[| | |text| |] rest]; try (by injection E as <- <-). simpl in E.
    destruct (decode_hex text) as [raw|] eqn:Eh; simpl in E; [| by injection E as <- <-].
    destruct (deserialize raw) as [tx|] eqn:Ed; cbn [ok_or] in E; [| by injection E as <- <-].
    pose proof (add_cases tx Local 0 (ctx_pool c)) as Ha.
    unfold TransactionPool.add_transaction in E.
    pose proof (add_inv tx Local 0 (ctx_pool c)) as Hi.
    destruct (TransactionPool.add_transaction_at tx Local 0 (ctx_pool c)) as [p [h|e]].
    2: { injection E as <- <-. subst p. apply set_ctx_pool_id. }
    injection E as <- <-. destruct Ha as (-> & _ & Hr & _ & _ & _ & Hn & Hp).
    exists text, rest, raw, tx.
    assert (forall c1 : RpcContext W, cx_ledger (notify tx c1) = cx_ledger c1 /\
      cx_events (notify tx c1) = cx_events c1 /\
      cx_world (notify tx c1) = match cx_on_tx c1 with Some cb => cb tx (cx_world c1) | None => cx_world c1 end)
      as Hno by (intros c1; unfold notify; destruct (cx_on_tx c1) eqn:Ecb; by rewrite ?Ecb).
    destruct (Hno (set_ctx_pool p c)) as (E1 & E2 & E3).
    unfold ctx_pool, ctx_store, ctx_state, ctx_emit. cbn [cx_ledger cx_events cx_world].
    rewrite E1, E2, E3. split_and!; try done.
    + simpl. unfold TransactionPool.get. rewrite Hp. simpl. by rewrite lookup_insert_eq.
    + intros Hpi. apply Hi; [| done]. by apply (deserialize_wf (A := Transaction)) in Ed as (_ & _ & _ & _ & Hn64).
  - intros tx Hw. erewrite send_raw_decoded.
    2: { unfold decode_hex. rewrite decode_hex_text. simpl. by apply (deserialize_serialize (A := Transaction)). }
    by destruct (TransactionPool.add_transaction tx Local (ctx_pool c)) as [p [h|e]].
Qed.

(** ** Account proofs *)

Lemma parse_address_param a rest : parse_address_at (JArray (json_address a :: rest)) 0 = Ok a.
Proof. unfold parse_address_at, parse_string_at. simpl. by rewrite address_from_to_hex. Qed.

Lemma collect_ok {A B E} (f : A -> result B E) (l : list A) (ys : list B) :
  collect f l = Ok ys <-> Forall2 (fun x y => f x = Ok y) l ys.
Proof.
  revert ys; induction l as [|x l IH]; intros ys; simpl.
  - split; [intros [= <-]; constructor | by inversion 1].
  - split.
    + intros (y & Hy & (ys' & Hys & [= <-])%rbind_ok)%rbind_ok. constructor; [done | by apply IH].
    + inversion 1 as [|x' y l' ys' Hy Hys]; subst. rewrite Hy. simpl. apply IH in Hys. by rewrite Hys.
Qed.

Lemma parse_slots a slots rest :
  parse_storage_keys (JArray (a :: JArray (map json_hash slots) :: rest)) 1 = Ok slots.
Proof.
  unfold parse_storage_keys. simpl. apply collect_ok. induction slots as [|h slots IH]; constructor; [| done].
  simpl. by rewrite hash_from_to_hex.
Qed.

(** What the entry of a slot says. *)
Definition entry_verifies (s : StateDB) (addr : Address) (root slot : H256) (e : value) : Prop :=
  get (str "key") e = Some (json_hash slot) /\
  get (str "value") e = Some (JString (U256.to_hex (StateDB.get_storage s addr slot))) /\
  exists nodes, get (str "proof") e = Some (encode_proof_nodes nodes) /\
    (StateDB.storage_pairs s addr ≠ [] -> verify root (hash_bytes slot) nodes = Ok (slot_value s addr slot)).

Lemma storage_entry_ok s addr root slot :
  (StateDB.storage_pairs s addr ≠ [] -> root = StateDB.compute_storage_root s addr) ->
  coll_free (slot_encodings s addr) ->
  exists e, storage_entry s addr slot = Ok e /\ entry_verifies s addr root slot e.
Proof.
  intros Hroot C. unfold slot_encodings in C. unfold storage_entry, StateDB.storage_proof.
  set (pairs := StateDB.storage_pairs s addr) in *.
  destruct (prove_spec pairs (hash_bytes slot) (storage_pairs_ok s addr) C) as [_ Hv].
  pose proof (prove_root pairs (hash_bytes slot)) as Hr.
  unfold check_proof. rewrite Hr, Hv. cbn [map_err rbind]. eexists. split; [done |].
  unfold entry_verifies. split_and!; [by json_get | by json_get |].
  eexists. split; [by json_get |]. intros Hne. rewrite Hroot by done.
  unfold StateDB.compute_storage_root. fold pairs. destruct pairs eqn:Ep; [done |]. rewrite <- Ep in *.
  rewrite Hv. unfold pairs. by rewrite storage_pairs_lookup.
Qed.

(** [eth_getProof] on a state whose storage roots are current. *)
Lemma get_proof_answer c addr slots :
  let s := ctx_state c in
  StateDB.sync_all_storage_roots s = s ->
  coll_free (live_encodings s) -> coll_free (slot_encodings s addr) ->
  exists p nodes entries,
    let acc := default account_new (StateDB.get_account s addr) in
    rpc_get_proof c (JArray [json_address addr; JArray (map json_hash slots)]) = Ok p /\
    get (str "accountProof") p = Some (encode_proof_nodes nodes) /\
    verify (StateDB.root_hash s).2 (Address.as_bytes addr) nodes = Ok (serialize <$> live_account s addr) /\
    get (str "balance") p = Some (JString (U256.to_hex (acc_balance acc))) /\
    get (str "nonce") p = Some (json_qty (acc_nonce acc)) /\
    get (str "codeHash") p = Some (json_hash (acc_code_hash acc)) /\
    get (str "storageHash") p = Some (json_hash (acc_storage_root acc)) /\
    get (str "storageProof") p = Some (JArray entries) /\
    Forall2 (entry_verifies s addr (acc_storage_root acc)) slots entries.
Proof.
  intros s Hs CL CS. set (acc := default account_new (StateDB.get_account s addr)).
  assert (acc_storage_root acc = StateDB.compute_storage_root s addr) as Hroot.
  { destruct (sync_spec s) as (_ & _ & Ha). specialize (Ha addr). rewrite Hs in Ha.
    unfold acc, StateDB.get_account. destruct (accounts s !! addr) as [acc'|] eqn:E.
    - by apply synced_root.
    - simpl in Ha. by case_decide as Hz. }
  assert (exists entries, collect (storage_entry s addr) slots = Ok entries /\
    Forall2 (entry_verifies s addr (acc_storage_root acc)) slots entries) as (entries & He & Hf).
  { clear -HL BL Hroot CS. induction slots as [|slot slots IH]; [by exists [] |].
    destruct (storage_entry_ok s addr (acc_storage_root acc) slot) as (e & He & Hv); [done | done |].
    destruct IH as (es & Hes & Hf). exists (e :: es). cbn [collect].
    rewrite He. cbn [rbind]. rewrite Hes. split; [done | by constructor]. }
  destruct (prove_spec (StateDB.live_pairs s) (Address.as_bytes addr) (live_pairs_ok s) CL) as [_ Hv].
  unfold rpc_get_proof. rewrite parse_address_param, parse_slots. cbn [rbind].
  change (optional_block_id _ 2) with (@Ok BlockNumberOrTag RpcError.t (Tag Latest)). cbn [rbind state_for_tag].
  rewrite state_fork_id. change (ctx_state c) with s.
  unfold StateDB.account_proof, StateDB.account_pairs, StateDB.root_hash. rewrite Hs. cbn [fst snd].
  pose proof (prove_root (StateDB.live_pairs s) (Address.as_bytes addr)) as Hr.
  unfold check_proof. rewrite Hr, Hv. cbn [map_err rbind]. rewrite He. cbn [rbind]. fold acc.
  eexists _, (proof_nodes (prove (StateDB.live_pairs s) (Address.as_bytes addr))), entries.
  split; [done |]. split_and!; try (by json_get); [| done].
  by rewrite Hv, live_pairs_live.
Qed.

(** C23: A light client can read an account from a node it does not trust.  On a
    node whose ledger was built by the chain's operations, the header served for
    the latest block decodes to the head's header and hashes to the reported
    hash, and for every account and slots the answer of [eth_getProof] carries a
    proof that verifies against the state root of that header, to the encoding
    of the account whose fields the answer shows (or to its absence); each
    storage entry verifies against the reported storage hash as soon as the
    account owns a slot.  The hypotheses are that no two node encodings of the live
    account trie, nor of the account's storage trie, collide. *)
Theorem light_client_account_query c addr slots :
  ledger_reachable (cx_ledger c) ->
  coll_free (live_encodings (ctx_state c)) -> coll_free (slot_encodings (ctx_state c) addr) ->
  exists b v p nodes entries,
    let acc := default account_new (StateDB.get_account (ctx_state c) addr) in
    BlockStore.head_block (ctx_store c) = Some b /\
    rpc_get_header_by_number c (JArray [JString (str "latest")]) = Ok v /\
    header_from_rpc v = Ok (header b) /\ verify_rpc_hash (header b) v = Ok tt /\
    rpc_get_proof c (JArray [json_address addr; JArray (map json_hash slots)]) = Ok p /\
    get (str "accountProof") p = Some (encode_proof_nodes nodes) /\
    verify (state_root (header b)) (Address.as_bytes addr) nodes =
      Ok (serialize <$> live_account (ctx_state c) addr) /\
    get (str "balance") p = Some (JString (U256.to_hex (acc_balance acc))) /\
    get (str "nonce") p = Some (json_qty (acc_nonce acc)) /\
    get (str "storageHash") p = Some (json_hash (acc_storage_root acc)) /\
    get (str "storageProof") p = Some (JArray entries) /\
    Forall2 (entry_verifies (ctx_state c) addr (acc_storage_root acc)) slots entries.
Proof.
  intros Hl%ledger_reachable_inv CL CS. destruct Hl as [Hs Hsn (hd & Hhd & Hlive)].
  destruct (Hsn _ _ Hlive) as (b & Hb & Hroot).
  assert (StateDB.sync_all_storage_roots (ctx_state c) = ctx_state c) as Hsync
    by exact (f_equal fst Hroot).
  destruct (get_proof_answer c addr slots Hsync CL CS) as (p & nodes & entries & H).
  destruct H as (Hp & Hn & Hv & H1 & H2 & _ & H3 & H4 & Hf).
  assert (BlockStore.head_block (ctx_store c) = Some b) as Hh.
  { unfold BlockStore.head_block, ctx_store. rewrite Hhd. done. }
  destruct (store_reachable_accepted _ Hs _ _ Hb) as [[Hw _] _].
  destruct (header_json b Hw) as [Hj Hjh].
  exists b, (header_to_json b), p, nodes, entries. split_and!; try done.
  - unfold rpc_get_header_by_number. simpl. by rewrite Hh.
  - unfold ctx_state in *. rewrite Hroot in Hv. exact Hv.
Qed.

(** ** Log queries *)

(** Where a log is: block height, receipt index, log index; in that order. *)
Definition log_pos : Type := (Z * nat * nat)%type.
Definition pos_lt (p q : log_pos) : Prop :=
  let '(n, i, j) := p in let '(n', i', j') := q in
  n < n' \/ n = n' /\ ((i < i')%nat \/ i = i' /\ (j < j')%nat).

(** [row] is the answer's row for the log at [p], which matches [addrs]. *)
Definition row_at c (addrs : list Address) (p : log_pos) (row : value) : Prop :=
  let '(n, i, j) := p in
  exists b rcpt lg, BlockStore.get_block_by_number (ctx_store c) n = Some b /\
    receipts b !! i = Some rcpt /\ rc_logs rcpt !! j = Some lg /\
    (addrs = [] \/ log_address lg ∈ addrs) /\ row = log_row n (block_hash b) rcpt i j lg.

Lemma log_matches_spec addrs lg : log_matches addrs lg = true <-> addrs = [] \/ log_address lg ∈ addrs.
Proof. unfold log_matches. by rewrite orb_true_iff, !bool_decide_eq_true. Qed.

(** The positions [block_log_rows] goes through. *)
Definition block_positions c addrs (n : Z) : list log_pos :=
  match BlockStore.get_block_by_number (ctx_store c) n with
  | None => []
  | Some b =>
      flat_map (fun '(i, rcpt) =>
        flat_map (fun '(j, lg) => if log_matches addrs lg then [(n, i, j)] else [])
          (imap pair (rc_logs rcpt)))
        (imap pair (receipts b))
  end.

Lemma elem_of_enumerate {A} (l : list A) i x : (i, x) ∈ imap pair l <-> l !! i = Some x.
Proof.
  rewrite list_elem_of_lookup. split.
  - intros (k & Hk). rewrite list_lookup_imap in Hk. destruct (l !! k) eqn:E; [| done].
    by injection Hk as -> ->.
  - intros H. exists i. by rewrite list_lookup_imap, H.
Qed.

Lemma enumerate_sorted {A} (l : list A) : StronglySorted (fun p q => (p.1 < q.1)%nat) (imap pair l).
Proof.
  assert (forall k, StronglySorted (fun p q : nat * A => (p.1 < q.1)%nat) (imap (fun i => pair (k + i)%nat) l))
    as H; [| exact (H O)].
  induction l as [|x l IH]; intros k; [constructor |]. rewrite imap_cons. constructor.
  - specialize (IH (S k)). erewrite imap_ext; [exact IH |]. intros i y _. cbn. f_equal. lia.
  - apply Forall_forall. intros [i y] H. apply list_elem_of_lookup in H as (m & Hm).
    rewrite list_lookup_imap in Hm. destruct (l !! m); [| done]. injection Hm as <- <-. cbn. lia.
Qed.

Lemma flat_map_sorted {A B} (R : relation A) (R' : relation B) (f : A -> list B) l :
  StronglySorted R l -> (forall x, x ∈ l -> StronglySorted R' (f x)) ->
  (forall x y a b, R x y -> a ∈ f x -> b ∈ f y -> R' a b) -> StronglySorted R' (flat_map f l).
Proof.
  induction 1 as [|x l Hl IH Hx]; intros Hf Hr; [constructor |]. cbn [flat_map].
  apply StronglySorted_app. split_and!.
  - intros a b Ha Hb. apply elem_of_flat_map in Hb as (y & Hy & Hb).
    rewrite Forall_forall in Hx. by eapply Hr; [apply Hx | ..].
  - apply Hf. by left.
  - apply IH; [| done]. intros y Hy. apply Hf. by right.
Qed.

Lemma flat_map_Forall2 {A B C} (P : B -> C -> Prop) (f : A -> list B) (g : A -> list C) l :
  (forall x, x ∈ l -> Forall2 P (f x) (g x)) -> Forall2 P (flat_map f l) (flat_map g l).
Proof.
  induction l as [|x l IH]; intros H; [constructor |]. cbn [flat_map].
  apply Forall2_app; [apply H; by left | apply IH; intros y Hy; apply H; by right].
Qed.

Lemma block_positions_elem c addrs n p :
  p ∈ block_positions c addrs n <-> p.1.1 = n /\ exists row, row_at c addrs p row.
Proof.
  destruct p as [[n' i] j]. unfold block_positions, row_at. cbn [fst].
  destruct (BlockStore.get_block_by_number (ctx_store c) n) as [b|] eqn:Eb.
  2: { split; [by intros ?%elem_of_nil | intros (-> & row & b & ? & ? & H & _); congruence]. }
  rewrite elem_of_flat_map. split.
  - intros ([i' r] & Hr%elem_of_enumerate & Hx). apply elem_of_flat_map in Hx as ([j' lg] & Hl & Hx).
    apply elem_of_enumerate in Hl. destruct (log_matches addrs lg) eqn:E; [| by apply elem_of_nil in Hx].
    apply list_elem_of_singleton in Hx as [= -> -> ->]. split; [done |].
    eexists _, b, r, lg. split_and!; try done. by apply log_matches_spec.
  - intros (-> & row & b' & r & lg & Hb & Hr & Hl & Hm & ->). simplify_eq. exists (i, r).
    split; [by apply elem_of_enumerate |]. apply elem_of_flat_map. exists (j, lg).
    split; [by apply elem_of_enumerate |]. rewrite (proj2 (log_matches_spec _ _) Hm). by left.
Qed.

Lemma block_rows_at c addrs n :
  Forall2 (row_at c addrs) (block_positions c addrs n) (block_log_rows c addrs n).
Proof.
  unfold block_positions, block_log_rows.
  destruct (BlockStore.get_block_by_number (ctx_store c) n) as [b|] eqn:Eb; [| constructor].
  apply flat_map_Forall2. intros [i r] Hr%elem_of_enumerate.
  apply flat_map_Forall2. intros [j lg] Hl%elem_of_enumerate.
  destruct (log_matches addrs lg) eqn:E; [| constructor]. constructor; [| constructor].
  exists b, r, lg. split_and!; try done. by apply log_matches_spec.
Qed.

Lemma block_positions_sorted c addrs n : StronglySorted pos_lt (block_positions c addrs n).
Proof.
  unfold block_positions. destruct (BlockStore.get_block_by_number (ctx_store c) n) as [b|]; [| constructor].
  assert (forall (i : nat) (logs : list Log) p,
    p ∈ flat_map (fun '(j, lg) => if log_matches addrs lg then [(n, i, j)] else []) (imap pair logs) ->
    exists j lg, (j, lg) ∈ imap pair logs /\ p = (n, i, j)) as Hin.
  { intros i logs p Hp. apply elem_of_flat_map in Hp as ([j lg] & Hl & Hp). exists j, lg. split; [done |].
    destruct (log_matches addrs lg); [by apply list_elem_of_singleton in Hp | by apply elem_of_nil in Hp]. }
  eapply flat_map_sorted; [apply enumerate_sorted | |].
  - intros [i r] _. eapply flat_map_sorted; [apply enumerate_sorted | |].
    + intros [j lg] _. destruct (log_matches addrs lg); repeat constructor.
    + intros [j lg] [j' lg'] p q Hj Hp Hq.
      destruct (log_matches addrs lg); [| by apply elem_of_nil in Hp].
      destruct (log_matches addrs lg'); [| by apply elem_of_nil in Hq].
      apply list_elem_of_singleton in Hp as ->. apply list_elem_of_singleton in Hq as ->.
      right. split; [done | right]. by split.
  - intros [i r] [i' r'] p q Hi Hp Hq.
    apply Hin in Hp as (j & lg & _ & ->), Hq as (j' & lg' & _ & ->).
    right. split; [done | by left].
Qed.

Lemma seqZ_sorted from len : StronglySorted Z.lt (seqZ from len).
Proof.
  unfold seqZ. assert (forall k n, StronglySorted Z.lt ((fun i => Z.of_nat i + from) <$> seq k n)) as H.
  { intros k n. revert k; induction n as [|n IH]; intros k; [constructor |]. cbn. constructor; [apply IH |].
    apply Forall_forall. intros z (i & -> & Hi%elem_of_seq)%list_elem_of_fmap. lia. }
  apply H.
Qed.

(** C36: [eth_getLogs] answers exactly the matching logs, in order: for a block
    range resolved to [from] and [to], an inverted range and one of more than
    1,001 blocks are refused ([to - from] may be 1,000, although the documentation
    calls anything over 1,000 blocks an error); otherwise the rows are those of
    the logs of the canonical blocks of the range whose address is asked for
    (every log when none is), one row per log, by block height, then receipt
    index, then log index. *)
Theorem get_logs_exact c filter rest head from to addrs :
  BlockStore.head_block (ctx_store c) = Some head ->
  log_bound c (btree_get (str "fromBlock") filter) 0 0 = Ok from ->
  log_bound c (btree_get (str "toBlock") filter) (number (header head)) (number (header head)) = Ok to ->
  parse_log_addresses (btree_get (str "address") filter) = Ok addrs ->
  let r := rpc_get_logs c (JArray (JObject filter :: rest)) in
  (to < from -> r = Err (RpcError.InvalidParams (str "toBlock < fromBlock"))) /\
  (from + 1000 < to -> r = Err (RpcError.InvalidParams (str "log scan exceeds 1000 blocks"))) /\
  (from <= to <= from + 1000 ->
   exists positions rows, r = Ok (JArray rows) /\ Forall2 (row_at c addrs) positions rows /\
     StronglySorted pos_lt positions /\
     forall p, p ∈ positions <-> from <= p.1.1 <= to /\ exists row, row_at c addrs p row).
Proof.
  intros Hh Hf Ht Ha r. unfold r, rpc_get_logs.
  cbn [params_array as_array ok_or rbind hd_error mbind option_bind as_object]. rewrite Hh.
  cbn [ok_or rbind]. rewrite Hf, Ht, Ha. cbn [rbind]. split_and!.
  - intros Hlt. by rewrite (proj2 (Z.ltb_lt _ _)).
  - intros Hgt. rewrite (proj2 (Z.ltb_ge _ _)) by lia.
    by rewrite (proj2 (Z.ltb_lt _ _)) by (unfold saturating_sub64; lia).
  - intros Hr. rewrite (proj2 (Z.ltb_ge _ _)) by lia.
    rewrite (proj2 (Z.ltb_ge _ _)) by (unfold saturating_sub64; lia).
    exists (flat_map (block_positions c addrs) (seqZ from (to - from + 1))). eexists. split; [done |].
    split; [apply flat_map_Forall2; intros; apply block_rows_at |]. split.
    + eapply flat_map_sorted; [apply seqZ_sorted | intros; apply block_positions_sorted |].
      intros n n' [[m i] j] [[m' i'] j'] Hlt [Hp _]%block_positions_elem [Hq _]%block_positions_elem.
      cbn in Hp, Hq. left. lia.
    + intros p. rewrite elem_of_flat_map. split.
      * intros (n & Hn%elem_of_seqZ & [Hx Hrow]%block_positions_elem). split; [lia | done].
      * intros [Hn Hrow]. exists p.1.1. split; [apply elem_of_seqZ; lia | by apply block_positions_elem].
Qed.
End Spec.

(** ** Witnesses *)

#[export] Instance sample_error_texts : ErrorTexts := {|
  hex_error_text _ := str "invalid hex";
  bincode_error_text _ := str "invalid bincode";
  serde_json_error_text _ := str "invalid json" |}.

(** An endpoint over a ledger, gossiping to a list. *)
Definition sample_context (l : Ledger) : RpcContext (list Transaction) :=
  mkRpcContext l 1 (Some (fun tx txs => txs ++ [tx])) [] Follower Address.ZERO [] 0 [] None []
    IvoryMetrics.new None.

Definition sample_raw_tx : Transaction := sample_tx x01 (Some (sample_address x02)) 1 21000 0.

Lemma send_raw_transaction_spec_witness :
  tx_wf sample_raw_tx /\
  (send_raw_transaction (JArray [JString (str "0x" ++ hex_encode (serialize sample_raw_tx))])
     (sample_context fork_ledger)).2 =
  match (TransactionPool.add_transaction sample_raw_tx Local (ctx_pool (sample_context fork_ledger))).2 with
  | Ok hash => Ok (json_hash hash)
  | Err e => Err (RpcError.InvalidParams (pool_error_display e))
  end.
Proof.
  assert (tx_wf sample_raw_tx) as Hw by (apply sample_tx_wf; unfold u64_ok; lia).
  split; [exact Hw |].
  exact (proj2 (send_raw_transaction_spec JNull (sample_context fork_ledger)) sample_raw_tx Hw).
Defined.

Lemma light_client_account_query_witness :
  is_Some (live_account (ctx_state (sample_context fork_ledger)) (sample_address x01)) /\
  exists b p nodes, BlockStore.head_block (ctx_store (sample_context fork_ledger)) = Some b /\
    rpc_get_proof (sample_context fork_ledger)
      (JArray [json_address (sample_address x01); JArray (map json_hash [sample_slot])]) = Ok p /\
    get (str "accountProof") p = Some (encode_proof_nodes nodes) /\
    verify (state_root (header b)) (Address.as_bytes (sample_address x01)) nodes =
      Ok (serialize <$> live_account (ctx_state (sample_context fork_ledger)) (sample_address x01)).
Proof.
  split; [apply (bool_decide_unpack _); vm_compute; exact I |].
  destruct (light_client_account_query (sample_context fork_ledger) (sample_address x01) [sample_slot]
              fork_ledger_reachable) as (b & v & p & nodes & entries & H1 & _ & _ & _ & H2 & H3 & H4 & _);
    [apply (bool_decide_eq_true_1 _); vm_compute; reflexivity.. |].
  exists b, p, nodes.
  split; [exact H1 | split; [exact H2 | split; [exact H3 | exact H4]]].
Defined.

(** A head block with three logs in two receipts, one of another contract. *)
Definition log_block : Block :=
  let lg b := mkLog (sample_address b) [] [b] in
  mkBlock (header fork_b) []
    [mkReceipt H256.ZERO 1 0 true [lg x01]; mkReceipt H256.ZERO 1 0 true [lg x02; lg x01]].
Definition log_ledger : Ledger :=
  mkLedger (mkBlockStore {[ block_hash log_block := log_block ]} {[ 1 := block_hash log_block ]}
              (Some (block_hash log_block)) ∅ ∅ (sample_poa x01)) StateDB.new TransactionPool.new.

Lemma get_logs_exact_witness :
  exists positions rows,
    rpc_get_logs (sample_context log_ledger)
      (JArray [JObject [(str "address", json_address (sample_address x01)); (str "toBlock", json_qty 1)]])
    = Ok (JArray rows) /\
    length rows = 2%nat /\ StronglySorted pos_lt positions /\
    (1, 0%nat, 0%nat) ∈ positions /\ (1, 1%nat, 1%nat) ∈ positions.
Proof.
  assert (BlockStore.head_block (ctx_store (sample_context log_ledger)) = Some log_block) as Hh
    by (vm_compute; reflexivity).
  destruct (get_logs_exact (sample_context log_ledger)
    [(str "address", json_address (sample_address x01)); (str "toBlock", json_qty 1)] [] log_block 0 1
    [sample_address x01] Hh eq_refl ltac:(vm_compute; reflexivity) ltac:(vm_compute; reflexivity)) as (_ & _ & H).
  destruct (H ltac:(lia)) as (ps & rows & E & _ & Hsort & Hin). exists ps, rows. split; [exact E |].
  split.
  { assert (match rpc_get_logs (sample_context log_ledger) (JArray [JObject
        [(str "address", json_address (sample_address x01)); (str "toBlock", json_qty 1)]]) with
      | Ok (JArray rows) => length rows | _ => O end = 2%nat) as Hlen by (vm_compute; reflexivity).
    revert Hlen. by rewrite E. }
  assert (BlockStore.get_block_by_number (ctx_store (sample_context log_ledger)) 1 = Some log_block) as Hb
    by (vm_compute; reflexivity).
  split; [exact Hsort |]. split; apply Hin; (split; [cbn; lia | eexists]).
  - exists log_block, (mkReceipt H256.ZERO 1 0 true [mkLog (sample_address x01) [] [x01]]).
    eexists. split; [exact Hb |]. split; [reflexivity |]. split; [reflexivity |]. split; [right; left | reflexivity].
  - exists log_block, (mkReceipt H256.ZERO 1 0 true
      [mkLog (sample_address x02) [] [x02]; mkLog (sample_address x01) [] [x01]]).
    eexists. split; [exact Hb |]. split; [reflexivity |]. split; [reflexivity |]. split; [right; left | reflexivity].
Defined.
