(* ===== verification/LightProps.v ===== *)
(** * The light client: theorems

    [follow] against a node that answers from its store, and what a successful
    run against any server establishes. *)

From S2P Require Import Prelude Hex Uint UintFacts UintProps Hash Address Text Btree Bincode Core.
From S2P Require Import Trie State StateProps Crypto Vm Executor TxPool Consensus Store.
From S2P Require Import StoreProps StoreSpec ExecutorProps Apply ApplyProps PersistProps Json Metrics.
From S2P Require Import Rpc Light RpcProps.
#[local] Open Scope Z_scope.

Section Spec.
Context {HC : HexCrate} {HL : HexLaws} {BC : BincodeCrate} {BL : BincodeLaws} {SC : Sha3Crate}.
Context {EC : Ed25519Crate} {WC : WasmiCrate} {DC : DashMapCrate} {ET : ErrorTexts} {W : Type}.
Implicit Types (c : RpcContext W) (h : BlockHeader).

(** The full node as the client sees it. *)
Definition answer c (method : bytes) (params : value) : option value := ok (handle method params c).2.

(** ** Heights on the command line *)

Lemma encode_qty_form n : 0 <= n ->
  exists s d, encode_qty n = x30 :: x78 :: s ++ [hex_digit d] /\ 0 <= d < 16.
Proof.
  intros Hn. assert (exists ds, encode_qty n = str "0x" ++ ds /\ ds ≠ [] /\
    Forall (fun x => exists d, 0 <= d < 16 /\ x = hex_digit d) ds) as (ds & E & Hne & Hds).
  { destruct (encode_qty_text n) as [->|[-> ->]].
    - eexists. split; [done |]. split; [| by apply fmt_radix_digits].
      destruct (fmt_radix_head 16 hex_digit ltac:(done) n Hn) as (d & ds & _ & E). unfold fmt_hex. by rewrite E.
    - exists [x30]. split_and!; [done | done |]. constructor; [by exists 0 | constructor]. }
  destruct (exists_last Hne) as (s & x & ->). apply Forall_app in Hds as [_ Hx].
  apply Forall_cons in Hx as [(d & Hd & ->) _]. exists s, d. by rewrite E.
Qed.

Lemma parse_height_qty n : u64_ok n -> parse_height (encode_qty n) = Ok n.
Proof.
  intros Hn. destruct (encode_qty_form n) as (s & d & E & Hd); [unfold u64_ok in Hn; lia |].
  pose proof (parse_encode_qty n Hn) as Hp. rewrite E in Hp. unfold parse_height.
  assert (trim (encode_qty n) = encode_qty n) as ->.
  { apply trim_id; rewrite E; [done |]. rewrite !app_comm_cons, rev_app_distr. simpl.
    by apply hex_digit_not_space. }
  rewrite E. change (strip_0x _) with (s ++ [hex_digit d]) in Hp. simpl. by rewrite Hp.
Qed.

Lemma block_id_qty n : u64_ok n -> parse_block_id (json_qty n) = Ok (Number n).
Proof.
  intros Hn. destruct (encode_qty_form n) as (s & d & E & Hd); [unfold u64_ok in Hn; lia |].
  unfold parse_block_id, json_qty. simpl.
  repeat (rewrite decide_False by (rewrite E; discriminate)). by rewrite parse_encode_qty.
Qed.

(** ** Against a node *)

(** A canonical block, as the client checks it. *)
Lemma canonical_link s hd top n :
  store_reachable s -> bs_head s = Some hd -> by_hash s !! hd = Some top ->
  number (header top) < u64_max -> 0 <= n <= number (header top) ->
  exists b, BlockStore.get_block_by_number s n = Some b /\ header_wf (header b) /\
    number (header b) = n /\ extra_data (header b) ≠ [] /\
    (n ≠ 0 -> exists p, BlockStore.get_block_by_number s (n - 1) = Some p /\
                verify_header_link (header p) (header b) = Ok tt).
Proof.
  intros Hs Hhd Htop Hmax Hn. pose proof (store_reachable_inv _ Hs) as Hi.
  pose proof (store_reachable_accepted _ Hs) as Hacc.
  destruct (canonical_blocks s hd top Hi Hhd Htop Hmax) as (_ & Hex & Hall).
  destruct (Hex n Hn) as [h Hh]. destruct (Hall n h Hh) as (_ & b & Hb & Hbh & Hbn & Hpar).
  destruct (Hacc _ _ Hb) as [[Hw _] Hlink].
  assert (extra_data (header b) ≠ []) as Hseal.
  { assert (exists q, poa_validate_header (consensus s) (header b) q = Ok tt) as [q Hq].
    { unfold linkable in Hlink. case_decide; [by exists None; destruct Hlink |].
      destruct Hlink as (q & _ & _ & Hq). eauto. }
    apply poa_validate_ok in Hq as (_ & _ & Hc). intros E. unfold verify_crypto_seals in Hc.
    rewrite E in Hc. unfold verify_seal in Hc. by destruct (_ =? 0)%nat in Hc. }
  exists b. unfold BlockStore.get_block_by_number, BlockStore.get_block. rewrite Hh. simpl.
  split_and!; [done.. |]. intros Hn0. destruct (Hall _ _ (Hpar Hn0)) as (Hr & p & Hp & Hph & Hpn & _).
  exists p. rewrite (Hpar Hn0). simpl. split; [done |]. unfold verify_header_link.
  rewrite decide_False by (intros Hne; by apply Hne).
  unfold saturating_add64. rewrite Hbn, Hpn.
  replace (n =? Z.min (n - 1 + 1) u64_max) with true by (symmetry; apply Z.eqb_eq; lia).
  by rewrite decide_False.
Qed.

Lemma answer_header c n b :
  allowed c (str "ivory_getHeaderByNumber") = true -> u64_ok n ->
  BlockStore.get_block_by_number (ctx_store c) n = Some b ->
  answer c (str "ivory_getHeaderByNumber") (JArray [json_qty n]) = Some (header_to_json b).
Proof.
  intros Ha Hn Hb. unfold answer, handle. rewrite Ha. cbn [negb].
  change (dispatch_method (str "ivory_getHeaderByNumber") (JArray [json_qty n]) c)
    with (c, rpc_get_header_by_number c (JArray [json_qty n])).
  unfold rpc_get_header_by_number, parse_block_id_at. cbn [params_array as_array ok_or rbind lookup list_lookup].
  rewrite block_id_qty by done. cbn [rbind block_by_tag]. by rewrite Hb.
Qed.

Lemma fetch_canonical c n b :
  allowed c (str "ivory_getHeaderByNumber") = true -> u64_ok n ->
  BlockStore.get_block_by_number (ctx_store c) n = Some b ->
  header_wf (header b) -> extra_data (header b) ≠ [] ->
  fetch_header (answer c) n = Ok (header b).
Proof.
  intros Ha Hn Hb Hw He. unfold fetch_header. rewrite (answer_header c n b) by done.
  destruct (header_json b Hw) as [Hj Hh]. cbn [ok_or rbind]. rewrite Hj. cbn [map_err rbind].
  rewrite Hh. cbn [map_err rbind]. rewrite bool_decide_false by done. by rewrite andb_false_r.
Qed.

(** The line printed for a height. *)
Definition canonical_line (s : BlockStore) (n : Z) : bytes :=
  match BlockStore.get_block_by_number s n with Some b => print_header (header b) | None => [] end.

Lemma follow_loop_canonical c hd top start k n prev out :
  let s := ctx_store c in
  allowed c (str "ivory_getHeaderByNumber") = true ->
  store_reachable s -> bs_head s = Some hd -> by_hash s !! hd = Some top ->
  number (header top) < u64_max -> 0 <= n -> 0 <= k -> n + k <= number (header top) + 1 ->
  match prev with
  | None => n = start
  | Some p => n ≠ 0 /\ exists b, BlockStore.get_block_by_number s (n - 1) = Some b /\ header b = p
  end ->
  follow_loop (answer c) start prev (seqZ n k) out = (out ++ map (canonical_line s) (seqZ n k), Ok tt).
Proof.
  intros s Ha Hs Hhd Htop Hmax Hn Hk. revert n prev out Hn. pattern k. apply natlike_ind; [| | done].
  { intros n prev out _ _ _. rewrite seqZ_nil by done. simpl. by rewrite app_nil_r. }
  clear k Hk. intros k Hk IH n prev out Hn Hle Hprev.
  rewrite seqZ_cons by lia. rewrite Z.pred_succ. cbn [follow_loop map].
  destruct (canonical_link s hd top n Hs Hhd Htop Hmax ltac:(lia)) as (b & Hb & Hw & Hbn & Hseal & Hlink).
  rewrite sbind_lift, (fetch_canonical c n b) by (done || (unfold u64_ok, u64_max in *; lia)).
  rewrite sbind_lift.
  assert ((match prev with
           | Some p => map_err (LinkAt n) (verify_header_link p (header b))
           | None => if number (header b) =? start then Ok tt else Err (FirstNumber (number (header b)) start)
           end) = Ok tt) as ->.
  { destruct prev as [p|].
    - destruct Hprev as (Hn0 & b' & Hb' & <-). destruct (Hlink Hn0) as (p & Hp & Hv).
      assert (p = b') as -> by congruence. by rewrite Hv.
    - subst start. by rewrite Hbn, Z.eqb_refl. }
  rewrite sbind_modify. rewrite (IH (Z.succ n) (Some (header b))); [| lia.. |].
  - rewrite <- app_assoc. simpl. unfold canonical_line at 2. by rewrite Hb.
  - split; [lia |]. exists b. by replace (Z.succ n - 1) with n by lia.
Qed.

(** C25: Following a node succeeds: against a node whose store was built by the
    chain's operations, [follow] over any range of heights up to the head (given
    in hex, or up to [latest]) accepts every header and prints, in order, number
    and hash of each canonical block. *)
Theorem follow_honest_node c hd top start finish :
  allowed c (str "ivory_getHeaderByNumber") = true -> allowed c (str "eth_blockNumber") = true ->
  store_reachable (ctx_store c) -> bs_head (ctx_store c) = Some hd ->
  by_hash (ctx_store c) !! hd = Some top -> number (header top) < u64_max ->
  0 <= start <= finish -> finish <= number (header top) ->
  let lines := map (canonical_line (ctx_store c)) in
  follow (answer c) (encode_qty start) (encode_qty finish) [] =
    (lines (seqZ start (finish - start + 1)), Ok tt) /\
  follow (answer c) (encode_qty start) (str "Latest") [] =
    (lines (seqZ start (number (header top) - start + 1)), Ok tt).
Proof.
  intros Ha Hbn Hs Hhd Htop Hmax Hr Hf. cbv zeta. unfold follow.
  assert (forall n, 0 <= n <= number (header top) -> parse_height (encode_qty n) = Ok n) as Hp.
  { intros n Hn. apply parse_height_qty. unfold u64_ok, u64_max in *. lia. }
  rewrite !sbind_lift, Hp by lia. split.
  - rewrite decide_False.
    2: { destruct (encode_qty_form finish) as (s & d & E & _); [lia |]. rewrite E. simpl. discriminate. }
    rewrite sbind_lift, Hp, sbind_guard by lia. rewrite (proj2 (Z.leb_le _ _)) by lia.
    by eapply (follow_loop_canonical c hd top); try done; lia.
  - rewrite decide_True by reflexivity.
    assert (answer c (str "eth_blockNumber") (JArray []) = Some (json_qty (number (header top)))) as Ea.
    { unfold answer, handle. rewrite Hbn. cbn [negb].
      change (dispatch_method (str "eth_blockNumber") (JArray []) c) with (c, rpc_block_number c).
      unfold rpc_block_number, BlockStore.head_block. rewrite Hhd. simpl.
      unfold BlockStore.get_block. by rewrite Htop. }
    rewrite Ea, sbind_lift. cbn [ok_or rbind]. unfold parse_rpc_qty, json_qty. cbn [as_str ok_or rbind].
    rewrite parse_encode_qty by (unfold u64_ok, u64_max in *; lia). cbn [ok_or].
    rewrite sbind_guard, (proj2 (Z.leb_le _ _)) by lia.
    by eapply (follow_loop_canonical c hd top); try done; lia.
Qed.

(** ** Against any server *)

Definition linked (hs : list BlockHeader) : Prop :=
  forall i p h, hs !! i = Some p -> hs !! S i = Some h -> verify_header_link p h = Ok tt.

(** What a successful turn checked about the header of height [n]. *)
Definition served (server : bytes -> value -> option value) (h : BlockHeader) : Prop :=
  exists n raw, server (str "ivory_getHeaderByNumber") (JArray [json_qty n]) = Some raw /\
    header_from_rpc raw = Ok h /\ verify_rpc_hash h raw = Ok tt.

Lemma link_fields p h :
  verify_header_link p h = Ok tt ->
  parent_hash h = header_hash p /\ number h = saturating_add64 (number p) 1 /\ extra_data h ≠ [].
Proof.
  unfold verify_header_link. destruct (decide (parent_hash h ≠ header_hash p)) as [|H1]; [done |].
  destruct (number h =? saturating_add64 (number p) 1) eqn:H2; [| done]. cbn [negb].
  destruct (decide (extra_data h = [])); [done |]. zbool. by apply dec_stable in H1.
Qed.

Lemma fetch_served server n h : fetch_header server n = Ok h -> served server h.
Proof.
  unfold fetch_header. intros (raw & Hr%ok_or_ok & H)%rbind_ok.
  apply rbind_ok in H as (h' & Hh & H). apply rbind_ok in H as ([] & Hv & H).
  destruct (header_from_rpc raw) as [h1|] eqn:E1; [| done]. injection Hh as ->.
  destruct (verify_rpc_hash h' raw) as [[]|] eqn:E2; [| done].
  destruct (_ && _); [done |]. injection H as ->. by exists n, raw.
Qed.

Lemma follow_loop_sound server start prev ns out out' :
  follow_loop server start prev ns out = (out', Ok tt) ->
  exists hs, out' = out ++ map print_header hs /\ length hs = length ns /\ Forall (served server) hs /\
    match prev with
    | Some p => linked (p :: hs)
    | None => linked hs /\ forall h, head hs = Some h -> number h = start
    end.
Proof.
  revert prev out; induction ns as [|n ns IH]; intros prev out H; cbn [follow_loop] in H.
  { injection H as <-. exists []. rewrite app_nil_r. split_and!; [done.. |].
    assert (forall p, linked [p]) as Hl by (intros p [|i]; by intros ? ? ? ?).
    destruct prev; [done |]. split; [by intros i | done]. }
  smonad_inv. rename x into h.
  match goal with Hf : follow_loop _ _ _ _ _ = _ |- _ => apply IH in Hf as (hs & -> & Hlen & Hsv & Hlk) end.
  match goal with Hm : match prev with _ => _ end = Ok _ |- _ => rename Hm into Hchk end.
  exists (h :: hs). rewrite <- app_assoc. split; [done |]. split; [simpl; lia |].
  split; [constructor; [by eapply fetch_served | done] |].
  destruct prev as [p|].
  - assert (verify_header_link p h = Ok tt) as Hph by (by destruct (verify_header_link p h) as [[]|]).
    intros [|i] a b; [by intros [= <-] [= <-] | apply Hlk].
  - split; [done |]. intros h' [= <-]. by destruct (Z.eqb_spec (number h) start).
Qed.

(** Two linked chains of one length that end in the same hash are one chain. *)
Lemma linked_binds hs1 hs2 :
  linked hs1 -> linked hs2 -> length hs1 = length hs2 ->
  Forall header_wf hs1 -> Forall header_wf hs2 ->
  coll_free (map serialize (hs1 ++ hs2)) ->
  header_hash <$> last hs1 = header_hash <$> last hs2 -> hs1 = hs2.
Proof.
  revert hs2; induction hs1 as [|h1 hs1 IH] using rev_ind; intros hs2 L1 L2 Hlen W1 W2 C Hl.
  { by destruct hs2. }
  destruct hs2 as [|h2 hs2 _] using rev_ind; [rewrite length_app in Hlen; simpl in Hlen; lia |].
  rewrite !last_snoc in Hl. apply (inj Some) in Hl. rewrite !length_app in Hlen.
  apply Forall_app in W1 as [W1 [Wh1 _]%Forall_cons]. apply Forall_app in W2 as [W2 [Wh2 _]%Forall_cons].
  assert (h1 = h2) as ->.
  { apply (header_hash_inj h1 h2 Wh1 Wh2); [| done]. eapply coll_free_mono, C.
    rewrite !map_app. cbn [map]. set_solver. }
  assert (forall hs, linked (hs ++ [h2]) -> linked hs) as Hpre.
  { intros hs L i a b Ha Hb. by apply (L i); apply lookup_app_l_Some. }
  assert (forall hs p, linked (hs ++ [h2]) -> last hs = Some p -> header_hash p = parent_hash h2) as Hpar.
  { intros hs p L Hp. rewrite last_lookup in Hp. apply lookup_lt_Some in Hp as Hlt.
    destruct (link_fields p h2) as [-> _]; [| done].
    apply (L (pred (length hs))); [by apply lookup_app_l_Some |].
    rewrite lookup_app_r by lia. by replace (S (pred (length hs)) - length hs)%nat with O by lia. }
  f_equal. apply (IH hs2 (Hpre _ L1) (Hpre _ L2)); [lia | done | done | |].
  { eapply coll_free_mono, C. rewrite !map_app. set_solver. }
  destruct (last hs1) as [p1|] eqn:E1, (last hs2) as [p2|] eqn:E2; simpl; try done.
  - f_equal. by rewrite (Hpar hs1 p1), (Hpar hs2 p2).
  - apply last_None in E2 as ->. rewrite last_lookup in E1. apply lookup_lt_Some in E1. simpl in Hlen. lia.
  - apply last_None in E1 as ->. rewrite last_lookup in E2. apply lookup_lt_Some in E2. simpl in Hlen. lia.
Qed.

(** C26: What a light client learns from a server it does not trust: the lines of
    a successful [follow] are those of headers the server served under their own
    hash, the first of the requested height, each linked to the one before; and
    they are fixed by the last hash: any other linked chain of that length of
    well-formed headers ending in that hash is the same chain, when no two
    headers of the two chains collide. *)
Theorem followed_chain_binds server from to out :
  follow server from to [] = (out, Ok tt) ->
  exists start hs,
    parse_height from = Ok start /\ out = map print_header hs /\ hs ≠ [] /\
    Forall (served server) hs /\ linked hs /\ (forall h, head hs = Some h -> number h = start) /\
    forall other, linked other -> length other = length hs ->
      Forall header_wf hs -> Forall header_wf other -> coll_free (map serialize (other ++ hs)) ->
      header_hash <$> last other = header_hash <$> last hs -> other = hs.
Proof.
  intros H. unfold follow in H. smonad_inv. rename x into start. zbool.
  match goal with Hf : follow_loop _ _ _ _ _ = _ |- _ =>
    apply follow_loop_sound in Hf as (hs & -> & Hlen & Hsv & Hlk & Hhead) end.
  exists start, hs. split_and!; try done.
  - intros ->. rewrite length_seqZ in Hlen. simpl in Hlen. lia.
  - intros other L2 Hlen2 W1 W2 C. by apply linked_binds.
Qed.
End Spec.

(** ** Witnesses *)

Lemma fork_ledger_store : store_reachable (lg_store fork_ledger).
Proof. exact (li_store _ (ledger_reachable_inv _ fork_ledger_reachable)). Qed.

Lemma follow_honest_node_witness :
  follow (answer (sample_context fork_ledger)) (encode_qty 0) (str "Latest") [] =
  (map (canonical_line (ctx_store (sample_context fork_ledger))) (seqZ 0 (number (header fork_b) - 0 + 1)), Ok tt).
Proof.
  assert (by_hash (ctx_store (sample_context fork_ledger)) !! block_hash fork_b = Some fork_b) as Hb
    by (vm_compute; reflexivity).
  assert (bs_head (ctx_store (sample_context fork_ledger)) = Some (block_hash fork_b)) as Hh
    by (vm_compute; reflexivity).
  assert (number (header fork_b) < u64_max) as Hmax by (vm_compute; reflexivity).
  assert (1 <= number (header fork_b)) as Hle by (vm_compute; discriminate).
  exact (proj2 (follow_honest_node (sample_context fork_ledger) (block_hash fork_b) fork_b 0 1
    eq_refl eq_refl fork_ledger_store Hh Hb Hmax ltac:(lia) Hle)).
Defined.

(** A server that always answers with one sealed header. *)
Definition one_header_server (method : bytes) (params : value) : option value :=
  Some (header_to_json (mkBlock (with_extra [x01] (header sample_block)) [] [])).

Lemma followed_chain_binds_witness :
  exists out hs,
    follow one_header_server (str "0") (str "0x0") [] = (out, Ok tt) /\
    out = map print_header hs /\ linked hs.
Proof.
  assert ((follow one_header_server (str "0") (str "0x0") []).2 = Ok tt) as Hr by (vm_compute; reflexivity).
  destruct (follow one_header_server (str "0") (str "0x0") []) as [out r] eqn:E.
  cbn [snd] in Hr. subst r.
  destruct (followed_chain_binds one_header_server (str "0") (str "0x0") out E)
    as (start & hs & _ & H & _ & _ & Hl & _).
  exists out, hs. split; [reflexivity | split; [exact H | exact Hl]].
Defined.
