(* ===== verification/RpcServerProps.v ===== *)
(** * HTTP and WebSocket front ends: theorems *)

From S2P Require Import Prelude Hex Uint UintFacts UintProps Hash Address Text Btree Bincode Core.
From S2P Require Import Trie State Crypto Vm Executor TxPool Consensus Store Apply Json Metrics.
From S2P Require Import Rpc RpcServer Light RpcProps ExecutorProps ApplyProps.
#[local] Open Scope Z_scope.

Section Spec.
Context {HC : HexCrate} {BC : BincodeCrate} {BL : BincodeLaws} {SC : Sha3Crate} {EC : Ed25519Crate}.
Context {WC : WasmiCrate} {DC : DashMapCrate} {ET : ErrorTexts} {FT : FloatText} {SJ : SerdeJson} {W : Type}.
Implicit Types (c : RpcContext W).

(** ** HTTP *)

Lemma on_metrics_comp f g c : on_metrics f (on_metrics g c) = on_metrics (fun m => f (g m)) c.
Proof. done. Qed.
Lemma on_metrics_id c : on_metrics (fun m => m) c = c.
Proof. by destruct c. Qed.

Lemma handle_query method params c :
  method ≠ str "eth_sendRawTransaction" -> exists f, (handle method params c).1 = on_metrics f c.
Proof.
  intros Hm. unfold handle. destruct (allowed c method); simpl; [| eauto].
  destruct (dispatch_query method params c Hm) as [[v|e] ->]; simpl; rewrite ?on_metrics_comp; eauto.
Qed.

(** The bearer token: when one is configured, a request without it is
    answered [401] and changes nothing, except on the three probe paths, where it
    can move the counters but neither the chain, the pool, the state, the gossip
    nor the subscriptions' events.  The right token, or no token, gives the
    routes. *)
Theorem token_gate expected r c :
  (token_ok expected (req_auth r) = true -> serve (Some expected) r c = route r c) /\
  serve None r c = route r c /\
  (token_ok expected (req_auth r) = false ->
   (open_path (req_path r) = false -> serve (Some expected) r c = (c, Unauthorized)) /\
   (open_path (req_path r) = true ->
    exists f, (serve (Some expected) r c).1 = on_metrics f c)).
Proof.
  unfold serve. destruct (open_path (req_path r)) eqn:Eo.
  2: { split_and!; [by intros -> | done |]. intros ->. split; [done | discriminate]. }
  split_and!; [done | done |]. intros _. split; [discriminate | intros _].
  unfold open_path in Eo. rewrite !orb_true_iff, !bool_decide_eq_true in Eo.
  assert (forall c, exists f, c = on_metrics f c) as Hid by (intros c0; exists (fun m => m); by rewrite on_metrics_id).
  destruct r as [m p a b]. simpl in Eo. unfold route. cbn [req_path req_method req_body].
  destruct Eo as [[->| ->]| ->].
  - change (bool_decide (str "/livez" = str "/")) with false.
    change (bool_decide (str "/livez" = str "/ui") || bool_decide (str "/livez" = str "/ui/")) with false.
    change (bool_decide (str "/livez" = str "/livez")) with true. cbv iota. destruct m; apply Hid.
  - change (bool_decide (str "/readyz" = str "/")) with false.
    change (bool_decide (str "/readyz" = str "/ui") || bool_decide (str "/readyz" = str "/ui/")) with false.
    change (bool_decide (str "/readyz" = str "/livez")) with false.
    change (bool_decide (str "/readyz" = str "/readyz")) with true. cbv iota.
    destruct m; [| apply Hid]. unfold readyz.
    destruct (handle_query (str "eth_blockNumber") (JArray []) c) as [f Hf]; [discriminate |].
    exists f. rewrite <- Hf. by destruct (handle _ _ c) as [c' [v|e]].
  - change (bool_decide (str "/metrics" = str "/")) with false.
    change (bool_decide (str "/metrics" = str "/ui") || bool_decide (str "/metrics" = str "/ui/")) with false.
    change (bool_decide (str "/metrics" = str "/livez")) with false.
    change (bool_decide (str "/metrics" = str "/readyz")) with false.
    change (bool_decide (str "/metrics" = str "/metrics")) with true. cbv iota.
    destruct m; [| apply Hid]. unfold metrics_endpoint.
    destruct (BlockStore.head_block (ctx_store c)); cbn [fst]; rewrite ?on_metrics_comp; eauto.
Qed.

(** Every HTTP call gets one JSON-RPC 2.0 envelope with either a result or an
    error: a body that is not JSON and one that is not a request are answered
    with the standard codes under a null id and reach no method; any other gets
    its own id back with what [handle] answered. *)
Theorem http_envelope body c :
  let '(c', r) := http_jsonrpc body c in
  rs_jsonrpc r = str "2.0" /\
  (is_Some (rs_result r) <-> rs_error r = None) /\
  match body ≫= request_from_value with
  | None =>
      c' = c /\ rs_id r = JNull /\
      rs_error r = Some (match body with None => parse_error | Some _ => invalid_request end)
  | Some q =>
      c' = (handle (jr_method q) (jr_params q) c).1 /\ rs_id r = jr_id q /\
      match (handle (jr_method q) (jr_params q) c).2 with
      | Ok v => rs_result r = Some v
      | Err e => rs_error r = Some (json_rpc_error e)
      end
  end.
Proof.
  unfold http_jsonrpc, dispatch. destruct body as [v|]; simpl.
  - destruct (request_from_value v) as [q|]; simpl.
    + destruct (handle (jr_method q) (jr_params q) c) as [c' [v'|e]]; simpl; split_and!; try done;
        split; by eauto using is_Some_None.
    + by split_and!.
  - by split_and!.
Qed.

(** Anyone who may call a method can write lines of its own into [/metrics]:
    the method name of a request, refused or not, becomes a label, and line breaks
    in it are not escaped. *)
Theorem metrics_line_injection line params c :
  let method := IvoryMetrics.newline ++ line ++ IvoryMetrics.newline in
  metrics_wf (cx_metrics c) ->
  Forall (fun b => b ≠ IvoryMetrics.quote /\ b ≠ IvoryMetrics.backslash) line ->
  let c' := (handle method params c).1 in
  (handle method params c).2 = Err (RpcError.MethodNotFound method) /\
  occurs method (IvoryMetrics.encode (cx_metrics c')).
Proof.
  intros method Hm Hl c'. destruct (request_counted (cx_metrics c) method Hm) as [n Hn].
  assert (dispatch_method method params c = (c, Err (RpcError.MethodNotFound method))) as Hd.
  { unfold dispatch_method, method.
    repeat (rewrite bool_decide_false by discriminate). done. }
  assert (forall e, occurs method (IvoryMetrics.encode
            (IvoryMetrics.rpc_error method e (IvoryMetrics.rpc_request method (cx_metrics c))))) as Ho.
  { intros e. exact (request_line_exported (IvoryMetrics.rpc_error _ _ _) line n Hn Hl). }
  unfold c', handle. destruct (allowed c method); cbn [negb]; [rewrite Hd |]; by split; [| apply Ho].
Qed.

(** ** Subscriptions *)

Implicit Types (s : WsState (W := W)).

Lemma sub_id_inj a b : u64_ok a -> u64_ok b -> sub_id_text a = sub_id_text b -> a = b.
Proof.
  intros Ha Hb E. unfold sub_id_text in E. apply app_inv_head in E.
  apply (f_equal parse_hex_u64) in E. rewrite !parse_fmt_hex in E by done. by injection E.
Qed.

(** Every identifier in use was handed out. *)
Definition ids_issued s : Prop :=
  1 <= ws_next_id s /\
  forall id k, ws_subs s !! id = Some k -> exists n, 1 <= n < ws_next_id s /\ id = sub_id_text n.

Lemma subscribe_cases id params subs next :
  (exists e, subscribe id params subs next = (subs, next, response_error id e)) \/
  exists kind, subscribe id params subs next =
    (<[sub_id_text next := kind]> subs, saturating_add64 next 1,
     response_success id (JString (sub_id_text next))).
Proof.
  unfold subscribe. destruct (as_array params) as [arr|]; [| eauto].
  destruct (head arr ≫= as_str) as [topic|]; [| eauto].
  repeat case_decide; eauto.
Qed.

Lemma socket_step_ids i s :
  ids_issued s -> ws_next_id s < u64_max ->
  ids_issued (socket_step i s).1 /\ ws_next_id (socket_step i s).1 <= ws_next_id s + 1.
Proof.
  intros [H1 Hids] Hmax. unfold socket_step.
  assert (ids_issued s /\ ws_next_id s <= ws_next_id s + 1) as Hs by (split; [done | lia]).
  assert (forall text, ids_issued (handle_ws_message text s).1 /\
            ws_next_id (handle_ws_message text s).1 <= ws_next_id s + 1) as Hmsg.
  { intros text. unfold handle_ws_message. destruct (request_from_str text) as [r|]; [| done].
    destruct (decide _); [| destruct (decide _)].
    - destruct (subscribe_cases (jr_id r) (jr_params r) (ws_subs s) (ws_next_id s)) as [(msg & ->)|(k & ->)];
        [done |]. cbn [fst ws_next_id]. unfold saturating_add64.
      split; [| lia]. split; cbn [ws_next_id ws_subs]; [lia |]. intros id k'.
      destruct (decide (sub_id_text (ws_next_id s) = id)) as [<-|Hne].
      + intros _. exists (ws_next_id s). split; [lia | done].
      + rewrite lookup_insert_ne by done. intros (n & Hn & ->)%Hids. exists n. split; [lia | done].
    - unfold unsubscribe. destruct (as_array (jr_params r)) as [arr|]; [| done].
      destruct (head arr ≫= as_str) as [sid|]; [| done]. simpl. split; [| lia]. split; [done |].
      intros id k. simpl. intros [_ Hk]%lookup_delete_Some. by apply (Hids id k).
    - by destruct (dispatch r (ws_ctx s)). }
  destruct (ws_open s); [| done]. simpl. destruct i as [text|data| | |e| |]; try done.
  - specialize (Hmsg text). by destruct (handle_ws_message text s).
  - destruct (utf8_ok data); [| done]. specialize (Hmsg data). by destruct (handle_ws_message data s).
Qed.

Lemma socket_step_next i s : ids_issued s -> ws_next_id s <= ws_next_id (socket_step i s).1 \/ u64_max <= ws_next_id s.
Proof.
  intros _. unfold socket_step.
  assert (forall text, ws_next_id s <= ws_next_id (handle_ws_message text s).1 \/ u64_max <= ws_next_id s) as Hmsg.
  { intros text. unfold handle_ws_message. destruct (request_from_str text) as [r|]; [| left; simpl; lia].
    destruct (decide _); [| destruct (decide _)].
    - destruct (subscribe_cases (jr_id r) (jr_params r) (ws_subs s) (ws_next_id s)) as [(msg & ->)|(k & ->)];
        cbn [fst ws_next_id]; [left; lia |]. unfold saturating_add64. lia.
    - unfold unsubscribe. destruct (as_array (jr_params r)) as [arr|]; [| left; simpl; lia].
      destruct (head arr ≫= as_str); left; simpl; lia.
    - destruct (dispatch r (ws_ctx s)). left. simpl. lia. }
  destruct (ws_open s); [| left; simpl; lia]. simpl.
  destruct i as [text|data| | |e| |]; try (left; simpl; lia).
  - specialize (Hmsg text). by destruct (handle_ws_message text s).
  - destruct (utf8_ok data); [| left; simpl; lia]. specialize (Hmsg data). by destruct (handle_ws_message data s).
Qed.

Lemma run_socket_ids inputs c :
  Z.of_nat (length inputs) + 1 < u64_max ->
  let s := (run_socket inputs (ws_start c)).1 in ids_issued s /\ ws_next_id s <= Z.of_nat (length inputs) + 1.
Proof.
  assert (forall s, ids_issued s -> ws_next_id s + Z.of_nat (length inputs) < u64_max ->
    let s' := (run_socket inputs s).1 in ids_issued s' /\ ws_next_id s' <= ws_next_id s + Z.of_nat (length inputs)) as H.
  { induction inputs as [|i inputs IH]; intros s Hs Hlen; simpl run_socket; [split; [done | simpl; lia] |].
    simpl length in *. destruct (socket_step_ids i s Hs) as [H1 H2]; [lia |].
    destruct (socket_step i s) as [s1 out]. simpl in H1, H2.
    destruct (IH s1 H1) as [H3 H4]; [lia |]. destruct (run_socket inputs s1) as [s2 outs]. simpl in *.
    split; [done | lia]. }
  intros Hlen. destruct (H (ws_start c)) as [H1 H2]; [| simpl; lia | split; [done | simpl in *; lia]].
  split; [done |]. intros id k. simpl. by rewrite lookup_empty.
Qed.

(** A frame that asks to unsubscribe [sid]. *)
Definition unsubscribes (sid : bytes) (i : WsInput) : Prop :=
  exists text r rest,
    (i = TextFrame text \/ i = BinaryFrame text /\ utf8_ok text = true) /\
    request_from_str text = Some r /\ jr_method r = str "eth_unsubscribe" /\
    jr_params r = JArray (JString sid :: rest).

Lemma first_string params sid :
  (arr ← as_array params; head arr ≫= as_str) = Some sid -> exists rest, params = JArray (JString sid :: rest).
Proof.
  destruct params as [| | | |arr|]; try done. destruct arr as [|[| | |x| |] arr]; try done.
  intros [= ->]. eauto.
Qed.

(** What a text does to the subscription [n], which was handed out before. *)
Lemma message_keeps text s n :
  ids_issued s -> ws_next_id s < u64_max -> 0 <= n < ws_next_id s ->
  let sid := sub_id_text n in
  let s' := (handle_ws_message text s).1 in
  ws_open s' = ws_open s /\
  ((~ unsubscribes sid (TextFrame text) /\ ws_subs s' !! sid = ws_subs s !! sid) \/
   (unsubscribes sid (TextFrame text) /\ ws_subs s' !! sid = None)).
Proof.
  intros [H1 Hids] Hmax Hn sid s'. unfold s', handle_ws_message.
  assert (forall r, request_from_str text = Some r -> unsubscribes sid (TextFrame text) ->
            jr_method r = str "eth_unsubscribe" /\ exists rest, jr_params r = JArray (JString sid :: rest)) as Huns.
  { intros r Er (t & r' & rest & [[= <-]|[[=] _]] & Er' & Hm & Hp). rewrite Er in Er'.
    injection Er' as <-. eauto. }
  destruct (request_from_str text) as [r|] eqn:Er.
  2: { split; [done | left]. split; [| done]. intros (t & r' & rest & [[= <-]|[[=] _]] & Er' & _). congruence. }
  specialize (Huns r eq_refl). destruct (decide (jr_method r = str "eth_subscribe")) as [Hm|Hm].
  { assert (~ unsubscribes sid (TextFrame text)) as Hno by (intros [Hm' _]%Huns; rewrite Hm in Hm'; discriminate).
    destruct (subscribe_cases (jr_id r) (jr_params r) (ws_subs s) (ws_next_id s)) as [(msg & ->)|(k & ->)];
      (split; [done | left; split; [done |]]); [done |]. cbn [fst ws_subs].
    apply lookup_insert_ne. intros E. apply sub_id_inj in E; unfold u64_ok, u64_max in *; lia. }
  destruct (decide (jr_method r = str "eth_unsubscribe")) as [Hm'|Hm'].
  2: { destruct (dispatch r (ws_ctx s)). split; [done | left]. split; [| done]. by intros [? _]%Huns. }
  unfold unsubscribe.
  assert (forall x, (arr ← as_array (jr_params r); head arr ≫= as_str) = Some x -> x ≠ sid ->
            ~ unsubscribes sid (TextFrame text)) as Hother.
  { intros x Hx Hne (_ & rest & Hp)%Huns. rewrite Hp in Hx. simpl in Hx. congruence. }
  assert ((arr ← as_array (jr_params r); head arr ≫= as_str) = None ->
            ~ unsubscribes sid (TextFrame text)) as Hnone.
  { intros Hx (_ & rest & Hp)%Huns. rewrite Hp in Hx. discriminate. }
  destruct (as_array (jr_params r)) as [arr|] eqn:Ea; [| split; [done | left; split; [by apply Hnone | done]]].
  cbn [mbind option_bind] in Hother, Hnone.
  destruct (head arr ≫= as_str) as [x|] eqn:Ex; [| split; [done | left; split; [by apply Hnone | done]]].
  split; [done |]. cbn [fst ws_subs]. destruct (decide (x = sid)) as [->|Hne].
  - right. split; [| apply lookup_delete_eq].
    destruct (first_string (jr_params r) sid) as [rest Hp]; [rewrite Ea; exact Ex |].
    exists text, r, rest. split_and!; try done. by left.
  - left. split; [by eapply Hother | by apply lookup_delete_ne].
Qed.

Lemma binary_unsubscribes sid data :
  unsubscribes sid (BinaryFrame data) <-> utf8_ok data = true /\ unsubscribes sid (TextFrame data).
Proof.
  split.
  - intros (t & r & rest & [E|[E Hu]] & Hr); [discriminate E |]. injection E as ->.
    split; [done |]. exists t, r, rest. split; [by left | done].
  - intros [Hu (t & r & rest & [E|[E _]] & Hr)]; [| discriminate E]. injection E as ->.
    exists t, r, rest. split; [by right | done].
Qed.

Lemma socket_keeps i s n :
  ids_issued s -> ws_next_id s < u64_max -> 0 <= n < ws_next_id s ->
  let sid := sub_id_text n in
  let s' := (socket_step i s).1 in
  ws_open s' = true ->
  (~ unsubscribes sid i /\ ws_subs s' !! sid = ws_subs s !! sid) \/
  (unsubscribes sid i /\ ws_subs s' !! sid = None).
Proof.
  intros Hi Hmax Hn sid s'. unfold s', socket_step.
  destruct (ws_open s) eqn:Ho; [| cbn; congruence]. cbn [negb].
  destruct i as [text|data|data| |e| |]; try (intros _; left; split; [|done];
    intros (t & r & rest & [H|[H _]] & _); discriminate H).
  - destruct (message_keeps text s n Hi Hmax Hn) as [_ H].
    by destruct (handle_ws_message text s).
  - destruct (utf8_ok data) eqn:Hu.
    + destruct (message_keeps data s n Hi Hmax Hn) as [_ H].
      destruct (handle_ws_message data s) as [s1 resp]. intros _.
      destruct H as [[H1 H2]|[H1 H2]]; [left | right]; (split; [| exact H2]);
        rewrite binary_unsubscribes, Hu; [by intros [_ ?] | by split].
    + intros _. left. split; [| done]. rewrite binary_unsubscribes, Hu. by intros [? _].
Qed.

Lemma socket_step_closed i s : ws_open s = false -> (socket_step i s).1 = s.
Proof. intros H. unfold socket_step. by rewrite H. Qed.

Lemma run_socket_closed inputs s : ws_open s = false -> (run_socket inputs s).1 = s.
Proof.
  revert s; induction inputs as [|i inputs IH]; intros s H; [done |]. cbn [run_socket].
  pose proof (socket_step_closed i s H) as E. destruct (socket_step i s) as [s1 out]. cbn in E. subst s1.
  specialize (IH s H). destruct (run_socket inputs s). exact IH.
Qed.

(** A subscription through any later inputs: kept until a frame unsubscribes it. *)
Lemma run_keeps inputs s n :
  ids_issued s -> ws_next_id s + Z.of_nat (length inputs) < u64_max -> 0 <= n < ws_next_id s ->
  let sid := sub_id_text n in
  let s' := (run_socket inputs s).1 in
  ws_open s' = true ->
  (Forall (fun i => ~ unsubscribes sid i) inputs -> ws_subs s' !! sid = ws_subs s !! sid) /\
  (ws_subs s !! sid = None \/ Exists (unsubscribes sid) inputs -> ws_subs s' !! sid = None).
Proof.
  revert s; induction inputs as [|i inputs IH]; intros s Hi Hmax Hn sid s' Ho.
  { unfold s'. cbn. split; [done |]. by intros [H|H%Exists_nil]. }
  cbn [length] in Hmax. unfold s' in *. cbn [run_socket] in *.
  destruct (socket_step_ids i s Hi) as [Hi1 Hle]; [lia |].
  pose proof (socket_keeps i s n Hi ltac:(lia) Hn) as Hk.
  assert (n < ws_next_id (socket_step i s).1) as Hn1 by (pose proof (socket_step_next i s Hi); lia).
  destruct (socket_step i s) as [s1 out]. cbn [fst] in *.
  destruct (ws_open s1) eqn:Ho1.
  2: { pose proof (run_socket_closed inputs s1 Ho1) as E. destruct (run_socket inputs s1). cbn in *. congruence. }
  specialize (Hk eq_refl). specialize (IH s1 Hi1 ltac:(lia) ltac:(lia)).
  destruct (run_socket inputs s1) as [s2 outs]. cbn [fst] in *. destruct (IH Ho) as [IH1 IH2].
  fold sid in IH1, IH2, Hk. split.
  - intros [Hno Hnos]%Forall_cons. rewrite IH1 by done. by destruct Hk as [[_ ->]|[? _]].
  - rewrite Exists_cons. intros [H|[H|H]]; apply IH2; [| left | by right].
    + left. destruct Hk as [[_ ->]|[_ ?]]; done.
    + by destruct Hk as [[? _]|[_ ?]].
Qed.

(** What an event announces under one identifier. *)
Definition announced (subs : gmap bytes SubKind) (e : RpcEvent) : list (bytes * value) :=
  omap (fun '(sid, kind) => (fun r => (sid, r)) <$> notification kind e) (map_to_list subs).

Lemma announced_texts subs e :
  notifications_for subs e = map (fun n => value_to_string (note_value n.1 n.2)) (announced subs e).
Proof.
  unfold notifications_for, announced. induction (map_to_list subs) as [|[sid k] l IH]; [done |].
  simpl. destruct (notification k e); simpl; [f_equal; exact IH | exact IH].
Qed.

Lemma announced_under subs e sid :
  filter (fun n => n.1 = sid) (announced subs e) =
  match subs !! sid ≫= (fun k => notification k e) with Some r => [(sid, r)] | None => [] end.
Proof.
  assert (forall m : gmap bytes SubKind, m !! sid = None -> filter (fun n => n.1 = sid) (announced m e) = []) as Hnone.
  { intros m Hm. unfold announced.
    assert (Forall (fun e : bytes * SubKind => e.1 ≠ sid) (map_to_list m)) as H.
    { apply Forall_forall. intros [x k] Hx%elem_of_map_to_list E. cbn in E. subst x. congruence. }
    induction H as [|[x k] l Hx H IH]; [done |]. simpl in *.
    destruct (notification k e); simpl; [| done]. rewrite filter_cons_False by done. done. }
  destruct (subs !! sid) as [k|] eqn:Ek; [| by apply Hnone]. cbn [mbind option_bind].
  assert (announced subs e ≡ₚ match notification k e with Some r => [(sid, r)] | None => [] end ++
            announced (delete sid subs) e) as Hp.
  { unfold announced. rewrite <- (insert_delete_id subs sid k Ek) at 1.
    rewrite map_to_list_insert by apply lookup_delete_eq. simpl. by destruct (notification k e). }
  assert (filter (fun n : bytes * value => n.1 = sid) (announced subs e) ≡ₚ
          match notification k e with Some r => [(sid, r)] | None => [] end) as Hf.
  { rewrite Hp, filter_app, Hnone, app_nil_r by apply lookup_delete_eq.
    destruct (notification k e); [| done]. by rewrite filter_cons_True, filter_nil. }
  destruct (notification k e); [by apply Permutation_singleton_r in Hf | by apply Permutation_nil_r in Hf].
Qed.

(** C35: The life of a subscription.  On a socket that has seen any frames and
    events, subscribing to new heads answers an identifier no subscription uses
    and adds exactly that one.  Whatever frames and events follow, as long as the
    socket stays open: until a frame unsubscribes the identifier, each new head
    is announced under it exactly once and no other event is; once a frame has
    unsubscribed it nothing is announced under it any more.  Unsubscribing
    removes that identifier alone and answers true. *)
Theorem subscription_lifecycle before c v text id rest later :
  let s := (run_socket before (ws_start c)).1 in
  let sid := sub_id_text (ws_next_id s) in
  let subscribed := socket_step (TextFrame text) s in
  let s2 := (run_socket later subscribed.1).1 in
  Z.of_nat (length before) + Z.of_nat (length later) + 2 < u64_max -> ws_open s2 = true ->
  request_from_str text =
    Some (mkJsonRpcRequest v (str "eth_subscribe") (JArray (JString (str "newHeads") :: rest)) id) ->
  (ws_subs s !! sid = None /\ ws_subs subscribed.1 = <[sid := SubNewHeads]> (ws_subs s) /\
   subscribed.2 = [SendText (response_to_string (response_success id (JString sid)))]) /\
  (forall e, exists notes,
     (socket_step (EventReceived e) s2).2 =
       map (fun n => SendText (value_to_string (note_value n.1 n.2))) notes /\
     (Forall (fun i => ~ unsubscribes sid i) later ->
      filter (fun n => n.1 = sid) notes =
        match e with NewHead _ _ _ _ _ _ _ _ => [(sid, head_json e)] | _ => [] end) /\
     (Exists (unsubscribes sid) later -> filter (fun n => n.1 = sid) notes = [])) /\
  (forall text' v' id' rest',
     Forall (fun i => ~ unsubscribes sid i) later ->
     request_from_str text' =
       Some (mkJsonRpcRequest v' (str "eth_unsubscribe") (JArray (JString sid :: rest')) id') ->
     ws_subs (socket_step (TextFrame text') s2).1 = delete sid (ws_subs s2) /\
     (socket_step (TextFrame text') s2).2 = [SendText (response_to_string (response_success id' (JBool true)))]).
Proof.
  intros s sid subscribed s2 Hlen Hopen2 Htext.
  destruct (run_socket_ids before c) as [[Hn Hids] Hle]; [lia |]. fold s in Hn, Hids, Hle.
  assert (ws_subs s !! sid = None) as Hfresh.
  { apply eq_None_not_Some. intros [k Hk]. destruct (Hids _ _ Hk) as (n & Hn' & E).
    apply sub_id_inj in E; unfold u64_ok, u64_max in *; lia. }
  assert (ws_open s = true) as Hopen.
  { destruct (ws_open s) eqn:E; [done |]. unfold s2, subscribed in Hopen2.
    rewrite socket_step_closed, run_socket_closed in Hopen2 by (by rewrite ?socket_step_closed). congruence. }
  assert (subscribed =
    (mkWsState (ws_ctx s) (<[sid := SubNewHeads]> (ws_subs s)) (saturating_add64 (ws_next_id s) 1) (ws_open s),
     [SendText (response_to_string (response_success id (JString sid)))])) as Hstep.
  { unfold subscribed, socket_step, handle_ws_message. rewrite Hopen, Htext. reflexivity. }
  destruct (socket_step_ids (TextFrame text) s) as [Hi1 Hle1]; [by split | lia |].
  fold subscribed in Hi1, Hle1.
  assert (ws_next_id subscribed.1 = ws_next_id s + 1) as Hnext.
  { rewrite Hstep. cbn. unfold saturating_add64. lia. }
  destruct (run_keeps later subscribed.1 (ws_next_id s) Hi1 ltac:(lia) ltac:(lia) Hopen2) as [Hkeep Hgone].
  fold sid s2 in Hkeep, Hgone.
  assert (ws_subs subscribed.1 !! sid = Some SubNewHeads) as Hin.
  { rewrite Hstep. cbn. apply lookup_insert_eq. }
  rewrite Hin in Hkeep. split_and!; [done | by rewrite Hstep | by rewrite Hstep | |].
  - intros e. exists (announced (ws_subs s2) e). unfold socket_step at 1. rewrite Hopen2. cbn [negb snd].
    rewrite announced_texts, map_map, announced_under. split; [done |]. split.
    + intros H. rewrite (Hkeep H). by destruct e.
    + intros H. by rewrite (Hgone (or_intror H)).
  - intros text' v' id' rest' H Ht'. specialize (Hkeep H).
    clear -Hopen2 Ht' Hkeep. clearbody s2 sid. unfold socket_step, handle_ws_message.
    rewrite Hopen2, Ht'. cbn [negb jr_method jr_params jr_id].
    rewrite decide_False by discriminate. rewrite decide_True by done.
    unfold unsubscribe. cbn. rewrite Hkeep. by rewrite bool_decide_true by done.
Qed.
End Spec.

(** ** Witnesses *)

#[export] Instance sample_float_text : FloatText := {| fmt_f64 _ := str "0" |}.

(** Every frame subscribes to new heads. *)
#[export] Instance sample_serde : SerdeJson := {|
  request_from_str _ := Some (mkJsonRpcRequest (str "2.0") (str "eth_subscribe")
                                (JArray [JString (str "newHeads")]) (json_u64 1));
  response_to_string r := match rs_result r with Some (JString s) => s | _ => [] end;
  value_to_string v := match get (str "method") v with Some (JString s) => s | _ => [] end |}.

Lemma metrics_line_injection_witness :
  let method := IvoryMetrics.newline ++ str "ivory_head_number 999" ++ IvoryMetrics.newline in
  occurs method (IvoryMetrics.encode (cx_metrics (handle method JNull (sample_context fork_ledger)).1)).
Proof.
  exact (proj2 (metrics_line_injection (str "ivory_head_number 999") JNull (sample_context fork_ledger)
    metrics_new_wf ltac:(apply (bool_decide_unpack _); vm_compute; exact I))).
Defined.

(** Four frames later the first subscription still hears of each new head. *)
Lemma subscription_lifecycle_witness :
  let later := [TextFrame []; EventReceived (new_head fork_a); PingFrame []; EventReceived (new_head fork_b)] in
  let s2 := (run_socket later (socket_step (TextFrame []) (ws_start (sample_context fork_ledger))).1).1 in
  (socket_step (TextFrame []) (ws_start (sample_context fork_ledger))).2 = [SendText (str "0x1")] /\
  exists notes,
    length (socket_step (EventReceived (new_head fork_a)) s2).2 = length notes /\
    filter (fun n => n.1 = str "0x1") notes = [(str "0x1", head_json (new_head fork_a))].
Proof.
  intros later s2.
  destruct (subscription_lifecycle [] (sample_context fork_ledger) (str "2.0") [] (json_u64 1) [] later)
    as ((_ & _ & H1) & H2 & _); [vm_compute; reflexivity | vm_compute; reflexivity | reflexivity |].
  split; [exact H1 |]. destruct (H2 (new_head fork_a)) as (notes & E & Hk & _).
  exists notes. split; [exact (eq_trans (f_equal length E) (length_map _ _)) |].
  apply Hk. repeat (apply Forall_cons; split); [..| apply Forall_nil, I];
    intros (t & r & rest & [H|[H _]] & Hr & Hm & _); try discriminate H.
  injection Hr as <-. discriminate Hm.
Defined.
