(* ===== verification/Node.v ===== *)
(** * The node: [bin/ivory/src/node.rs]

    [run_node] wires the store, the pool, the executor, the gossip handle, the
    database and the RPC context together and spawns three tasks.  [Node] is the
    state those tasks share: the RPC context (which holds the handles of the
    ledger, the metrics and the event channel, and whose [cx_world] is the
    network handle the [on_tx] callback captures), the database and the orphan
    blocks.  [startup] is the part of [run_node] that rebuilds the ledger,
    [handle_event] one turn of the import task and [tick] one turn of the
    producer task.  [NodeRun] is the whole of [run_node]. *)

From S2P Require Import Prelude Hex Text Uint UintFacts Hash Address Bincode Core Trie State.
From S2P Require Import Crypto Vm Executor TxPool Consensus Store Producer Apply Persist.
From S2P Require Import Network Config Json Metrics Rpc.
#[local] Open Scope Z_scope.

Definition READ_ONLY_METHODS : list bytes :=
  [str "eth_chainId"; str "eth_blockNumber"; str "eth_getBalance"; str "eth_getCode";
   str "eth_getStorageAt"; str "eth_getBlockByNumber"; str "eth_getBlockByHash";
   str "eth_getTransactionByHash"; str "eth_getTransactionReceipt"; str "eth_getTransactionCount";
   str "eth_call"; str "eth_estimateGas"; str "eth_getLogs"; str "eth_getProof";
   str "ivory_nodeInfo"; str "ivory_listContracts"; str "ivory_getHeaderByNumber"].

(** The [anyhow] errors of [run_node] up to the point where the ledger is ready. *)
Module NodeError.
Inductive t `{RocksDbCrate} : Type :=
| Config (e : ConfigError.t)
| Consensus (e : ConsensusError.t)
| Persist (e : PersistError.t)
| Chain (e : ChainError.t)
| NoHead
| NoHeadSnapshot
| ReplayMissing (n : Z)
| ReplayTx (n : Z) (e : ExecutionError.t).
End NodeError.

(** [HashMap::values]: all the entries, in an order nothing is promised about. *)
Class HashMapIter := { hash_values : forall A, gmap H256 A -> list (H256 * A) }.
Class HashMapIterLaws `{HashMapIter} : Prop := {
  hash_values_perm A (m : gmap H256 A) : hash_values A m ≡ₚ map_to_list m }.

Record Node `{Libp2pCrate, RocksDbCrate} : Type := mkNode {
  nd_ctx : RpcContext NetworkHandle;
  nd_persist : ChainPersist;
  nd_orphans : gmap H256 Block }.
Arguments mkNode {_ _}.

(** What the producer task owns. *)
Record ProducerTask : Type := mkProducerTask {
  pr_producer : BlockProducer;
  pr_consensus : PoAConfig;
  pr_local : Address;
  pr_key : SecretKey }.

Section Node.
Context {HC : HexCrate} {BC : BincodeCrate} {SC : Sha3Crate} {EC : Ed25519Crate} {WC : WasmiCrate}.
Context {DC : DashMapCrate} {ET : ErrorTexts} {LC : Libp2pCrate} {RC : RocksDbCrate} {HI : HashMapIter}.

(** ** Start *)

Definition validator_addr (g : GenesisFile) : result Address NodeError.t :=
  map_err (fun e => NodeError.Config (ConfigError.ValidatorAddress e))
    (Address.from_hex (gv_address (gf_validator g))).
Definition is_producer (cfg : NodeFileConfig) (g : GenesisFile) (poa : PoAConfig)
    (local_addr : Address) : result bool NodeError.t :=
  let? validator_addr := validator_addr g in
  Ok (ServerRole.may_produce (role cfg) && bool_decide (local_addr = validator_addr)
      && poa_is_validator poa local_addr).

(** One turn of the replay loop, on the store and the executor's state. *)
Definition replay_block (n : Z) : smonad (BlockStore * StateDB) NodeError.t unit := fun '(store, live) =>
  match BlockStore.get_block_by_number store n with
  | None => ((store, live), Err (NodeError.ReplayMissing n))
  | Some block =>
      let ctx := context_new (number (header block)) (timestamp (header block)) in
      match execute_block gas_config_default (transactions block) ctx live with
      | (live, Err e) => ((store, live), Err (NodeError.ReplayTx n e))
      | (live, Ok _) =>
          ((BlockStore.record_state (block_hash block) (StateDB.fork live) store, live), Ok tt)
      end
  end.

Definition restored_from_snapshot (store : BlockStore) : bool :=
  match bs_head store with
  | Some h => bool_decide (is_Some (BlockStore.state_at store h))
  | None => false
  end.

(** The three branches after [load_into]. *)
Definition start_fresh (genesis : Block) (state : StateDB) (store : BlockStore) :
    smonad ChainPersist NodeError.t Ledger := fun p =>
  match BlockStore.insert_genesis genesis store with
  | (_, Err e) => (p, Err (NodeError.Chain e))
  | (store, Ok _) =>
      let store := BlockStore.record_state (block_hash genesis) (StateDB.fork state) store in
      match ChainPersist.persist_canonical store genesis p with
      | (p, Err e) => (p, Err (NodeError.Persist e))
      | (p, Ok _) => (p, Ok (mkLedger store state TransactionPool.new))
      end
  end.
Definition start_restored (state : StateDB) (store : BlockStore) : result Ledger NodeError.t :=
  let? head := ok_or (bs_head store) NodeError.NoHead in
  let? snap := ok_or (BlockStore.state_at store head) NodeError.NoHeadSnapshot in
  Ok (mkLedger store (StateDB.reset_from state snap) TransactionPool.new).
Definition start_replayed (genesis : Block) (state : StateDB) (head_n : Z) (store : BlockStore) :
    result Ledger NodeError.t :=
  let store := BlockStore.record_state (block_hash genesis) (StateDB.fork state) store in
  let '((store, live), r) := sfor (seqZ 1 head_n) replay_block (store, state) in
  let? _ := r in
  Ok (mkLedger store live TransactionPool.new).

Definition startup (g : GenesisFile) : smonad ChainPersist NodeError.t (PoAConfig * Ledger) :=
  cfg <-! slift (map_err NodeError.Config (poa_config g)) ;;
  poa <-! slift (map_err NodeError.Consensus (poa_new cfg)) ;;
  slift (validator_addr g) ;;;
  entries <-! slift (map_err NodeError.Config (parsed_alloc g)) ;;
  genesis <-! slift (map_err NodeError.Config (genesis_block g)) ;;
  fun p =>
    let state := alloc_state entries in
    match ChainPersist.load_into p genesis (BlockStore.new poa) with
    | (_, Err e) => (p, Err (NodeError.Persist e))
    | (store, Ok None) =>
        let '(p, r) := start_fresh genesis state store p in (p, let? l := r in Ok (poa, l))
    | (store, Ok (Some head_n)) =>
        (p, let? l := (if restored_from_snapshot store then start_restored state store
                       else start_replayed genesis state head_n store) in
            Ok (poa, l))
    end.

(** [let _ = gossip_net.broadcast_transaction(tx)] *)
Definition gossip_tx (tx : Transaction) (h : NetworkHandle) : NetworkHandle :=
  (broadcast_transaction tx h).1.
Definition with_allow_methods {W} (methods : option (list bytes)) (c : RpcContext W) : RpcContext W :=
  mkRpcContext (cx_ledger c) (cx_chain_id c) (cx_on_tx c) (cx_world c) (cx_role c) (cx_address c)
    (cx_peer_id c) (cx_peers c) (cx_bootstrap c) (cx_contract_lookup c) (cx_events c) (cx_metrics c)
    methods.

Definition node_new (cfg : NodeFileConfig) (l : Ledger) (producer : bool) (local_addr : Address)
    (network : NetworkHandle) (peer_id : bytes) (lookup : H256 -> option ContractMeta)
    (p : ChainPersist) : Node :=
  let role := if producer then Rpc.Producer else Rpc.Follower in
  mkNode
    (with_contract_lookup lookup
       (with_node_info role local_addr peer_id (nh_peers network) (bootstrap cfg)
          (with_gossip gossip_tx (rpc_context_new l (chain_id cfg) network))))
    p ∅.

(** ** The shared state *)

Definition on_ctx (f : RpcContext NetworkHandle -> RpcContext NetworkHandle) (n : Node) : Node :=
  mkNode (f (nd_ctx n)) (nd_persist n) (nd_orphans n).
Definition nd_ledger (n : Node) : Ledger := cx_ledger (nd_ctx n).
Definition set_ledger (l : Ledger) : Node -> Node := on_ctx (fun c =>
  mkRpcContext l (cx_chain_id c) (cx_on_tx c) (cx_world c) (cx_role c) (cx_address c)
    (cx_peer_id c) (cx_peers c) (cx_bootstrap c) (cx_contract_lookup c) (cx_events c) (cx_metrics c)
    (cx_allow_methods c)).
Definition set_live (live : StateDB) (n : Node) : Node :=
  set_ledger (mkLedger (lg_store (nd_ledger n)) live (lg_pool (nd_ledger n))) n.
Definition set_store (store : BlockStore) (n : Node) : Node :=
  set_ledger (mkLedger store (lg_live (nd_ledger n)) (lg_pool (nd_ledger n))) n.
Definition metric (f : IvoryMetrics -> IvoryMetrics) : Node -> Node := on_ctx (on_metrics f).
Definition announce (e : RpcEvent) : Node -> Node := on_ctx (ctx_emit e).
(** A send or a write whose result is dropped. *)
Definition net (c : smonad NetworkHandle NetworkError.t unit) : Node -> Node :=
  on_ctx (fun ctx => set_ctx_world (c (cx_world ctx)).1 ctx).
Definition on_persist (c : smonad ChainPersist PersistError.t unit) (n : Node) : Node :=
  mkNode (nd_ctx n) (c (nd_persist n)).1 (nd_orphans n).
Definition set_orphans (m : gmap H256 Block) (n : Node) : Node := mkNode (nd_ctx n) (nd_persist n) m.

Definition set_pending_metric (n : Node) : Node :=
  metric (IvoryMetrics.set_txpool_pending
            (Z.of_nat (TransactionPool.pending_count (lg_pool (nd_ledger n))))) n.

(** ** Import *)

Definition prune_store (n : Node) : Node :=
  if ChainPersist.is_archive (nd_persist n)
  then set_store (BlockStore.prune_snapshots (lg_store (nd_ledger n))) n
  else set_store (BlockStore.prune_snapshots_keep (ChainPersist.archive_keep (nd_persist n))
                    (lg_store (nd_ledger n))) n.

Definition emit_logs (block : Block) (n : Node) : Node :=
  match block_logs block with [] => n | _ :: _ => announce (new_logs block) n end.

(** [persist.persist_canonical(store, &block)] and then
    [persist.persist_trie_nodes(&executor.state().trie_nodes())]; the latter
    refreshes the storage roots of the live state. *)
Definition persist_block (block : Block) (n : Node) : Node :=
  let n := on_persist (ChainPersist.persist_canonical (lg_store (nd_ledger n)) block) n in
  let '(live, nodes) := StateDB.trie_nodes (lg_live (nd_ledger n)) in
  on_persist (ChainPersist.persist_trie_nodes nodes) (set_live live n).

(** The counters and events of an accepted block. *)
Definition import_notices (block : Block) (outcome : InsertOutcome) (n : Node) : Node :=
  let n := metric IvoryMetrics.inc_blocks_imported n in
  let n := metric (IvoryMetrics.set_head (number (header block)) (timestamp (header block))) n in
  let n := set_pending_metric n in
  if io_head_changed outcome then emit_logs block (announce (new_head block) n) else n.

(** The [Ok] arm of [import_block] up to the children. *)
Definition settle (block : Block) (outcome : InsertOutcome) (n : Node) : Node :=
  prune_store (persist_block block (import_notices block outcome n)).

Definition children_of (hash : H256) (n : Node) : list Block :=
  filter (fun b => parent_hash (header b) = hash) (map snd (hash_values _ (nd_orphans n))).

(** [None] is running out of fuel. *)
Fixpoint import_fuel (fuel : nat) (block : Block) (n : Node) : option Node :=
  match fuel with
  | O => None
  | S fuel =>
      match import_and_apply block (nd_ledger n) with
      | (l, Ok outcome) =>
          let n := settle block outcome (set_ledger l n) in
          foldl (fun acc child =>
                   n ← acc;
                   import_fuel fuel child (set_orphans (delete (block_hash child) (nd_orphans n)) n))
            (Some n) (children_of (block_hash block) n)
      | (l, Err ChainError.UnknownParent) | (l, Err ChainError.UnknownParentState) =>
          let n := net (request_block (parent_hash (header block))) (set_ledger l n) in
          Some (set_orphans (<[block_hash block := block]> (nd_orphans n)) n)
      | (l, Err _) => Some (set_ledger l n)
      end
  end.

Definition import_bound (n : Node) : nat := S (S (size (nd_orphans n))).
Definition import_block (block : Block) (n : Node) : Node :=
  default n (import_fuel (import_bound n) block n).

(** ** One turn of the import task

    A turn runs to its end before any other handler; the import task and the producer
    task of the code run on threads that share the store, the live state and the pool,
    and [Concurrent] is about imports that overlap. *)

Definition handle_event (event : NetworkEvent) (n : Node) : Node :=
  let p2p kind := metric (IvoryMetrics.p2p_message kind) n in
  match event with
  | ListenAddr _ => n
  | TxReceived tx =>
      let n := p2p (str "tx") in
      match TransactionPool.add_transaction tx Remote (lg_pool (nd_ledger n)) with
      | (pool, Ok hash) =>
          let n := on_ctx (set_ctx_pool pool) n in
          announce (NewPendingTx hash) (set_pending_metric n)
      | (pool, Err _) => on_ctx (set_ctx_pool pool) n
      end
  | BlockReceived block => import_block block (p2p (str "block"))
  | BlockRequest hash =>
      let n := p2p (str "get_block") in
      match BlockStore.get_block (lg_store (nd_ledger n)) hash with
      | Some block => net (broadcast_block block) n
      | None => n
      end
  | HeaderReceived header =>
      let n := p2p (str "header") in
      match BlockStore.get_block (lg_store (nd_ledger n)) (header_hash header) with
      | None => net (request_block (header_hash header)) n
      | Some _ => n
      end
  | HeaderRequest hash =>
      let n := p2p (str "get_header") in
      match BlockStore.get_block (lg_store (nd_ledger n)) hash with
      | Some block => net (broadcast_header (header block)) n
      | None => n
      end
  | PeerConnected _ | PeerDisconnected _ =>
      metric (IvoryMetrics.set_p2p_peers (peer_count (cx_world (nd_ctx n)))) n
  end.

(** ** One turn of the producer task, also run to its end *)

Definition tick_params (t : ProducerTask) (parent : Block) (pool : TransactionPool) : ProduceParams :=
  mkProduceParams parent pool gas_config_default (pr_consensus t) (pr_local t) (pr_key t)
    (saturating_add64 (timestamp (header parent)) 1) 128.

(** What the turn produces: [None] when it is skipped. *)
Definition tick_block (t : ProducerTask) (l : Ledger) : option (result Block ChainError.t) :=
  if (TransactionPool.pending_count (lg_pool l) =? 0)%nat then None
  else
    parent ← BlockStore.head_block (lg_store l);
    parent_state ← BlockStore.state_at (lg_store l) (block_hash parent);
    Some (produce_block (pr_producer t) (tick_params t parent (lg_pool l)) parent_state).2.

Definition produced_notices (block : Block) (outcome : InsertOutcome) (n : Node) : Node :=
  let n := if io_head_changed outcome
           then announce (new_logs block) (announce (new_head block) n) else n in
  let n := metric (IvoryMetrics.set_head (number (header block)) (timestamp (header block))) n in
  set_pending_metric n.

(** The [Ok] arm of the import of the produced block. *)
Definition settle_produced (block : Block) (outcome : InsertOutcome) (n : Node) : Node :=
  net (broadcast_block block) (prune_store (persist_block block (produced_notices block outcome n))).

(** [elapsed] is what the clock says the production took. *)
Definition tick (t : ProducerTask) (elapsed : SpecFloat.spec_float) (n : Node) : Node :=
  match tick_block t (nd_ledger n) with
  | None | Some (Err _) => n
  | Some (Ok block) =>
      let n := metric IvoryMetrics.inc_blocks_produced
                 (metric (IvoryMetrics.observe_produce_seconds elapsed) n) in
      match import_and_apply block (nd_ledger n) with
      | (l, Ok outcome) => settle_produced block outcome (set_ledger l n)
      | (l, Err _) => set_ledger l n
      end
  end.

(** ** The two RPC endpoints *)

Definition rpc_call (method : bytes) (params : value) (n : Node) : Node * result value RpcError.t :=
  let '(c, r) := handle method params (nd_ctx n) in (on_ctx (fun _ => c) n, r).
(** The read-only endpoint answers on a clone of the context with its own
    allowlist; everything else in it is shared. *)
Definition rpc_read_call (method : bytes) (params : value) (n : Node) : Node * result value RpcError.t :=
  let '(c, r) := handle method params (with_allow_methods (Some READ_ONLY_METHODS) (nd_ctx n)) in
  (on_ctx (fun _ => with_allow_methods (cx_allow_methods (nd_ctx n)) c) n, r).

(** The network task updates the counter that the handle and the RPC share. *)
Definition peers_changed (k : Z) (n : Node) : Node :=
  on_ctx (fun c =>
    mkRpcContext (cx_ledger c) (cx_chain_id c) (cx_on_tx c)
      (mkNetworkHandle (nh_queue (cx_world c)) (nh_stopped (cx_world c)) k)
      (cx_role c) (cx_address c) (cx_peer_id c) k (cx_bootstrap c) (cx_contract_lookup c)
      (cx_events c) (cx_metrics c) (cx_allow_methods c)) n.
End Node.

#[export] Instance hashmap_list : HashMapIter := {| hash_values A m := map_to_list m |}.
#[export] Instance hashmap_list_laws : HashMapIterLaws.
Proof. done. Qed.
