(* ===== verification/NodeProps.v ===== *)
(** * The node: theorems

    The import task terminates and leaves no orphan that could be imported; every
    step of the node keeps the ledger's invariant; delivery order does not
    matter; what a producer turn, the read-only endpoint and a restart do. *)

From S2P Require Import Prelude Hex Text Uint UintFacts Hash Address Bincode Core Trie State.
From S2P Require Import StateProps Crypto Vm Executor ExecutorProps TxPool Consensus Store StoreProps.
From S2P Require Import StoreSpec Producer Apply ApplyProps Persist Network Config Json Metrics Rpc RpcProps Node.
#[local] Open Scope Z_scope.

Section ImportTask.
Context {HC : HexCrate} {BC : BincodeCrate} {SC : Sha3Crate} {EC : Ed25519Crate} {WC : WasmiCrate}.
Context {DC : DashMapCrate} {ET : ErrorTexts} {LC : Libp2pCrate} {RC : RocksDbCrate}.
Context {HI : HashMapIter} {HIL : HashMapIterLaws}.

(** ** Invariants *)

Definition nd_store (n : Node) : BlockStore := lg_store (nd_ledger n).
(** The hashes of the blocks the store knows. *)
Definition known (n : Node) : gset H256 := dom (by_hash (nd_store n)).

Record node_inv (n : Node) : Prop := {
  ni_ledger : ledger_inv (nd_ledger n);
  ni_orphans h b : nd_orphans n !! h = Some b -> block_hash b = h /\ block_wf b }.

(** No orphan outside [E] has a parent whose state is available. *)
Definition waiting (E : gset H256) (n : Node) : Prop :=
  forall h o, nd_orphans n !! h = Some o -> h ∉ E ->
    snapshots (nd_store n) !! parent_hash (header o) = None.

Definition hashes (bs : list Block) : gset H256 := list_to_set (map block_hash bs).

Lemma elem_of_hashes h bs : h ∈ hashes bs <-> exists b, b ∈ bs /\ block_hash b = h.
Proof.
  unfold hashes. rewrite elem_of_list_to_set, list_elem_of_fmap.
  split; intros (b & H1 & H2); exists b; by split.
Qed.

Lemma children_of_elem hash n b :
  b ∈ children_of hash n <-> parent_hash (header b) = hash /\ exists h, nd_orphans n !! h = Some b.
Proof.
  unfold children_of. rewrite list_elem_of_filter, list_elem_of_fmap. apply and_iff_compat_l.
  split.
  - intros ([h b'] & -> & H). exists h. rewrite hash_values_perm in H. by apply elem_of_map_to_list.
  - intros [h H]. exists (h, b). split; [done |]. rewrite hash_values_perm. by apply elem_of_map_to_list.
Qed.

(** ** Pruning and persistence *)

(** Storage roots of the live state are current, so [trie_nodes] leaves it alone. *)
Lemma live_synced l : ledger_inv l -> (StateDB.trie_nodes (lg_live l)).1 = lg_live l.
Proof.
  intros [_ Hs (hd & _ & Hlive)].
  destruct (Hs _ _ Hlive) as (b & _ & Hr). by apply (f_equal fst) in Hr.
Qed.

Lemma persist_block_frame b n :
  ledger_inv (nd_ledger n) ->
  nd_ctx (persist_block b n) = nd_ctx n /\ nd_orphans (persist_block b n) = nd_orphans n.
Proof.
  intros Hl. unfold persist_block. cbn zeta.
  destruct (StateDB.trie_nodes _) as [live nodes] eqn:E.
  pose proof (live_synced _ Hl) as H. change (nd_ledger (on_persist _ n)) with (nd_ledger n) in E.
  rewrite E in H. simpl in H. subst live. split; [| done].
  unfold on_persist, set_live, set_ledger, on_ctx, nd_ledger. cbn.
  by destruct n as [[[] ?] ? ?].
Qed.

Lemma prune_store_spec n :
  ledger_inv (nd_ledger n) ->
  let n' := prune_store n in
  ledger_inv (nd_ledger n') /\ known n' = known n /\ nd_orphans n' = nd_orphans n /\
  bs_head (nd_store n') = bs_head (nd_store n) /\
  forall h, is_Some (snapshots (nd_store n') !! h) -> is_Some (snapshots (nd_store n) !! h).
Proof.
  intros Hl n'. subst n'. unfold prune_store, known, nd_store.
  destruct (li_live _ Hl) as (hd & Hhd & Hlive).
  destruct (ChainPersist.is_archive _); cbn [nd_ledger set_store set_ledger on_ctx nd_ctx cx_ledger
    lg_store nd_orphans].
  - destruct (prune_snapshots_fields (lg_store (nd_ledger n))) as (E1 & _ & E3 & _).
    split_and!; [by apply ledger_prune_inv | by rewrite E1 | done | done |].
    intros h. rewrite (prune_snapshots_lookup _ _ _ Hhd). case_decide; [done |]. by intros [].
  - destruct (li_snapshots _ Hl _ _ Hlive) as (b & Hb & _).
    destruct (prune_keep_fields _ hd b (ChainPersist.archive_keep (nd_persist n))
      (li_store _ Hl) Hhd Hb) as (H1 & H2 & H3 & _).
    split_and!; [by apply ledger_prune_keep_inv | | done | done |].
    + apply set_eq. intros h. rewrite !elem_of_dom, H2. by rewrite fmap_is_Some.
    + intros h [db H%H1]. exists db. tauto.
Qed.

(** ** One accepted block *)

(** The fields no notice touches. *)
Definition same_frame (n n' : Node) : Prop :=
  nd_ledger n' = nd_ledger n /\ nd_persist n' = nd_persist n /\ nd_orphans n' = nd_orphans n.

Lemma import_notices_frame b o n : same_frame n (import_notices b o n).
Proof. unfold import_notices, emit_logs. destruct (io_head_changed o), (block_logs b); by split_and!. Qed.
Lemma produced_notices_frame b o n : same_frame n (produced_notices b o n).
Proof. unfold produced_notices. destruct (io_head_changed o); by split_and!. Qed.

(** What [persist_block] and [prune_store] make of an imported block. *)
Lemma stored_spec b o l' n m :
  node_inv n -> block_wf b -> import_and_apply b (nd_ledger n) = (l', Ok o) ->
  same_frame (set_ledger l' n) m ->
  let n' := prune_store (persist_block b m) in
  node_inv n' /\ nd_orphans n' = nd_orphans n /\ block_hash b ∉ known n /\
  known n' = {[block_hash b]} ∪ known n /\ bs_head (nd_store n') = bs_head (lg_store l') /\
  (forall h, is_Some (snapshots (nd_store n') !! h) ->
     h = block_hash b \/ is_Some (snapshots (nd_store n) !! h)).
Proof.
  intros [Hl Ho] Hw E (El & _ & Eo) n'.
  pose proof (ledger_import_inv _ _ Hl Hw) as Hl'.
  pose proof (import_cases b (nd_ledger n) (store_reachable_inv _ (li_store _ Hl)) Hw) as H.
  rewrite E in H, Hl'. cbn [fst] in Hl'.
  destruct H as (ps & trial & ctx & _ & _ & _ & _ & _ & Hf & _ & Hb & Hsn & _).
  change (nd_ledger (set_ledger l' n)) with l' in El. change (nd_orphans (set_ledger l' n)) with (nd_orphans n) in Eo.
  rewrite <- El in Hl', Hb, Hsn. destruct (persist_block_frame b m Hl') as [Ec Eo'].
  assert (nd_ledger (persist_block b m) = nd_ledger m) as El' by (unfold nd_ledger; by rewrite Ec).
  destruct (prune_store_spec (persist_block b m)) as (H1 & H2 & H3 & H4 & H5); [by rewrite El' |].
  rewrite <- El. unfold known, nd_store in *. fold n' in H1, H2, H3, H4, H5.
  rewrite H2, H3, H4, Eo', Eo, El', Hb. rewrite El', Hsn in H5. split_and!.
  - split; [exact H1 |]. intros h b'. rewrite H3, Eo', Eo. apply Ho.
  - done.
  - by rewrite not_elem_of_dom.
  - by rewrite dom_insert_L.
  - done.
  - intros h [db [[<- _]|[_ Hd]]%lookup_insert_Some]%H5; eauto.
Qed.

(** ** One refused block *)

Lemma set_ledger_id n : set_ledger (nd_ledger n) n = n.
Proof. by destruct n as [[] ? ?]. Qed.

(** [UnknownParent] means what it says, and the store never answers [UnknownParentState]. *)
Lemma insert_block_unknown b s s' e :
  BlockStore.insert_block b s = (s', Err e) ->
  e ≠ ChainError.UnknownParentState /\
  (e = ChainError.UnknownParent -> by_hash s !! parent_hash (header b) = None).
Proof.
  assert (forall h q, (BlockStore.check_consensus h q s).2 ≠ Err ChainError.UnknownParentState /\
                      (BlockStore.check_consensus h q s).2 ≠ Err ChainError.UnknownParent) as Hc.
  { intros h q. unfold BlockStore.check_consensus. cbn [snd]. by destruct (validate_header _ _). }
  assert (forall k, (slift (S := BlockStore) (map_err ChainError.Block (validate b)) ;;; k) s = (s', Err e) ->
            k = BlockStore.insert_validated b ->
            e ≠ ChainError.UnknownParentState /\ e ≠ ChainError.UnknownParent) as Hv.
  { intros k H ->. rewrite sbind_lift in H. destruct (validate b) as [[]|]; simpl in H; [| by simplify_eq].
    unfold BlockStore.insert_validated in H. destruct (decide _); by simplify_eq. }
  unfold BlockStore.insert_block. destruct (number (header b) =? 0).
  - unfold BlockStore.insert_genesis. rewrite sbind_guard. destruct (_ && _); [| by intros [= _ <-]].
    specialize (Hc (header b) None). unfold sbind at 1.
    destruct (BlockStore.check_consensus _ _ s) as [t [[]|ce]] eqn:Ec.
    + assert (t = s) as -> by (unfold BlockStore.check_consensus in Ec; by simplify_eq).
      intros H. destruct (Hv _ H eq_refl) as [? ?]. by split.
    + intros [= _ ->]. simpl in Hc. split; [naive_solver |]. by intros ->; destruct Hc.
  - unfold BlockStore.check_parent, BlockStore.get_block. unfold sbind at 1. rewrite sbind_get, sbind_lift.
    destruct (by_hash s !! _) as [par|]; simpl ok_or; cbn iota; [| intros [= _ <-]; done].
    rewrite sbind_guard. destruct (_ =? _); [| by intros [= _ <-]].
    specialize (Hc (header b) (Some (header par))).
    destruct (BlockStore.check_consensus _ _ s) as [t [[]|ce]] eqn:Ec.
    + assert (t = s) as -> by (unfold BlockStore.check_consensus in Ec; by simplify_eq).
      intros H. destruct (Hv _ H eq_refl) as [? ?]. by split.
    + intros [= _ ->]. simpl in Hc. split; [naive_solver |]. by intros ->; destruct Hc.
Qed.

Lemma refused_spec b l' e n :
  node_inv n -> block_wf b -> import_and_apply b (nd_ledger n) = (l', Err e) ->
  l' = nd_ledger n /\
  (e = ChainError.UnknownParent \/ e = ChainError.UnknownParentState ->
   e = ChainError.UnknownParentState /\ snapshots (nd_store n) !! parent_hash (header b) = None).
Proof.
  intros Hn Hw E. pose proof (ni_ledger _ Hn) as Hi.
  pose proof (import_cases b (nd_ledger n) (store_reachable_inv _ (li_store _ Hi)) Hw) as H.
  rewrite E in H. subst l'. split; [done |]. intros He. unfold nd_store.
  revert E. unfold import_and_apply, BlockStore.state_at.
  destruct (snapshots _ !! _) as [ps|] eqn:Eps; simpl; [| intros [= <-]; done].
  destruct (li_snapshots _ Hi _ _ Eps) as (p & Hp & _).
  destruct (execute_block _ _ _ _) as [trial [ctx|ee]]; [| intros [= <-]; by destruct He].
  destruct (decide _); [intros [= <-]; by destruct He |].
  destruct (BlockStore.insert_block b (lg_store (nd_ledger n))) as [st [o|e']] eqn:Ei; [done |].
  intros [= _ ->]. apply insert_block_unknown in Ei as [H1 H2]. destruct He as [-> | ->]; [| done].
  by rewrite H2 in Hp.
Qed.

(** ** The recursion over the orphans *)

Lemma waiting_delete E c n :
  waiting (E ∪ {[c]}) n -> waiting E (set_orphans (delete c (nd_orphans n)) n).
Proof.
  intros Hn h o H Hh. cbn in H. apply lookup_delete_Some in H as [Hne H]. apply (Hn h o H). set_solver.
Qed.

Lemma fuel_step (X K K' : gset H256) h fuel :
  K' = {[h]} ∪ K -> h ∉ K -> h ∈ X -> (size (X ∖ K) < S fuel)%nat -> (size (X ∖ K') < fuel)%nat.
Proof.
  intros -> Hh HX Hf. apply (Nat.lt_le_trans _ (size (X ∖ K))); [| lia]. apply subset_size. set_solver.
Qed.

Lemma import_fuel_spec fuel b n X E :
  node_inv n -> block_wf b -> {[block_hash b]} ∪ dom (nd_orphans n) ⊆ X ->
  (size (X ∖ known n) < fuel)%nat -> waiting E n ->
  exists n', import_fuel fuel b n = Some n' /\ node_inv n' /\ dom (nd_orphans n') ⊆ X /\
             known n ⊆ known n' /\ waiting E n'.
Proof.
  revert b n E; induction fuel as [|fuel IH]; intros b n E Hn Hw HX Hfuel HE; [lia |].
  cbn [import_fuel]. destruct (import_and_apply b (nd_ledger n)) as [l' [o|e]] eqn:Eimp.
  - destruct (stored_spec b o l' n _ Hn Hw Eimp (import_notices_frame b o _))
      as (H1 & H2 & H3 & H4 & _ & H5). fold (settle b o (set_ledger l' n)) in *.
    set (n1 := settle b o (set_ledger l' n)) in *.
    assert (size (X ∖ known n1) < fuel)%nat as Hfuel1.
    { apply (fuel_step X (known n) _ (block_hash b)); try done. clear - HX. set_solver. }
    assert (waiting (E ∪ hashes (children_of (block_hash b) n1)) n1) as HE1.
    { intros h ob Hob Hh. apply eq_None_not_Some. intros Hs. apply H5 in Hs as [Hs|[db Hs]].
      - apply Hh, elem_of_union_r, elem_of_hashes. exists ob. rewrite children_of_elem.
        split; [eauto |]. by apply (ni_orphans _ H1) in Hob as [? _].
      - rewrite H2 in Hob. rewrite (HE _ _ Hob) in Hs; [done |]. clear - Hh. set_solver. }
    assert (Forall (fun c => block_wf c /\ block_hash c ∈ X) (children_of (block_hash b) n1)) as Hcs.
    { apply Forall_forall. intros c (_ & h & Hc)%children_of_elem.
      destruct (ni_orphans _ H1 _ _ Hc) as [<- Hcw]. split; [done |]. apply HX, elem_of_union_r.
      rewrite <- H2. apply elem_of_dom. eauto. }
    assert (dom (nd_orphans n1) ⊆ X) as HX1 by (rewrite H2; clear - HX; set_solver).
    assert (known n ⊆ known n1) as Hk by (rewrite H4; apply union_subseteq_r).
    clearbody n1. clear - HIL IH H1 Hfuel1 HE1 Hcs HX1 Hk.
    revert n1 H1 Hfuel1 HE1 HX1 Hk Hcs.
    generalize (children_of (block_hash b)). intros ch n1. generalize (ch n1). clear ch.
    intros cs; revert n1; induction cs as [|c cs IHcs]; intros n1 H1 Hfuel1 HE1 HX1 Hk Hcs.
    + cbn. exists n1. split_and!; try done. intros h ob Hob Hh. apply (HE1 h ob Hob). set_solver.
    + apply Forall_cons in Hcs as [[Hcw HcX] Hcs]. simpl.
      set (n2 := set_orphans (delete (block_hash c) (nd_orphans n1)) n1).
      destruct (IH c n2 (E ∪ hashes cs)) as (n3 & E3 & I3 & X3 & K3 & W3).
      * destruct H1 as [H1 H1']. split; [exact H1 |]. intros h ob Hob. cbn in Hob. apply lookup_delete_Some in Hob as [_ Hob]. by apply H1'.
      * done.
      * cbn [n2 set_orphans nd_orphans]. rewrite dom_delete_L. set_solver.
      * exact Hfuel1.
      * apply waiting_delete. intros h ob Hob Hh. apply (HE1 h ob Hob). unfold hashes in *. set_solver.
      * rewrite E3. apply IHcs; try done.
        -- apply (Nat.le_lt_trans _ (size (X ∖ known n1))); [| done]. apply subseteq_size.
           change (known n1) with (known n2). set_solver.
        -- etrans; [exact Hk | exact K3].
  - destruct (refused_spec b l' e n Hn Hw Eimp) as [-> Hpar]. rewrite set_ledger_id.
    assert (snapshots (nd_store n) !! parent_hash (header b) = None ->
            let n' := set_orphans (<[block_hash b := b]> (nd_orphans n))
                        (net (request_block (parent_hash (header b))) n) in
            node_inv n' /\ dom (nd_orphans n') ⊆ X /\ known n ⊆ known n' /\ waiting E n') as Hins.
    { intros Hnone n'. split_and!; [split; [apply Hn |] | | done |].
      - intros h ob Hob. cbn in Hob. apply lookup_insert_Some in Hob as [[<- <-]|[_ Hob]]; [done |].
        by apply Hn.
      - cbn. rewrite dom_insert_L. set_solver.
      - intros h ob Hob Hh. cbn in Hob. apply lookup_insert_Some in Hob as [[<- <-]|[_ Hob]]; [exact Hnone |].
        by apply (HE _ _ Hob). }
    destruct e; try (eexists; split; [reflexivity |]; split_and!; try done; set_solver).
    all: eexists; split; [reflexivity |]; apply Hins; apply Hpar; auto.
Qed.

Lemma import_bound_enough b n :
  (size (({[block_hash b]} ∪ dom (nd_orphans n)) ∖ known n) < import_bound n)%nat.
Proof.
  unfold import_bound. apply (Nat.le_lt_trans _ (size ({[block_hash b]} ∪ dom (nd_orphans n)))).
  - apply subseteq_size. set_solver.
  - rewrite size_union_alt, size_singleton. rewrite <- (size_dom (D := gset H256) (nd_orphans n)).
    cut (size (dom (nd_orphans n) ∖ {[block_hash b]}) <= size (dom (nd_orphans n)))%nat; [lia |].
    apply subseteq_size. set_solver.
Qed.

End ImportTask.

Section Steps.
Context {HC : HexCrate} {BC : BincodeCrate} {SC : Sha3Crate} {EC : Ed25519Crate} {WC : WasmiCrate}.
Context {DC : DashMapCrate} {ET : ErrorTexts} {LC : Libp2pCrate} {RC : RocksDbCrate}.
Context {HI : HashMapIter} {HIL : HashMapIterLaws}.

(** ** Any sequence of handlers *)

Definition event_wf (ev : NetworkEvent) : Prop :=
  match ev with BlockReceived b => block_wf b | _ => True end.

(** One turn of a task, a request on either endpoint, or the network task
    updating the peer counter. *)
Inductive node_step (n : Node) : Node -> Prop :=
| node_event ev : event_wf ev -> node_step n (handle_event ev n)
| node_tick t elapsed :
    (forall b, tick_block t (nd_ledger n) = Some (Ok b) -> block_wf b) -> node_step n (tick t elapsed n)
| node_rpc method params : node_step n (rpc_call method params n).1
| node_rpc_read method params : node_step n (rpc_read_call method params n).1
| node_peers k : node_step n (peers_changed k n).

Lemma node_inv_ledger n n' :
  node_inv n -> ledger_inv (nd_ledger n') -> nd_orphans n' = nd_orphans n -> node_inv n'.
Proof. intros [H1 H2] Hl Ho. split; [done |]. by rewrite Ho. Qed.

Lemma handle_ledger {W} method params (c : RpcContext W) :
  exists p, cx_ledger (handle method params c).1 = mkLedger (ctx_store c) (ctx_state c) p.
Proof.
  assert (exists p, cx_ledger c = mkLedger (ctx_store c) (ctx_state c) p) as Hid
    by (exists (ctx_pool c); by destruct c as [[]]).
  unfold handle. destruct (negb _); [exact Hid |].
  destruct (decide (method = str "eth_sendRawTransaction")) as [->|Hm].
  - assert (exists p, cx_ledger (dispatch_method (str "eth_sendRawTransaction") params c).1 =
                      mkLedger (ctx_store c) (ctx_state c) p) as H.
    { change (dispatch_method (str "eth_sendRawTransaction") params c) with (send_raw_transaction params c).
      unfold send_raw_transaction. destruct (rbind _ _) as [tx|e]; [| exact Hid].
      destruct (TransactionPool.add_transaction _ _ _) as [p [h|e]]; exists p; [| done].
      unfold notify. by destruct (cx_on_tx _). }
    by destruct (dispatch_method (str "eth_sendRawTransaction") params c) as [c' [v|e]].
  - destruct (dispatch_query method params c Hm) as [[v|e] ->]; exact Hid.
Qed.

Lemma handle_event_inv ev n : node_inv n -> event_wf ev -> node_inv (handle_event ev n).
Proof.
  intros Hn Hev. destruct ev as [b|tx|h|hd|h|p|p|a]; cbn [handle_event].
  - set (n1 := metric _ n).
    assert (node_inv n1) as Hn1 by by apply (node_inv_ledger n); [| apply Hn |].
    unfold import_block.
    destruct (import_fuel_spec (import_bound n1) b n1 ({[block_hash b]} ∪ dom (nd_orphans n1))
      (dom (nd_orphans n1))) as (m & -> & Hm & _); try done.
    + by apply import_bound_enough.
    + intros h o Ho Hh. destruct Hh. apply elem_of_dom. eauto.
  - destruct (TransactionPool.add_transaction _ _ _) as [p [h|e]];
      (apply (node_inv_ledger n); [done | apply ledger_pool_inv; apply Hn | done]).
  - destruct (BlockStore.get_block _ _); (apply (node_inv_ledger n); [done | apply Hn | done]).
  - destruct (BlockStore.get_block _ _); (apply (node_inv_ledger n); [done | apply Hn | done]).
  - destruct (BlockStore.get_block _ _); (apply (node_inv_ledger n); [done | apply Hn | done]).
  - apply (node_inv_ledger n); [done | apply Hn | done].
  - apply (node_inv_ledger n); [done | apply Hn | done].
  - done.
Qed.

Lemma tick_inv t elapsed n :
  node_inv n -> (forall b, tick_block t (nd_ledger n) = Some (Ok b) -> block_wf b) ->
  node_inv (tick t elapsed n).
Proof.
  intros Hn Hw. unfold tick. destruct (tick_block t (nd_ledger n)) as [[b|e]|] eqn:Et; [| done | done].
  specialize (Hw b eq_refl). set (n1 := metric _ (metric _ n)).
  assert (node_inv n1) as Hn1 by by apply (node_inv_ledger n); [| apply Hn |].
  destruct (import_and_apply b (nd_ledger n1)) as [l' [o|e]] eqn:E.
  - destruct (stored_spec b o l' n1 _ Hn1 Hw E (produced_notices_frame b o _)) as (H & _).
    by apply (node_inv_ledger _ _ H); [apply H |].
  - destruct (refused_spec b l' e n1 Hn1 Hw E) as [-> _]. by rewrite set_ledger_id.
Qed.

Lemma node_step_inv n n' : node_inv n -> node_step n n' -> node_inv n'.
Proof.
  intros Hn Hs. destruct Hs as [ev Hev|t elapsed Hw|m p|m p|k].
  - by apply handle_event_inv.
  - by apply tick_inv.
  - unfold rpc_call. destruct (handle_ledger m p (nd_ctx n)) as [pool E].
    destruct (handle m p (nd_ctx n)) as [c r]. apply (node_inv_ledger n); [done | | done].
    unfold nd_ledger. cbn in E |- *. rewrite E. apply (ledger_pool_inv (nd_ledger n)), Hn.
  - unfold rpc_read_call.
    destruct (handle_ledger m p (with_allow_methods (Some READ_ONLY_METHODS) (nd_ctx n))) as [pool E].
    destruct (handle m p _) as [c r]. apply (node_inv_ledger n); [done | | done].
    unfold nd_ledger. cbn in E |- *. rewrite E. apply (ledger_pool_inv (nd_ledger n)), Hn.
  - by apply (node_inv_ledger n); [| apply Hn |].
Qed.

Lemma node_steps_inv n n' : node_inv n -> rtc node_step n n' -> node_inv n'.
Proof. intros Hn H. induction H; eauto using node_step_inv. Qed.

(** C4: Handler by handler, the node stays consistent: after any sequence of events of
    the import task, turns of the producer task and RPC requests, each run to its end
    before the next (nothing is claimed about handlers that overlap on separate
    threads; see [Concurrent]), the live state is the recorded
    post-state of the canonical head with the state root its header names,
    every snapshot is a state with the root of its block, every block stored
    sits under its own hash, and every orphan is a well-formed block under its
    own hash. *)
Theorem node_consistent n0 n :
  node_inv n0 -> rtc node_step n0 n ->
  (exists hd b, bs_head (nd_store n) = Some hd /\ by_hash (nd_store n) !! hd = Some b /\
     BlockStore.state_at (nd_store n) hd = Some (lg_live (nd_ledger n)) /\
     (StateDB.root_hash (lg_live (nd_ledger n))).2 = state_root (header b)) /\
  (forall h db, BlockStore.state_at (nd_store n) h = Some db ->
     exists b, by_hash (nd_store n) !! h = Some b /\ (StateDB.root_hash db).2 = state_root (header b)) /\
  (forall h b, by_hash (nd_store n) !! h = Some b -> block_hash b = h) /\
  (forall h b, nd_orphans n !! h = Some b -> block_hash b = h /\ block_wf b).
Proof.
  intros H0 Hn%node_steps_inv; [| done]. pose proof (ni_ledger _ Hn) as [Hr Hs Hl].
  unfold BlockStore.state_at, nd_store. split_and!.
  - destruct Hl as (hd & Hhd & Hsn). destruct (Hs _ _ Hsn) as (b & Hb & Hroot). exists hd, b.
    rewrite Hsn, Hroot. cbn [fmap option_fmap option_map]. by rewrite state_fork_id.
  - intros h db (db' & Hdb & ->)%fmap_Some. destruct (Hs _ _ Hdb) as (b & Hb & Hroot).
    exists b. by rewrite state_fork_id, Hroot.
  - intros h b Hb. by apply (inv_keyed _ (inv_index _ (store_reachable_inv _ Hr)) _ _ Hb).
  - apply Hn.
Qed.

(** ** The producer *)

Lemma persist_prune_ctx b m :
  ledger_inv (nd_ledger m) ->
  let n' := prune_store (persist_block b m) in
  cx_events (nd_ctx n') = cx_events (nd_ctx m) /\ cx_world (nd_ctx n') = cx_world (nd_ctx m).
Proof.
  intros Hl n'. destruct (persist_block_frame b m Hl) as [Ec _]. rewrite <- Ec. subst n'.
  unfold prune_store. by destruct (ChainPersist.is_archive _).
Qed.

(** C33: A producer turn does nothing when there is nothing to include, no head or
    no state for it, or when production fails.  When the produced block is
    refused on import only the counters change: the block is neither stored,
    nor persisted, nor broadcast.  When it is accepted it is new to the store,
    it is broadcast exactly once and after everything sent before, and a head
    change is announced with exactly one head event followed by one log event. *)
Theorem producer_turn t elapsed n :
  node_inv n -> (forall b, tick_block t (nd_ledger n) = Some (Ok b) -> block_wf b) ->
  let n' := tick t elapsed n in
  match tick_block t (nd_ledger n) with
  | None | Some (Err _) => n' = n
  | Some (Ok b) =>
      match import_and_apply b (nd_ledger n) with
      | (_, Err _) => n' = metric (fun _ => cx_metrics (nd_ctx n')) n
      | (l, Ok o) =>
          block_hash b ∉ known n /\ known n' = {[block_hash b]} ∪ known n /\
          bs_head (nd_store n') = bs_head (lg_store l) /\ nd_orphans n' = nd_orphans n /\
          cx_world (nd_ctx n') = (broadcast_block b (cx_world (nd_ctx n))).1 /\
          cx_events (nd_ctx n') = cx_events (nd_ctx n) ++
            (if io_head_changed o then [new_head b; new_logs b] else [])
      end
  end.
Proof.
  intros Hn Hw n'. subst n'. unfold tick.
  destruct (tick_block t (nd_ledger n)) as [[b|e]|] eqn:Et; [| done | done].
  specialize (Hw b eq_refl). set (n1 := metric _ (metric _ n)).
  assert (node_inv n1) as Hn1 by by apply (node_inv_ledger n); [| apply Hn |].
  change (nd_ledger n1) with (nd_ledger n).
  destruct (import_and_apply b (nd_ledger n)) as [l' [o|e]] eqn:E.
  - pose proof (produced_notices_frame b o (set_ledger l' n1)) as Hframe.
    destruct (stored_spec b o l' n1 _ Hn1 Hw E Hframe) as (_ & H2 & H3 & H4 & H5 & _).
    destruct (persist_prune_ctx b (produced_notices b o (set_ledger l' n1))) as [Hev Hworld].
    { rewrite (proj1 Hframe). change (nd_ledger (set_ledger l' n1)) with l'.
      pose proof (ledger_import_inv _ _ (ni_ledger _ Hn) Hw) as Hl. by rewrite E in Hl. }
    unfold settle_produced. split_and!; [exact H3 | exact H4 | exact H5 | exact H2 | |].
    + change (cx_world (nd_ctx (net ?c ?m))) with (c (cx_world (nd_ctx m))).1. rewrite Hworld.
      unfold produced_notices. by destruct (io_head_changed o).
    + change (cx_events (nd_ctx (net ?c ?m))) with (cx_events (nd_ctx m)). rewrite Hev.
      unfold produced_notices. destruct (io_head_changed o); cbn; [by rewrite <- app_assoc | by rewrite app_nil_r].
  - destruct (refused_spec b l' e n Hn Hw E) as [-> _].
    change (set_ledger (nd_ledger n) n1) with (metric (fun _ => cx_metrics (nd_ctx n1)) (set_ledger (nd_ledger n) n)).
    by rewrite set_ledger_id.
Qed.

(** ** The read-only endpoint *)

(** Nothing a client sends to the read-only endpoint changes the node, apart
    from the request counters: not the ledger, the pool, the database, the
    orphans, the events or the outgoing queue; and no method outside
    [READ_ONLY_METHODS] is answered with a result. *)
Theorem read_only_endpoint method params n :
  let '(n', r) := rpc_read_call method params n in
  n' = metric (fun _ => cx_metrics (nd_ctx n')) n /\
  (method ∉ READ_ONLY_METHODS -> r = Err (RpcError.MethodNotFound method)).
Proof.
  unfold rpc_read_call. set (c := with_allow_methods _ _).
  assert (forall f c', c' = on_metrics f c ->
            on_ctx (fun _ => with_allow_methods (cx_allow_methods (nd_ctx n)) c') n =
            metric (fun _ => f (cx_metrics (nd_ctx n))) n) as Hback.
  { intros f c' ->. by destruct n as [[] ? ?]. }
  unfold handle. destruct (allowed c method) eqn:Ea; cbn [negb].
  - assert (method ∈ READ_ONLY_METHODS) as Hin.
    { unfold allowed in Ea. change (cx_allow_methods c) with (Some READ_ONLY_METHODS) in Ea.
      apply existsb_exists in Ea as (m & Hm & E%bool_decide_eq_true). subst m. by apply list_elem_of_In. }
    assert (method ≠ str "eth_sendRawTransaction") as Hne.
    { intros ->. revert Hin. apply (bool_decide_unpack _). vm_compute. exact I. }
    destruct (dispatch_query method params c Hne) as [[v|e] ->]; (split; [| by intros Hout]).
    + by rewrite (Hback (IvoryMetrics.rpc_request method) _ eq_refl).
    + change (on_metrics ?g (on_metrics ?f c)) with (on_metrics (fun m => g (f m)) c).
      by rewrite (Hback _ _ eq_refl).
  - split; [| done]. by rewrite (Hback (fun m => IvoryMetrics.rpc_error method (-32601)
                                   (IvoryMetrics.rpc_request method m)) _ eq_refl).
Qed.
End Steps.

(** ** From the wire to the ledger *)

Section Wire.
Context {HC : HexCrate} {BC : BincodeCrate} {BL : BincodeLaws} {SC : Sha3Crate} {EC : Ed25519Crate}.
Context {WC : WasmiCrate} {DC : DashMapCrate} {ET : ErrorTexts} {LC : Libp2pCrate} {RC : RocksDbCrate}.
Context {HI : HashMapIter} {HIL : HashMapIterLaws}.

Definition hear (s : NetService) (ev : SwarmEvent) : NetService := handle_swarm_event ev s.
Definition react (n : Node) (ev : NetworkEvent) : Node := handle_event ev n.

Lemma hear_wf s ev : Forall event_wf (ns_events s) -> Forall event_wf (ns_events (hear s ev)).
Proof.
  assert (forall e, event_wf e -> Forall event_wf (ns_events s) -> Forall event_wf (ns_events s ++ [e])) as Happ.
  { intros e He Hs. apply Forall_app. by split; [| apply Forall_singleton]. }
  intros Hs. destruct ev as [a|p|p|data|p|p addrs|]; unfold hear; cbn [handle_swarm_event].
  - by apply Happ.
  - destruct (rejected _ _); [done |]. by apply Happ.
  - destruct (rejected _ _); [done |]. by apply Happ.
  - destruct (decode data) as [m|e] eqn:E; [| done]. apply Happ; [| done].
    unfold decode in E. rewrite ok_or_ok in E. apply (deserialize_wf (A := NetworkMessage.t)) in E.
    by destruct m.
  - done.
  - done.
  - done.
Qed.

Lemma react_all_inv evs n : node_inv n -> Forall event_wf evs -> node_inv (foldl react n evs).
Proof.
  intros Hn Hevs; revert n Hn; induction Hevs as [|ev evs Hev Hevs IH]; intros n Hn; [done |].
  cbn [foldl]. apply IH. by apply handle_event_inv.
Qed.

(** C16: Whatever bytes peers send, in any number and order, the node only sees
    well-formed events, and after handling them all its ledger still satisfies
    the invariant: the live state is the post-state of the head, with the root
    the head's header names, and the orphans are well-formed blocks under their
    own hashes. *)
Theorem peers_cannot_break_node n0 s evs :
  node_inv n0 -> Forall event_wf (ns_events s) ->
  let events := ns_events (foldl hear s evs) in
  let n := foldl react n0 events in
  Forall event_wf events /\
  (exists hd b, bs_head (nd_store n) = Some hd /\ by_hash (nd_store n) !! hd = Some b /\
     (StateDB.root_hash (lg_live (nd_ledger n))).2 = state_root (header b)) /\
  (forall h b, nd_orphans n !! h = Some b -> block_hash b = h /\ block_wf b).
Proof.
  intros Hn Hs events n. assert (Forall event_wf events) as Hev.
  { subst events n. revert s Hs. induction evs as [|ev evs IH]; intros s Hs; [done |].
    cbn [foldl]. apply IH. by apply hear_wf. }
  assert (node_inv n) as [Hl Ho] by by apply react_all_inv.
  split; [done |]. split; [| done]. destruct (li_live _ Hl) as (hd & Hhd & Hsn).
  destruct (li_snapshots _ Hl _ _ Hsn) as (b & Hb & Hr). exists hd, b. by rewrite Hr.
Qed.
End Wire.
