(* ===== verification/NodeOrder.v ===== *)
(** * The node: the order in which blocks arrive

    A follower that receives the blocks of a chain in any order ends where it
    would have ended had they arrived in order.  The in-order run is
    [accept_all]; the node's orphans are what has arrived ahead of it. *)

From S2P Require Import Prelude Hex Text Uint UintFacts Hash Address Bincode Core Trie State.
From S2P Require Import StateProps Crypto Vm Executor ExecutorProps TxPool Consensus Store StoreProps.
From S2P Require Import StoreSpec Producer Apply ApplyProps Persist PersistSpec Network Config Json Metrics Rpc RpcProps Node NodeProps.
#[local] Open Scope Z_scope.

Section Order.
Context {HC : HexCrate} {BC : BincodeCrate} {SC : Sha3Crate} {EC : Ed25519Crate} {WC : WasmiCrate}.
Context {DC : DashMapCrate} {ET : ErrorTexts} {LC : Libp2pCrate} {RC : RocksDbCrate}.
Context {HI : HashMapIter} {HIL : HashMapIterLaws}.

(** An import that succeeds, without looking at the orphans. *)
Definition accept (b : Block) (n : Node) : option Node :=
  match import_and_apply b (nd_ledger n) with
  | (l, Ok o) => Some (settle b o (set_ledger l n))
  | (_, Err _) => None
  end.
Fixpoint accept_all (bs : list Block) (n : Node) : option Node :=
  match bs with
  | [] => Some n
  | b :: bs => accept b n ≫= accept_all bs
  end.
Definition deliver_all (bs : list Block) (n : Node) : Node :=
  foldl (fun n b => import_block b n) n bs.

(** A node without its orphans and its outgoing queue. *)
Definition core (n : Node) : Node :=
  set_orphans ∅ (on_ctx (set_ctx_world (mkNetworkHandle [] true 0)) n).

Lemma core_ledger n m : core n = core m -> nd_ledger n = nd_ledger m.
Proof. intros H. exact (f_equal nd_ledger H). Qed.

Lemma import_notices_core b o n : import_notices b o (core n) = core (import_notices b o n).
Proof. unfold import_notices, emit_logs. by destruct (io_head_changed o), (block_logs b). Qed.
Lemma persist_block_core b n : persist_block b (core n) = core (persist_block b n).
Proof.
  unfold persist_block. cbv zeta.
  change (lg_live (nd_ledger (on_persist _ (core n)))) with (lg_live (nd_ledger n)).
  change (lg_live (nd_ledger (on_persist _ n))) with (lg_live (nd_ledger n)).
  by destruct (StateDB.trie_nodes (lg_live (nd_ledger n))).
Qed.
Lemma prune_store_core n : prune_store (core n) = core (prune_store n).
Proof.
  unfold prune_store. change (nd_persist (core n)) with (nd_persist n).
  by destruct (ChainPersist.is_archive (nd_persist n)).
Qed.

Lemma settle_core b o l n m :
  core n = core m -> core (settle b o (set_ledger l n)) = core (settle b o (set_ledger l m)).
Proof.
  assert (forall n, core (settle b o (set_ledger l n)) = settle b o (set_ledger l (core n))) as H.
  { clear. intros n. unfold settle. rewrite <- prune_store_core, <- persist_block_core.
    by rewrite <- import_notices_core. }
  intros E. by rewrite !H, E.
Qed.

Lemma accept_core b n m n' :
  core n = core m -> accept b n = Some n' -> exists m', accept b m = Some m' /\ core n' = core m'.
Proof.
  intros E. unfold accept. rewrite (core_ledger _ _ E).
  destruct (import_and_apply b (nd_ledger m)) as [l [o|e]]; [| done]. intros [= <-].
  eexists. split; [done |]. by apply settle_core.
Qed.

Lemma accept_all_snoc bs b n : accept_all (bs ++ [b]) n = accept_all bs n ≫= accept b.
Proof.
  revert n; induction bs as [|a bs IH]; intros n; simpl.
  - by destruct (accept b n).
  - destruct (accept a n) as [n'|]; simpl; [apply IH | done].
Qed.

Lemma accept_inv b n n' :
  node_inv n -> block_wf b -> accept b n = Some n' ->
  node_inv n' /\ nd_orphans n' = nd_orphans n /\ block_hash b ∉ known n /\
  known n' = {[block_hash b]} ∪ known n.
Proof.
  intros Hn Hw. unfold accept. destruct (import_and_apply b (nd_ledger n)) as [l' [o|e]] eqn:E; [| done].
  intros [= <-]. destruct (stored_spec b o l' n _ Hn Hw E (import_notices_frame b o _)) as (? & ? & ? & ? & _).
  done.
Qed.

(** ** The in-order run *)

Context (n0 last : Node) (bs : list Block).
Hypothesis Hn0 : node_inv n0.
Hypothesis Hwf : Forall block_wf bs.
Hypothesis Hrun : accept_all bs n0 = Some last.
Hypothesis Hlink : forall i b c, bs !! i = Some b -> bs !! S i = Some c -> parent_hash (header c) = block_hash b.

Lemma run_prefix k : exists m, accept_all (take k bs) n0 = Some m /\ node_inv m.
Proof.
  induction k as [|k [m [E Hm]]]; [by exists n0; rewrite take_0 |].
  destruct (bs !! k) as [b|] eqn:Eb.
  - rewrite (take_S_r _ _ _ Eb), accept_all_snoc, E. simpl.
    destruct (accept b m) as [m'|] eqn:Ea.
    + exists m'. split; [done |]. eapply accept_inv; [done | | done].
      eapply Forall_lookup_1; eauto.
    + exfalso. rewrite <- (take_drop_middle _ _ _ Eb) in Hrun.
      assert (forall l1 l2 n, accept_all (l1 ++ l2) n = accept_all l1 n ≫= accept_all l2) as Happ.
      { clear. induction l1 as [|a l1 IH]; intros l2 n; simpl; [done |]. destruct (accept a n); simpl; auto. }
      rewrite Happ, E in Hrun. simpl in Hrun. by rewrite Ea in Hrun.
  - exists m. rewrite take_ge in *; [done | | ]; apply lookup_ge_None in Eb; lia.
Qed.

Definition reached (k : nat) (m : Node) : Prop := accept_all (take k bs) n0 = Some m.

Lemma reached_inv k m : reached k m -> node_inv m.
Proof. intros H. destruct (run_prefix k) as (m' & E & ?). unfold reached in H. by simplify_eq. Qed.

Lemma run_wf k b : bs !! k = Some b -> block_wf b.
Proof. intros H. eapply Forall_lookup_1; eauto. Qed.

Lemma run_step k b m : bs !! k = Some b -> reached k m -> exists m', reached (S k) m' /\ accept b m = Some m'.
Proof.
  intros Hb Hm. destruct (run_prefix (S k)) as (m' & E & _). exists m'. split; [exact E |].
  rewrite (take_S_r _ _ _ Hb), accept_all_snoc in E. unfold reached in Hm. by rewrite Hm in E.
Qed.

Lemma run_known k j m m' : (k <= j)%nat -> reached k m -> reached j m' -> known m ⊆ known m'.
Proof.
  intros Hle Hm. revert m'. induction Hle as [|j Hle IH]; intros m' Hm'; [unfold reached in *; by simplify_eq |].
  destruct (run_prefix j) as (mj & Ej & Hj). specialize (IH _ Ej).
  destruct (bs !! j) as [b|] eqn:Eb.
  - destruct (run_step j b mj Eb Ej) as (m2 & E2 & Ea). unfold reached in *. simplify_eq.
    destruct (accept_inv _ _ _ Hj (run_wf _ _ Eb) Ea) as (_ & _ & _ & ->). etrans; [exact IH | apply union_subseteq_r].
  - apply lookup_ge_None in Eb. unfold reached in *. rewrite take_ge in Ej, Hm' by lia. by simplify_eq.
Qed.

Lemma run_fresh k j m b : (k <= j)%nat -> reached k m -> bs !! j = Some b -> block_hash b ∉ known m.
Proof.
  intros Hle Hm Hb. destruct (run_prefix j) as (mj & Ej & Hj).
  destruct (run_step j b mj Hb Ej) as (m2 & _ & Ea).
  destruct (accept_inv _ _ _ Hj (run_wf _ _ Hb) Ea) as (_ & _ & Hf & _).
  intros Hin. apply Hf. by apply (run_known k j m mj Hle Hm Ej).
Qed.

Lemma run_seen k j m b : (j < k)%nat -> reached k m -> bs !! j = Some b -> block_hash b ∈ known m.
Proof.
  intros Hlt Hm Hb. destruct (run_prefix j) as (mj & Ej & Hj).
  destruct (run_step j b mj Hb Ej) as (m2 & E2 & Ea).
  destruct (accept_inv _ _ _ Hj (run_wf _ _ Hb) Ea) as (_ & _ & _ & Hk).
  apply (run_known (S j) k m2 m ltac:(lia) E2 Hm). rewrite Hk. apply elem_of_union_l. by apply elem_of_singleton.
Qed.

Lemma run_hash_inj i j a b : bs !! i = Some a -> bs !! j = Some b -> block_hash a = block_hash b -> i = j.
Proof.
  assert (forall i j a b, (i < j)%nat -> bs !! i = Some a -> bs !! j = Some b -> block_hash a ≠ block_hash b) as H.
  { intros i' j' a' b' Hlt Ha Hb E. destruct (run_prefix j') as (mj & Ej & _).
    apply (run_fresh j' j' mj b' (le_n _) Ej Hb). rewrite <- E. by apply (run_seen j' i'). }
  intros Ha Hb E. destruct (lt_eq_lt_dec i j) as [[Hlt|]|Hlt]; [| done |].
  - by destruct (H _ _ _ _ Hlt Ha Hb).
  - by destruct (H _ _ _ _ Hlt Hb Ha).
Qed.

(** ** A node that is ahead and behind *)

(** [n] has imported the first [k] blocks; of the others those in [D] are orphans. *)
Record ahead (k : nat) (D : nat -> Prop) (n : Node) : Prop := {
  ah_core : exists m, reached k m /\ core n = core m;
  ah_inv : node_inv n;
  ah_orphans h o : nd_orphans n !! h = Some o <->
    exists i, D i /\ (k <= i)%nat /\ bs !! i = Some o /\ h = block_hash o }.

Lemma children_nodup hash n :
  (forall h b, nd_orphans n !! h = Some b -> block_hash b = h) -> NoDup (children_of hash n).
Proof.
  intros Hk. unfold children_of. apply NoDup_filter. eapply (NoDup_fmap_1 block_hash).
  assert (block_hash <$> (map snd (hash_values Block (nd_orphans n))) =
          (hash_values Block (nd_orphans n)).*1) as ->.
  { rewrite <- list_fmap_compose. apply list_fmap_ext. intros i [h b] Hi. apply list_elem_of_lookup_2 in Hi.
    rewrite hash_values_perm in Hi. apply elem_of_map_to_list in Hi. simpl. by apply Hk. }
  rewrite hash_values_perm. apply NoDup_fst_map_to_list.
Qed.

(** The children of block [k] among the orphans: the next block or nothing. *)
Lemma next_child k D n b :
  ahead (S k) D n -> bs !! k = Some b ->
  match bs !! S k with
  | Some c => (D (S k) /\ children_of (block_hash b) n = [c]) \/
              (~ D (S k) /\ children_of (block_hash b) n = [])
  | None => children_of (block_hash b) n = []
  end.
Proof.
  intros Ha Hb.
  assert (forall c, c ∈ children_of (block_hash b) n -> bs !! S k = Some c /\ D (S k)) as H.
  { intros c (Hp & h & Hc)%children_of_elem. apply (ah_orphans _ _ _ Ha) in Hc as (i & Hi & Hle & Hc & _).
    destruct i as [|i]; [lia |]. destruct (lookup_lt_is_Some_2 bs i) as [p Hpi].
    { apply lookup_lt_Some in Hc. lia. }
    rewrite (Hlink i p c Hpi Hc) in Hp. by rewrite <- (run_hash_inj _ _ _ _ Hpi Hb Hp). }
  assert (NoDup (children_of (block_hash b) n)) as Hnd.
  { apply children_nodup. intros h o Ho. by apply (ni_orphans _ (ah_inv _ _ _ Ha)). }
  destruct (children_of (block_hash b) n) as [|c cs] eqn:Ec.
  - destruct (bs !! S k) as [c|] eqn:Enext; [| done]. right. split; [| done]. intros HD.
    assert (c ∈ children_of (block_hash b) n) as Hin; [| rewrite Ec in Hin; by apply elem_of_nil in Hin].
    apply children_of_elem. split; [by eapply Hlink |]. exists (block_hash c).
    apply (ah_orphans _ _ _ Ha). by exists (S k).
  - destruct (H c) as [E HD]; [by left |]. rewrite E. left. split; [done |]. f_equal.
    destruct cs as [|c' cs]; [done |]. destruct (H c') as [E' _]; [right; by left |]. simplify_eq.
    apply NoDup_cons in Hnd as [Hnd _]. destruct Hnd. by left.
Qed.

Lemma ahead_ledger k D n : ahead k D n -> exists m, reached k m /\ nd_ledger n = nd_ledger m.
Proof. intros Ha. destruct (ah_core _ _ _ Ha) as (m & Hm & E). exists m. split; [done | by apply core_ledger]. Qed.

(** The block that was missing arrives. *)
Lemma ahead_accept k D n b :
  ahead k D n -> ~ D k -> bs !! k = Some b ->
  exists n', accept b n = Some n' /\ ahead (S k) D n' /\ nd_orphans n' = nd_orphans n.
Proof.
  intros Ha Hk Hb. destruct (ah_core _ _ _ Ha) as (m & Hm & E).
  destruct (run_step k b m Hb Hm) as (m' & Hm' & Eacc).
  destruct (accept_core b m n m' (eq_sym E) Eacc) as (n' & En & Ec).
  destruct (accept_inv _ _ _ (ah_inv _ _ _ Ha) (run_wf _ _ Hb) En) as (Hn' & Ho & _).
  exists n'. split_and!; try done. split; [by exists m' | done |]. intros h o. rewrite Ho, (ah_orphans _ _ _ Ha).
  split; intros (i & Hi & Hle & Hr); exists i; (split_and!; [done | | apply Hr | apply Hr]); [| lia].
  destruct (decide (i = k)) as [->|]; [done | lia].
Qed.

Lemma ahead_take k (D : nat -> Prop) n c :
  ahead k D n -> bs !! k = Some c -> D k ->
  ahead k (fun i => D i /\ i ≠ k) (set_orphans (delete (block_hash c) (nd_orphans n)) n) /\
  (size (delete (block_hash c) (nd_orphans n)) < size (nd_orphans n))%nat.
Proof.
  intros Ha Hc HD.
  assert (nd_orphans n !! block_hash c = Some c) as Hin by (apply (ah_orphans _ _ _ Ha); by exists k).
  split.
  - split; [apply (ah_core _ _ _ Ha) | |].
    + split; [apply (ah_inv _ _ _ Ha) |]. intros h o Ho. cbn in Ho. apply lookup_delete_Some in Ho as [_ Ho].
      by apply (ah_inv _ _ _ Ha).
    + intros h o. cbn. rewrite lookup_delete_Some, (ah_orphans _ _ _ Ha). split.
      * intros [Hne (i & Hi & Hle & Ho & ->)]. exists i. split_and!; try done. intros ->. by simplify_eq.
      * intros (i & [Hi Hne] & Hle & Ho & ->). split; [| by exists i].
        intros Eh. by rewrite (run_hash_inj _ _ _ _ Hc Ho Eh) in Hne.
  - rewrite map_size_delete_Some by eauto.
    destruct (size (nd_orphans n)) eqn:Es; [| simpl; lia]. apply map_size_empty_inv in Es.
    by rewrite Es, lookup_empty in Hin.
Qed.

Lemma import_accept fuel b n n' :
  accept b n = Some n' ->
  import_fuel (S fuel) b n =
  foldl (fun acc child => n ← acc;
           import_fuel fuel child (set_orphans (delete (block_hash child) (nd_orphans n)) n))
    (Some n') (children_of (block_hash b) n').
Proof.
  unfold accept. cbn [import_fuel]. destruct (import_and_apply b (nd_ledger n)) as [l [o|e]]; [| done].
  by intros [= <-].
Qed.

(** From there the orphans that follow are imported one after the other. *)
Lemma drain fuel k (D : nat -> Prop) n b :
  ahead k D n -> ~ D k -> (forall i, D i -> is_Some (bs !! i)) -> bs !! k = Some b ->
  (size (nd_orphans n) < fuel)%nat ->
  exists n' k', import_fuel fuel b n = Some n' /\ ahead k' D n' /\ (k < k')%nat /\ ~ D k' /\
    forall i, (k < i < k')%nat -> D i.
Proof.
  revert k D n b; induction fuel as [|fuel IH]; intros k D n b Ha Hk Hrange Hb Hf; [lia |].
  destruct (ahead_accept k D n b Ha Hk Hb) as (n1 & Eacc & Ha1 & Ho1).
  rewrite (import_accept _ _ _ _ Eacc). pose proof (next_child k D n1 b Ha1 Hb) as Hnext.
  destruct (bs !! S k) as [c|] eqn:Ec; [destruct Hnext as [[HD ->]|[HD ->]] | rewrite Hnext]; cbn [foldl].
  - destruct (ahead_take (S k) D n1 c Ha1 Ec HD) as [Ha2 Hsize].
    destruct (IH (S k) _ _ c Ha2) as (n' & k' & E & Ha' & Hlt & HD' & Hbetween); [tauto | | done | |].
    { intros i [Hi _]. by apply Hrange. }
    { cbn [nd_orphans set_orphans]. rewrite Ho1 in Hsize |- *. lia. }
    exists n', k'. split_and!; [exact E | | lia | | ].
    + destruct Ha' as [A1 A2 A3]. split; [done | done |]. intros h o. rewrite A3.
      split; intros (i & Hi & Hle & Hr); exists i; (split; [| exact (conj Hle Hr)]); [tauto |].
      split; [done | lia].
    + intros HDk. apply HD'. split; [done | lia].
    + intros i Hi. destruct (decide (i = S k)) as [->|]; [done |]. apply Hbetween. lia.
  - exists n1, (S k). split_and!; [done | done | lia | done |]. intros i Hi. lia.
  - exists n1, (S k). split_and!; [done | done | lia | |]; [| intros i Hi; lia].
    intros HD. destruct (Hrange _ HD) as [? E]. by rewrite Ec in E.
Qed.

(** A block whose parent has not arrived is kept. *)
Lemma ahead_park fuel k (D : nat -> Prop) n j b :
  ahead k D n -> bs !! j = Some b -> (k < j)%nat ->
  exists n', import_fuel (S fuel) b n = Some n' /\ ahead k (fun i => D i \/ i = j) n'.
Proof.
  intros Ha Hb Hlt. destruct (ahead_ledger _ _ _ Ha) as (m & Hm & El).
  destruct (lookup_lt_is_Some_2 bs (pred j)) as [p Hp]; [apply lookup_lt_Some in Hb; lia |].
  assert (snapshots (nd_store n) !! parent_hash (header b) = None) as Hnone.
  { rewrite (Hlink (pred j) p b Hp) by (by replace (S (pred j)) with j by lia).
    apply eq_None_not_Some. intros [db Hdb].
    destruct (li_snapshots _ (ni_ledger _ (ah_inv _ _ _ Ha)) _ _ Hdb) as (q & Hq & _).
    apply (run_fresh k (pred j) m p ltac:(lia) Hm Hp). unfold known, nd_store. rewrite <- El.
    apply elem_of_dom. eauto. }
  cbn [import_fuel]. unfold import_and_apply, BlockStore.state_at.
  unfold nd_store in Hnone. rewrite Hnone. cbn [fmap option_fmap option_map]. rewrite set_ledger_id.
  eexists. split; [reflexivity |]. destruct Ha as [A1 A2 A3]. split; [exact A1 | |].
  - split; [apply A2 |]. intros h o Ho. cbn in Ho.
    apply lookup_insert_Some in Ho as [[<- <-]|[_ Ho]]; [| by apply A2].
    split; [done | by eapply run_wf].
  - intros h o. cbn. rewrite lookup_insert_Some. split.
    + intros [[<- <-]|[_ Ho]]; [exists j; split_and!; auto; lia |].
      apply A3 in Ho as (i & Hi & Hr). exists i. auto.
    + intros (i & Hi & Hle & Ho & ->). destruct (decide (i = j)) as [->|Hne].
      { left. by simplify_eq. }
      right. split; [| apply A3; exists i; split_and!; try done; by destruct Hi].
      intros E. by rewrite (run_hash_inj _ _ _ _ Hb Ho E) in Hne.
Qed.

(** What has been delivered is imported up to the first gap and kept after it. *)
Definition delivered (d : list Block) (i : nat) : Prop := exists b, bs !! i = Some b /\ b ∈ d.

Lemma deliver_ahead d :
  NoDup d -> d ⊆ bs -> nd_orphans n0 = ∅ ->
  exists k, ahead k (delivered d) (deliver_all d n0) /\ ~ delivered d k /\
            forall i, (i < k)%nat -> delivered d i.
Proof.
  induction d as [|b d IH] using rev_ind; intros Hnd Hsub Horph.
  - exists O. split_and!; [| | lia].
    + split; [by exists n0 | done |]. intros h o. unfold deliver_all. simpl. rewrite Horph, lookup_empty.
      split; [done |]. intros (i & (b & _ & Hb) & _). by apply elem_of_nil in Hb.
    + intros (b & _ & Hb). by apply elem_of_nil in Hb.
  - apply NoDup_app in Hnd as (Hnd & Hb & _).
    destruct IH as (k & Ha & Hk & Hbelow); [done | intros x Hx; apply Hsub, elem_of_app; by left | done |].
    destruct (list_elem_of_lookup_1 bs b) as [j Hj]; [apply Hsub, elem_of_app; right; by left |].
    assert (~ delivered d j) as Hjd.
    { intros (b' & Hb' & Hin). rewrite Hj in Hb'. injection Hb' as <-. apply (Hb b Hin). by left. }
    assert (forall i, delivered (d ++ [b]) i <-> delivered d i \/ i = j) as Hd.
    { intros i. unfold delivered. setoid_rewrite elem_of_app. setoid_rewrite list_elem_of_singleton. split.
      - intros (b' & Hi & [Hin| ->]); [left; eauto |]. right. by eapply run_hash_inj.
      - intros [(b' & Hi & Hin)| ->]; eauto. }
    unfold deliver_all. rewrite foldl_app. fold (deliver_all d n0). set (n := deliver_all d n0) in *. cbn [foldl].
    unfold import_block, import_bound.
    assert (k <= j)%nat as Hle by (destruct (le_lt_dec k j); [done | by destruct Hjd; apply Hbelow]).
    destruct (decide (j = k)) as [->|Hne].
    + destruct (drain (S (S (size (nd_orphans n)))) k _ n b Ha Hk) as (n' & k' & -> & Ha' & Hlt & Hk' & Hbt);
        [| done | lia |].
      { intros i (b' & Hi & _). by exists b'. }
      exists k'. split_and!.
      * destruct Ha' as [A1 A2 A3]. split; [done | done |]. intros h o. cbn [default]. rewrite A3.
        split; intros (i & Hi & Hle' & Hr); exists i; (split; [| exact (conj Hle' Hr)]); rewrite Hd in *; [tauto |].
        destruct Hi as [Hi| ->]; [done | lia].
      * rewrite Hd. intros [?| ->]; [done | lia].
      * intros i Hi. rewrite Hd. destruct (lt_eq_lt_dec i k) as [[?| ->]|?]; [left; by apply Hbelow | by right |].
        left. apply Hbt. lia.
    + destruct (ahead_park (S (size (nd_orphans n))) k _ n j b Ha Hj ltac:(lia)) as (n' & -> & [A1 A2 A3]).
      exists k. split_and!.
      * split; [done | done |]. intros h o. cbn [default]. rewrite A3. by setoid_rewrite Hd.
      * rewrite Hd. intros [?|?]; [done | lia].
      * intros i Hi. rewrite Hd. left. by apply Hbelow.
Qed.
End Order.

Section Spec.
Context {HC : HexCrate} {BC : BincodeCrate} {SC : Sha3Crate} {EC : Ed25519Crate} {WC : WasmiCrate}.
Context {DC : DashMapCrate} {ET : ErrorTexts} {LC : Libp2pCrate} {RC : RocksDbCrate}.
Context {HI : HashMapIter} {HIL : HashMapIterLaws}.

(** C8: The order in which blocks arrive does not matter.  If importing the
    blocks of a chain in order succeeds, then a node that receives them in any
    other order ends with no orphan left and with the same ledger (store, head,
    live state, pool), the same database, the same events sent in the same order
    and the same metrics; only the requests for missing parents differ. *)
Theorem delivery_order_irrelevant n0 last bs d :
  node_inv n0 -> nd_orphans n0 = ∅ -> Forall block_wf bs -> accept_all bs n0 = Some last ->
  (forall i b c, bs !! i = Some b -> bs !! S i = Some c -> parent_hash (header c) = block_hash b) ->
  d ≡ₚ bs ->
  let n := deliver_all d n0 in
  nd_orphans n = ∅ /\ nd_ledger n = nd_ledger last /\ nd_persist n = nd_persist last /\
  cx_events (nd_ctx n) = cx_events (nd_ctx last) /\ cx_metrics (nd_ctx n) = cx_metrics (nd_ctx last).
Proof.
  intros Hn0 Horph Hwf Hrun Hlink Hperm n.
  assert (NoDup bs) as Hnd.
  { apply NoDup_alt. intros i j b Hi Hj.
    by apply (run_hash_inj n0 last bs Hn0 Hwf Hrun i j b b Hi Hj). }
  destruct (deliver_ahead n0 last bs Hn0 Hwf Hrun Hlink d) as (k & Ha & Hk & Hbelow).
  { by rewrite Hperm. }
  { intros b Hb. by rewrite <- Hperm. }
  { done. }
  fold n in Ha. assert (length bs <= k)%nat as Hle.
  { destruct (le_lt_dec (length bs) k) as [|Hlt]; [done |]. destruct Hk.
    destruct (lookup_lt_is_Some_2 bs k Hlt) as [b Hb]. exists b. split; [done |].
    rewrite Hperm. by eapply list_elem_of_lookup_2. }
  destruct (ah_core _ _ _ _ _ Ha) as (m & Hm & E). unfold reached in Hm.
  rewrite take_ge in Hm by done. rewrite Hrun in Hm. injection Hm as <-.
  split_and!.
  - apply map_empty. intros h. apply eq_None_not_Some. intros [o Ho].
    apply (ah_orphans _ _ _ _ _ Ha) in Ho as (i & _ & Hi & Hb & _). apply lookup_lt_Some in Hb. lia.
  - by apply core_ledger.
  - exact (f_equal nd_persist E).
  - exact (f_equal (fun n => cx_events (nd_ctx n)) E).
  - exact (f_equal (fun n => cx_metrics (nd_ctx n)) E).
Qed.
End Spec.

(** ** Witness: two blocks, delivered in reverse *)

Definition sample_node (archive : bool) : @Node memory_mesh memory_rocks :=
  mkNode
    (mkRpcContext fork_start 1 (Some (gossip_tx (LC := memory_mesh)))
       (mkNetworkHandle (LC := memory_mesh) [] false 0) Rpc.Follower Address.ZERO [] 0 [] None []
       IvoryMetrics.new None)
    (memory_persist archive) ∅.
Definition fork_aa : Block := sample_rooted 2 (block_hash fork_a) 12 funded_root.

Lemma sample_node_inv archive : node_inv (sample_node archive).
Proof. split; [exact (ledger_reachable_inv _ fork_start_reachable) |]. intros h b. cbn. by rewrite lookup_empty. Qed.

Lemma sample_run : exists last, accept_all [fork_a; fork_aa] (sample_node true) = Some last.
Proof.
  assert (match accept_all [fork_a; fork_aa] (sample_node true) with Some _ => true | None => false end = true) as H
    by (vm_compute; reflexivity).
  destruct (accept_all [fork_a; fork_aa] (sample_node true)) as [last|]; [by exists last | discriminate H].
Qed.

Lemma fork_aa_wf : block_wf fork_aa.
Proof. apply sample_rooted_wf; unfold u64_ok; lia. Qed.
Lemma fork_chain_wf : Forall block_wf [fork_a; fork_aa].
Proof. repeat (apply Forall_cons; split); [exact fork_a_wf | exact fork_aa_wf | apply Forall_nil, I]. Qed.
Lemma fork_chain_linked i b c :
  [fork_a; fork_aa] !! i = Some b -> [fork_a; fork_aa] !! S i = Some c -> parent_hash (header c) = block_hash b.
Proof.
  destruct i as [|[|i]]; cbn [lookup list_lookup]; intros Hb Hc; [| discriminate Hc | discriminate Hb].
  apply (inj Some) in Hb as <-. apply (inj Some) in Hc as <-.
  exact (proj1 (sample_rooted_fields 2 (block_hash fork_a) 12 funded_root)).
Qed.

Lemma delivery_order_irrelevant_witness :
  exists last, accept_all [fork_a; fork_aa] (sample_node true) = Some last /\
    let n := deliver_all [fork_aa; fork_a] (sample_node true) in
    nd_orphans n = ∅ /\ nd_ledger n = nd_ledger last.
Proof.
  destruct sample_run as [last E]. exists last. split; [exact E |].
  destruct (delivery_order_irrelevant (sample_node true) last [fork_a; fork_aa] [fork_aa; fork_a]
    (sample_node_inv true) eq_refl fork_chain_wf E fork_chain_linked
    (Permutation_swap _ _ _)) as (H1 & H2 & _).
  exact (conj H1 H2).
Defined.


(** A block received, a peer and a request on the read-only endpoint. *)
Lemma node_consistent_witness :
  exists n, rtc node_step (sample_node true) n /\
    (forall h b, by_hash (nd_store n) !! h = Some b -> block_hash b = h).
Proof.
  set (n1 := handle_event (LC := memory_mesh) (BlockReceived fork_a) (sample_node true)).
  exists (peers_changed 3 n1).
  assert (rtc node_step (sample_node true) (peers_changed 3 n1)) as H.
  { eapply rtc_l; [exact (node_event (LC := memory_mesh) (sample_node true) (BlockReceived fork_a) fork_a_wf) |].
    apply rtc_once. exact (node_peers n1 3). }
  split; [exact H |]. exact (proj1 (proj2 (proj2 (node_consistent _ _ (sample_node_inv true) H)))).
Defined.

Definition sample_task : ProducerTask :=
  mkProducerTask producer_new (sample_poa x01) (address_from_secret sample_sk) sample_sk.

(** With an empty pool the turn is skipped. *)
Lemma producer_turn_witness :
  tick sample_task (f64_of_Z 0) (sample_node true) = sample_node true.
Proof.
  assert (tick_block sample_task (nd_ledger (sample_node true)) = None) as E by reflexivity.
  pose proof (producer_turn sample_task (f64_of_Z 0) (sample_node true) (sample_node_inv true)) as H.
  rewrite E in H. apply H. intros b Hb. discriminate Hb.
Defined.

(** A block, a payload that does not decode, and a peer. *)
Lemma peers_cannot_break_node_witness :
  exists n : Node, forall h b, nd_orphans n !! h = Some b -> block_hash b = h /\ block_wf b.
Proof.
  pose (evs := [GossipMessage (LC := memory_mesh) (serialize (NetworkMessage.Block fork_a));
                GossipMessage (LC := memory_mesh) []; ConnectionEstablished (LC := memory_mesh) 1%nat]).
  destruct (peers_cannot_break_node (LC := memory_mesh) (sample_node true) (quiet_service []) evs
    (sample_node_inv true) (proj2 (Forall_nil _) I)) as (_ & _ & H).
  eexists. exact H.
Defined.
