(* ===== verification/NodeStart.v ===== *)
(** * The node: start and restart

    What [startup] makes of an empty database and of one a running node has
    saved, and what a restart does not bring back. *)

From S2P Require Import Prelude Hex Text Uint UintFacts Hash Address Bincode Core Trie State.
From S2P Require Import StateProps Crypto Vm Executor ExecutorProps TxPool Consensus Store StoreProps.
From S2P Require Import StoreSpec Producer Apply ApplyProps Persist PersistProps PersistSpec Network.
From S2P Require Import Config ConfigProps Json Metrics Rpc Node NodeProps.
#[local] Open Scope Z_scope.

(** ** Loading only takes steps the store offers *)

Section Load.
Context {BC : BincodeCrate} {BL : BincodeLaws} {SC : Sha3Crate} {EC : Ed25519Crate}.
Context {RC : RocksDbCrate}.

Definition keeps_reachable {E A} (c : smonad BlockStore E A) : Prop :=
  forall s, store_reachable s -> store_reachable (c s).1.

Lemma kr_bind {E A B} (c : smonad BlockStore E A) (k : A -> smonad BlockStore E B) :
  keeps_reachable c -> (forall a, keeps_reachable (k a)) -> keeps_reachable (sbind c k).
Proof.
  intros Hc Hk s Hs. unfold sbind. specialize (Hc s Hs). destruct (c s) as [s' [a|e]]; [by apply Hk | done].
Qed.
Lemma kr_lift {E A B} (r : result A E) (k : A -> smonad BlockStore E B) :
  (forall a, r = Ok a -> keeps_reachable (k a)) -> keeps_reachable (sbind (slift r) k).
Proof. intros Hk s Hs. rewrite sbind_lift. destruct r as [a|e]; [by apply (Hk a) | done]. Qed.
Lemma kr_get {E A B} (f : BlockStore -> A) (k : A -> smonad BlockStore E B) :
  (forall a, keeps_reachable (k a)) -> keeps_reachable (sbind (sget f) k).
Proof. intros Hk s Hs. rewrite sbind_get. by apply Hk. Qed.
Lemma kr_guard {E B} b (e : E) (k : unit -> smonad BlockStore E B) :
  keeps_reachable (k tt) -> keeps_reachable (sbind (sguard b e) k).
Proof. intros Hk s Hs. rewrite sbind_guard. destruct b; [by apply Hk | done]. Qed.
Lemma kr_ret {E A} (a : A) : keeps_reachable (E := E) (sret a).
Proof. by intros s Hs. Qed.
Lemma kr_err {E F A} (f : E -> F) (c : smonad BlockStore E A) :
  keeps_reachable c -> keeps_reachable (smap_err f c).
Proof. intros Hc s Hs. unfold smap_err. specialize (Hc s Hs). by destruct (c s). Qed.
Lemma kr_step {E A} (c : smonad BlockStore E A) :
  (forall s, store_step s (c s).1) -> keeps_reachable c.
Proof. intros Hc s Hs. by eapply reachable_step. Qed.
Lemma kr_for {E A} (l : list A) (body : A -> smonad BlockStore E unit) :
  (forall x, keeps_reachable (body x)) -> keeps_reachable (sfor l body).
Proof. intros Hb. induction l as [|x l IH]; [apply kr_ret |]. cbn [sfor]. by apply kr_bind. Qed.

Lemma get_block_wf p h b : ChainPersist.get_block p h = Ok (Some b) -> block_wf b.
Proof.
  unfold ChainPersist.get_block. destruct (ChainPersist.read _ _ _) as [[raw|]|]; try done. simpl.
  destruct (deserialize raw) as [b'|] eqn:E; [| done]. simpl. intros [= <-].
  exact (deserialize_wf (A := Block) _ _ E).
Qed.
Lemma get_header_wf p h hd : ChainPersist.get_header p h = Ok (Some hd) -> header_wf hd.
Proof.
  unfold ChainPersist.get_header. destruct (ChainPersist.read _ _ _) as [[raw|]|]; try done. simpl.
  destruct (deserialize raw) as [b'|] eqn:E; [| done]. simpl. intros [= <-].
  exact (deserialize_wf (A := BlockHeader) _ _ E).
Qed.
Lemma get_by_height_wf p n b : ChainPersist.get_block_by_height p n = Ok (Some b) -> block_wf b.
Proof.
  unfold ChainPersist.get_block_by_height. destruct (ChainPersist.read _ _ _) as [[raw|]|]; try done. simpl.
  destruct (Hash.from_slice raw); [| done]. apply get_block_wf.
Qed.

Lemma load_into_reachable p g : keeps_reachable (ChainPersist.load_into p g).
Proof.
  unfold ChainPersist.load_into. apply kr_lift. intros [raw|] _; [| apply kr_ret].
  apply kr_lift. intros hd _. apply kr_lift. intros head _. apply kr_lift. intros head' _.
  apply kr_lift. intros g0 Eg. apply kr_lift. intros g1 Eg1. apply kr_guard.
  destruct g0 as [g0|]; [| done]. simpl in Eg1. injection Eg1 as ->.
  apply kr_bind; [| intros _; apply kr_bind; [| intros _; apply kr_bind; [| intros _; apply kr_ret]]].
  - apply kr_err, kr_step. intros s. apply step_genesis. by eapply get_by_height_wf.
  - apply kr_for. intros n. unfold ChainPersist.reload_height. apply kr_lift. intros [b|] Eb.
    + apply kr_bind; [| intros _; apply kr_ret]. apply kr_err, kr_step. intros s. apply step_block.
      by eapply get_by_height_wf.
    + apply kr_lift. intros h0 _. apply kr_lift. intros h _. apply kr_lift. intros hd0 Ehd.
      apply kr_lift. intros hd1 Ehd1. destruct hd0 as [hd0|]; [| done]. simpl in Ehd1. injection Ehd1 as ->.
      apply kr_bind; [| intros _; apply kr_ret]. apply kr_err, kr_step. intros s. apply step_header.
      by eapply get_header_wf.
  - apply kr_for. intros n. unfold ChainPersist.reload_state. apply kr_get. intros [b|]; [| apply kr_ret].
    apply kr_lift. intros [snap|] _; [| apply kr_ret]. apply kr_step. intros s. apply step_record.
Qed.
End Load.

(** ** Start and restart *)

Section Start.
Context {HC : HexCrate} {BC : BincodeCrate} {SC : Sha3Crate} {EC : Ed25519Crate} {WC : WasmiCrate}.
Context {DC : DashMapCrate} {RC : RocksDbCrate}.

Lemma alloc_synced entries : StateDB.sync_all_storage_roots (alloc_state entries) = alloc_state entries.
Proof.
  apply sync_id. intros a.
  rewrite storage_root_none by (intros; by rewrite (proj1 (alloc_state_storage entries)), lookup_empty).
  rewrite alloc_state_accounts. by destruct (foldl _ _ _).
Qed.

(** Every way [startup] can succeed leaves the pool empty. *)
Lemma startup_pool g p p' poa l : startup g p = (p', Ok (poa, l)) -> lg_pool l = TransactionPool.new.
Proof.
  unfold startup. rewrite !sbind_lift.
  destruct (map_err _ (poa_config g)) as [cfg|]; [| done]. rewrite sbind_lift.
  destruct (map_err _ (poa_new cfg)) as [poa'|]; [| done]. rewrite sbind_lift.
  destruct (validator_addr g) as [va|]; [| done]. rewrite sbind_lift.
  destruct (map_err _ (parsed_alloc g)) as [entries|]; [| done]. rewrite sbind_lift.
  destruct (map_err _ (genesis_block g)) as [genesis|]; [| done].
  destruct (ChainPersist.load_into _ _ _) as [store [[n|]|e]]; [| | done].
  - destruct (restored_from_snapshot store); unfold start_restored, start_replayed.
    + destruct (bs_head store) as [h|]; [| done]. simpl.
      destruct (BlockStore.state_at store h); [| done]. by intros [= <- <- <-].
    + destruct (sfor _ _ _) as [[st live] [[]|e]]; [| done]. by intros [= <- <- <-].
  - unfold start_fresh. destruct (BlockStore.insert_genesis _ _) as [st [o|e]]; [| done].
    destruct (ChainPersist.persist_canonical _ _ _) as [p2 [[]|e]]; [| done]. by intros [= <- <- <-].
Qed.

(** C40: A restart forgets every sender's next nonce: however the node came up and
    whatever nonces the accounts of its live state have, the pool refuses every
    transaction whose nonce is not zero as a gap, so an account that has already
    sent a transaction cannot send its next one. *)
Theorem restart_forgets_nonces g p p' poa l tx origin sender :
  startup g p = (p', Ok (poa, l)) ->
  21000 <= tx_gas tx -> recover_sender tx = Ok sender -> 0 < tx_nonce tx ->
  TransactionPool.add_transaction tx origin (lg_pool l) =
    (lg_pool l, Err (TxPoolError.NonceGap 0 (tx_nonce tx))).
Proof.
  intros ->%startup_pool Hgas Hsig Hn. unfold TransactionPool.add_transaction, TransactionPool.add_transaction_at.
  cbn [config TransactionPool.new TransactionPool.with_config min_gas pool_config_default].
  rewrite (proj2 (Z.ltb_ge _ _)) by done. rewrite Hsig.
  unfold TransactionPool.contains, TransactionPool.expected_nonce, TransactionPool.new, TransactionPool.with_config.
  cbn [pending next_nonce per_sender config max_pending max_per_sender pool_config_default].
  rewrite !lookup_empty, map_size_empty. rewrite bool_decide_false by (by intros []).
  cbn [default Nat.leb]. rewrite (proj2 (Z.ltb_ge _ _)) by lia. by rewrite (proj2 (Z.ltb_lt _ _)) by lia.
Qed.

Context {BL : BincodeLaws} {RL : RocksDbLaws}.

Lemma genesis_validator g b : genesis_block g = Ok b -> exists a, validator_addr g = Ok a.
Proof.
  unfold genesis_block, validator_addr. destruct (Address.from_hex _) as [a|e]; [by exists a | done].
Qed.

(** What a node with ledger [l] and database [p] needs for its next save to be
    restarted from with the genesis file [g]. *)
Record restartable (g : GenesisFile) (genesis : Block) (l : Ledger) (p : ChainPersist) : Prop := {
  rs_ledger : ledger_inv l;
  rs_poa : exists cfg, poa_config g = Ok cfg /\ poa_new cfg = Ok (consensus (lg_store l));
  rs_alloc : exists entries, parsed_alloc g = Ok entries;
  rs_genesis : genesis_block g = Ok genesis;
  rs_first : by_number (lg_store l) !! 0 = Some (block_hash genesis);
  rs_height b : BlockStore.head_block (lg_store l) = Some b -> number (header b) < u64_max;
  rs_bodies h n b : BlockStore.head_block (lg_store l) = Some h ->
    BlockStore.get_block_by_number (lg_store l) n = Some b ->
    ChainPersist.keeps p (number (header h)) n = true -> validate b = Ok tt;
  rs_states : states_ok (lg_store l);
  rs_db : healthy (cp_db p);
  rs_keep : 1 <= cp_archive_keep p;
  rs_decode : snapshots_decode (lg_store l) p;
  rs_disk n b raw snap :
    BlockStore.get_block_by_number (lg_store l) n = Some b ->
    BlockStore.state_at (lg_store l) (block_hash b) = None ->
    view p (KSnapshot (block_hash b)) = Some raw -> deserialize (A := StateSnapshot) raw = Some snap ->
    StateDB.root_hash (StateDB.from_snapshot snap) = (StateDB.from_snapshot snap, state_root (header b)) }.

(** A database whose chain loads with a state for its head is restarted from it. *)
Lemma startup_restored g genesis cons p t live hd top :
  (exists cfg, poa_config g = Ok cfg /\ poa_new cfg = Ok cons) ->
  (exists entries, parsed_alloc g = Ok entries) -> genesis_block g = Ok genesis ->
  ChainPersist.load_into p genesis (BlockStore.new cons) = (t, Ok (Some top)) ->
  bs_head t = Some hd -> BlockStore.state_at t hd = Some live ->
  startup g p = (p, Ok (cons, mkLedger t live TransactionPool.new)) /\ store_reachable t.
Proof.
  intros (cfg & Ecfg & Epoa) [entries Ea] Hg E2 Hhd Hst. split.
  - unfold startup. rewrite Ecfg. cbn [map_err]. rewrite sbind_lift, Epoa. cbn [map_err].
    destruct (genesis_validator _ _ Hg) as [va Eva]. rewrite sbind_lift, Eva.
    rewrite sbind_lift, Ea. cbn [map_err]. rewrite sbind_lift, Hg. cbn [map_err].
    rewrite sbind_lift, E2. unfold restored_from_snapshot. rewrite Hhd, Hst, bool_decide_true by done.
    unfold start_restored. rewrite Hhd. cbn [ok_or rbind]. rewrite Hst. cbn [ok_or rbind].
    by rewrite state_reset_id.
  - pose proof (load_into_reachable p genesis (BlockStore.new cons)) as Hr.
    rewrite E2 in Hr. apply Hr. exists cons. apply rtc_refl.
Qed.

(** A restart after a save resumes from it: the node comes back with the same head,
    the same canonical block at every height and the same live state, with an empty
    pool, and with a ledger that satisfies the invariant. *)
Theorem save_restarts g genesis l p block :
  restartable g genesis l p ->
  exists p' l',
    ChainPersist.persist_canonical (lg_store l) block p = (p', Ok tt) /\
    startup g p' = (p', Ok (consensus (lg_store l), l')) /\
    bs_head (lg_store l') = bs_head (lg_store l) /\ by_number (lg_store l') = by_number (lg_store l) /\
    lg_live l' = lg_live l /\ lg_pool l' = TransactionPool.new /\ ledger_inv l'.
Proof.
  intros H. pose proof (rs_ledger _ _ _ _ H) as Hl. destruct (li_live _ Hl) as (hd & Ehd & Hlive).
  destruct (li_snapshots _ Hl _ _ Hlive) as (head & Hhead & _).
  assert (BlockStore.head_block (lg_store l) = Some head) as Hhb.
  { unfold BlockStore.head_block. by rewrite Ehd. }
  destruct (reload_chain (lg_store l) p block genesis hd head) as
    (p' & t & E1 & E2 & Hhd & Hnum & Hp' & Hsn & Hblk).
  1-10: try apply H; try done.
  { intros n b Eb Hk. by apply (rs_bodies _ _ _ _ H head n b Hhb Eb). }
  assert (BlockStore.state_at t hd = Some (lg_live l)) as Hst.
  { assert (BlockStore.get_block_by_number (lg_store l) (number (header head)) = Some head /\ block_hash head = hd)
      as [En <-] by (apply saved_head; try done; [by apply store_reachable_inv, Hl | by apply (rs_height _ _ _ _ H)]).
    rewrite (proj2 (Hblk _ _ En)); rewrite state_at_snapshots; eauto. }
  set (l' := mkLedger t (lg_live l) TransactionPool.new).
  destruct (startup_restored g genesis (consensus (lg_store l)) p' t (lg_live l) hd _ (rs_poa _ _ _ _ H)
    (rs_alloc _ _ _ _ H) (rs_genesis _ _ _ _ H) E2 Hhd Hst) as [Estart Hreach].
  exists p', l'. split_and!; try done.
  - by rewrite Ehd.
  - split; cbn [lg_store lg_live l']; [exact Hreach | |].
    + intros h db Hdb. rewrite <- state_at_snapshots in Hdb.
      destruct (Hsn h db Hdb) as (n & b & Eb & -> & Hcase). destruct (Hblk n b Eb) as [Hb _].
      eexists. split; [exact Hb |].
      assert (StateDB.root_hash db = (db, state_root (header b))) as Hroot.
      { destruct Hcase as [Hs|(Hnone & raw & snap & Hraw & Hsnap & ->)].
        - rewrite state_at_snapshots in Hs. destruct (li_snapshots _ Hl _ _ Hs) as (b' & Hb' & Hr).
          assert (by_hash (lg_store l) !! block_hash b = Some b) as Hb2.
          { apply get_by_number in Eb as [_ Eb]; [done |]. apply store_reachable_inv, Hl. }
          by simplify_eq.
        - by apply (rs_disk _ _ _ _ H n b raw snap). }
      by destruct (ChainPersist.keeps _ _ _).
    + exists hd. split; [done |]. by rewrite <- state_at_snapshots.
Qed.

(** ** The first start *)

Context {EL : Ed25519Laws} {HL : HexLaws}.

(** The ledger of a data directory that was just initialised. *)
Definition first_ledger (sk : SecretKey) : Ledger :=
  let state := alloc_state [(address_from_secret sk, init_balance)] in
  mkLedger
    (BlockStore.record_state (block_hash (init_block sk)) (StateDB.fork state)
       (BlockStore.insert_genesis (init_block sk) (BlockStore.new (init_poa sk))).1)
    state TransactionPool.new.

Lemma init_block_wf sk : block_wf (init_block sk).
Proof. split; [apply init_sealed_wf |]. by split_and!; try apply Forall_nil. Qed.

Lemma first_ledger_spec sk :
  let s := lg_store (first_ledger sk) in
  ledger_inv (first_ledger sk) /\ bs_head s = Some (block_hash (init_block sk)) /\
  by_hash s = {[ block_hash (init_block sk) := init_block sk ]} /\
  snapshots s = {[ block_hash (init_block sk) := lg_live (first_ledger sk) ]} /\
  consensus s = init_poa sk /\
  is_ok (BlockStore.insert_genesis (init_block sk) (BlockStore.new (init_poa sk))).2 = true.
Proof.
  intros s. destruct (init_boot sk) as (g & _ & _ & _ & _ & Hroot & st & o & Eins & Hhd & Hb & Hc).
  destruct (insert_block_ok (init_block sk) (BlockStore.new (init_poa sk)) st o) as
    (_ & _ & _ & _ & _ & Hsn & Hh & _); [apply new_store_inv | apply init_sealed_wf | exact Eins |].
  assert (first_ledger sk =
    mkLedger (BlockStore.record_state (io_hash o) (StateDB.root_hash (lg_live (first_ledger sk))).1 st)
      (StateDB.root_hash (lg_live (first_ledger sk))).1 TransactionPool.new) as E.
  { unfold first_ledger at 1, StateDB.root_hash. cbn [fst lg_live first_ledger].
    by rewrite alloc_synced, Hh, state_fork_id, Eins. }
  split_and!.
  - rewrite E. eapply (ledger_genesis_inv (init_poa sk)); [apply init_block_wf | exact Eins | exact Hroot].
  - subst s. unfold first_ledger. by rewrite Eins.
  - subst s. unfold first_ledger. by rewrite Eins.
  - subst s. unfold first_ledger. rewrite Eins. cbn -[alloc_state].
    rewrite Hsn. cbn -[alloc_state]. by rewrite !state_fork_id.
  - subst s. unfold first_ledger. by rewrite Eins.
  - by rewrite Eins.
Qed.

Lemma init_balance_wf : u256_wf init_balance.
Proof. apply (bool_decide_unpack _). vm_compute. exact I. Qed.

Lemma first_state_ok sk : state_reachable (lg_live (first_ledger sk)) /\ state_sized (lg_live (first_ledger sk)).
Proof.
  split.
  - apply reach_set_account; [apply reach_new |]. split; [done | apply init_balance_wf].
  - unfold state_sized. cbn. rewrite !map_size_empty, map_size_insert_None, map_size_empty by apply lookup_empty.
    cbn. lia.
Qed.

Lemma first_block_at sk n b :
  BlockStore.get_block_by_number (lg_store (first_ledger sk)) n = Some b -> b = init_block sk.
Proof.
  destruct (first_ledger_spec sk) as (Hl & _ & Hb & _).
  intros [_ H]%get_by_number; [| apply store_reachable_inv, Hl]. rewrite Hb in H.
  by apply lookup_singleton_Some in H as [_ <-].
Qed.

Lemma first_boot sk p :
  healthy (cp_db p) -> 1 <= cp_archive_keep p -> (forall k, view p k = None) ->
  exists g p',
    init_genesis sk = Ok g /\ startup g p = (p', Ok (init_poa sk, first_ledger sk)) /\
    restartable g (init_block sk) (first_ledger sk) p' /\ policy p' = policy p /\
    on_disk (lg_store (first_ledger sk)) (block_hash (init_block sk)) (init_block sk) (policy p)
      (view p) (view p').
Proof.
  intros Hp Hk Hempty.
  destruct (init_boot sk) as (g & E1 & E2 & E3 & E4 & _ & st & o & Eins & _).
  destruct (first_ledger_spec sk) as (Hl & Hhd & Hb & Hsn & Hc & _).
  pose proof (store_reachable_inv _ (li_store _ Hl)) as Hi.
  assert (by_hash (lg_store (first_ledger sk)) !! block_hash (init_block sk) = Some (init_block sk)) as Hhead
    by (rewrite Hb; apply lookup_singleton_eq).
  assert (number (header (init_block sk)) < u64_max) as Hmax by done.
  destruct (persist_on_disk _ _ _ Hi Hhd Hhead Hmax (policy p) (init_block sk) p Hp eq_refl)
    as (p' & Ep & Hp' & Hpol & Ho).
  destruct (saved_head _ _ _ Hi Hhd Hhead Hmax) as [En _].
  destruct (first_state_ok sk) as [Hreach%reachable_inv Hsize].
  assert (states_ok (lg_store (first_ledger sk))) as Hst.
  { intros h db. rewrite state_at_snapshots, Hsn. by intros [_ <-]%lookup_singleton_Some. }
  exists g, p'. split_and!; try done.
  - unfold startup. rewrite E3. cbn [map_err]. rewrite sbind_lift.
    change (poa_new (init_poa sk)) with (@Ok PoAConfig ConsensusError.t (init_poa sk)). cbn [map_err].
    destruct (genesis_validator _ _ E2) as [va Eva]. rewrite sbind_lift, Eva.
    rewrite sbind_lift. unfold parsed_alloc in *. rewrite E4. cbn [map_err]. rewrite sbind_lift, E2. cbn [map_err].
    rewrite sbind_lift. unfold ChainPersist.load_into. rewrite sbind_lift, (read_view _ KHead), (Hempty KHead) by done.
    cbn [sret]. unfold start_fresh. unfold first_ledger in Ep |- *. rewrite Eins in Ep |- *.
    cbn [fst lg_store] in Ep. cbv beta zeta. by rewrite Ep.
  - split; try done.
    + exists (init_poa sk). by rewrite Hc.
    + eauto.
    + by apply (saved_blocks _ _ _ Hi Hhd Hhead Hmax) in En as (_ & En & _).
    + intros b. unfold BlockStore.head_block, BlockStore.get_block. rewrite Hhd. cbn [mbind option_bind].
      rewrite Hhead. intros H. apply (inj Some) in H as <-. exact Hmax.
    + intros h n b _ ->%first_block_at _. apply init_sealed_valid.
    + by injection Hpol as _ ->.
    + intros n b raw ->%first_block_at Hn. rewrite state_at_snapshots, Hsn in Hn.
      by rewrite lookup_singleton_eq in Hn.
    + intros n b raw snap ->%first_block_at Hn. rewrite state_at_snapshots, Hsn in Hn.
      by rewrite lookup_singleton_eq in Hn.
Qed.

Lemma first_start_runs sk p :
  healthy (cp_db p) -> 1 <= cp_archive_keep p -> (forall k, view p k = None) ->
  exists g p' l,
    init_genesis sk = Ok g /\ startup g p = (p', Ok (init_poa sk, l)) /\
    bs_head (lg_store l) = Some (block_hash (init_block sk)) /\
    lg_live l = alloc_state [(address_from_secret sk, init_balance)] /\
    restartable g (init_block sk) l p'.
Proof.
  intros Hp Hk He. destruct (first_boot sk p Hp Hk He) as (g & p' & E1 & E2 & Hr & _).
  exists g, p', (first_ledger sk). split_and!; try done. apply first_ledger_spec.
Qed.

(** A data directory that was just initialised starts, and can be restarted:
    with the genesis file written for any key and an empty healthy database,
    [startup] succeeds with the sealed genesis as head, the key's account funded
    in the live state and nothing else, and leaves ledger and database such
    that a restart resumes from them. *)
Theorem first_start sk p :
  healthy (cp_db p) -> 1 <= cp_archive_keep p -> (forall k, view p k = None) ->
  exists g p' l,
    init_genesis sk = Ok g /\ startup g p = (p', Ok (init_poa sk, l)) /\
    bs_head (lg_store l) = Some (block_hash (init_block sk)) /\
    lg_live l = alloc_state [(address_from_secret sk, init_balance)] /\
    restartable g (init_block sk) l p'.
Proof. apply first_start_runs. Qed.
End Start.

(** ** Witnesses *)

Definition fresh_persist : ChainPersist (H := memory_rocks) := memory_persist true.
Lemma fresh_view k : view fresh_persist k = None.
Proof. exact (lookup_empty (M := gmap bytes) (db_key k)). Qed.

Lemma first_start_witness :
  exists g p' l, init_genesis sample_sk = Ok g /\
    startup g fresh_persist = (p', Ok (init_poa sample_sk, l)) /\
    bs_head (lg_store l) = Some (block_hash (init_block sample_sk)).
Proof.
  destruct (first_start (RL := memory_rocks_laws) sample_sk fresh_persist I ltac:(cbn; lia) fresh_view) as (g & p' & l & H1 & H2 & H3 & _).
  exists g, p', l. exact (conj H1 (conj H2 H3)).
Defined.

Example save_restarts_sample :
  exists g p l p' l', restartable g (init_block sample_sk) l p /\
    startup g p' = (p', Ok (consensus (lg_store l), l')) /\ lg_live l' = lg_live l.
Proof.
  destruct (first_start_runs (RL := memory_rocks_laws) sample_sk fresh_persist I ltac:(cbn; lia) fresh_view) as (g & p & l & _ & _ & _ & _ & H).
  destruct (save_restarts g (init_block sample_sk) l p (init_block sample_sk) H)
    as (p' & l' & _ & E & _ & _ & El & _).
  exists g, p, l, p', l'. exact (conj H (conj E El)).
Defined.

Lemma restart_forgets_nonces_witness :
  exists g p' l, startup g fresh_persist = (p', Ok (init_poa sample_sk, l)) /\
    TransactionPool.add_transaction (sample_signed x01 1) Local (lg_pool l) =
      (lg_pool l, Err (TxPoolError.NonceGap 0 1)).
Proof.
  destruct (first_start_runs (RL := memory_rocks_laws) sample_sk fresh_persist I ltac:(cbn; lia) fresh_view) as (g & p & l & _ & E & _).
  exists g, p, l. split; [exact E |].
  assert (is_ok (recover_sender (sample_signed x01 1)) = true) as Hs by (vm_compute; reflexivity).
  destruct (recover_sender (sample_signed x01 1)) as [a|] eqn:Ea; [| discriminate Hs].
  apply (restart_forgets_nonces g fresh_persist p (init_poa sample_sk) l (sample_signed x01 1) Local a E);
    [vm_compute; discriminate | exact Ea | reflexivity].
Defined.
