(* ===== verification/NodeAgree.v ===== *)
(** * The node: a ledger, and agreement between nodes

    Whatever the node's tasks do, its ledger only takes the steps of an abstract
    machine: importing blocks, forgetting states and changing the pool.  An invariant
    of that machine is that every recorded state is well formed and that its
    accounts name their code; with the state roots it makes two nodes agree. *)

From S2P Require Import Prelude Hex Text Uint UintFacts UintProps Hash Address Bincode Core.
From S2P Require Import Trie TrieProps State StateProps Crypto Vm Executor ExecutorProps TxPool.
From S2P Require Import Consensus Store StoreProps StoreSpec Producer ProducerProps Apply ApplyProps.
From S2P Require Import Persist PersistProps PersistSpec Network Config ConfigProps Json Metrics Rpc RpcProps Node NodeProps NodeOrder.
#[local] Open Scope Z_scope.

Section Refinement.
Context {HC : HexCrate} {BC : BincodeCrate} {SC : Sha3Crate} {EC : Ed25519Crate} {WC : WasmiCrate}.
Context {DC : DashMapCrate} {ET : ErrorTexts} {LC : Libp2pCrate} {RC : RocksDbCrate}.
Context {HI : HashMapIter} {HIL : HashMapIterLaws}.

(** ** The abstract ledger *)

Inductive ledger_step (l : Ledger) : Ledger -> Prop :=
| ledger_step_import b : block_wf b -> ledger_step l (import_and_apply b l).1
| ledger_step_prune :
    ledger_step l (mkLedger (BlockStore.prune_snapshots (lg_store l)) (lg_live l) (lg_pool l))
| ledger_step_prune_keep k :
    ledger_step l (mkLedger (BlockStore.prune_snapshots_keep k (lg_store l)) (lg_live l) (lg_pool l))
| ledger_step_pool p : ledger_step l (mkLedger (lg_store l) (lg_live l) p).
Abbreviation ledger_steps := (rtc ledger_step).

Lemma ledger_step_inv l l' : ledger_inv l -> ledger_step l l' -> ledger_inv l'.
Proof.
  intros Hl Hs. destruct Hs as [b Hb| |k|p].
  - by apply ledger_import_inv.
  - by apply ledger_prune_inv.
  - by apply ledger_prune_keep_inv.
  - by apply ledger_pool_inv.
Qed.
Lemma ledger_steps_inv l l' : ledger_inv l -> ledger_steps l l' -> ledger_inv l'.
Proof. intros Hl H. induction H; eauto using ledger_step_inv. Qed.

Lemma ledger_id l : mkLedger (lg_store l) (lg_live l) (lg_pool l) = l.
Proof. by destruct l. Qed.
Lemma steps_pool l p : ledger_steps l (mkLedger (lg_store l) (lg_live l) p).
Proof. apply rtc_once, ledger_step_pool. Qed.

Lemma prune_store_steps n : ledger_steps (nd_ledger n) (nd_ledger (prune_store n)).
Proof.
  unfold prune_store. destruct (ChainPersist.is_archive _); apply rtc_once;
    [apply ledger_step_prune | apply ledger_step_prune_keep].
Qed.

(** An accepted block: one import, then pruning. *)
Lemma stored_steps b o l' n m :
  node_inv n -> block_wf b -> import_and_apply b (nd_ledger n) = (l', Ok o) ->
  same_frame (set_ledger l' n) m ->
  ledger_steps (nd_ledger n) (nd_ledger (prune_store (persist_block b m))).
Proof.
  intros [Hl _] Hw E (El & _). change (nd_ledger (set_ledger l' n)) with l' in El.
  assert (l' = (import_and_apply b (nd_ledger n)).1) as Hl' by by rewrite E.
  eapply rtc_l; [by apply (ledger_step_import _ b) |]. rewrite <- Hl', <- El.
  destruct (persist_block_frame b m) as [Ec _].
  { rewrite El, Hl'. by apply ledger_import_inv. }
  replace (nd_ledger m) with (nd_ledger (persist_block b m)) by (unfold nd_ledger; by rewrite Ec).
  apply prune_store_steps.
Qed.

(** The import task, for a preorder on nodes that ignores what a save does not read
    and that holds across each accepted block. *)
Lemma import_fuel_closed (R : relation Node) :
  PreOrder R ->
  (forall n m, nd_ledger m = nd_ledger n -> nd_persist m = nd_persist n -> R n m) ->
  (forall b o l n, node_inv n -> block_wf b -> import_and_apply b (nd_ledger n) = (l, Ok o) ->
     R n (settle b o (set_ledger l n))) ->
  forall fuel b n n', node_inv n -> block_wf b -> import_fuel fuel b n = Some n' -> node_inv n' /\ R n n'.
Proof.
  intros HR Hquiet Hstore fuel. induction fuel as [|fuel IH]; intros b n n' Hn Hw; [done |].
  cbn [import_fuel]. destruct (import_and_apply b (nd_ledger n)) as [l' [o|e]] eqn:E.
  - pose proof (Hstore b o l' n Hn Hw E) as Hsteps.
    destruct (stored_spec b o l' n _ Hn Hw E (import_notices_frame b o _)) as (H1 & _).
    fold (settle b o (set_ledger l' n)) in *. set (n1 := settle b o (set_ledger l' n)) in *.
    assert (Forall block_wf (children_of (block_hash b) n1)) as Hcs.
    { apply Forall_forall. intros c (_ & h & Hc)%children_of_elem. by apply (ni_orphans _ H1) in Hc as [_ Hc]. }
    revert Hcs. generalize (children_of (block_hash b) n1). intros cs Hcs. clearbody n1.
    revert n1 H1 Hsteps. induction Hcs as [|c cs Hc Hcs IHcs]; intros n1 H1 Hsteps; simpl; [by intros [= <-] |].
    destruct (import_fuel fuel c _) as [n2|] eqn:E2.
    + destruct (IH c (set_orphans (delete (block_hash c) (nd_orphans n1)) n1) n2) as [I2 S2]; [| done | done |].
      * split; [apply H1 |]. intros h ob Hob. cbn in Hob. apply lookup_delete_Some in Hob as [_ Hob]. by apply H1.
      * apply (IHcs n2 I2). etrans; [exact Hsteps |]. etrans; [| exact S2]. by apply Hquiet.
    + intros H. exfalso. revert H. clear. induction cs; simpl; auto; done.
  - destruct (refused_spec b l' e n Hn Hw E) as [-> _]. rewrite set_ledger_id.
    assert (node_inv (set_orphans (<[block_hash b := b]> (nd_orphans n))
              (net (request_block (parent_hash (header b))) n))) as Hins.
    { split; [apply Hn |]. intros h ob Hob. cbn in Hob.
      apply lookup_insert_Some in Hob as [[<- <-]|[_ Hob]]; [done | by apply Hn]. }
    destruct e; intros [= <-]; (split; [done | by apply Hquiet]).
Qed.

Lemma import_fuel_steps fuel b n n' :
  node_inv n -> block_wf b -> import_fuel fuel b n = Some n' ->
  node_inv n' /\ ledger_steps (nd_ledger n) (nd_ledger n').
Proof.
  apply (import_fuel_closed (fun n n' => ledger_steps (nd_ledger n) (nd_ledger n'))).
  - split; [intros ?; apply rtc_refl | intros ???; apply (transitivity (R := rtc _))].
  - intros x y -> _. apply rtc_refl.
  - intros b' o l x Hx Hw E. exact (stored_steps b' o l x _ Hx Hw E (import_notices_frame b' o _)).
Qed.

Lemma handle_event_steps ev n :
  node_inv n -> event_wf ev -> ledger_steps (nd_ledger n) (nd_ledger (handle_event ev n)).
Proof.
  intros Hn Hev. destruct ev as [b|tx|h|hd|h|p|p|a]; cbn [handle_event];
    try (destruct (BlockStore.get_block _ _)); try apply rtc_refl.
  - set (n1 := metric _ n).
    assert (node_inv n1) as Hn1 by by apply (node_inv_ledger n); [| apply Hn |].
    unfold import_block. destruct (import_fuel (import_bound n1) b n1) as [m|] eqn:E; [| apply rtc_refl].
    by apply (import_fuel_steps _ _ _ _ Hn1 Hev) in E as [_ E].
  - destruct (TransactionPool.add_transaction _ _ _) as [p [h|e]]; apply steps_pool.
Qed.

Lemma tick_steps t elapsed n :
  node_inv n -> (forall b, tick_block t (nd_ledger n) = Some (Ok b) -> block_wf b) ->
  ledger_steps (nd_ledger n) (nd_ledger (tick t elapsed n)).
Proof.
  intros Hn Hw. unfold tick. destruct (tick_block t (nd_ledger n)) as [[b|e]|] eqn:Et; try apply rtc_refl.
  specialize (Hw b eq_refl). set (n1 := metric _ (metric _ n)).
  assert (node_inv n1) as Hn1 by by apply (node_inv_ledger n); [| apply Hn |].
  destruct (import_and_apply b (nd_ledger n1)) as [l' [o|e]] eqn:E.
  - exact (stored_steps b o l' n1 _ Hn1 Hw E (produced_notices_frame b o _)).
  - destruct (refused_spec b l' e n1 Hn1 Hw E) as [-> _]. apply rtc_refl.
Qed.

Lemma rpc_steps {W} method params (n : Node) (c : RpcContext W) :
  cx_ledger c = nd_ledger n ->
  ledger_steps (nd_ledger n) (cx_ledger (handle method params c).1).
Proof.
  intros E. destruct (handle_ledger method params c) as [p ->]. unfold ctx_store, ctx_state. rewrite E. apply steps_pool.
Qed.

Lemma node_step_steps n n' : node_inv n -> node_step n n' -> ledger_steps (nd_ledger n) (nd_ledger n').
Proof.
  intros Hn Hs. destruct Hs as [ev Hev|t elapsed Hw|m p|m p|k].
  - by apply handle_event_steps.
  - by apply tick_steps.
  - unfold rpc_call. pose proof (rpc_steps m p n (nd_ctx n) eq_refl) as H.
    by destruct (handle m p (nd_ctx n)).
  - unfold rpc_read_call.
    pose proof (rpc_steps m p n (with_allow_methods (Some READ_ONLY_METHODS) (nd_ctx n)) eq_refl) as H.
    by destruct (handle m p _).
  - apply rtc_refl.
Qed.

Lemma node_steps_steps n n' : node_inv n -> rtc node_step n n' -> ledger_steps (nd_ledger n) (nd_ledger n').
Proof.
  intros Hn H. induction H as [n|n n1 n2 H1 H2 IH]; [apply rtc_refl |].
  etrans; [by apply node_step_steps |]. apply IH. by eapply node_step_inv.
Qed.

(** C6: The node refines the abstract ledger: whatever its import task, its producer
    task and its endpoints do, handler by handler and in any order, its ledger takes
    only the abstract steps:
    importing a well-formed block, forgetting recorded states, and changing the
    pool.  Nothing else (orphans, gossip, persistence, events, counters, requests)
    touches the chain or the live state. *)
Theorem node_refines_ledger n0 n :
  node_inv n0 -> rtc node_step n0 n -> ledger_steps (nd_ledger n0) (nd_ledger n).
Proof. apply node_steps_steps. Qed.
End Refinement.

(** ** Recorded states *)

Section Sound.
Context {BC : BincodeCrate} {SC : Sha3Crate} {EC : Ed25519Crate} {WC : WasmiCrate} {WL : WasmiLaws}.
Context {DC : DashMapCrate}.

Definition code_hash_of (s : StateDB) (a : Address) : H256 := acc_code_hash (account_or_default a s).
(** An account's code hash is the hash of its code; without code it is zero. *)
Definition code_named (s : StateDB) : Prop :=
  forall a, code_hash_of s a = match code s !! a with Some c => keccak256 c | None => H256.ZERO end.

Lemma code_hash_set s addr acc a :
  code_hash_of (StateDB.set_account addr acc s) a =
  if decide (addr = a) then acc_code_hash acc else code_hash_of s a.
Proof.
  unfold code_hash_of, account_or_default, StateDB.get_account, StateDB.set_account, StateDB.set_accounts.
  cbn [accounts]. case_decide as H; [subst a; by rewrite lookup_insert_eq | by rewrite lookup_insert_ne].
Qed.

Lemma set_account_named addr acc s :
  code_named s -> acc_code_hash acc = code_hash_of s addr -> code_named (StateDB.set_account addr acc s).
Proof.
  intros Hs Ha a. rewrite code_hash_set. case_decide as H; [subst a; rewrite Ha |]; apply Hs.
Qed.

Lemma create_named addr acc c s :
  code_named s -> acc_code_hash acc = keccak256 c ->
  code_named (StateDB.set_code addr c (StateDB.set_account addr acc s)).
Proof.
  intros Hs Ha a. change (code_hash_of (StateDB.set_code addr c ?t) a) with (code_hash_of t a).
  rewrite code_hash_set. unfold StateDB.set_code, StateDB.set_account, StateDB.set_accounts. cbn [code].
  case_decide as H; [subst a; by rewrite lookup_insert_eq | rewrite lookup_insert_ne by done; apply Hs].
Qed.

Lemma vm_frame_named addr s s' : vm_frame addr s s' -> code_named s -> code_named s'.
Proof.
  intros (Hc & _ & Ha & Hv) Hs a. rewrite Hc, <- Hs. unfold code_hash_of, account_or_default, StateDB.get_account.
  destruct (decide (a = addr)) as [->|Hn]; [by injection Hv | by rewrite Ha].
Qed.

(** Commands that keep a property of the state, on every branch. *)
Definition keeps {A} (P : StateDB -> Prop) (c : exec A) : Prop := forall s, P s -> P (c s).1.

Lemma keeps_bind {A B} P (c : exec A) (k : A -> exec B) :
  keeps P c -> (forall a, keeps P (k a)) -> keeps P (sbind c k).
Proof.
  intros Hc Hk s Hs. unfold sbind. specialize (Hc s Hs). destruct (c s) as [s1 [a|e]]; [by apply Hk | done].
Qed.
Lemma keeps_get {A B} P (f : StateDB -> A) (k : A -> exec B) :
  (forall s, P s -> P (k (f s) s).1) -> keeps P (sbind (sget f) k).
Proof. intros H s Hs. rewrite sbind_get. by apply H. Qed.

Lemma keeps_lift {A} P (r : result A ExecutionError.t) : keeps P (slift r).
Proof. by intros s Hs. Qed.

Lemma credit_named addr v : keeps code_named (credit addr v).
Proof.
  apply keeps_get. intros s Hs. rewrite sbind_lift. destruct (ok_or _ _) as [b|e]; [| done].
  by apply set_account_named.
Qed.

Lemma apply_value_named tx : keeps code_named (apply_value tx).
Proof.
  unfold apply_value. destruct (tx_to tx) as [to|]; [apply credit_named |]. cbn zeta.
  apply keeps_get. intros s Hs. rewrite sbind_lift. destruct (ok_or _ _) as [b|e]; [| done].
  by apply create_named.
Qed.

Lemma execute_call_named input gas s : state_inv s -> code_named s -> code_named (execute_call input gas s).1.
Proof.
  intros Hi Hs. unfold execute_call. destruct (ci_kind input); [| done].
  destruct (StateDB.get_code s _) as [|b wasm]; [done |].
  pose proof (vm_execute_frame (b :: wasm) (default (ci_from input) (ci_to input)) gas (ci_data input) s Hi) as [_ H].
  destruct (vm_execute _ _ _ _ s) as [s' r]. by eapply vm_frame_named.
Qed.

Lemma execute_named cfg tx ctx s :
  state_inv s -> tx_wf tx -> supply s < M256 -> code_named s ->
  code_named (execute_transaction cfg tx ctx s).1.
Proof.
  intros Hi Hw Hsup Hs. rewrite execute_split by done.
  destruct (precheck cfg tx ctx s) as [[]|e] eqn:Hpre; [| done].
  pose proof (debit_spec _ _ _ _ Hi Hw Hpre) as (Hi1 & _ & _ & Hs1).
  assert (code_named (debit tx s)) as Hd by by apply set_account_named.
  assert (0 <= fee tx (tx_gas tx)) as Hfee by (apply fee_nonneg; [done | apply Hw]).
  destruct (apply_value_spec tx (debit tx s) Hi1 Hw) as (s2 & E2 & Hi2 & _); [lia |].
  pose proof (apply_value_named tx _ Hd) as Hd2. rewrite E2 in Hd2. cbn [fst] in Hd2.
  unfold after_debit. rewrite (sbind_run _ _ _ _ _ E2).
  pose proof (execute_call_named (call_input_from_tx tx) (remaining (start_meter cfg tx)) s2 Hi2 Hd2) as Hd3.
  destruct (execute_call _ _ s2) as [s3 [call|e]] eqn:E3; rewrite (sbind_run _ _ _ _ _ E3); [| done].
  cbn [fst] in Hd3. revert s3 Hd3 E3. match goal with |- forall s3, _ -> _ -> code_named (?c s3).1 => cut (keeps code_named c) end.
  { intros H s3 Hd3 _. by apply H. }
  apply keeps_bind; [apply keeps_lift |]. intros meter. apply keeps_bind; [apply keeps_lift |]. intros refund.
  apply keeps_bind; [| intros _; apply keeps_lift].
  destruct (U256.is_zero refund); [exact (keeps_lift _ (Ok tt)) | apply credit_named].
Qed.

(** A well-formed state of bounded supply whose accounts name their code. *)
Record sound_state (s : StateDB) : Prop := {
  so_inv : state_inv s;
  so_supply : supply s < M256;
  so_code : code_named s }.

Lemma execute_block_sound txs ctx s s' ctx' :
  sound_state s -> Forall tx_wf txs -> u64_ok (ctx_gas_used ctx) ->
  execute_block gas_config_default txs ctx s = (s', Ok ctx') -> sound_state s'.
Proof.
  intros Hs Hw. revert ctx s Hs. induction Hw as [|tx txs Htx Hw IH]; intros ctx s Hs Hctx; simpl.
  { by intros [= <- _]. }
  destruct Hs as [Hi Hsup Hc]. unfold sbind.
  pose proof (execute_spec gas_config_default tx ctx s Hi Htx gas_config_default_wf Hctx Hsup) as Hspec.
  pose proof (execute_named gas_config_default tx ctx s Hi Htx Hsup Hc) as Hn.
  destruct (execute_transaction gas_config_default tx ctx s) as [s1 [[out ctx1]|e]] eqn:E; [| done].
  destruct (precheck _ _ _ _) as [[]|e']; [| done]. destruct Hspec as (Hi1 & (_ & _ & Hs1) & Ho).
  destruct Ho as ((Hg1 & Hg2) & _ & _ & Hctx1 & _). cbn [snd fst] in *.
  pose proof (intrinsic_ok tx gas_config_default Htx gas_config_default_wf) as Hint.
  assert (0 <= fee tx (eo_gas_used out)) by (apply fee_nonneg; [done | unfold u64_ok in Hint; lia]).
  apply IH; [split; [done | lia | done] |]. rewrite Hctx1. cbn. apply saturating_add64_ok; [done |].
  pose proof (Htx) as (_ & _ & _ & Hgas & _). unfold u64_ok in *. lia.
Qed.

(** Every recorded state is sound. *)
Definition sound_ledger (l : Ledger) : Prop :=
  forall h db, snapshots (lg_store l) !! h = Some db -> sound_state db.

Lemma ledger_step_sound l l' : ledger_inv l -> sound_ledger l -> ledger_step l l' -> sound_ledger l'.
Proof.
  intros Hl Hs Hstep. destruct (li_live _ Hl) as (hd & Hhd & Hlive). destruct Hstep as [b Hw| |k|p].
  - pose proof (import_cases b l (store_reachable_inv _ (li_store _ Hl)) Hw) as H.
    destruct (import_and_apply b l) as [l' [o|e]]; cbn [fst]; [| by subst l'].
    destruct H as (ps & trial & ctx & Hps & Hx & _ & _ & _ & _ & _ & _ & Hsn & _).
    intros h db. rewrite Hsn. intros [[<- <-]|[_ Hdb]]%lookup_insert_Some; [| by eapply Hs].
    apply execute_block_sound in Hx; [| by eapply Hs | apply Hw | done].
    by rewrite state_inv_sync by apply Hx.
  - intros h db. cbn [lg_store]. rewrite (prune_snapshots_lookup _ _ _ Hhd). case_decide; [apply Hs | done].
  - destruct (li_snapshots _ Hl _ _ Hlive) as (b & Hb & _).
    destruct (prune_keep_fields _ hd b k (li_store _ Hl) Hhd Hb) as (H1 & _).
    intros h db (Hdb & _)%H1. by eapply Hs.
  - exact Hs.
Qed.
Lemma ledger_steps_sound l l' : ledger_inv l -> sound_ledger l -> rtc ledger_step l l' -> sound_ledger l'.
Proof. intros Hl Hs H. induction H; eauto using ledger_step_inv, ledger_step_sound. Qed.
(** ** The states a node starts with *)

Lemma alloc_named entries : code_named (alloc_state entries).
Proof.
  induction entries as [|e entries IH] using rev_ind; [done |]. rewrite alloc_state_app. cbn [foldl].
  apply set_account_named; [done |]. rewrite (IH e.1). by rewrite (proj2 (alloc_state_storage entries)), lookup_empty.
Qed.
Lemma alloc_inv entries : Forall (fun e => u256_wf e.2) entries -> state_inv (alloc_state entries).
Proof.
  induction entries as [|e entries IH] using rev_ind; [intros _; apply new_inv |].
  intros [Hw He]%Forall_app. rewrite alloc_state_app. apply set_account_inv; [| by apply IH].
  apply Forall_cons in He as [He _]. split; [by vm_compute | exact He].
Qed.
Lemma alloc_sound entries :
  Forall (fun e => u256_wf e.2) entries -> supply (alloc_state entries) < M256 -> sound_state (alloc_state entries).
Proof. intros Hw Hs. split; [by apply alloc_inv | done | apply alloc_named]. Qed.

(** A genesis recorded in an empty store, whichever way it was put there. *)
Lemma genesis_sound c g st o db live pool :
  header_wf (header g) -> BlockStore.insert_block g (BlockStore.new c) = (st, Ok o) -> sound_state db ->
  sound_ledger (mkLedger (BlockStore.record_state (io_hash o) db st) live pool).
Proof.
  intros Hg Hins Hdb h db'.
  destruct (insert_block_ok _ _ _ _ (new_store_inv c) Hg Hins) as (_ & _ & _ & _ & _ & Hsn & _).
  unfold BlockStore.record_state, BlockStore.set_snapshots. cbn [lg_store snapshots].
  rewrite Hsn, state_fork_id. cbn [snapshots BlockStore.new]. rewrite insert_empty.
  by intros [_ <-]%lookup_singleton_Some.
Qed.
End Sound.

(** ** Agreement *)

Section Agreement.
Context {HC : HexCrate} {BC : BincodeCrate} {BL : BincodeLaws} {SC : Sha3Crate} {EC : Ed25519Crate}.
Context {WC : WasmiCrate} {WL : WasmiLaws} {DC : DashMapCrate} {ET : ErrorTexts} {LC : Libp2pCrate}.
Context {RC : RocksDbCrate} {HI : HashMapIter} {HIL : HashMapIterLaws}.

Definition account_view (acc : Account) : Z * Z * H256 * H256 :=
  (acc_nonce acc, u256_val (acc_balance acc), acc_code_hash acc, acc_storage_root acc).

(** The live accounts tell the fields of all accounts. *)
Lemma view_live s a :
  state_wf s ->
  account_view (account_or_default a s) = default (0, 0, H256.ZERO, H256.ZERO) (account_view <$> live_account s a).
Proof.
  intros (Hw & _). unfold account_or_default, live_account, StateDB.get_account.
  destruct (accounts s !! a) as [acc|] eqn:E; [| done]. cbn.
  destruct (account_is_empty acc) eqn:Ee; [| done]. cbn. unfold account_is_empty in Ee.
  repeat (apply andb_prop in Ee as [Ee ?]). apply Z.eqb_eq in Ee.
  repeat match goal with H : bool_decide _ = true |- _ => apply bool_decide_eq_true in H end.
  destruct (Hw _ _ E) as [_ Hb]. rewrite is_zero_spec in * by done. unfold account_view.
  by rewrite Ee, (proj1 (Z.eqb_eq _ _) ltac:(eassumption)), H0, H.
Qed.

Lemma storage_root_account s a :
  roots_synced s -> acc_storage_root (account_or_default a s) = StateDB.compute_storage_root s a.
Proof.
  intros Hr. specialize (Hr a). unfold account_or_default, StateDB.get_account.
  destruct (accounts s !! a) as [acc|]; cbn [default]; [by apply synced_root |].
  simpl in Hr. case_decide as H; [done |]. symmetry. by destruct (decide (StateDB.compute_storage_root s a = H256.ZERO)).
Qed.

(** Everything a reader can ask about an account. *)
Definition same_account (s1 s2 : StateDB) (a : Address) : Prop :=
  nonce s1 a = nonce s2 a /\ balance s1 a = balance s2 a /\
  StateDB.get_code s1 a = StateDB.get_code s2 a /\
  (forall slot, StateDB.get_storage s1 a slot = StateDB.get_storage s2 a slot).

(** What is hashed about an account of a state: the nodes of the account trie, the
    nodes of the account's storage trie, its code. *)
Definition opt_string (o : option bytes) : list bytes := match o with Some b => [b] | None => [] end.
Definition code_string (s : StateDB) (a : Address) : list bytes := opt_string (code s !! a).
Definition account_strings (s : StateDB) (a : Address) : list bytes :=
  live_encodings s ++ slot_encodings s a ++ code_string s a.
(** Among the strings two states hash about [a] no two collide, and neither a
    storage node nor a code hashes to the zero digest, which stands for "none". *)
Definition strings_clear (s1 s2 : StateDB) (a : Address) : Prop :=
  coll_free (account_strings s1 a ++ account_strings s2 a) /\
  zero_free ((slot_encodings s1 a ++ code_string s1 a) ++ slot_encodings s2 a ++ code_string s2 a).
#[export] Instance strings_clear_dec s1 s2 a : Decision (strings_clear s1 s2 a).
Proof. unfold strings_clear. apply _. Defined.

(** The header a store has under a hash, as it is hashed. *)
Definition header_string (st : BlockStore) (h : H256) : list bytes :=
  opt_string ((fun b => serialize (header b)) <$> by_hash st !! h).

Lemma named_code s1 s2 a :
  code_named s1 -> code_named s2 -> coll_free (code_string s1 a ++ code_string s2 a) ->
  zero_free (code_string s1 a ++ code_string s2 a) -> code_hash_of s1 a = code_hash_of s2 a ->
  StateDB.get_code s1 a = StateDB.get_code s2 a.
Proof.
  intros H1 H2 C Z E. rewrite H1, H2 in E. unfold StateDB.get_code, code_string in *.
  destruct (code s1 !! a) as [c1|], (code s2 !! a) as [c2|]; cbn [default opt_string] in *.
  - apply C; [set_solver.. | done].
  - destruct (Z c1); [set_solver | done].
  - destruct (Z c2); [set_solver | done].
  - done.
Qed.

Lemma same_root_same_state s1 s2 a :
  sound_state s1 -> sound_state s2 -> strings_clear s1 s2 a ->
  (StateDB.root_hash s1).2 = (StateDB.root_hash s2).2 -> same_account s1 s2 a.
Proof.
  intros [I1 _ C1] [I2 _ C2] [C Z] E. unfold account_strings in C.
  destruct (root_commits s1 s2 I1 I2 ltac:(eapply coll_free_mono, C; set_solver) E a) as [Hl _].
  destruct I1 as [W1 R1], I2 as [W2 R2].
  assert (account_view (account_or_default a s1) = account_view (account_or_default a s2)) as Hv
    by (by rewrite !view_live, Hl).
  injection Hv as Hn Hb Hc Hr. rewrite !storage_root_account in Hr by done.
  unfold same_account. rewrite !balance_default. split_and!; [done | done | |].
  - apply named_code; [done | done | eapply coll_free_mono, C | eapply zero_free_mono, Z | done]; set_solver.
  - apply storage_root_slots; [done | done | eapply coll_free_mono, C | eapply zero_free_mono, Z | done];
      set_solver.
Qed.

Lemma common_block_root l1 l2 h s1 s2 :
  ledger_inv l1 -> ledger_inv l2 ->
  snapshots (lg_store l1) !! h = Some s1 -> snapshots (lg_store l2) !! h = Some s2 ->
  coll_free (header_string (lg_store l1) h ++ header_string (lg_store l2) h) ->
  (StateDB.root_hash s1).2 = (StateDB.root_hash s2).2.
Proof.
  intros [R1 S1 _] [R2 S2 _] H1 H2 C. unfold header_string in C.
  destruct (S1 _ _ H1) as (b1 & Hb1 & ->), (S2 _ _ H2) as (b2 & Hb2 & ->). cbn [snd].
  pose proof (inv_keyed _ (inv_index _ (store_reachable_inv _ R1)) _ _ Hb1) as K1.
  pose proof (inv_keyed _ (inv_index _ (store_reachable_inv _ R2)) _ _ Hb2) as K2.
  destruct (store_reachable_accepted _ R1 _ _ Hb1) as [[Hw1 _] _].
  destruct (store_reachable_accepted _ R2 _ _ Hb2) as [[Hw2 _] _].
  rewrite Hb1, Hb2 in C. cbn in C.
  rewrite (header_hash_inj (header b1) (header b2) Hw1 Hw2 C); [done |].
  unfold block_hash in *. congruence.
Qed.

(** Agreement about every block both hold a state for, and about the live state:
    as far as the two headers and the strings hashed about the account are clear. *)
Definition nodes_agree (m n : Node) : Prop :=
  (forall h s1 s2 a,
     BlockStore.state_at (nd_store m) h = Some s1 -> BlockStore.state_at (nd_store n) h = Some s2 ->
     coll_free (header_string (nd_store m) h ++ header_string (nd_store n) h) ->
     strings_clear s1 s2 a -> same_account s1 s2 a) /\
  (forall h a,
     bs_head (nd_store m) = Some h -> bs_head (nd_store n) = Some h ->
     coll_free (header_string (nd_store m) h ++ header_string (nd_store n) h) ->
     strings_clear (lg_live (nd_ledger m)) (lg_live (nd_ledger n)) a ->
     same_account (lg_live (nd_ledger m)) (lg_live (nd_ledger n)) a).

Lemma steps_agree m0 m n0 n :
  node_inv m0 -> sound_ledger (nd_ledger m0) -> rtc node_step m0 m ->
  node_inv n0 -> sound_ledger (nd_ledger n0) -> rtc node_step n0 n -> nodes_agree m n.
Proof.
  intros Im Sm Hm In Sn Hn.
  pose proof (ledger_steps_sound _ _ (ni_ledger _ Im) Sm (node_steps_steps _ _ Im Hm)) as Sm'.
  pose proof (ledger_steps_sound _ _ (ni_ledger _ In) Sn (node_steps_steps _ _ In Hn)) as Sn'.
  apply node_steps_inv in Hm, Hn; [| done | done].
  assert (forall h s1 s2 a, snapshots (nd_store m) !! h = Some s1 -> snapshots (nd_store n) !! h = Some s2 ->
    coll_free (header_string (nd_store m) h ++ header_string (nd_store n) h) ->
    strings_clear s1 s2 a -> same_account s1 s2 a) as Hagree.
  { intros h s1 s2 a H1 H2 C Hc.
    apply same_root_same_state; [by eapply Sm' | by eapply Sn' | done |].
    exact (common_block_root _ _ h s1 s2 (ni_ledger _ Hm) (ni_ledger _ Hn) H1 H2 C). }
  split.
  - unfold BlockStore.state_at. intros h s1 s2 a (t1 & H1 & ->)%fmap_Some (t2 & H2 & ->)%fmap_Some.
    rewrite !state_fork_id. by eapply Hagree.
  - intros h a E1 E2. destruct (li_live _ (ni_ledger _ Hm)) as (h1 & Hh1 & L1).
    destruct (li_live _ (ni_ledger _ Hn)) as (h2 & Hh2 & L2).
    unfold nd_store in *. simplify_eq. by eapply Hagree.
Qed.

(** C5: Nodes agree: take two nodes, whatever tasks ran on them and in whatever order,
    that started from ledgers whose recorded states are sound.  On every block for
    which both hold a state, and on the live state when their heads are the same
    block, they agree about every account: its nonce, its balance, its code and all
    its storage slots.  The hypotheses name the strings whose digests are compared: the
    two headers stored for the block, the nodes of the two account tries and of the
    account's two storage tries, and the account's two codes are free of collisions, and
    no storage node or code has the all-zero digest.
    The nodes may have different genesis files, pools, orphans and histories. *)
Theorem replicas_agree m0 m n0 n :
  node_inv m0 -> sound_ledger (nd_ledger m0) -> rtc node_step m0 m ->
  node_inv n0 -> sound_ledger (nd_ledger n0) -> rtc node_step n0 n ->
  (forall h s1 s2 a,
     BlockStore.state_at (nd_store m) h = Some s1 -> BlockStore.state_at (nd_store n) h = Some s2 ->
     coll_free (header_string (nd_store m) h ++ header_string (nd_store n) h) ->
     strings_clear s1 s2 a -> same_account s1 s2 a) /\
  (forall h a,
     bs_head (nd_store m) = Some h -> bs_head (nd_store n) = Some h ->
     coll_free (header_string (nd_store m) h ++ header_string (nd_store n) h) ->
     strings_clear (lg_live (nd_ledger m)) (lg_live (nd_ledger n)) a ->
     same_account (lg_live (nd_ledger m)) (lg_live (nd_ledger n)) a).
Proof. apply steps_agree. Qed.
End Agreement.

(** ** Witnesses: two nodes on one chain *)

Definition shared_state : StateDB := alloc_state [(sample_address x01, U256.from_u64 1000000)].
Definition shared_root : H256 := (StateDB.root_hash shared_state).2.
Definition shared_genesis : Block := sample_rooted 0 H256.ZERO 1 shared_root.
Definition shared_block : Block := sample_rooted 1 (block_hash shared_genesis) 10 shared_root.
Definition shared_start : Ledger :=
  match BlockStore.insert_block shared_genesis (BlockStore.new (sample_poa x01)) with
  | (st, Ok o) => mkLedger (BlockStore.record_state (io_hash o) (StateDB.root_hash shared_state).1 st)
                    (StateDB.root_hash shared_state).1 TransactionPool.new
  | (st, Err _) => genesis_ledger
  end.
Definition shared_node (archive : bool) : @Node memory_mesh memory_rocks :=
  mkNode
    (mkRpcContext shared_start 1 (Some (gossip_tx (LC := memory_mesh)))
       (mkNetworkHandle (LC := memory_mesh) [] false 0) Rpc.Follower Address.ZERO [] 0 [] None []
       IvoryMetrics.new None)
    (memory_persist archive) ∅.

Lemma shared_sound_state : sound_state shared_state.
Proof.
  apply alloc_sound; [| vm_compute; reflexivity].
  apply Forall_cons. split; [by apply u256_wf_mk | by apply Forall_nil].
Qed.
Lemma shared_genesis_wf : block_wf shared_genesis.
Proof. apply sample_rooted_wf; unfold u64_ok; lia. Qed.
Lemma shared_block_wf : block_wf shared_block.
Proof. apply sample_rooted_wf; unfold u64_ok; lia. Qed.

Lemma shared_node_ready archive :
  node_inv (shared_node archive) /\ sound_ledger (nd_ledger (shared_node archive)).
Proof.
  change (nd_ledger (shared_node archive)) with shared_start.
  assert (is_ok (BlockStore.insert_block shared_genesis (BlockStore.new (sample_poa x01))).2 = true) as H
    by (vm_compute; reflexivity).
  assert (ledger_inv shared_start /\ sound_ledger shared_start) as [Hl Hs].
  { unfold shared_start.
    destruct (BlockStore.insert_block shared_genesis (BlockStore.new (sample_poa x01))) as [st [o|e]] eqn:E;
      [| discriminate H]. split.
    - eapply ledger_genesis_inv; [exact shared_genesis_wf | exact E | apply sample_rooted_fields].
    - rewrite state_inv_sync by exact (so_inv _ shared_sound_state).
      eapply genesis_sound; [exact (proj1 shared_genesis_wf) | exact E | exact shared_sound_state]. }
  split; [| exact Hs]. split; [exact Hl |]. intros h b. cbn. by rewrite lookup_empty.
Qed.

Definition shared_event : NetworkEvent := BlockReceived shared_block.
Lemma shared_run archive : rtc node_step (shared_node archive) (handle_event (LC := memory_mesh) shared_event (shared_node archive)).
Proof. apply rtc_once. exact (node_event (LC := memory_mesh) (shared_node archive) shared_event shared_block_wf). Qed.

Lemma node_refines_ledger_witness :
  exists n, rtc node_step (shared_node true) n /\ rtc ledger_step (nd_ledger (shared_node true)) (nd_ledger n).
Proof.
  eexists. split; [exact (shared_run true) |].
  exact (node_refines_ledger _ _ (proj1 (shared_node_ready true)) (shared_run true)).
Defined.

(** An archive and a pruning node. *)
Lemma replicas_agree_witness :
  let m := handle_event (LC := memory_mesh) shared_event (shared_node true) in
  let n := handle_event (LC := memory_mesh) shared_event (shared_node false) in
  bs_head (nd_store m) = Some (block_hash shared_block) /\
  same_account (lg_live (nd_ledger m)) (lg_live (nd_ledger n)) (sample_address x01).
Proof.
  intros m n. assert (bs_head (nd_store m) = Some (block_hash shared_block)) as Hm by (vm_compute; reflexivity).
  assert (bs_head (nd_store n) = Some (block_hash shared_block)) as Hn by (vm_compute; reflexivity).
  split; [exact Hm |].
  refine (proj2 (replicas_agree _ m _ n (proj1 (shared_node_ready true)) (proj2 (shared_node_ready true))
    (shared_run true) (proj1 (shared_node_ready false)) (proj2 (shared_node_ready false)) (shared_run false))
    _ (sample_address x01) Hm Hn _ _); apply (bool_decide_eq_true_1 _); vm_compute; reflexivity.
Defined.
