(* ===== verification/Sockets.v ===== *)
(** * Socket addresses: the parser of [std::net], and what binding can answer

    [run_node] parses [rpc_addr] and [rpc_read_addr] as [SocketAddr], binds a
    [tokio::net::TcpListener] to each and asks the first for its local address.
    The parser is the standard library's ([core::net::parser]): four decimal octets
    or a bracketed IPv6 address, then a port.  Binding is the machine's answer. *)

From S2P Require Import Prelude Hex.
#[local] Open Scope Z_scope.

Inductive SocketAddr : Type :=
| SocketV4 (octets : list Z) (port : Z)
| SocketV6 (groups : list Z) (scope_id port : Z).
#[export] Instance SocketAddr_eq_dec : EqDecision SocketAddr.
Proof. solve_decision. Defined.

Module SocketParser.
(** A reader consumes a prefix of the text, or fails and consumes nothing. *)
Definition reader (A : Type) : Type := bytes -> option (A * bytes).

Definition given_char (c : byte) : reader unit := fun s =>
  match s with b :: s => if decide (b = c) then Some (tt, s) else None | [] => None end.

(** [char::to_digit] *)
Definition to_digit (radix : Z) (b : byte) : option Z :=
  let v := byte_val b in
  let d := if (48 <=? v) && (v <=? 57) then v - 48
           else if (97 <=? v) && (v <=? 122) then v - 87
           else if (65 <=? v) && (v <=? 90) then v - 55 else 99 in
  if d <? radix then Some d else None.

(** The digits at the start, as a number, how many, and the rest. *)
Fixpoint digits (radix acc : Z) (count : nat) (s : bytes) : Z * nat * bytes :=
  match s with
  | [] => (acc, count, [])
  | b :: s' => match to_digit radix b with
               | Some d => digits radix (acc * radix + d) (S count) s'
               | None => (acc, count, s)
               end
  end.
Definition number (radix max : Z) (max_digits : option nat) (zero_prefix : bool) : reader Z := fun s =>
  let '(v, count, rest) := digits radix 0 0 s in
  let leading_zero := bool_decide (head s = Some x30) in
  if (count =? 0)%nat then None
  else if match max_digits with Some m => (m <? count)%nat | None => false end then None
  else if max <? v then None
  else if negb zero_prefix && leading_zero && (1 <? count)%nat then None
  else Some (v, rest).

Definition separated {A} (sep : byte) (index : nat) (inner : reader A) : reader A := fun s =>
  match index with
  | O => inner s
  | S _ => '(_, s) ← given_char sep s; inner s
  end.

Fixpoint octets (n index : nat) : reader (list Z) := fun s =>
  match n with
  | O => Some ([], s)
  | S n => '(v, s) ← separated x2e index (number 10 255 (Some 3%nat) false) s;
           '(vs, s) ← octets n (S index) s; Some (v :: vs, s)
  end.
Definition ipv4 : reader (list Z) := octets 4 0.
Definition port : reader Z := fun s => '(_, s) ← given_char x3a s; number 10 65535 None true s.

(** [read_groups]: up to [limit] groups, the last two perhaps in IPv4 notation; it
    always succeeds, with what it read and whether it ended in that notation. *)
Fixpoint groups (limit index : nat) (s : bytes) : list Z * bool * bytes :=
  match limit with
  | O => ([], false, s)
  | S limit' =>
      let embedded :=
        match limit' with O => None | S _ => separated x3a index ipv4 s end in
      match embedded with
      | Some ([a; b; c; d], s) => ([a * 256 + b; c * 256 + d], true, s)
      | _ =>
          match separated x3a index (number 16 65535 (Some 4%nat) true) s with
          | Some (g, s) => let '(gs, v4, s) := groups limit' (S index) s in (g :: gs, v4, s)
          | None => ([], false, s)
          end
      end
  end.
Definition ipv6 : reader (list Z) := fun s =>
  let '(front, v4, s) := groups 8 0 s in
  if (length front =? 8)%nat then Some (front, s)
  else if (v4 : bool) then None
  else
    '(_, s) ← given_char x3a s;
    '(_, s) ← given_char x3a s;
    let '(back, _, s) := groups (8 - (length front + 1)) 0 s in
    Some (front ++ replicate (8 - length front - length back) 0 ++ back, s).

Definition socket_v4 : reader SocketAddr := fun s =>
  '(ip, s) ← ipv4 s; '(p, s) ← port s; Some (SocketV4 ip p, s).
Definition scope_id : reader Z := fun s => '(_, s) ← given_char x25 s; number 10 4294967295 None true s.
Definition socket_v6 : reader SocketAddr := fun s =>
  '(_, s) ← given_char x5b s;
  '(ip, s) ← ipv6 s;
  let '(scope, s) := default (0, s) (scope_id s) in
  '(_, s) ← given_char x5d s;
  '(p, s) ← port s;
  Some (SocketV6 ip scope p, s).

(** The whole text is one address. *)
Definition whole {A} (r : reader A) (s : bytes) : option A :=
  match r s with Some (a, []) => Some a | _ => None end.
End SocketParser.

(** [str::parse::<SocketAddr>] *)
Definition parse_socket_addr (s : bytes) : option SocketAddr :=
  SocketParser.whole (fun s => match SocketParser.socket_v4 s with
                               | Some r => Some r
                               | None => SocketParser.socket_v6 s
                               end) s.

Example parse_socket_addrs :
  parse_socket_addr (str "127.0.0.1:8545") = Some (SocketV4 [127; 0; 0; 1] 8545) /\
  parse_socket_addr (str "[::1]:0") = Some (SocketV6 [0; 0; 0; 0; 0; 0; 0; 1] 0 0) /\
  parse_socket_addr (str "[fe80::1%3]:080") = Some (SocketV6 [65152; 0; 0; 0; 0; 0; 0; 1] 3 80) /\
  parse_socket_addr (str "[::ffff:10.0.0.1]:1") = Some (SocketV6 [0; 0; 0; 0; 0; 65535; 2560; 1] 0 1) /\
  parse_socket_addr (str "127.0.0.01:8545") = None /\ parse_socket_addr (str "127.0.0.1") = None /\
  parse_socket_addr (str "127.0.0.1:65536") = None /\ parse_socket_addr (str "localhost:8545") = None /\
  parse_socket_addr (str "256.0.0.1:1") = None /\ parse_socket_addr [] = None.
Proof. split_and!; vm_compute; reflexivity. Qed.

(** A bound listener, as far as [run_node] uses it: what [local_addr] answers. *)
Definition TcpListener : Type := result SocketAddr bytes.
