(* ===== verification/NodeRun.v ===== *)
(** * A node brought up: [run_node] of [bin/ivory/src/node.rs]

    [run_node] composes what the other files model: the ledger ([Node.startup]), the
    configuration of the network, the swarm ([Network.start]), the RPC context
    ([Node.node_new]), the RPC sockets and the producer task.  What the machine
    answers (opening the database directory, binding a socket, the listen address
    arriving within ten seconds) is a [Host].  The theorems bring a freshly
    initialised node up and let it run. *)

From S2P Require Import Prelude Hex Text Uint UintFacts UintProps Hash Address Bincode Core Trie TrieProps.
From S2P Require Import State StateProps Crypto Vm Executor ExecutorProps TxPool Consensus Store.
From S2P Require Import StoreProps StoreSpec Producer ProducerProps Apply ApplyProps Persist PersistProps PersistSpec.
From S2P Require Import Network Config ConfigProps Json Metrics Rpc RpcProps Node NodeProps NodeOrder NodeStart NodeAgree.
From S2P Require Import Sockets.
#[local] Open Scope Z_scope.

(** The [anyhow] errors of [run_node]. *)
Module RunError.
Inductive t `{RocksDbCrate} : Type :=
| Boot (e : NodeError.t)
| OpenChain (what : bytes)
| RpcAddr (text : bytes)
| BindRpc (what : bytes)
| RpcLocalAddr (what : bytes)
| RpcReadAddr (text : bytes)
| BindRpcRead (what : bytes)
| P2pListenTimeout
| P2pListenDropped
| AllowlistPeerId (text : bytes)
| ListenMultiaddr (text : bytes)
| BootstrapMultiaddr (text : bytes)
| Network (e : NetworkError.t).
End RunError.

(** How the wait for the first [ListenAddr] ends: the import task passes it on, ten
    seconds go by, or the import task ends first. *)
Inductive ListenWait `{Libp2pCrate} : Type :=
| Listening (a : Multiaddr)
| ListenTimeout
| ListenDropped.

(** What the machine answers; [host_bind] may depend on what is bound already. *)
Record Host `{Libp2pCrate} : Type := mkHost {
  host_open : result unit bytes;
  host_bind : list SocketAddr -> SocketAddr -> result TcpListener bytes;
  host_listen : NetService -> ListenWait }.
Arguments mkHost {_}.

(** What [run_node] leaves running. *)
Record RunningNode `{Libp2pCrate, RocksDbCrate} : Type := mkRunningNode {
  rn_node : Node;
  rn_service : NetService;
  rn_producer : option ProducerTask;
  rn_rpc_addr : SocketAddr;
  rn_p2p_addr : Multiaddr }.
Arguments mkRunningNode {_ _}.

Section Run.
Context {HC : HexCrate} {BC : BincodeCrate} {SC : Sha3Crate} {EC : Ed25519Crate} {WC : WasmiCrate}.
Context {DC : DashMapCrate} {ET : ErrorTexts} {LC : Libp2pCrate} {LH : Libp2pHost} {RC : RocksDbCrate}.

Definition node_network_config (cfg : NodeFileConfig) : result NetworkConfig RunError.t :=
  let? allowlist :=
    try_map (fun s => ok_or (parse_peer_id s) (RunError.AllowlistPeerId s))
      (filter (fun s => s ≠ []) (p2p_allowlist cfg)) in
  let? listen := ok_or (parse_multiaddr (p2p_listen cfg)) (RunError.ListenMultiaddr (p2p_listen cfg)) in
  let? boots := try_map (fun s => ok_or (parse_multiaddr s) (RunError.BootstrapMultiaddr s)) (bootstrap cfg) in
  Ok (mkNetworkConfig listen boots allowlist).

Definition producer_task (g : GenesisFile) (poa : PoAConfig) (key : SecretKey) : ProducerTask :=
  mkProducerTask (with_gas_limit (gf_gas_limit g)) poa (address_from_secret key) key.
(** [Duration::from_millis(cfg.block_interval_ms.max(50))] *)
Definition producer_interval (cfg : NodeFileConfig) : Z := Z.max (block_interval_ms cfg) 50.

(** What [run_node] checks of the genesis before it opens the database; [startup]
    computes it again. *)
Definition read_genesis (g : GenesisFile) : result unit NodeError.t :=
  let? poa := map_err NodeError.Config (poa_config g) in
  let? _ := map_err NodeError.Consensus (poa_new poa) in
  let? _ := validator_addr g in
  let? _ := map_err NodeError.Config (parsed_alloc g) in
  Ok tt.

(** The RPC listener, with the address it asked for and the one it got. *)
Definition bind_rpc (cfg : NodeFileConfig) (host : Host) : result (SocketAddr * SocketAddr) RunError.t :=
  let? asked := ok_or (parse_socket_addr (rpc_addr cfg)) (RunError.RpcAddr (rpc_addr cfg)) in
  let? listener := map_err RunError.BindRpc (host_bind host [] asked) in
  let? local := map_err RunError.RpcLocalAddr listener in
  Ok (asked, local).
(** The read-only listener, if one is configured. *)
Definition bind_rpc_read (cfg : NodeFileConfig) (host : Host) (rpc : SocketAddr) : result unit RunError.t :=
  match rpc_read_addr cfg with
  | [] => Ok tt
  | text =>
      let? asked := ok_or (parse_socket_addr text) (RunError.RpcReadAddr text) in
      let? _ := map_err RunError.BindRpcRead (host_bind host [rpc] asked) in
      Ok tt
  end.
Definition wait_listen (host : Host) (service : NetService) : result Multiaddr RunError.t :=
  match host_listen host service with
  | Listening a => Ok a
  | ListenTimeout => Err RunError.P2pListenTimeout
  | ListenDropped => Err RunError.P2pListenDropped
  end.

Definition run_node (cfg : NodeFileConfig) (g : GenesisFile) (key : SecretKey)
    (lookup : H256 -> option ContractMeta) (host : Host) : smonad ChainPersist RunError.t RunningNode :=
  let local_addr := address_from_secret key in
  slift (map_err RunError.Boot (read_genesis g)) ;;;
  slift (map_err RunError.OpenChain (host_open host)) ;;;
  boot <-! smap_err RunError.Boot (startup g) ;;
  let '(poa, l) := boot in
  producer <-! slift (map_err RunError.Boot (is_producer cfg g poa local_addr)) ;;
  net_cfg <-! slift (node_network_config cfg) ;;
  net <-! slift (map_err RunError.Network (start net_cfg)) ;;
  let '(network, peer_id, service) := net in
  rpc <-! slift (bind_rpc cfg host) ;;
  slift (bind_rpc_read cfg host rpc.1) ;;;
  p2p_addr <-! slift (wait_listen host service) ;;
  persist <-! sget id ;;
  sret (mkRunningNode
          (node_new cfg l producer local_addr network (peer_id_text peer_id) lookup persist)
          service
          (if (producer : bool) then Some (producer_task g poa key) else None)
          rpc.2 p2p_addr).
End Run.

Section Fresh.
Context {HC : HexCrate} {HL : HexLaws} {BC : BincodeCrate} {BL : BincodeLaws} {SC : Sha3Crate}.
Context {EC : Ed25519Crate} {EL : Ed25519Laws} {WC : WasmiCrate} {WL : WasmiLaws} {DC : DashMapCrate}.
Context {ET : ErrorTexts} {LC : Libp2pCrate} {LH : Libp2pHost} {RC : RocksDbCrate} {RL : RocksDbLaws}.
Context {HI : HashMapIter} {HIL : HashMapIterLaws}.

(** The database directory of a node that never ran. *)
Record fresh_db (p : ChainPersist) : Prop := {
  fd_healthy : healthy (cp_db p);
  fd_keep : 1 <= cp_archive_keep p;
  fd_empty k : view p k = None }.

(** Whether a node with key [key] seals blocks of the genesis written for [sk]. *)
Definition seals (sk : SecretKey) (cfg : NodeFileConfig) (key : SecretKey) : bool :=
  ServerRole.may_produce (role cfg) && bool_decide (address_from_secret key = address_from_secret sk).

Lemma init_producer sk g cfg key :
  init_genesis sk = Ok g ->
  is_producer cfg g (init_poa sk) (address_from_secret key) = Ok (seals sk cfg key).
Proof.
  rewrite init_genesis_file. intros [= <-]. unfold is_producer, validator_addr, seals.
  cbn [gf_validator gv_address]. rewrite address_from_to_hex. cbn [map_err rbind]. f_equal.
  destruct (ServerRole.may_produce (role cfg)); [| done]. cbn [andb].
  case_bool_decide as E; [| done]. rewrite E. by rewrite init_validator.
Qed.

Lemma init_read_genesis sk g : init_genesis sk = Ok g -> read_genesis g = Ok tt.
Proof.
  intros Hg. destruct (init_boot sk) as (g' & E1 & E2 & E3 & E4 & _). rewrite E1 in Hg. injection Hg as ->.
  unfold read_genesis. rewrite E3. cbn [map_err rbind].
  change (poa_new (init_poa sk)) with (@Ok PoAConfig ConsensusError.t (init_poa sk)). cbn [map_err rbind].
  destruct (genesis_validator _ _ E2) as [va ->]. by rewrite E4.
Qed.

(** The database a first start leaves: restartable, and holding the first ledger. *)
Definition first_saved (sk : SecretKey) (g : GenesisFile) (p p' : ChainPersist) : Prop :=
  restartable g (init_block sk) (first_ledger sk) p' /\ policy p' = policy p /\
  on_disk (lg_store (first_ledger sk)) (block_hash (init_block sk)) (init_block sk) (policy p)
    (view p) (view p').

(** What [run_node] returns on a fresh database, node by node. *)
Lemma run_node_fresh sk g cfg key lookup host p :
  init_genesis sk = Ok g -> fresh_db p -> host_open host = Ok tt ->
  exists p', first_saved sk g p p' /\
    run_node cfg g key lookup host p =
      (p', let? net_cfg := node_network_config cfg in
           let? net := map_err RunError.Network (start net_cfg) in
           let '(network, peer_id, service) := net in
           let? rpc := bind_rpc cfg host in
           let? _ := bind_rpc_read cfg host rpc.1 in
           let? p2p_addr := wait_listen host service in
           Ok (mkRunningNode
                 (node_new cfg (first_ledger sk) (seals sk cfg key) (address_from_secret key) network
                    (peer_id_text peer_id) lookup p')
                 service
                 (if seals sk cfg key then Some (producer_task g (init_poa sk) key) else None)
                 rpc.2 p2p_addr)).
Proof.
  intros Hg [Hp Hk He] Ho. destruct (first_boot sk p Hp Hk He) as (g' & p' & E1 & E2 & Hr).
  rewrite E1 in Hg. injection Hg as ->. exists p'. split; [exact Hr |]. unfold run_node.
  rewrite sbind_lift, (init_read_genesis sk g E1). cbn [map_err]. rewrite sbind_lift, Ho. cbn [map_err].
  rewrite (sbind_run _ _ p p' (Ok (init_poa sk, first_ledger sk))) by (unfold smap_err; by rewrite E2).
  rewrite sbind_lift, (init_producer sk g cfg key E1). cbn [map_err]. rewrite sbind_lift.
  destruct (node_network_config cfg) as [nc|e]; [| done]. cbn [rbind]. rewrite sbind_lift.
  destruct (start nc) as [[[h pid] svc]|e]; [| done]. cbn [map_err rbind].
  rewrite sbind_lift. destruct (bind_rpc cfg host) as [rpc|e]; [| done]. cbn [rbind].
  rewrite sbind_lift. destruct (bind_rpc_read cfg host rpc.1) as [[]|e]; [| done]. cbn [rbind].
  rewrite sbind_lift. by destruct (wait_listen host svc).
Qed.

Lemma first_ledger_sound sk : sound_ledger (first_ledger sk).
Proof.
  destruct (first_ledger_spec sk) as (_ & _ & _ & Hsn & _).
  intros h db. rewrite Hsn. intros [_ <-]%lookup_singleton_Some. apply alloc_sound.
  - apply Forall_cons. split; [apply init_balance_wf | by apply Forall_nil].
  - change (supply _) with (msum (<[address_from_secret sk := with_balance init_balance account_new]> ∅)).
    rewrite msum_insert_fresh by apply lookup_empty. vm_compute. reflexivity.
Qed.

Lemma fresh_node_ready sk cfg key h pid lookup p' :
  node_inv (node_new cfg (first_ledger sk) (seals sk cfg key) (address_from_secret key) h pid lookup p') /\
  sound_ledger (nd_ledger
    (node_new cfg (first_ledger sk) (seals sk cfg key) (address_from_secret key) h pid lookup p')).
Proof.
  split; [split |].
  - apply first_ledger_spec.
  - intros hash b. cbn. by rewrite lookup_empty.
  - exact (first_ledger_sound sk).
Qed.

(** The steps of [run_node] that depend on more than the ledger. *)
Definition node_up (cfg : NodeFileConfig) (host : Host) (nc : NetworkConfig) (svc : NetService)
    (rpc : SocketAddr) (p2p : Multiaddr) : Prop :=
  node_network_config cfg = Ok nc /\ (exists h pid, start nc = Ok (h, pid, svc)) /\
  (exists asked, parse_socket_addr (rpc_addr cfg) = Some asked /\ host_bind host [] asked = Ok (Ok rpc) /\
     (rpc_read_addr cfg = [] \/
      exists asked' listener, parse_socket_addr (rpc_read_addr cfg) = Some asked' /\
        host_bind host [asked] asked' = Ok listener)) /\
  host_listen host svc = Listening p2p.

Lemma run_node_up sk g cfg key lookup host p p' :
  init_genesis sk = Ok g -> fresh_db p -> forall r,
  run_node cfg g key lookup host p = (p', Ok r) ->
  host_open host = Ok tt /\ first_saved sk g p p' /\
  exists nc h pid, start nc = Ok (h, pid, rn_service r) /\
    node_up cfg host nc (rn_service r) (rn_rpc_addr r) (rn_p2p_addr r) /\
    rn_node r = node_new cfg (first_ledger sk) (seals sk cfg key) (address_from_secret key) h
                  (peer_id_text pid) lookup p' /\
    rn_producer r = (if seals sk cfg key then Some (producer_task g (init_poa sk) key) else None).
Proof.
  intros Hg Hp r E. destruct (host_open host) as [[]|e] eqn:Ho.
  2: { unfold run_node in E. rewrite sbind_lift, (init_read_genesis sk g Hg) in E. cbn [map_err] in E.
       by rewrite sbind_lift, Ho in E. }
  destruct (run_node_fresh sk g cfg key lookup host p Hg Hp Ho) as (p2 & Hr & E2). rewrite E2 in E. clear E2.
  destruct (node_network_config cfg) as [nc|e] eqn:En; [| done]. cbn [rbind] in E.
  destruct (start nc) as [[[h pid] svc]|e] eqn:Es; [| done]. cbn [rbind map_err] in E.
  destruct (bind_rpc cfg host) as [[asked local]|e] eqn:Eb; [| done]. cbn [rbind] in E.
  destruct (bind_rpc_read cfg host (asked, local).1) as [[]|e] eqn:Er; [| done]. cbn [rbind] in E.
  destruct (wait_listen host svc) as [a|e] eqn:Ew; [| done]. cbn [rbind] in E.
  injection E as <- <-. split; [done |]. split; [done |].
  exists nc, h, pid. cbn [rn_service rn_rpc_addr rn_p2p_addr rn_node rn_producer snd]. split; [done |].
  split; [| done]. split; [done |]. split; [by exists h, pid |]. split.
  - unfold bind_rpc in Eb. destruct (parse_socket_addr (rpc_addr cfg)) as [a1|] eqn:Ep; [| done]. simpl in Eb.
    destruct (host_bind host [] a1) as [l|e] eqn:El; [| done]. simpl in Eb.
    destruct l as [loc|e]; [| done]. simpl in Eb. injection Eb as -> ->. exists asked. split; [done |]. split; [done |].
    unfold bind_rpc_read in Er. destruct (rpc_read_addr cfg) as [|c text]; [by left | right].
    destruct (parse_socket_addr (c :: text)) as [a2|] eqn:Ep2; [| done]. simpl in Er.
    destruct (host_bind host [asked] a2) as [l2|e] eqn:El2; [| done]. eauto.
  - unfold wait_listen in Ew. destruct (host_listen host svc) as [a'| |]; [| done..]. by injection Ew as ->.
Qed.

Lemma node_up_runs sk g cfg key lookup host p nc svc rpc p2p :
  init_genesis sk = Ok g -> fresh_db p -> host_open host = Ok tt -> node_up cfg host nc svc rpc p2p ->
  is_ok (run_node cfg g key lookup host p).2 = true.
Proof.
  intros Hg Hp Ho (En & (h & pid & Es) & (asked & Ep & Eb & Er) & Ew).
  destruct (run_node_fresh sk g cfg key lookup host p Hg Hp Ho) as (p2 & _ & ->). cbn [snd].
  rewrite En. cbn [rbind]. rewrite Es. cbn [map_err rbind]. unfold bind_rpc. rewrite Ep. cbn [ok_or rbind].
  rewrite Eb. cbn [map_err rbind fst].
  assert (bind_rpc_read cfg host asked = Ok tt) as ->.
  { unfold bind_rpc_read. destruct (rpc_read_addr cfg) as [|c text]; [done |].
    destruct Er as [Er|(a2 & l2 & E1 & E2)]; [done |]. rewrite E1. cbn [ok_or rbind]. by rewrite E2. }
  cbn [rbind]. unfold wait_listen. by rewrite Ew.
Qed.

Lemma run_node_ready sk g cfg key lookup host p p' r :
  init_genesis sk = Ok g -> fresh_db p -> run_node cfg g key lookup host p = (p', Ok r) ->
  node_inv (rn_node r) /\ sound_ledger (nd_ledger (rn_node r)).
Proof.
  intros Hg Hp E. destruct (run_node_up sk g cfg key lookup host p p' Hg Hp r E)
    as (_ & _ & nc & h & pid & _ & _ & -> & _). apply fresh_node_ready.
Qed.

(** What a node that came up on a fresh database looks like. *)
Definition first_node (sk : SecretKey) (cfg : NodeFileConfig) (key : SecretKey) (r : RunningNode) : Prop :=
  node_inv (rn_node r) /\ nd_ledger (rn_node r) = first_ledger sk /\
  bs_head (nd_store (rn_node r)) = Some (block_hash (init_block sk)) /\
  lg_pool (nd_ledger (rn_node r)) = TransactionPool.new /\ cx_peers (nd_ctx (rn_node r)) = 0 /\
  (is_Some (rn_producer r) <-> role cfg = Master /\ address_from_secret key = address_from_secret sk) /\
  (cx_role (nd_ctx (rn_node r)) = Rpc.Producer <-> is_Some (rn_producer r)).

Lemma first_node_facts sk g cfg key lookup host p p' r :
  init_genesis sk = Ok g -> fresh_db p -> run_node cfg g key lookup host p = (p', Ok r) ->
  first_node sk cfg key r.
Proof.
  intros Hg Hp E. destruct (run_node_up sk g cfg key lookup host p p' Hg Hp r E)
    as (_ & _ & nc & h & pid & Es & _ & En & Epr).
  destruct (start_fields _ _ _ _ Es) as (-> & _). unfold first_node. rewrite En, Epr.
  split; [apply fresh_node_ready |]. split_and!; try done.
  - apply first_ledger_spec.
  - unfold seals. destruct (role cfg); cbn [ServerRole.may_produce andb]; [case_bool_decide |];
      (split; [intros [x Hx] | intros [H1 H2]]); try done; by eexists.
  - unfold node_new. cbn. destruct (seals sk cfg key); (split; [intros H | intros [x Hx]]); try done; by eexists.
Qed.

Lemma run_node_ok_iff sk g cfg key lookup host p :
  init_genesis sk = Ok g -> fresh_db p ->
  is_ok (run_node cfg g key lookup host p).2 = true <->
  host_open host = Ok tt /\ exists nc svc rpc p2p, node_up cfg host nc svc rpc p2p.
Proof.
  intros Hg Hp. split.
  - destruct (run_node cfg g key lookup host p) as [p' [r|e]] eqn:E; [| done]. intros _.
    destruct (run_node_up sk g cfg key lookup host p p' Hg Hp r E) as (Ho & _ & nc & _ & _ & _ & Hup & _).
    split; [done |]. eauto.
  - intros (Ho & nc & svc & rpc & p2p & Hup). by eapply node_up_runs.
Qed.

(** C18: When a freshly initialised node comes up: with the genesis file written for the
    key [sk] and an empty healthy database, [run_node] succeeds exactly when the
    database directory opens, the network part of the configuration parses and the
    swarm starts, the RPC address parses, binds and has a local address, the read-only
    RPC address is empty or parses and binds, and the swarm reports its listen address
    within ten seconds.  The node then holds the sealed genesis as its head, an empty
    pool, no peers, the configured allowlist, the addresses it was given and a
    database it can be restarted from; it produces blocks, and reports itself as
    the producer, exactly when it is configured as master and its own key has the
    address of the genesis validator.  When it does not come up although the directory
    opened, the genesis is saved all the same. *)
Theorem fresh_node_runs sk g cfg key lookup host p :
  init_genesis sk = Ok g -> fresh_db p ->
  let (p', out) := run_node cfg g key lookup host p in
  (is_ok out = true <-> host_open host = Ok tt /\ exists nc svc rpc p2p, node_up cfg host nc svc rpc p2p) /\
  (if is_ok (host_open host) then restartable g (init_block sk) (first_ledger sk) p' else p' = p) /\
  forall r, out = Ok r ->
    first_node sk cfg key r /\
    exists nc, node_up cfg host nc (rn_service r) (rn_rpc_addr r) (rn_p2p_addr r) /\
      ns_allowlist (rn_service r) = nc_allowlist nc.
Proof.
  intros Hg Hp. pose proof (run_node_ok_iff sk g cfg key lookup host p Hg Hp) as Hiff.
  destruct (run_node cfg g key lookup host p) as [p' out] eqn:E. split; [exact Hiff |]. split.
  - destruct (host_open host) as [[]|e] eqn:Ho; cbn [is_ok].
    + destruct (run_node_fresh sk g cfg key lookup host p Hg Hp Ho) as (p2 & [Hr _] & E2).
      rewrite E in E2. by injection E2 as -> _.
    + unfold run_node in E. rewrite sbind_lift, (init_read_genesis sk g Hg) in E. cbn [map_err] in E.
      rewrite sbind_lift, Ho in E. cbn [map_err] in E. by injection E as <- _.
  - intros r ->. split; [by eapply first_node_facts |].
    destruct (run_node_up sk g cfg key lookup host p p' Hg Hp r E)
      as (_ & _ & nc & h & pid & Es & Hup & _). exists nc. split; [done |].
    by destruct (start_fields _ _ _ _ Es) as (_ & _ & _ & _ & ->).
Qed.

(** C7: Nodes initialised from one genesis agree: bring two nodes up with the same
    genesis file on fresh databases, with any keys, roles and configurations, and let
    any events, producer turns and requests happen to each.  Then both are
    still consistent, and they agree about every account of every block for
    which both hold a state, and of their live states when their heads are the same
    block ([nodes_agree], under its hypotheses on the strings hashed for the two
    headers and about the account). *)
Theorem fresh_nodes_agree sk g cfg1 key1 look1 host1 p1 p1' r1 m cfg2 key2 look2 host2 p2 p2' r2 n :
  init_genesis sk = Ok g -> fresh_db p1 -> fresh_db p2 ->
  run_node cfg1 g key1 look1 host1 p1 = (p1', Ok r1) -> rtc node_step (rn_node r1) m ->
  run_node cfg2 g key2 look2 host2 p2 = (p2', Ok r2) -> rtc node_step (rn_node r2) n ->
  node_inv m /\ node_inv n /\ nodes_agree m n.
Proof.
  intros Hg H1 H2 E1 S1 E2 S2.
  destruct (run_node_ready _ _ _ _ _ _ _ _ _ Hg H1 E1) as [I1 O1], (run_node_ready _ _ _ _ _ _ _ _ _ Hg H2 E2) as [I2 O2].
  split_and!; [exact (node_steps_inv _ _ I1 S1) | exact (node_steps_inv _ _ I2 S2) | exact (steps_agree _ _ _ _ I1 O1 S1 I2 O2 S2)].
Qed.
End Fresh.

(** ** Witnesses: a producer, a follower and one block between them *)

Definition slave_config : NodeFileConfig :=
  mkNodeFileConfig 1 (str "127.0.0.1:8546") (str "/ip4/127.0.0.1/tcp/0") [str "7"] 2000 [] Slave
    [str "7"; []] true 256 [].
Definition no_contracts (_ : H256) : option ContractMeta := None.
Definition first_genesis : GenesisFile :=
  match init_genesis sample_sk with Ok g => g | Err _ => mkGenesisFile 0 0 (mkGenesisValidator [] []) [] [] end.
(** A machine on which everything is free. *)
Definition quiet_host : Host (H := memory_mesh) :=
  mkHost (H := memory_mesh) (Ok tt) (fun _ a => Ok (Ok a)) (fun _ => Listening (H := memory_mesh) (str "/ip4/127.0.0.1/tcp/4001")).
Definition brought_up (cfg : NodeFileConfig) (key : SecretKey) : option (RunningNode (H := memory_mesh)) :=
  match (run_node (LC := memory_mesh) (RC := memory_rocks) cfg first_genesis key no_contracts quiet_host fresh_persist).2 with
  | Ok r => Some r
  | Err _ => None
  end.
Definition first_transfer : Transaction := signed_transfer sample_sk (sample_address x09) 0 U256.ONE 21000.
Definition master_turn (r : RunningNode (H := memory_mesh)) : option Block :=
  t ← rn_producer r;
  match tick_block t (nd_ledger (handle_event (LC := memory_mesh) (TxReceived first_transfer) (rn_node r))) with
  | Some (Ok b) => Some b
  | _ => None
  end.

Lemma first_genesis_eq : init_genesis sample_sk = Ok first_genesis.
Proof. unfold first_genesis. rewrite init_genesis_file. reflexivity. Qed.
Lemma fresh_persist_db : fresh_db (RC := memory_rocks) fresh_persist.
Proof. split; [exact I | cbn; lia | exact fresh_view]. Qed.

Lemma brought_up_run cfg key r :
  brought_up cfg key = Some r ->
  exists p', run_node (LC := memory_mesh) (RC := memory_rocks) cfg first_genesis key no_contracts quiet_host fresh_persist
             = (p', Ok r).
Proof.
  unfold brought_up. destruct (run_node cfg first_genesis key no_contracts quiet_host fresh_persist) as [p' [r'|e]]; [| discriminate].
  intros H. exists p'. f_equal. f_equal. by injection H.
Qed.

(** The block the producer seals on its first turn, as its peers decode it. *)
Definition first_block : Block :=
  match (r ← brought_up node_config_default sample_sk; b ← master_turn r; deserialize (serialize b)) with
  | Some b => b
  | None => chain_g
  end.
Lemma first_block_wf : block_wf first_block.
Proof.
  unfold first_block. destruct (brought_up _ _ ≫= _) as [b|] eqn:E.
  - destruct (brought_up node_config_default sample_sk) as [r|]; [| discriminate E]. cbn [mbind option_bind] in E.
    destruct (master_turn r) as [b'|]; [| discriminate E]. cbn [mbind option_bind] in E.
    exact (deserialize_wf (A := Block) _ _ E).
  - apply sample_child_wf; unfold u64_ok; lia.
Qed.

Definition produce_first (r : RunningNode (H := memory_mesh)) : @Node memory_mesh memory_rocks :=
  match rn_producer r with
  | Some t => tick t (f64_of_Z 0) (handle_event (LC := memory_mesh) (TxReceived first_transfer) (rn_node r))
  | None => rn_node r
  end.
Definition import_first (r : RunningNode (H := memory_mesh)) : @Node memory_mesh memory_rocks :=
  handle_event (LC := memory_mesh) (BlockReceived first_block) (rn_node r).

Definition first_turn_ok (r1 r2 : RunningNode (H := memory_mesh)) : bool :=
  bool_decide (master_turn r1 = Some first_block) &&
  bool_decide (bs_head (nd_store (produce_first r1)) = Some (block_hash first_block)) &&
  bool_decide (bs_head (nd_store (import_first r2)) = Some (block_hash first_block)) &&
  bool_decide (coll_free (header_string (nd_store (produce_first r1)) (block_hash first_block) ++
                          header_string (nd_store (import_first r2)) (block_hash first_block))) &&
  bool_decide (strings_clear (lg_live (nd_ledger (produce_first r1))) (lg_live (nd_ledger (import_first r2)))
                 (sample_address x09)).
Lemma first_turn :
  exists r1 r2, brought_up node_config_default sample_sk = Some r1 /\
    brought_up slave_config (sample_key x05) = Some r2 /\ first_turn_ok r1 r2 = true.
Proof.
  assert (match brought_up node_config_default sample_sk, brought_up slave_config (sample_key x05) with
          | Some r1, Some r2 => first_turn_ok r1 r2
          | _, _ => false
          end = true) as H by (vm_compute; reflexivity).
  destruct (brought_up node_config_default sample_sk) as [r1|]; [| discriminate H].
  destruct (brought_up slave_config (sample_key x05)) as [r2|]; [| discriminate H].
  exists r1, r2. exact (conj eq_refl (conj eq_refl H)).
Qed.

(** The producer pools a transfer and takes its turn. *)
Lemma produce_first_steps r block :
  block_wf block -> master_turn r = Some block -> rtc node_step (rn_node r) (produce_first r).
Proof.
  unfold master_turn, produce_first. intros Hw H. destruct (rn_producer r) as [t|]; [| discriminate H].
  cbn [mbind option_bind] in H.
  eapply rtc_l; [apply (node_event (LC := memory_mesh) (rn_node r) (TxReceived first_transfer)); exact I |].
  apply rtc_once, node_tick. intros b Hb. rewrite Hb in H. injection H as ->. exact Hw.
Qed.
Lemma import_first_steps r : rtc node_step (rn_node r) (import_first r).
Proof.
  apply rtc_once. exact (node_event (LC := memory_mesh) (rn_node r) (BlockReceived first_block) first_block_wf).
Qed.

Lemma fresh_node_runs_witness :
  exists p' r, run_node (LC := memory_mesh) (RC := memory_rocks) node_config_default first_genesis sample_sk
                 no_contracts quiet_host fresh_persist = (p', Ok r) /\
    is_Some (rn_producer r) /\ cx_role (nd_ctx (rn_node r)) = Rpc.Producer /\
    rn_rpc_addr r = SocketV4 [127; 0; 0; 1] 8545.
Proof.
  pose proof (fresh_node_runs (LC := memory_mesh) (RC := memory_rocks) sample_sk first_genesis node_config_default
    sample_sk no_contracts quiet_host fresh_persist first_genesis_eq fresh_persist_db) as H.
  destruct (run_node node_config_default first_genesis sample_sk no_contracts quiet_host fresh_persist) as [p' out].
  destruct H as ([_ Hup] & _ & Hr).
  assert (is_ok out = true) as Hok.
  { apply Hup. split; [reflexivity |]. do 4 eexists. split; [reflexivity |].
    split; [do 2 eexists; reflexivity |]. split; [eexists; split; [reflexivity | split; [reflexivity | left; reflexivity]] |].
    reflexivity. }
  destruct out as [r|e]; [| discriminate Hok]. destruct (Hr r eq_refl) as ((_ & _ & _ & _ & _ & Hp & Hrole) & nc & Hn & _).
  destruct Hn as (_ & _ & (asked & E1 & E2 & _) & _).
  assert (is_Some (rn_producer r)) as Hs by exact (proj2 Hp (conj eq_refl eq_refl)).
  exists p', r. split; [reflexivity |]. split; [exact Hs |]. split; [exact (proj2 Hrole Hs) |].
  injection E1 as <-. injection E2 as <-. reflexivity.
Defined.

Lemma fresh_nodes_agree_witness :
  exists m n : Node, bs_head (nd_store m) = Some (block_hash first_block) /\
    bs_head (nd_store n) = Some (block_hash first_block) /\
    same_account (lg_live (nd_ledger m)) (lg_live (nd_ledger n)) (sample_address x09).
Proof.
  destruct first_turn as (r1 & r2 & E1 & E2 & H).
  destruct (brought_up_run _ _ _ E1) as [p1 R1]. destruct (brought_up_run _ _ _ E2) as [p2 R2].
  unfold first_turn_ok in H. apply andb_prop in H as [H H5]. apply andb_prop in H as [H H4].
  apply andb_prop in H as [H H3]. apply andb_prop in H as [H1 H2].
  apply bool_decide_eq_true in H1, H2, H3, H4, H5.
  destruct (fresh_nodes_agree sample_sk first_genesis _ _ _ _ _ _ r1 (produce_first r1) _ _ _ _ _ _ r2 (import_first r2)
    first_genesis_eq fresh_persist_db fresh_persist_db R1 (produce_first_steps r1 _ first_block_wf H1) R2 (import_first_steps r2))
    as (_ & _ & _ & Ha).
  exists (produce_first r1), (import_first r2).
  exact (conj H2 (conj H3 (Ha (block_hash first_block) (sample_address x09) H2 H3 H4 H5))).
Defined.
