(* ===== verification/NodeRestart.v ===== *)
(** * Restarting a node

    What a node writes when it accepts a block, as steps of its store, live state and
    database ([kept_step]); an invariant of an archive node that started with an empty
    database, which holds after every save; and from it that the node can be stopped
    after any sequence of events, turns and requests and started again. *)

From S2P Require Import Prelude Hex Text Uint UintFacts UintProps Hash Address Bincode Core Trie TrieProps.
From S2P Require Import State StateProps Crypto Vm Executor ExecutorProps TxPool Consensus Store.
From S2P Require Import StoreProps StoreSpec Producer ProducerProps Apply ApplyProps Persist PersistProps PersistSpec.
From S2P Require Import Network Config ConfigProps Json Metrics Rpc RpcProps Node NodeProps NodeOrder NodeStart NodeAgree.
From S2P Require Import Sockets NodeRun.
#[local] Open Scope Z_scope.

(** ** How a ledger grows *)

Section Growth.
Context {BC : BincodeCrate} {SC : Sha3Crate} {EC : Ed25519Crate} {WC : WasmiCrate} {DC : DashMapCrate}.
Abbreviation ledger_steps := (rtc ledger_step).

(** Blocks are never forgotten; at most their bodies are. *)
Definition grows (m m' : gmap H256 Block) : Prop :=
  forall h b, m !! h = Some b -> exists b', m' !! h = Some b' /\ header b' = header b.

Lemma ledger_step_grows l l' :
  ledger_inv l -> ledger_step l l' -> grows (by_hash (lg_store l)) (by_hash (lg_store l')).
Proof.
  intros Hl Hs h b Hb. destruct (li_live _ Hl) as (hd & Hhd & Hlive). destruct Hs as [nb Hw| |k|p]; cbn [lg_store].
  - pose proof (import_cases nb l (store_reachable_inv _ (li_store _ Hl)) Hw) as H.
    destruct (import_and_apply nb l) as [l' [o|e]]; cbn [fst]; [| subst l'; eauto].
    destruct H as (ps & trial & ctx & _ & _ & _ & _ & _ & Hf & _ & -> & _). exists b.
    split; [| done]. rewrite lookup_insert_ne; [done | congruence].
  - rewrite (proj1 (prune_snapshots_fields _)). eauto.
  - destruct (li_snapshots _ Hl _ _ Hlive) as (hb & Hhb & _).
    destruct (prune_keep_fields _ hd hb k (li_store _ Hl) Hhd Hhb) as (_ & -> & _). rewrite Hb.
    eexists. split; [done |]. by destruct (_ <? _).
  - eauto.
Qed.
Lemma ledger_steps_grows l l' :
  ledger_inv l -> ledger_steps l l' -> grows (by_hash (lg_store l)) (by_hash (lg_store l')).
Proof.
  intros Hl H. induction H as [l|l l1 l2 H1 H2 IH]; [intros h b; eauto |].
  intros h b Hb. destruct (ledger_step_grows _ _ Hl H1 _ _ Hb) as (b1 & Hb1 & <-).
  apply IH; [by eapply ledger_step_inv | done].
Qed.

(** No block hashes to zero, and the head is below the last height. *)
Definition bounded (s : BlockStore) : Prop :=
  BlockStore.get_block s H256.ZERO = None /\
  from_option (fun b => number (header b)) u64_max (BlockStore.head_block s) < u64_max.
#[export] Instance bounded_dec s : Decision (bounded s) := _.

Lemma bounded_head s hd b :
  bounded s -> bs_head s = Some hd -> by_hash s !! hd = Some b -> number (header b) < u64_max.
Proof.
  intros [_ H] Ehd Eb. unfold BlockStore.head_block, BlockStore.get_block in H. rewrite Ehd in H.
  cbn [mbind option_bind] in H. by rewrite Eb in H.
Qed.

Lemma bounded_back l l' :
  ledger_inv l -> ledger_steps l l' -> bounded (lg_store l') -> bounded (lg_store l).
Proof.
  intros Hl Hs Hb. pose proof (ledger_steps_grows _ _ Hl Hs) as Hg. pose proof (ledger_steps_inv _ _ Hl Hs) as Hl'.
  split.
  - destruct (BlockStore.get_block (lg_store l) H256.ZERO) as [b|] eqn:E; [| done].
    destruct (Hg _ _ E) as (b' & Hb' & _). destruct Hb as [Hz _]. unfold BlockStore.get_block in Hz. congruence.
  - destruct (li_live _ Hl) as (hd & Ehd & Hlive). destruct (li_snapshots _ Hl _ _ Hlive) as (b & Eb & _).
    destruct (li_live _ Hl') as (hd' & Ehd' & Hlive'). destruct (li_snapshots _ Hl' _ _ Hlive') as (b' & Eb' & _).
    pose proof (bounded_head _ _ _ Hb Ehd' Eb') as Hmax.
    unfold BlockStore.head_block, BlockStore.get_block. rewrite Ehd. cbn [mbind option_bind]. rewrite Eb.
    cbn [from_option]. destruct (Hg _ _ Eb) as (b1 & Hb1 & E1).
    pose proof (inv_head _ (store_reachable_inv _ (li_store _ Hl'))) as Hh. unfold head_inv in Hh. rewrite Ehd' in Hh.
    destruct Hh as (_ & Hbest & _). specialize (Hbest hd ltac:(eauto)). unfold no_better, height in Hbest.
    rewrite Hb1, Eb' in Hbest. cbn in Hbest. rewrite E1 in Hbest. destruct Hbest as [?|[? _]]; lia.
Qed.
End Growth.

(** ** What a node keeps *)

Section Saves.
Context {HC : HexCrate} {BC : BincodeCrate} {SC : Sha3Crate} {EC : Ed25519Crate} {WC : WasmiCrate}.
Context {DC : DashMapCrate} {ET : ErrorTexts} {LC : Libp2pCrate} {RC : RocksDbCrate}.
Context {HI : HashMapIter} {HIL : HashMapIterLaws}.

(** The part of a node that a save writes from and to. *)
Record Kept : Type := mkKept { kp_store : BlockStore; kp_live : StateDB; kp_db : ChainPersist }.
Definition kept_of (n : Node) : Kept := mkKept (nd_store n) (lg_live (nd_ledger n)) (nd_persist n).
Definition ledger_of (c : Kept) (pool : TransactionPool) : Ledger := mkLedger (kp_store c) (kp_live c) pool.

(** Saving the ledger after the import of [b], and pruning. *)
Definition save (b : Block) (l : Ledger) (p : ChainPersist) : Kept :=
  let p := (ChainPersist.persist_canonical (lg_store l) b p).1 in
  let '(live, nodes) := StateDB.trie_nodes (lg_live l) in
  let p := (ChainPersist.persist_trie_nodes nodes p).1 in
  mkKept (if ChainPersist.is_archive p then BlockStore.prune_snapshots (lg_store l)
          else BlockStore.prune_snapshots_keep (ChainPersist.archive_keep p) (lg_store l)) live p.

Inductive kept_step (c : Kept) : Kept -> Prop :=
| kept_import b pool l o :
    block_wf b -> import_and_apply b (ledger_of c pool) = (l, Ok o) -> kept_step c (save b l (kp_db c)).

Lemma persist_prune_save b n :
  kept_of (prune_store (persist_block b n)) = save b (nd_ledger n) (nd_persist n).
Proof.
  unfold save, prune_store, persist_block. cbn zeta.
  change (nd_ledger (on_persist _ n)) with (nd_ledger n).
  destruct (StateDB.trie_nodes _) as [live nodes].
  set (p := (ChainPersist.persist_trie_nodes nodes _).1).
  change (nd_persist (on_persist _ _)) with p. by destruct (ChainPersist.is_archive p).
Qed.

Lemma stored_kept b o l n m :
  block_wf b -> import_and_apply b (nd_ledger n) = (l, Ok o) -> same_frame (set_ledger l n) m ->
  kept_step (kept_of n) (kept_of (prune_store (persist_block b m))).
Proof.
  intros Hw E (El & Ep & _). rewrite persist_prune_save, El, Ep.
  change (nd_ledger (set_ledger l n)) with l. change (nd_persist (set_ledger l n)) with (kp_db (kept_of n)).
  apply (kept_import _ b (lg_pool (nd_ledger n)) l o Hw). unfold ledger_of, kept_of, nd_store. cbn [kp_store kp_live].
  by rewrite ledger_id.
Qed.

Lemma import_fuel_kept fuel b n n' :
  node_inv n -> block_wf b -> import_fuel fuel b n = Some n' ->
  node_inv n' /\ rtc kept_step (kept_of n) (kept_of n').
Proof.
  apply (import_fuel_closed (fun n n' => rtc kept_step (kept_of n) (kept_of n'))).
  - split; [intros ?; apply rtc_refl | intros ???; apply (transitivity (R := rtc _))].
  - intros x y El Ep. unfold kept_of, nd_store. rewrite El, Ep. apply rtc_refl.
  - intros b' o l x _ Hw E. exact (rtc_once _ _ (stored_kept b' o l x _ Hw E (import_notices_frame b' o _))).
Qed.

Lemma rpc_kept {W} method params (c : RpcContext W) :
  ctx_store (handle method params c).1 = ctx_store c /\ ctx_state (handle method params c).1 = ctx_state c.
Proof. destruct (handle_ledger method params c) as [p E]. unfold ctx_store, ctx_state. by rewrite E. Qed.

Lemma node_step_kept n n' : node_inv n -> node_step n n' -> rtc kept_step (kept_of n) (kept_of n').
Proof.
  intros Hn Hs. destruct Hs as [ev Hev|t elapsed Hw|m p|m p|k].
  - destruct ev as [b|tx|h|hd|h|p|p|a]; cbn [handle_event];
      try (destruct (BlockStore.get_block _ _)); try apply rtc_refl.
    + set (n1 := metric _ n).
      assert (node_inv n1) as Hn1 by by apply (node_inv_ledger n); [| apply Hn |].
      unfold import_block. destruct (import_fuel (import_bound n1) b n1) as [n2|] eqn:E; [| apply rtc_refl].
      by apply (import_fuel_kept _ _ _ _ Hn1 Hev) in E as [_ E].
    + destruct (TransactionPool.add_transaction _ _ _) as [p [h|e]]; apply rtc_refl.
  - unfold tick. destruct (tick_block t (nd_ledger n)) as [[b|e]|] eqn:Et; try apply rtc_refl.
    specialize (Hw b eq_refl). set (n1 := metric _ (metric _ n)).
    assert (node_inv n1) as Hn1 by by apply (node_inv_ledger n); [| apply Hn |].
    destruct (import_and_apply b (nd_ledger n1)) as [l' [o|e]] eqn:E.
    + exact (rtc_once _ _ (stored_kept b o l' n1 _ Hw E (produced_notices_frame b o _))).
    + destruct (refused_spec b l' e n1 Hn1 Hw E) as [-> _]. apply rtc_refl.
  - unfold rpc_call. destruct (rpc_kept m p (nd_ctx n)) as [E1 E2].
    destruct (handle m p (nd_ctx n)) as [c r]. cbn [fst] in *. unfold kept_of, nd_store, nd_ledger. cbn.
    unfold ctx_store, ctx_state in *. rewrite E1, E2. apply rtc_refl.
  - unfold rpc_read_call. destruct (rpc_kept m p (with_allow_methods (Some READ_ONLY_METHODS) (nd_ctx n))) as [E1 E2].
    destruct (handle m p _) as [c r]. cbn [fst] in *. unfold kept_of, nd_store, nd_ledger. cbn.
    unfold ctx_store, ctx_state in *. cbn [with_allow_methods cx_ledger] in *. rewrite E1, E2. apply rtc_refl.
  - apply rtc_refl.
Qed.

Lemma node_steps_kept n n' : node_inv n -> rtc node_step n n' -> rtc kept_step (kept_of n) (kept_of n').
Proof.
  intros Hn H. induction H as [n|n n1 n2 H1 H2 IH]; [apply rtc_refl |].
  etrans; [by apply node_step_kept |]. apply IH. by eapply node_step_inv.
Qed.

(** To the ledger, a save is a pruning, and a step of the node an import and a pruning. *)
Lemma save_ledger b l p pool : ledger_inv l -> rtc ledger_step l (ledger_of (save b l p) pool).
Proof.
  intros Hl. pose proof (live_synced l Hl) as Hlive. unfold save.
  destruct (StateDB.trie_nodes (lg_live l)) as [live nodes]. cbn [fst] in Hlive. subst live.
  set (p' := (ChainPersist.persist_trie_nodes nodes _).1). unfold ledger_of. cbn [kp_store kp_live].
  destruct (ChainPersist.is_archive p');
    (eapply rtc_l; [| apply (steps_pool (mkLedger _ (lg_live l) (lg_pool l)))]);
    [apply ledger_step_prune | apply ledger_step_prune_keep].
Qed.
Lemma import_ledger c b pool l o :
  ledger_inv (ledger_of c pool) -> block_wf b -> import_and_apply b (ledger_of c pool) = (l, Ok o) -> ledger_inv l.
Proof.
  intros Hl Hw E. replace l with (import_and_apply b (ledger_of c pool)).1 by by rewrite E.
  by apply ledger_import_inv.
Qed.
Lemma kept_step_ledger c c' pool :
  ledger_inv (ledger_of c pool) -> kept_step c c' -> rtc ledger_step (ledger_of c pool) (ledger_of c' pool).
Proof.
  intros Hl Hs. destruct Hs as [b pool' l o Hw E].
  assert (ledger_inv (ledger_of c pool')) as Hl0 by by apply (ledger_pool_inv (ledger_of c pool)).
  eapply rtc_l; [apply (ledger_step_pool _ pool') |]. cbn [lg_store lg_live ledger_of].
  fold (ledger_of c pool'). eapply rtc_l; [by apply (ledger_step_import _ b) |]. rewrite E. cbn [fst].
  apply save_ledger. by eapply import_ledger.
Qed.
Lemma kept_steps_ledger c c' pool :
  ledger_inv (ledger_of c pool) -> rtc kept_step c c' -> rtc ledger_step (ledger_of c pool) (ledger_of c' pool).
Proof.
  intros Hl H. induction H as [c|c c1 c2 H1 H2 IH]; [apply rtc_refl |].
  pose proof (kept_step_ledger _ _ pool Hl H1) as S1. etrans; [exact S1 |]. apply IH.
  by eapply ledger_steps_inv.
Qed.
End Saves.

(** ** An archive node *)

Section Archive.
Context {HC : HexCrate} {BC : BincodeCrate} {BL : BincodeLaws} {SC : Sha3Crate} {EC : Ed25519Crate}.
Context {WC : WasmiCrate} {WL : WasmiLaws} {DC : DashMapCrate} {RC : RocksDbCrate} {RL : RocksDbLaws}.

(** Between two steps of an archive node with genesis [g]: the ledger's invariants, all
    bodies are valid, [g] is the only block of height 0, exactly the blocks of the
    canonical chain have a recorded state, and the database holds that chain. *)
Record archived (cons : PoAConfig) (g : Block) (c : Kept) : Prop := {
  ar_ledger pool : ledger_inv (ledger_of c pool);
  ar_sound pool : sound_ledger (ledger_of c pool);
  ar_consensus : consensus (kp_store c) = cons;
  ar_bodies : bodies_valid (kp_store c);
  ar_root h b : by_hash (kp_store c) !! h = Some b -> number (header b) = 0 -> h = block_hash g;
  ar_states hd l h : bs_head (kp_store c) = Some hd -> ancestry (by_hash (kp_store c)) hd l ->
    is_Some (snapshots (kp_store c) !! h) <-> h ∈ l;
  ar_db : healthy (cp_db (kp_db c));
  ar_archive : cp_archive (kp_db c) = true;
  ar_keep : 1 <= cp_archive_keep (kp_db c);
  ar_disk hd head : bs_head (kp_store c) = Some hd -> by_hash (kp_store c) !! hd = Some head ->
    on_disk (kp_store c) hd head (policy (kp_db c)) (view (kp_db c)) (view (kp_db c)) }.

Lemma insert_block_consensus b s :
  store_inv s -> header_wf (header b) -> consensus (BlockStore.insert_block b s).1 = consensus s.
Proof.
  intros Hs Hw. destruct (insert_block_cases s b) as [(e & -> & _)|(Hl & _ & ->)]; [done |].
  pose proof (insert_validated_spec s b Hs Hw Hl) as H.
  destruct (by_hash s !! block_hash b); [by rewrite H |]. by destruct H as (s' & o & -> & _ & _ & _ & Hc & _).
Qed.

(** The path of a new head whose parent is on the path of the old one, or of the old head. *)
Lemma import_states b l l' o hd p hd' q :
  ledger_inv l -> block_wf b -> import_and_apply b l = (l', Ok o) ->
  bs_head (lg_store l) = Some hd -> ancestry (by_hash (lg_store l)) hd p ->
  (forall h, is_Some (snapshots (lg_store l) !! h) <-> h ∈ p) ->
  bs_head (lg_store l') = Some hd' -> ancestry (by_hash (lg_store l')) hd' q ->
  forall h, h ∈ q -> is_Some (snapshots (lg_store l') !! h).
Proof.
  intros Hl Hw E Ehd Hp Hst Ehd' Hq h Hh.
  pose proof (import_cases b l (store_reachable_inv _ (li_store _ Hl)) Hw) as H. rewrite E in H.
  destruct H as (ps & trial & ctx & Hps & _ & _ & _ & _ & Hf & _ & Hb & Hsn & Hcase).
  assert (by_hash (lg_store l) ⊆ by_hash (lg_store l')) as Hsub by (rewrite Hb; by apply insert_subseteq).
  assert (forall x, x ∈ p -> is_Some (snapshots (lg_store l') !! x)) as Hold.
  { intros x Hx%Hst. rewrite Hsn. destruct (decide (block_hash b = x)) as [->|Hne];
      [rewrite lookup_insert_eq; eauto | by rewrite lookup_insert_ne]. }
  destruct (io_head_changed o).
  - destruct Hcase as (Hh' & _). rewrite Hh' in Ehd'. apply (inj Some) in Ehd' as <-.
    assert (is_Some (snapshots (lg_store l') !! block_hash b)) as Hnew by (rewrite Hsn, lookup_insert_eq; eauto).
    inversion Hq as [h0 b0 Hb0 Hn0 | h0 b0 l0 Hb0 Hn0 Hl0]; subst.
    + by apply list_elem_of_singleton in Hh as ->.
    + rewrite Hb, lookup_insert_eq in Hb0. apply (inj Some) in Hb0 as <-.
      apply elem_of_cons in Hh as [->|Hh]; [done |]. apply Hold.
      assert (parent_hash (header b) ∈ p) as Hpar by (apply Hst; eauto).
      destruct (ancestry_elem _ _ _ _ Hp Hpar) as (l1 & l2 & -> & Hl2).
      rewrite (ancestry_det _ _ _ _ Hl0 (ancestry_grow _ _ _ _ Hsub Hl2)) in Hh. apply elem_of_app. by right.
  - destruct Hcase as (Hh' & _). rewrite Hh', Ehd in Ehd'. apply (inj Some) in Ehd' as <-.
    rewrite (ancestry_det _ _ _ _ Hq (ancestry_grow _ _ _ _ Hsub Hp)) in Hh. by apply Hold.
Qed.

(** A database that differs in trie nodes only, and a store that forgot states. *)
Lemma on_disk_pruned s s' hd head pol v0 v v' :
  store_inv s -> bs_head s = Some hd -> by_hash s !! hd = Some head -> number (header head) < u64_max ->
  (forall k, BlockStore.get_block_by_number s' k = BlockStore.get_block_by_number s k) ->
  (forall h st, BlockStore.state_at s' h = Some st -> BlockStore.state_at s h = Some st) ->
  (forall k, key_ok k -> (forall h, k <> KTrie h) -> v' k = v k) ->
  on_disk s hd head pol v0 v -> on_disk s' hd head pol v' v'.
Proof.
  intros Hi Ehd Hhead Hmax Hblk Hst Hv [H1 H2 H3 H4 H5 _ _].
  split; try (intros; by left); try done.
  - by rewrite Hv.
  - intros n b Eb. rewrite Hblk in Eb. rewrite Hv; [by apply H2 | | done].
    apply (saved_blocks s hd head Hi Ehd Hhead Hmax) in Eb as (? & _). unfold key_ok, u64_ok, u64_max in *. lia.
  - intros n b Eb. rewrite Hblk in Eb. rewrite Hv by done. by apply H3.
  - intros n b Eb Hk. rewrite Hblk in Eb. rewrite Hv by done. by apply (H4 n).
  - intros n b st Eb Es. rewrite Hblk in Eb. rewrite Hv by done. by apply (H5 n b st); [| apply Hst].
Qed.

(** What a save of a store below the last height leaves in the database. *)
Lemma save_on_disk b l p hd head :
  ledger_inv l -> bs_head (lg_store l) = Some hd -> by_hash (lg_store l) !! hd = Some head ->
  number (header head) < u64_max -> healthy (cp_db p) ->
  let c := save b l p in
  healthy (cp_db (kp_db c)) /\ policy (kp_db c) = policy p /\ kp_live c = lg_live l /\
  kp_store c = (if cp_archive p then BlockStore.prune_snapshots (lg_store l)
                else BlockStore.prune_snapshots_keep (cp_archive_keep p) (lg_store l)) /\
  forall s', (forall k, BlockStore.get_block_by_number s' k = BlockStore.get_block_by_number (lg_store l) k) ->
    (forall h st, BlockStore.state_at s' h = Some st -> BlockStore.state_at (lg_store l) h = Some st) ->
    on_disk s' hd head (policy p) (view (kp_db c)) (view (kp_db c)).
Proof.
  intros Hl Ehd Hhead Hmax Hp c. pose proof (store_reachable_inv _ (li_store _ Hl)) as Hi.
  destruct (persist_on_disk _ _ _ Hi Ehd Hhead Hmax (policy p) b p Hp eq_refl) as (p1 & E1 & Hp1 & Hpol1 & Ho).
  pose proof (live_synced l Hl) as Hlive. subst c. unfold save. rewrite E1. cbn [fst].
  destruct (StateDB.trie_nodes (lg_live l)) as [live nodes]. cbn [fst] in Hlive. subst live.
  destruct (persist_nodes_performs (policy p) nodes p1 Hp1 Hpol1) as (p2 & E2 & Hp2 & Hpol2 & V).
  rewrite E2. cbn [fst kp_store kp_live kp_db]. unfold ChainPersist.is_archive, ChainPersist.archive_keep.
  assert (cp_archive p2 = cp_archive p /\ cp_archive_keep p2 = cp_archive_keep p) as [-> ->]
    by by injection Hpol2.
  split_and!; try done. intros s' Hblk Hst. eapply on_disk_pruned; [done.. | | done].
  intros k Hk Hne. rewrite V by done. apply run_ops_untouched.
  intros v (nd & E & _)%list_elem_of_In%in_map_iff. injection E as E _. by apply (Hne nd.1).
Qed.
Lemma archived_step cons g c c' :
  archived cons g c -> kept_step c c' -> bounded (kp_store c') -> archived cons g c'.
Proof.
  intros Hc Hs Hbd. pose proof (fun pool => kept_step_ledger c c' pool (ar_ledger _ _ _ Hc pool) Hs) as Hsteps.
  destruct Hs as [b pool l o Hw E]. pose proof (ar_ledger _ _ _ Hc pool) as Hl0.
  pose proof (import_ledger _ _ _ _ _ Hl0 Hw E) as Hl.
  pose proof (bounded_back _ _ Hl (save_ledger b l (kp_db c) pool Hl) Hbd) as Hbl.
  destruct (li_live _ Hl) as (hd & Ehd & Hlive). destruct (li_snapshots _ Hl _ _ Hlive) as (head & Hhead & _).
  destruct (li_live _ Hl0) as (hd0 & Ehd0 & Hlive0). destruct (li_snapshots _ Hl0 _ _ Hlive0) as (head0 & Hhead0 & _).
  destruct (reachable_path _ _ _ (li_store _ Hl0) Hhead0) as [q0 Hq0].
  pose proof (fun q => import_states b _ l o hd0 q0 hd q Hl0 Hw E Ehd0 Hq0
    (fun h => ar_states _ _ _ Hc hd0 q0 h Ehd0 Hq0) Ehd) as Hst.
  destruct (save_on_disk b l (kp_db c) hd head Hl Ehd Hhead (bounded_head _ _ _ Hbl Ehd Hhead) (ar_db _ _ _ Hc))
    as (Hdb & Hpol & _ & Es & Hdisk). rewrite (ar_archive _ _ _ Hc) in Es.
  destruct (prune_snapshots_fields (lg_store l)) as (F1 & F2 & F3 & _).
  pose proof (import_cases b _ (store_reachable_inv _ (li_store _ Hl0)) Hw) as H. rewrite E in H.
  destruct H as (ps & trial & ctx & Hps & _ & _ & Hlink & Hval & _ & Estore & Hb & _).
  assert (cp_archive (kp_db (save b l (kp_db c))) = cp_archive (kp_db c) /\
    cp_archive_keep (kp_db (save b l (kp_db c))) = cp_archive_keep (kp_db c)) as [Harch Hkeep] by by injection Hpol.
  set (c' := save b l (kp_db c)) in *.
  assert (forall x, consensus (BlockStore.prune_snapshots x) = consensus x) as Hcons
    by (intros x; unfold BlockStore.prune_snapshots; by destruct (bs_head x)).
  split; try done.
  - intros p. exact (ledger_steps_inv _ _ (ar_ledger _ _ _ Hc p) (Hsteps p)).
  - intros p. exact (ledger_steps_sound _ _ (ar_ledger _ _ _ Hc p) (ar_sound _ _ _ Hc p) (Hsteps p)).
  - rewrite Es, Hcons, Estore. cbn [consensus BlockStore.record_state BlockStore.set_snapshots].
    rewrite insert_block_consensus; [apply Hc | apply store_reachable_inv, Hl0 | apply Hw].
  - intros h x. rewrite Es, F1, Hb. intros [[_ <-]|[_ Hx]]%lookup_insert_Some; [done | by apply (ar_bodies _ _ _ Hc h)].
  - intros h x. rewrite Es, F1, Hb. intros [[_ <-]|[_ Hx]]%lookup_insert_Some Hn; [| by apply (ar_root _ _ _ Hc h x)].
    exfalso. unfold linkable in Hlink. rewrite decide_True in Hlink by done. destruct Hlink as [Hz _].
    destruct (li_snapshots _ Hl0 _ _ Hps) as (z & Hz' & _). rewrite Hz in Hz'. destruct Hbl as [Hno _].
    unfold BlockStore.get_block in Hno. rewrite Hb in Hno. apply lookup_insert_None in Hno as [Hno _]. congruence.
  - intros hd' p h. rewrite Es, F1, F3, Ehd. intros [= <-] Hp.
    assert (h ∈ BlockStore.chain_from (lg_store l) hd <-> h ∈ p) as Hin
      by (by rewrite (chain_from_ancestry _ _ _ Hp), elem_of_rev).
    rewrite (prune_snapshots_lookup _ _ _ Ehd). case_decide as Hd; rewrite Hin in Hd.
    + split; [done | by apply (Hst p)].
    + split; [by intros [] | done].
  - rewrite Harch. apply Hc.
  - rewrite Hkeep. apply Hc.
  - intros hd' head'. rewrite Es, F1, F3, Ehd. intros [= <-]. rewrite Hhead. intros [= <-].
    replace (policy (kp_db c')) with (policy (kp_db c)) by (unfold policy; by rewrite Harch, Hkeep). apply Hdisk.
    + intros k. unfold BlockStore.get_block_by_number, BlockStore.get_block. by rewrite F1, F2.
    + intros h st. rewrite !state_at_snapshots, (prune_snapshots_lookup _ _ _ Ehd). by case_decide.
Qed.

Lemma archived_steps cons g c c' :
  archived cons g c -> rtc kept_step c c' -> bounded (kp_store c') -> archived cons g c'.
Proof.
  intros Hc Hs Hbd. induction Hs as [c|c c1 c2 H1 H2 IH]; [done |]. apply IH; [| done].
  eapply archived_step; [done.. |].
  pose proof (kept_step_ledger c c1 TransactionPool.new (ar_ledger _ _ _ Hc _) H1) as S1.
  pose proof (ledger_steps_inv _ _ (ar_ledger _ _ _ Hc _) S1) as Hl1.
  exact (bounded_back _ _ Hl1 (kept_steps_ledger c1 c2 TransactionPool.new Hl1 H2) Hbd).
Qed.

(** *** Restarting it *)

(** No recorded state has a table of 2^64 entries. *)
Definition states_sized (s : BlockStore) : Prop := map_Forall (fun _ st => state_sized st) (snapshots s).
#[export] Instance states_sized_dec s : Decision (states_sized s) := _.

(** What a restart brings back: all of the ledger but side branches and the pool. *)
Record resumed (s : BlockStore) (live : StateDB) (l : Ledger) : Prop := {
  re_inv : ledger_inv l;
  re_head : bs_head (lg_store l) = bs_head s;
  re_blocks n : BlockStore.get_block_by_number (lg_store l) n = BlockStore.get_block_by_number s n;
  re_states : snapshots (lg_store l) = snapshots s;
  re_live : lg_live l = live;
  re_pool : lg_pool l = TransactionPool.new }.

Section Resume.
Context (cons : PoAConfig) (g : Block) (c : Kept) (Hc : archived cons g c).
Context (Hbd : bounded (kp_store c)) (Hsz : states_sized (kp_store c)).
Context (hd : H256) (head : Block).
Hypothesis Ehd : bs_head (kp_store c) = Some hd.
Hypothesis Hhead : by_hash (kp_store c) !! hd = Some head.

Let Hinv : store_inv (kp_store c) := store_reachable_inv _ (li_store _ (ar_ledger _ _ _ Hc TransactionPool.new)).
Let Hmax : number (header head) < u64_max := bounded_head _ _ _ Hbd Ehd Hhead.

(** Every canonical block has its state, and the database has both. *)
Lemma canonical_state n b :
  BlockStore.get_block_by_number (kp_store c) n = Some b ->
  exists st, BlockStore.state_at (kp_store c) (block_hash b) = Some st /\
    disk_state (kp_db c) (block_hash b) = Some st.
Proof.
  intros Eb. pose proof (saved_blocks _ hd head Hinv Ehd Hhead Hmax _ _ Eb) as (_ & En & _).
  pose proof (inv_head _ Hinv) as Hh. unfold head_inv in Hh. rewrite Ehd in Hh. destruct Hh as (_ & _ & q & Hq & Hn).
  rewrite Hn in En. apply (canonical_index_lookup _ hd _ _ _ (inv_index _ Hinv) Hq) in En as [Hin _].
  2: { unfold height. by rewrite Hhead. }
  apply (ar_states _ _ _ Hc hd q _ Ehd Hq) in Hin as [st Est]. exists st.
  assert (BlockStore.state_at (kp_store c) (block_hash b) = Some st) as Es by by rewrite state_at_snapshots.
  split; [done |]. unfold disk_state. rewrite (od_state _ _ _ _ _ _ (ar_disk _ _ _ Hc hd head Ehd Hhead) _ _ _ Eb Es).
  cbn [mbind option_bind].
  pose proof (saved_state_back st (so_inv _ (ar_sound _ _ _ Hc TransactionPool.new _ _ Est)) (Hsz _ _ Est)) as H.
  apply fmap_Some in H as (snap & -> & ->). done.
Qed.

Lemma state_canonical h :
  is_Some (snapshots (kp_store c) !! h) ->
  exists n b, BlockStore.get_block_by_number (kp_store c) n = Some b /\ h = block_hash b.
Proof.
  intros Hst. pose proof (inv_head _ Hinv) as Hh. unfold head_inv in Hh. rewrite Ehd in Hh.
  destruct Hh as (_ & _ & q & Hq & Hn). apply (ar_states _ _ _ Hc hd q _ Ehd Hq) in Hst.
  destruct (ancestry_dom _ _ _ _ Hq Hst) as [b Hb]. pose proof (inv_keyed _ (inv_index _ Hinv) _ _ Hb) as Hk.
  exists (number (header b)), b. split; [| done]. apply get_by_number; [apply Hinv |]. rewrite Hk. split; [| done].
  rewrite Hn. apply (canonical_index_lookup _ hd _ _ _ (inv_index _ Hinv) Hq).
  - unfold height. by rewrite Hhead.
  - split; [done |]. unfold height. by rewrite Hb.
Qed.

Lemma archived_loads :
  exists t, ChainPersist.load_into (kp_db c) g (BlockStore.new cons) = (t, Ok (Some (number (header head)))) /\
    bs_head t = Some hd /\ by_number t = by_number (kp_store c) /\ snapshots t = snapshots (kp_store c) /\
    forall n b, BlockStore.get_block_by_number (kp_store c) n = Some b -> by_hash t !! block_hash b = Some b.
Proof.
  pose proof (ar_disk _ _ _ Hc hd head Ehd Hhead) as Hd.
  assert (forall n, keeps_at (policy (kp_db c)) (number (header head)) n = true) as Hkeep
    by (intros n; unfold keeps_at, policy; by rewrite (ar_archive _ _ _ Hc)).
  pose proof (store_reachable_accepted _ (li_store _ (ar_ledger _ _ _ Hc TransactionPool.new))) as Ha.
  destruct (load_reloads (kp_store c) hd head Hinv Ehd Hhead Hmax) with (pol := policy (kp_db c)) (p := kp_db c)
    (v0 := view (kp_db c)) (top := number (header head)) (genesis := g) as (t & El & Eh & En & Hout & Hb); try done.
  - intros h b Hb. by apply (Ha _ _ Hb).
  - apply Hc.
  - intros h b Hb. by apply (Ha _ _ Hb).
  - destruct (saved_head _ hd head Hinv Ehd Hhead Hmax) as [Eh _].
    apply (saved_blocks _ hd head Hinv Ehd Hhead Hmax) in Eh as (? & _). lia.
  - intros n b _ Eb _. apply (saved_blocks _ hd head Hinv Ehd Hhead Hmax) in Eb as (_ & _ & Eb & _).
    by apply (ar_bodies _ _ _ Hc _ _ Eb).
  - intros n b raw Eb Hraw. destruct (canonical_state n b Eb) as (st & _ & H). unfold disk_state in H.
    rewrite Hraw in H. cbn [mbind option_bind] in H. by destruct (deserialize raw).
  - destruct (saved_head _ hd head Hinv Ehd Hhead Hmax) as [Eh _].
    apply (saved_blocks _ hd head Hinv Ehd Hhead Hmax) in Eh as ([H0 _] & _).
    destruct (saved_total _ hd head Hinv Ehd Hhead Hmax 0) as [b Eb]; [lia |].
    apply (saved_blocks _ hd head Hinv Ehd Hhead Hmax) in Eb as (_ & En & Eb & Hn & _).
    by rewrite <- (ar_root _ _ _ Hc _ _ Eb Hn).
  - rewrite (ar_consensus _ _ _ Hc) in El. exists t. split; [done |]. split; [done |]. split; [done |]. split.
    + apply map_eq. intros h. apply option_eq. intros st. rewrite <- !state_at_snapshots. split; intros Hst.
      * destruct (Hout h) as (n & b & Eb & ->); [rewrite <- state_at_snapshots; eauto |].
        destruct (canonical_state n b Eb) as (st' & Es & Ed). rewrite (proj2 (Hb n b Eb)) in Hst. congruence.
      * destruct (state_canonical h) as (n & b & Eb & ->); [rewrite <- state_at_snapshots; eauto |].
        destruct (canonical_state n b Eb) as (st' & Es & Ed). rewrite (proj2 (Hb n b Eb)). congruence.
    + intros n b Eb. destruct (Hb n b Eb) as [H _]. unfold restored in H. by rewrite Hkeep in H.
Qed.
End Resume.
End Archive.

Section Restart.
Context {HC : HexCrate} {HL : HexLaws} {BC : BincodeCrate} {BL : BincodeLaws} {SC : Sha3Crate}.
Context {EC : Ed25519Crate} {EL : Ed25519Laws} {WC : WasmiCrate} {WL : WasmiLaws} {DC : DashMapCrate}.
Context {ET : ErrorTexts} {LC : Libp2pCrate} {LH : Libp2pHost} {RC : RocksDbCrate} {RL : RocksDbLaws}.
Context {HI : HashMapIter} {HIL : HashMapIterLaws}.

Lemma archived_restarts cons g genesis c :
  archived cons genesis c -> bounded (kp_store c) -> states_sized (kp_store c) ->
  (exists cfg, poa_config g = Ok cfg /\ poa_new cfg = Ok cons) ->
  (exists entries, parsed_alloc g = Ok entries) -> genesis_block g = Ok genesis ->
  exists l, startup g (kp_db c) = (kp_db c, Ok (cons, l)) /\ resumed (kp_store c) (kp_live c) l.
Proof.
  intros Hc Hbd Hsz Hpoa Halloc Hg. pose proof (ar_ledger _ _ _ Hc TransactionPool.new) as Hl.
  destruct (li_live _ Hl) as (hd & Ehd & Hlive). destruct (li_snapshots _ Hl _ _ Hlive) as (head & Hhead & _).
  assert (store_inv (kp_store c)) as Hinv by exact (store_reachable_inv _ (li_store _ Hl)).
  change (bs_head (kp_store c) = Some hd) in Ehd. change (by_hash (kp_store c) !! hd = Some head) in Hhead.
  destruct (archived_loads cons genesis c Hc Hbd Hsz hd head Ehd Hhead) as (t & El & Eh & En & Esn & Hblk).
  destruct (startup_restored g genesis cons (kp_db c) t (kp_live c) hd _ Hpoa Halloc Hg El Eh) as [Estart Hreach].
  { by rewrite state_at_snapshots, Esn. }
  exists (mkLedger t (kp_live c) TransactionPool.new). split; [done |]. split; cbn [lg_store lg_live lg_pool]; try done.
  - split; cbn [lg_store lg_live]; [done | |].
    + intros h db. rewrite Esn. intros Hdb.
      destruct (state_canonical cons genesis c Hc Hbd hd head Ehd Hhead h) as (n & b & Eb & ->); [eauto |].
      exists b. split; [by apply Hblk with n |].
      destruct (li_snapshots _ Hl _ _ Hdb) as (b' & Eb' & Hroot). change (by_hash (kp_store c) !! block_hash b = Some b') in Eb'.
      apply (get_by_number _ _ _ (inv_index _ Hinv)) in Eb as [_ Eb].
      by simplify_eq.
    + exists hd. by rewrite Esn.
  - etransitivity; [exact Eh | symmetry; exact Ehd].
  - intros n. destruct (BlockStore.get_block_by_number (kp_store c) n) as [b|] eqn:Eb.
    + pose proof (Hblk _ _ Eb) as Ht. unfold BlockStore.get_block_by_number. rewrite En.
      apply (get_by_number _ _ _ (inv_index _ Hinv)) in Eb as [-> _].
      exact Ht.
    + unfold BlockStore.get_block_by_number in *. rewrite En. destruct (by_number (kp_store c) !! n) as [h|] eqn:Eh'; [| done].
      pose proof (canonical_blocks _ hd head Hinv Ehd Hhead
        (bounded_head _ _ _ Hbd Ehd Hhead)) as (_ & _ & H).
      destruct (H _ _ Eh') as (_ & b & Hb & _). cbn [mbind option_bind] in Eb. unfold BlockStore.get_block in Eb.
      congruence.
Qed.

Lemma first_archived sk g cfg key lookup host p p' r :
  init_genesis sk = Ok g -> fresh_db p -> ChainPersist.is_archive p = true ->
  run_node cfg g key lookup host p = (p', Ok r) -> archived (init_poa sk) (init_block sk) (kept_of (rn_node r)).
Proof.
  intros Hg Hp Ha E. destruct (run_node_ready _ _ _ _ _ _ _ _ _ Hg Hp E) as [Hi Hs].
  destruct (run_node_up sk g cfg key lookup host p p' Hg Hp r E)
    as (_ & (Hr & Hpol & Hd) & nc & h & pid & _ & _ & En & _).
  destruct (first_ledger_spec sk) as (_ & Hhd & Hb & Hsn & Hc & _).
  assert (cp_archive p' = cp_archive p) as Ha' by by injection Hpol. unfold ChainPersist.is_archive in Ha.
  assert (nd_ledger (rn_node r) = first_ledger sk) as El by by rewrite En.
  assert (kept_of (rn_node r) = mkKept (lg_store (first_ledger sk)) (lg_live (first_ledger sk)) p') as ->
    by by rewrite En.
  apply ni_ledger in Hi. rewrite El in Hi, Hs. split; cbn [kp_store kp_live kp_db ledger_of lg_store].
  - intros pool. exact (ledger_pool_inv (first_ledger sk) pool Hi).
  - intros pool. exact Hs.
  - exact Hc.
  - intros h' b. rewrite Hb. intros [_ <-]%lookup_singleton_Some. apply init_sealed_valid.
  - intros h' b. rewrite Hb. by intros [<- _]%lookup_singleton_Some.
  - intros hd l h'. rewrite Hhd, Hb, Hsn. intros [= <-] Hl.
    assert (ancestry {[block_hash (init_block sk) := init_block sk]} (block_hash (init_block sk)) [block_hash (init_block sk)])
      as Hone by (eapply ancestry_root; [apply lookup_singleton_eq | done]).
    rewrite (ancestry_det _ _ _ _ Hl Hone), list_elem_of_singleton. split.
    + intros [x [<- _]%lookup_singleton_Some]. done.
    + intros ->. rewrite lookup_singleton_eq. eauto.
  - apply Hr.
  - by rewrite Ha'.
  - apply Hr.
  - intros hd head. rewrite Hhd, Hb. intros [= <-]. rewrite lookup_singleton_eq. intros [= <-].
    pose proof (store_reachable_inv _ (li_store _ Hi)) as Hinv.
    replace (policy p') with (policy p).
    eapply (on_disk_pruned (lg_store (first_ledger sk))); [done | done | by rewrite Hb, lookup_singleton_eq | done | done.. | exact Hd].
Qed.

(** C17: A node can be stopped and started again: bring an archive node up with the
    genesis file of any key on an empty healthy database, and let any events, producer
    turns and requests happen to it, handler by handler.  As long as no block it knows
    hashes to zero, its head is below the last height and no recorded state has a table
    of 2^64 entries, starting it on the database it leaves, without a last save,
    succeeds and leaves the database as it was: the same head, the same block at every
    height with its body, the same recorded states and live state, and the ledger's
    invariant.  Side branches are gone, and the pool is empty. *)
Theorem restart_resumes sk g cfg key lookup host p p' r n :
  init_genesis sk = Ok g -> fresh_db p -> ChainPersist.is_archive p = true ->
  run_node cfg g key lookup host p = (p', Ok r) -> rtc node_step (rn_node r) n ->
  bounded (nd_store n) -> states_sized (nd_store n) ->
  exists l, startup g (nd_persist n) = (nd_persist n, Ok (init_poa sk, l)) /\
    resumed (nd_store n) (lg_live (nd_ledger n)) l.
Proof.
  intros Hg Hp Ha E Hs Hbd Hsz. destruct (init_boot sk) as (g' & E1 & E2 & E3 & E4 & _).
  rewrite E1 in Hg. injection Hg as ->.
  pose proof (first_archived sk g cfg key lookup host p p' r E1 Hp Ha E) as H0.
  destruct (run_node_ready _ _ _ _ _ _ _ _ _ E1 Hp E) as [Hi _].
  pose proof (archived_steps _ _ _ _ H0 (node_steps_kept _ _ Hi Hs) Hbd) as H.
  apply (archived_restarts _ g _ _ H Hbd Hsz); [by exists (init_poa sk) | eauto | done].
Qed.
End Restart.

(** ** Witness *)

(** The producer of [NodeRun] stopped after it sealed a block with a transfer. *)
Lemma restart_resumes_witness :
  exists n l, bs_head (nd_store n) = Some (block_hash first_block) /\
    startup first_genesis (nd_persist n) = (nd_persist n, Ok (init_poa sample_sk, l)) /\
    bs_head (lg_store l) = Some (block_hash first_block) /\ lg_live l = lg_live (nd_ledger n).
Proof.
  assert (match brought_up node_config_default sample_sk with
          | Some r => bool_decide (master_turn r = Some first_block) &&
                      bool_decide (bs_head (nd_store (produce_first r)) = Some (block_hash first_block)) &&
                      bool_decide (bounded (nd_store (produce_first r))) &&
                      bool_decide (states_sized (nd_store (produce_first r)))
          | None => false
          end = true) as H by (vm_compute; reflexivity).
  destruct (brought_up node_config_default sample_sk) as [r|] eqn:Er; [| discriminate H].
  apply andb_prop in H as [H H4]. apply andb_prop in H as [H H3]. apply andb_prop in H as [H1 H2].
  apply bool_decide_eq_true in H1, H2, H3, H4. destruct (brought_up_run _ _ _ Er) as [p' R].
  destruct (restart_resumes (RC := memory_rocks) (RL := memory_rocks_laws) sample_sk first_genesis _ _ _ _ _ _ r
    (produce_first r) first_genesis_eq fresh_persist_db eq_refl R (produce_first_steps r _ first_block_wf H1) H3 H4)
    as (l & E & Hr).
  exists (produce_first r), l. rewrite (re_head _ _ _ Hr). exact (conj H2 (conj E (conj H2 (re_live _ _ _ Hr)))).
Defined.
