(* ===== verification/Datadir.v ===== *)
(** * Data directories: [bin/ivory/src/config.rs]

    [init_datadir_with] and [load_datadir] on the file system of [Path].  Drawing a
    key is the caller's: the new key is an argument.  The texts of the TOML and JSON
    files are the class [ConfigText].  Writing TOML can fail; the laws say that a
    configuration whose integers TOML has is written and read back, and that a genesis
    is read back from its text and a line break, its allocation in some order. *)

From S2P Require Import Prelude Hex Text Uint UintFacts Hash Address Bincode Core Path.
From S2P Require Import Trie State Crypto Consensus Config.
#[local] Open Scope Z_scope.

Class ConfigText := {
  config_text : NodeFileConfig -> option bytes;
  parse_config : bytes -> option NodeFileConfig;
  genesis_text : GenesisFile -> bytes;
  parse_genesis : bytes -> option GenesisFile }.
(** TOML integers are 64-bit signed. *)
Definition toml_int (n : Z) : Prop := 0 <= n < 2 ^ 63.
#[export] Instance toml_int_dec n : Decision (toml_int n) := _.
Definition toml_config (c : NodeFileConfig) : Prop :=
  toml_int (chain_id c) /\ toml_int (block_interval_ms c) /\ toml_int (archive_keep c).
#[export] Instance toml_config_dec c : Decision (toml_config c) := _.
Class ConfigTextLaws `{ConfigText} : Prop := {
  config_text_parse c :
    toml_config c -> exists text, config_text c = Some text /\ utf8_ok text = true /\ parse_config text = Some c;
  genesis_text_utf8 g : utf8_ok (genesis_text g ++ [x0a]) = true;
  genesis_text_parse g :
    NoDup (map fst (gf_alloc g)) ->
    exists alloc, alloc ≡ₚ gf_alloc g /\
      parse_genesis (genesis_text g ++ [x0a]) =
        Some (mkGenesisFile (gf_timestamp g) (gf_gas_limit g) (gf_validator g) (gf_extra_data g) alloc) }.

Module DatadirError.
Inductive t : Type :=
| Mkdir (path : bytes) (e : IoError)
| Read (path : bytes) (e : IoError)
| Write (path : bytes) (e : IoError)
| Config (e : ConfigError.t)
| WriteToml
| ConfigToml
| GenesisJson.
End DatadirError.

Record DataPaths : Type := mkDataPaths {
  dp_root : bytes;
  dp_config : bytes;
  dp_genesis : bytes;
  dp_validator_key : bytes;
  dp_chain : bytes;
  dp_contracts : bytes }.
Definition data_paths (root : bytes) : DataPaths :=
  mkDataPaths root (Path.join root (str "config.toml")) (Path.join root (str "genesis.json"))
    (Path.join root (str "validator.key")) (Path.join root (str "chain"))
    (Path.join root (str "contracts")).

Record InitOpts : Type := mkInitOpts { io_role : ServerRole; io_bootstrap : list bytes }.
Definition init_opts_default : InitOpts := mkInitOpts Master [].
(** [NodeFileConfig { role, bootstrap, ..NodeFileConfig::default() }] *)
Definition init_config (opts : InitOpts) : NodeFileConfig :=
  let d := node_config_default in
  mkNodeFileConfig (chain_id d) (rpc_addr d) (p2p_listen d) (io_bootstrap opts) (block_interval_ms d)
    (contracts_dir d) (io_role opts) (p2p_allowlist d) (archive d) (archive_keep d) (rpc_read_addr d).

Section Datadir.
Context {HC : HexCrate} {BC : BincodeCrate} {SC : Sha3Crate} {EC : Ed25519Crate} {CT : ConfigText}.

Definition load_secret_key (f : Fs) (path : bytes) : result SecretKey DatadirError.t :=
  let? text := map_err (DatadirError.Read path) (Fs.read_to_string f path) in
  map_err DatadirError.Config (parse_secret_key text).
Definition write_secret_key (path : bytes) (sk : SecretKey) : smonad Fs DatadirError.t unit :=
  smap_err (DatadirError.Write path) (Fs.write path (secret_key_text sk)).

Definition mkdir (p : bytes) : smonad Fs DatadirError.t unit :=
  smap_err (DatadirError.Mkdir p) (Fs.create_dir_all p).
Definition write_file (p content : bytes) : smonad Fs DatadirError.t unit :=
  smap_err (DatadirError.Write p) (Fs.write p content).

Definition init_datadir_with (root : bytes) (opts : InitOpts) (sk : SecretKey) :
    smonad Fs DatadirError.t DataPaths :=
  mkdir root ;;;
  let paths := data_paths root in
  write_secret_key (dp_validator_key paths) sk ;;;
  genesis <-! slift (map_err DatadirError.Config (init_genesis sk)) ;;
  write_file (dp_genesis paths) (genesis_text genesis ++ [x0a]) ;;;
  config <-! slift (ok_or (config_text (init_config opts)) DatadirError.WriteToml) ;;
  write_file (dp_config paths) config ;;;
  mkdir (dp_chain paths) ;;;
  mkdir (dp_contracts paths) ;;;
  sret paths.
Definition init_datadir (root : bytes) (sk : SecretKey) : smonad Fs DatadirError.t DataPaths :=
  init_datadir_with root init_opts_default sk.

Definition load_datadir (f : Fs) (root : bytes) :
    result (NodeFileConfig * GenesisFile * SecretKey * DataPaths) DatadirError.t :=
  let paths := data_paths root in
  let? text := map_err (DatadirError.Read (dp_config paths)) (Fs.read_to_string f (dp_config paths)) in
  let? cfg := ok_or (parse_config text) DatadirError.ConfigToml in
  let? text := map_err (DatadirError.Read (dp_genesis paths)) (Fs.read_to_string f (dp_genesis paths)) in
  let? genesis := ok_or (parse_genesis text) DatadirError.GenesisJson in
  let? sk := load_secret_key f (dp_validator_key paths) in
  Ok (cfg, genesis, sk, paths).
End Datadir.
