(* ===== verification/Contracts.v ===== *)
(** * Contract packages: [bin/ivory/src/contract.rs]

    A package is a YAML manifest that names a WAT or WASM source, or a bare
    source file.  The YAML parser and the WAT assembler are crates, the class
    [ContractCrates].  A manifest may name any contract file as its source, another
    manifest too, so [load_contract_file] calls itself: it runs on fuel, and
    [None] is running out of it. *)

From S2P Require Import Prelude Hex Text Uint UintFacts Hash Address Bincode Core Crypto Path.
From S2P Require Import Rpc.
#[local] Open Scope Z_scope.

Record ContractManifest : Type := mkContractManifest {
  mf_name : bytes;
  mf_schema : bytes;
  mf_description : bytes;
  mf_source : option bytes;
  mf_wat : option bytes }.
Definition default_schema : bytes := str "app.v1".

(** [serde_yaml::from_str::<ContractManifest>] and [wat::parse_str]. *)
Class ContractCrates := {
  yaml_manifest : bytes -> option ContractManifest;
  wat_parse : bytes -> option bytes }.

Record CompiledContract : Type := mkCompiledContract {
  cc_name : bytes;
  cc_schema : bytes;
  cc_description : bytes;
  cc_source : bytes;
  cc_wasm : bytes;
  cc_code_hash : H256 }.
Definition contract_meta (c : CompiledContract) : ContractMeta :=
  mkContractMeta (cc_name c) (cc_schema c) (cc_source c) (cc_description c).

Module ContractError.
Inductive t : Type :=
| Unsupported (ext : bytes)
| Read (path : bytes) (e : IoError)
| ParseManifest (path : bytes)
| NameRequired (path : bytes)
| Wat (path : bytes)
| InlineWat
| NoSource (path : bytes)
| EmptyBytecode (path : bytes)
| EmptyWasm (path : bytes)
| Mkdir (path : bytes) (e : IoError)
| Copy (src dst : bytes) (e : IoError).
End ContractError.

Section Contracts.
Context {SC : Sha3Crate} {CC : ContractCrates}.

(** [path.extension().and_then(to_str).unwrap_or("").to_ascii_lowercase()] *)
Definition file_ext (path : bytes) : bytes :=
  to_ascii_lowercase (default [] (Path.extension path ≫= Path.to_str)).
Definition stem_or (dflt path : bytes) : bytes := default dflt (Path.file_stem path ≫= Path.to_str).
Definition is_yaml (ext : bytes) : bool := bool_decide (ext ∈ [str "yaml"; str "yml"]).
Definition is_source (ext : bytes) : bool := bool_decide (ext ∈ [str "wat"; str "wasm"]).
Definition parent_or_dot (path : bytes) : bytes := default (str ".") (Path.parent path).

Definition compile_wat_file (f : Fs) (path name : bytes) : result CompiledContract ContractError.t :=
  let? text := map_err (ContractError.Read path) (Fs.read_to_string f path) in
  let? wasm := ok_or (wat_parse text) (ContractError.Wat path) in
  Ok (mkCompiledContract name default_schema [] path wasm (keccak256 wasm)).
Definition load_wasm_file (f : Fs) (path name : bytes) : result CompiledContract ContractError.t :=
  let? wasm := map_err (ContractError.Read path) (Fs.read f path) in
  match wasm with
  | [] => Err (ContractError.EmptyWasm path)
  | _ => Ok (mkCompiledContract name default_schema [] path wasm (keccak256 wasm))
  end.

(** The start of [load_yaml]: the manifest, if it has a name. *)
Definition read_manifest (f : Fs) (path : bytes) : result ContractManifest ContractError.t :=
  let? text := map_err (ContractError.Read path) (Fs.read_to_string f path) in
  let? man := ok_or (yaml_manifest text) (ContractError.ParseManifest path) in
  match trim (mf_name man) with
  | [] => Err (ContractError.NameRequired path)
  | _ => Ok man
  end.
(** The end of it. *)
Definition package (path : bytes) (man : ContractManifest) (wasm source : bytes) :
    result CompiledContract ContractError.t :=
  match wasm with
  | [] => Err (ContractError.EmptyBytecode path)
  | _ => Ok (mkCompiledContract (mf_name man) (mf_schema man) (mf_description man) source wasm
               (keccak256 wasm))
  end.

Definition load_yaml (load : bytes -> option (result CompiledContract ContractError.t))
    (f : Fs) (path : bytes) : option (result CompiledContract ContractError.t) :=
  match read_manifest f path with
  | Err e => Some (Err e)
  | Ok man =>
      match mf_wat man, mf_source man with
      | Some inline, _ =>
          Some (let? wasm := ok_or (wat_parse inline) ContractError.InlineWat in package path man wasm path)
      | None, Some rel =>
          let src := Path.join (parent_or_dot path) rel in
          r ← load src;
          Some (let? compiled := r in package path man (cc_wasm compiled) src)
      | None, None => Some (Err (ContractError.NoSource path))
      end
  end.

Fixpoint load_contract_file (fuel : nat) (f : Fs) (path : bytes) :
    option (result CompiledContract ContractError.t) :=
  match fuel with
  | O => None
  | S fuel =>
      let ext := file_ext path in
      if is_yaml ext then load_yaml (load_contract_file fuel f) f path
      else if bool_decide (ext = str "wat")
           then Some (compile_wat_file f path (stem_or (str "contract") path))
      else if bool_decide (ext = str "wasm")
           then Some (load_wasm_file f path (stem_or (str "contract") path))
      else Some (Err (ContractError.Unsupported ext))
  end.

(** ** The catalog *)

Definition catalog_dirs (data_contracts : bytes) (extra : option bytes) : list bytes :=
  let dirs := [data_contracts; str "contracts"] in
  let dirs := match extra with
              | Some p => match p with [] => dirs | _ => dirs ++ [p] end
              | None => dirs
              end in
  Path.dedup (Path.sort dirs).

(** The guards of the scan: the extension, and no raw source next to a manifest. *)
Definition scanned (f : Fs) (dir path : bytes) : bool :=
  let ext := file_ext path in
  (is_yaml ext || is_source ext) &&
  negb (is_source ext &&
        let stem := stem_or [] path in
        (Fs.exists_ f (Path.join dir (stem ++ str ".yaml")) ||
         Fs.exists_ f (Path.join dir (stem ++ str ".yml")))).

Definition scan_entry (fuel : nat) (f : Fs) (dir : bytes) (out : gmap H256 ContractMeta) (name : bytes) :
    option (gmap H256 ContractMeta) :=
  let path := Path.join dir name in
  if scanned f dir path then
    r ← load_contract_file fuel f path;
    Some (match r with
          | Ok c => <[cc_code_hash c := contract_meta c]> out
          | Err _ => out
          end)
  else Some out.
Definition scan_dir (fuel : nat) (f : Fs) (out : gmap H256 ContractMeta) (dir : bytes) :
    option (gmap H256 ContractMeta) :=
  match Fs.read_dir f dir with
  | None => Some out
  | Some names => foldl (fun acc n => out ← acc; scan_entry fuel f dir out n) (Some out) names
  end.
Definition load_catalog (fuel : nat) (f : Fs) (dirs : list bytes) : option (gmap H256 ContractMeta) :=
  foldl (fun acc dir => out ← acc; scan_dir fuel f out dir) (Some ∅) dirs.

(** The closure [run_node] gives to [with_contract_lookup]. *)
Definition contract_lookup (fuel : nat) (f : Fs) (data_contracts : bytes) (contracts_dir : bytes)
    (hash : H256) : option (option ContractMeta) :=
  let extra := match contracts_dir with [] => None | _ => Some contracts_dir end in
  cat ← load_catalog fuel f (catalog_dirs data_contracts extra);
  Some (cat !! hash).

(** ** Installing *)

Definition copy_to (src dst : bytes) : smonad Fs ContractError.t unit :=
  smap_err (ContractError.Copy src dst) (Fs.copy src dst).
Definition install_contract_files (src dest_dir : bytes) : smonad Fs ContractError.t unit :=
  smap_err (ContractError.Mkdir dest_dir) (Fs.create_dir_all dest_dir) ;;;
  let dest := Path.join dest_dir (default [] (Path.file_name src)) in
  if is_yaml (file_ext src) then
    text <-! sget (fun f => Fs.read_to_string f src) ;;
    text <-! slift (map_err (ContractError.Read src) text) ;;
    man <-! slift (ok_or (yaml_manifest text) (ContractError.ParseManifest src)) ;;
    copy_to src dest ;;;
    match mf_source man with
    | None => sret tt
    | Some rel =>
        let from := Path.join (parent_or_dot src) rel in
        let to := Path.join dest_dir (default [] (Path.file_name rel)) in
        there <-! sget (fun f => Fs.exists_ f from) ;;
        if (there : bool) then copy_to from to else sret tt
    end
  else copy_to src dest.
End Contracts.
