(* ===== verification/Deploy.v ===== *)
(** * Deploying a contract: [bin/ivory/src/deploy.rs]

    The client side of a CREATE: compile, install, ask for the nonce, submit, wait
    for the receipt.  The HTTP request is a parameter of the model, [post]: the
    JSON body and the world it is sent to give the answer and the world after it;
    [sleep] is what the world does while the client waits. *)

From S2P Require Import Prelude Hex Text Uint UintFacts Hash Address Btree Bincode Core Crypto Path.
From S2P Require Import Json Rpc Contracts.
#[local] Open Scope Z_scope.

Module DeployError.
Inductive t : Type :=
| Contract (e : ContractError.t)
| Post (method : bytes)
| Rpc (method : bytes) (err : value)
| NoResult
| ExpectedQty
| Qty
| SubmitResult
| NoContractAddress (tx_hash : bytes)
| TimedOut (tx_hash : bytes).
End DeployError.

(** ** [rpc_call], which [ivory-dev] repeats word for word *)

Definition rpc_body (method : bytes) (params : value) : value :=
  object [(str "jsonrpc", JString (str "2.0")); (str "id", json_u64 1);
          (str "method", JString method); (str "params", params)].

(** [payload.get("error").filter(|e| !e.is_null())], then [payload.get("result")] *)
Definition read_payload (method : bytes) (payload : value) : result value DeployError.t :=
  match get (str "error") payload with
  | Some err => if is_null err then ok_or (get (str "result") payload) DeployError.NoResult
                else Err (DeployError.Rpc method err)
  | None => ok_or (get (str "result") payload) DeployError.NoResult
  end.

(** [s.trim_start_matches("0x").trim_start_matches("0X")] and base 16; the empty
    text is zero. *)
Definition trim_matches (p s : bytes) : bytes := trim_loop [p] (length s) s.
Definition hex_u64 (v : value) : result Z DeployError.t :=
  let? s := ok_or (as_str v) DeployError.ExpectedQty in
  match trim_matches (str "0X") (trim_matches (str "0x") s) with
  | [] => Ok 0
  | s => ok_or (parse_hex_u64 s) DeployError.Qty
  end.

(** [21_000u64.saturating_add(16 * wasm.len() as u64).saturating_add(50_000)] *)
Definition deploy_gas (len : Z) : Z :=
  saturating_add64 (saturating_add64 21000 (16 * len mod M64)) 50000.

Section Deploy.
Context {HC : HexCrate} {BC : BincodeCrate} {SC : Sha3Crate} {EC : Ed25519Crate} {CC : ContractCrates}.
Context {W : Type} (post : value -> smonad W unit value) (sleep : W -> W).

Definition rpc_call (method : bytes) (params : value) : smonad W DeployError.t value :=
  payload <-! smap_err (fun _ => DeployError.Post method) (post (rpc_body method params)) ;;
  slift (read_payload method payload).

(** The loop of [wait_create]. *)
Fixpoint wait_loop (tries : nat) (tx_hash : bytes) : smonad W DeployError.t bytes := fun w =>
  match tries with
  | O => (w, Err (DeployError.TimedOut tx_hash))
  | S tries =>
      match rpc_call (str "eth_getTransactionReceipt") (JArray [JString tx_hash]) w with
      | (w, Ok JNull) | (w, Err _) => wait_loop tries tx_hash (sleep w)
      | (w, Ok rec) =>
          (w, ok_or (get (str "contractAddress") rec ≫= as_str) (DeployError.NoContractAddress tx_hash))
      end
  end.
Definition wait_create (tx_hash : bytes) : smonad W DeployError.t bytes := wait_loop 40 tx_hash.

(** The transaction for a nonce, and its text. *)
Definition create_tx (key : SecretKey) (nonce : Z) (wasm : bytes) : Transaction :=
  signed_tx key None nonce U256.ZERO (deploy_gas (Z.of_nat (length wasm))) U256.ONE wasm.
Definition raw_text (tx : Transaction) : bytes := str "0x" ++ hex_encode (serialize tx).

(** [deploy_contract] after the package is compiled and installed. *)
Definition submit_create (key : SecretKey) (wasm : bytes) : smonad W DeployError.t bytes :=
  count <-! rpc_call (str "eth_getTransactionCount")
              (JArray [JString (Address.to_hex (address_from_secret key)); JString (str "latest")]) ;;
  nonce <-! slift (hex_u64 count) ;;
  let tx := create_tx key nonce wasm in
  submitted <-! rpc_call (str "eth_sendRawTransaction") (JArray [JString (raw_text tx)]) ;;
  slift (ok_or (as_str submitted) DeployError.SubmitResult) ;;;
  wait_create (Hash.to_hex (tx_hash tx)).

Definition deploy_contract (fuel : nat) (manifest : bytes) (key : SecretKey) (data_contracts : bytes)
    (f : Fs) (w : W) : option (Fs * W * result bytes DeployError.t) :=
  r ← load_contract_file fuel f manifest;
  Some (match r with
        | Err e => (f, w, Err (DeployError.Contract e))
        | Ok compiled =>
            match install_contract_files manifest data_contracts f with
            | (f, Err e) => (f, w, Err (DeployError.Contract e))
            | (f, Ok _) => let '(w, r) := submit_create key (cc_wasm compiled) w in (f, w, r)
            end
        end).
End Deploy.
