(* ===== verification/Dev.v ===== *)
(** * The developer tool: [tools/ivory-dev]

    [lib.rs] resolves the project, the server and the key; [main.rs] sends a
    transfer ([faucet]) or deploys a contract.  [post] takes the server's URL first.  The environment is an argument:
    [env] looks a variable up.  Reading TOML is the class [TomlCrate]. *)

From S2P Require Import Prelude Hex Text Uint UintFacts Hash Address Btree Bincode Core Crypto Path.
From S2P Require Import Json Rpc Config Datadir Contracts Deploy.
#[local] Open Scope Z_scope.

(** ** [lib.rs] *)

Record DevConfig : Type := mkDevConfig { dc_rpc : bytes; dc_key : bytes }.
Definition dev_config_default : DevConfig := mkDevConfig [] [].

Inductive ChainTarget : Type := Local | Public.
#[export] Instance ChainTarget_eq_dec : EqDecision ChainTarget.
Proof. solve_decision. Defined.

Module DevError.
Inductive t : Type :=
| UnknownChain (s : bytes)
| NotEmpty (dir : bytes)
| Io (e : IoError)
| Toml
| PublicUnset
| NoKey
| LoadKey (path : bytes)
| NoContract (path : bytes)
| Amount
| ToAddress (e : PrimitiveError)
| Deploy (e : DeployError.t)
| Qty.
End DevError.

Module ChainTarget.
Definition parse (s : bytes) : result ChainTarget DevError.t :=
  let s := to_ascii_lowercase (trim s) in
  if bool_decide (s = str "local") then Ok Local
  else if bool_decide (s = str "public") then Ok Public
  else Err (DevError.UnknownChain s).
End ChainTarget.

(** [toml::to_string_pretty] and [toml::from_str] on [DevConfig]. *)
Class TomlCrate := {
  toml_dev_config : DevConfig -> bytes;
  parse_dev_config : bytes -> option DevConfig }.

Definition trim_slashes (s : bytes) : bytes :=
  rev (trim_loop [str "/"] (length s) (rev s)).

Definition DEFAULT_RPC : bytes := str "http://127.0.0.1:8545".

(** [std::env::var] and its [unwrap_or_default]. *)
Definition resolve_rpc (env : bytes -> option bytes) (rpc_flag : option bytes)
    (chain : option ChainTarget) (cfg : DevConfig) : result bytes DevError.t :=
  match (u ← rpc_flag; if decide (u = []) then None else Some u) with
  | Some u => Ok (trim_slashes u)
  | None =>
      if decide (chain = Some Public) then
        match trim_slashes (trim (default [] (env (str "IVORY_PUBLIC_RPC")))) with
        | [] => Err DevError.PublicUnset
        | public => Ok public
        end
      else
        match dc_rpc cfg, env (str "IVORY_RPC_URL") with
        | (_ :: _) as u, _ => Ok (trim_slashes u)
        | [], Some ((_ :: _) as u) => Ok (trim_slashes u)
        | [], _ => Ok DEFAULT_RPC
        end
  end.

Definition resolve_key_path (env : bytes -> option bytes) (key_flag data_dir : option bytes)
    (project : bytes) (cfg : DevConfig) : result bytes DevError.t :=
  match key_flag, data_dir with
  | Some p, _ => Ok p
  | None, Some dd => Ok (dp_validator_key (data_paths dd))
  | None, None =>
      match env (str "IVORY_DEPLOY_KEY"), dc_key cfg with
      | Some ((_ :: _) as p), _ => Ok p
      | _, (_ :: _) as p => Ok (if Path.is_absolute p then p else Path.join project p)
      | _, [] => Err DevError.NoKey
      end
  end.

(** [PathBuf::pop]: [false] when there is no parent. *)
Definition pop (p : bytes) : option bytes := Path.parent p.

(** The loop of [find_project]; each turn shortens the path. *)
Fixpoint find_loop (fuel : nat) (f : Fs) (cur : bytes) : option (option bytes) :=
  match fuel with
  | O => None
  | S fuel =>
      if Fs.is_file f (Path.join cur (str "ivory.toml")) then Some (Some cur)
      else match pop cur with
           | Some up => find_loop fuel f up
           | None => Some None
           end
  end.
Definition find_project (f : Fs) (start : bytes) : option bytes :=
  default None (find_loop (S (length start)) f start).

Section Project.
Context {TC : TomlCrate} (tracker_yaml tracker_wat readme : bytes).

Definition load_dev_config (f : Fs) (project : bytes) : result DevConfig DevError.t :=
  let path := Path.join project (str "ivory.toml") in
  if Fs.exists_ f path then
    let? text := map_err DevError.Io (Fs.read_to_string f path) in
    ok_or (parse_dev_config text) DevError.Toml
  else Ok dev_config_default.

(** [include_str!] of the two example files is the parameters above, and the text of the
    README the third. *)
Definition new_project (dir : bytes) : smonad Fs DevError.t unit :=
  let io {A} (c : smonad Fs IoError A) := smap_err DevError.Io c in
  there <-! sget (fun f => Fs.exists_ f dir) ;;
  (if (there : bool) then
     entries <-! sget (fun f => Fs.read_dir f dir) ;;
     match entries with
     | None => sfail (DevError.Io NotADirectory)
     | Some [] => sret tt
     | Some _ => sfail (DevError.NotEmpty dir)
     end
   else sret tt) ;;;
  io (Fs.create_dir_all (Path.join dir (str "contracts"))) ;;;
  io (Fs.write (Path.join dir (str "ivory.toml"))
        (toml_dev_config (mkDevConfig DEFAULT_RPC (str "./deploy.key")))) ;;;
  io (Fs.write (Path.join dir (str "contracts/tracker.yaml")) tracker_yaml) ;;;
  io (Fs.write (Path.join dir (str "contracts/tracker.wat")) tracker_wat) ;;;
  io (Fs.write (Path.join dir (str "README.md")) readme).
End Project.

(** ** [main.rs] *)

Section Commands.
Context {HC : HexCrate} {BC : BincodeCrate} {SC : Sha3Crate} {EC : Ed25519Crate}.
Context {CC : ContractCrates} {TC : TomlCrate}.
Context {W : Type} (post : bytes -> value -> smonad W unit value) (sleep : W -> W).

Definition parse_amount (s : bytes) : result U256 DevError.t :=
  let s := trim s in
  match (match strip_prefix (str "0x") s with Some h => Some h | None => strip_prefix (str "0X") s end) with
  | Some hex => map_err (fun _ => DevError.Amount) (U256.from_hex (str "0x" ++ hex))
  | None => let? n := ok_or (parse_u128 s) DevError.Amount in Ok (U256.from_u128 n)
  end.
(** Unlike [hex_u64] of the deploy module: at most one prefix, and some digits. *)
Definition parse_qty (v : value) : result Z DevError.t :=
  let? s := ok_or (as_str v) DevError.Qty in
  ok_or (parse_hex_u64 (strip_0x s)) DevError.Qty.

(** What [Deploy] and [Faucet] share: the project, the configuration and the key. *)
Definition load_key (f : Fs) (path : bytes) : result SecretKey DevError.t :=
  map_err (fun _ => DevError.LoadKey path) (load_secret_key f path).

Definition faucet_send (url : bytes) (sk : SecretKey) (to : Address) (amount : U256) :
    smonad W DevError.t value :=
  nonce_hex <-! smap_err DevError.Deploy
    (rpc_call (post url) (str "eth_getTransactionCount")
       (JArray [JString (Address.to_hex (address_from_secret sk)); JString (str "latest")])) ;;
  nonce <-! slift (parse_qty nonce_hex) ;;
  let tx := signed_transfer sk to nonce amount 21000 in
  smap_err DevError.Deploy
    (rpc_call (post url) (str "eth_sendRawTransaction") (JArray [JString (raw_text tx)])).

(** The server a command talks to, and the key it signs with. *)
Definition resolve_server (env : bytes -> option bytes) (f : Fs) (project : bytes)
    (rpc chain : option bytes) : result (DevConfig * bytes) DevError.t :=
  let? cfg := load_dev_config f project in
  let? chain := match chain with
                | None => Ok None
                | Some c => let? t := ChainTarget.parse c in Ok (Some t)
                end in
  let? rpc_url := resolve_rpc env rpc chain cfg in
  Ok (cfg, rpc_url).
Definition resolve_target (env : bytes -> option bytes) (f : Fs) (project : bytes)
    (rpc chain key data_dir : option bytes) : result (bytes * SecretKey) DevError.t :=
  let? server := resolve_server env f project rpc chain in
  let '(cfg, rpc_url) := server in
  let? key_path := resolve_key_path env key data_dir project cfg in
  let? sk := load_key f key_path in
  Ok (rpc_url, sk).

Definition faucet (env : bytes -> option bytes) (f : Fs) (cwd : bytes) (to amount : bytes)
    (rpc chain key data_dir : option bytes) : smonad W DevError.t value :=
  let project := default cwd (find_project f cwd) in
  target <-! slift (resolve_target env f project rpc chain key data_dir) ;;
  to <-! slift (map_err DevError.ToAddress (Address.from_hex to)) ;;
  amount <-! slift (parse_amount amount) ;;
  faucet_send target.1 target.2 to amount.

(** [Commands::Status]: what is printed is the server, the chain id and, if the node
    answers, its own description. *)
Definition status (env : bytes -> option bytes) (f : Fs) (cwd : bytes) (rpc chain : option bytes) :
    smonad W DevError.t (bytes * value * result value DeployError.t) :=
  let project := default cwd (find_project f cwd) in
  server <-! slift (resolve_server env f project rpc chain) ;;
  let rpc_url := server.2 in
  chain_id <-! smap_err DevError.Deploy (rpc_call (post rpc_url) (str "eth_chainId") (JArray [])) ;;
  fun w => let '(w, info) := rpc_call (post rpc_url) (str "ivory_nodeInfo") (JArray []) w in
           (w, Ok (rpc_url, chain_id, info)).

(** [Commands::Deploy] *)
Definition dev_deploy (fuel : nat) (env : bytes -> option bytes) (f : Fs) (cwd : bytes)
    (path rpc chain key data_dir : option bytes) (w : W) :
    option (Fs * W * result bytes DevError.t) :=
  let project := default cwd (find_project f cwd) in
  match resolve_target env f project rpc chain key data_dir with
  | Err e => Some (f, w, Err e)
  | Ok (rpc_url, sk) =>
      let manifest := default (Path.join project (str "contracts/tracker.yaml")) path in
      if negb (Fs.exists_ f manifest) then Some (f, w, Err (DevError.NoContract manifest))
      else
        let catalog := match data_dir with
                       | Some d => dp_contracts (data_paths d)
                       | None => Path.join project (str "contracts")
                       end in
        match Fs.create_dir_all catalog f with
        | (f, Err e) => Some (f, w, Err (DevError.Io e))
        | (f, Ok _) =>
            '(f, w, r) ← deploy_contract (post rpc_url) sleep fuel manifest sk catalog f w;
            Some (f, w, map_err DevError.Deploy r)
        end
  end.
End Commands.
