(* ===== verification/ContractProps.v ===== *)
(** * Contract packages: theorems

    When loading a package ends, what the catalog holds, and what installing a
    package into its own directory does to it. *)

From S2P Require Import Prelude Hex Text Uint UintFacts Hash Address Bincode Core Crypto Path.
From S2P Require Import Rpc Contracts.
#[local] Open Scope Z_scope.

Section Spec.
Context {SC : Sha3Crate} {CC : ContractCrates}.

(** ** The chain of sources *)

(** The file a manifest sends [load_contract_file] to. *)
Definition next_source (f : Fs) (path : bytes) : option bytes :=
  if is_yaml (file_ext path) then
    match read_manifest f path with
    | Ok man => match mf_wat man, mf_source man with
                | None, Some rel => Some (Path.join (parent_or_dot path) rel)
                | _, _ => None
                end
    | Err _ => None
    end
  else None.
(** The file after [n] of them. *)
Fixpoint source_after (f : Fs) (n : nat) (path : bytes) : option bytes :=
  match n with
  | O => Some path
  | S n => next_source f path ≫= source_after f n
  end.

Lemma load_step f path :
  match next_source f path with
  | Some src => exists man, forall fuel,
      load_contract_file (S fuel) f path =
      r ← load_contract_file fuel f src; Some (let? c := r in package path man (cc_wasm c) src)
  | None => exists r, forall fuel, load_contract_file (S fuel) f path = Some r
  end.
Proof.
  unfold next_source. cbn [load_contract_file]. destruct (is_yaml (file_ext path)).
  - unfold load_yaml. destruct (read_manifest f path) as [man|e]; [| by eexists].
    destruct (mf_wat man), (mf_source man); by eexists.
  - destruct (bool_decide _); [by eexists |]. destruct (bool_decide _); by eexists.
Qed.

Lemma load_fuel fuel f path : load_contract_file fuel f path = None <-> is_Some (source_after f fuel path).
Proof.
  revert path; induction fuel as [|fuel IH]; intros path; [cbn; by split; [eexists |] |].
  pose proof (load_step f path) as H. cbn [source_after].
  destruct (next_source f path) as [src|].
  - destruct H as (man & ->). cbn [mbind option_bind]. rewrite <- IH.
    by destruct (load_contract_file fuel f src).
  - destruct H as (r & ->). split; [done | by intros []].
Qed.

Lemma load_more fuel fuel' f path r :
  (fuel <= fuel')%nat -> load_contract_file fuel f path = Some r -> load_contract_file fuel' f path = Some r.
Proof.
  intros Hle; revert fuel' Hle path r; induction fuel as [|fuel IH]; intros fuel' Hle path r; [done |].
  destruct fuel' as [|fuel']; [lia |]. pose proof (load_step f path) as H.
  destruct (next_source f path) as [src|]; [| by destruct H as (r1 & E); rewrite !E].
  destruct H as (man & E). rewrite !E. destruct (load_contract_file fuel f src) as [r1|] eqn:E1; [| done].
  by rewrite (IH fuel' ltac:(lia) src r1 E1).
Qed.

(** C28: [load_contract_file] returns exactly when following the sources from the
    file comes to an end: it needs one step of fuel per file on the way, more fuel
    never changes the answer, and a manifest that names itself as its source is
    never loaded, however long one waits. *)
Theorem contract_load_terminates f path :
  (forall fuel, is_Some (load_contract_file fuel f path) <-> source_after f fuel path = None) /\
  (forall fuel fuel' r, (fuel <= fuel')%nat ->
     load_contract_file fuel f path = Some r -> load_contract_file fuel' f path = Some r) /\
  (next_source f path = Some path -> forall fuel, load_contract_file fuel f path = None).
Proof.
  split_and!.
  - intros fuel. rewrite <- not_eq_None_Some, load_fuel, eq_None_not_Some. done.
  - intros fuel fuel' r. apply load_more.
  - intros Hself fuel. apply load_fuel. induction fuel as [|fuel IH]; [by eexists |].
    cbn [source_after]. by rewrite Hself.
Qed.

(** ** The catalog *)

(** What the scan is for, from the names alone: an entry of [dir] with one of the
    four extensions (in any case), and for a raw source no manifest of the same
    stem lies beside it. *)
Definition package_file (f : Fs) (dir name : bytes) : Prop :=
  let path := Path.join dir name in
  let ext := to_ascii_lowercase (default [] (Path.extension path ≫= Path.to_str)) in
  let stem := default [] (Path.file_stem path ≫= Path.to_str) in
  (ext = str "yaml" \/ ext = str "yml" \/ ext = str "wat" \/ ext = str "wasm") /\
  (ext = str "wat" \/ ext = str "wasm" ->
   Fs.exists_ f (Path.join dir (stem ++ str ".yaml")) = false /\
   Fs.exists_ f (Path.join dir (stem ++ str ".yml")) = false).
(** The package files of the directories that can be read. *)
Definition listed (f : Fs) (dirs : list bytes) (path : bytes) : Prop :=
  exists dir names name,
    dir ∈ dirs /\ Fs.read_dir f dir = Some names /\ name ∈ names /\
    package_file f dir name /\ path = Path.join dir name.
(** Loading [path] ends with the package [c]. *)
Definition loads (f : Fs) (path : bytes) (c : CompiledContract) : Prop :=
  exists fuel, load_contract_file fuel f path = Some (Ok c).
Definition packaged (f : Fs) (dirs : list bytes) (c : CompiledContract) : Prop :=
  exists path, listed f dirs path /\ loads f path c.

Lemma scanned_spec f dir name : scanned f dir (Path.join dir name) = true <-> package_file f dir name.
Proof.
  unfold scanned, package_file, is_yaml, is_source, file_ext, stem_or.
  set (ext := to_ascii_lowercase _).
  set (stem := default [] (Path.file_stem (Path.join dir name) ≫= Path.to_str)).
  rewrite andb_true_iff, orb_true_iff, negb_true_iff, andb_false_iff, orb_false_iff.
  rewrite !bool_decide_eq_true, bool_decide_eq_false, !elem_of_cons, !elem_of_nil.
  clearbody ext stem. destruct (decide (ext = str "wat")), (decide (ext = str "wasm")); tauto.
Qed.

Lemma loads_at fuel f path r c :
  load_contract_file fuel f path = Some r -> loads f path c -> r = Ok c.
Proof.
  intros H [fuel' H']. destruct (Nat.le_ge_cases fuel fuel') as [Hle|Hle].
  - eapply load_more in H; [| exact Hle]. congruence.
  - eapply load_more in H'; [| exact Hle]. congruence.
Qed.

Lemma load_code_hash fuel f path c :
  load_contract_file fuel f path = Some (Ok c) -> cc_code_hash c = keccak256 (cc_wasm c).
Proof.
  destruct fuel as [|fuel]; [done |]. cbn [load_contract_file]. destruct (is_yaml (file_ext path)).
  - assert (forall man wasm src, package path man wasm src = Ok c -> cc_code_hash c = keccak256 (cc_wasm c)) as Hp.
    { intros man wasm src. unfold package. destruct wasm; [done |]. by intros [= <-]. }
    unfold load_yaml. destruct (read_manifest f path) as [man|e]; [| done].
    destruct (mf_wat man) as [inline|].
    + destruct (wat_parse inline) as [wasm|]; [| done]. simpl. intros [= H]. by eapply Hp.
    + destruct (mf_source man) as [rel|]; [| done].
      destruct (load_contract_file fuel f _) as [[c'|e]|]; try done. simpl. intros [= H]. by eapply Hp.
  - destruct (bool_decide _); [| destruct (bool_decide _); [| done]].
    + unfold compile_wat_file. destruct (map_err _ _) as [text|]; [| done]. simpl.
      destruct (wat_parse text); [| done]. by intros [= <-].
    + unfold load_wasm_file. destruct (map_err _ _) as [[|]|]; try done. simpl. by intros [= <-].
Qed.

(** One fold of the scan, over the entries of a directory or over the directories. *)
Lemma fold_option {A B} (step : B -> A -> option B) (P : B -> Prop) (l : list A) (b b' : B) :
  (forall x b b', x ∈ l -> P b -> step b x = Some b' -> P b') -> P b ->
  foldl (fun acc x => b ← acc; step b x) (Some b) l = Some b' -> P b'.
Proof.
  revert b; induction l as [|x l IH]; intros b Hstep Hb; simpl; [by intros [= <-] |].
  destruct (step b x) as [b1|] eqn:E.
  - apply IH; [intros y c c' Hy; apply Hstep; by right |]. eapply Hstep; [by left | exact Hb | exact E].
  - intros H. exfalso. revert H. clear. induction l; simpl; auto; done.
Qed.

(** A fact one element establishes and none destroys. *)
Lemma fold_option_hit {A B} (step : B -> A -> option B) (Q : B -> Prop) (x : A) (l : list A) (b b' : B) :
  x ∈ l -> (forall b b1, step b x = Some b1 -> Q b1) ->
  (forall y b b1, Q b -> step b y = Some b1 -> Q b1) ->
  foldl (fun acc x => b ← acc; step b x) (Some b) l = Some b' -> Q b'.
Proof.
  intros Hx Hhit Hkeep. apply list_elem_of_split in Hx as (l1 & l2 & ->). rewrite foldl_app. cbn [foldl].
  destruct (foldl _ (Some b) l1) as [b1|]; cbn [mbind option_bind].
  - destruct (step b1 x) as [b2|] eqn:E.
    + apply fold_option; [| by eapply Hhit]. intros y c c' _. apply Hkeep.
    + intros H. exfalso. revert H. clear. induction l2; simpl; auto; done.
  - intros H. exfalso. revert H. clear. induction l2; simpl; auto; done.
Qed.

Lemma fold_option_None {A B} (step : B -> A -> option B) (l : list A) :
  foldl (fun acc x => b ← acc; step b x) None l = None.
Proof. induction l; done. Qed.

(** A fold that ends did so at every element, and goes the same way with steps that agree. *)
Lemma fold_option_steps {A B} (step step' : B -> A -> option B) (l : list A) (b b' : B) :
  (forall x b b1, x ∈ l -> step b x = Some b1 -> step' b x = Some b1) ->
  foldl (fun acc x => b ← acc; step b x) (Some b) l = Some b' ->
  foldl (fun acc x => b ← acc; step' b x) (Some b) l = Some b'.
Proof.
  revert b; induction l as [|x l IH]; intros b Hst; [done |]. simpl.
  destruct (step b x) as [b1|] eqn:E; [| by rewrite fold_option_None].
  rewrite (Hst x b b1) by (done || by left). apply IH. intros y c c1 Hy. apply Hst. by right.
Qed.

Lemma fold_option_ends {A B} (step : B -> A -> option B) (l : list A) (b : B) :
  (forall x b, x ∈ l -> is_Some (step b x)) ->
  is_Some (foldl (fun acc x => b ← acc; step b x) (Some b) l).
Proof.
  revert b; induction l as [|x l IH]; intros b H; [by eexists |]. simpl.
  destruct (H x b) as [b1 ->]; [by left |]. apply IH. intros y c Hy. apply H. by right.
Qed.

Lemma fold_option_each {A B} (step : B -> A -> option B) (l : list A) (b b' : B) x :
  x ∈ l -> foldl (fun acc x => b ← acc; step b x) (Some b) l = Some b' ->
  exists b1, is_Some (step b1 x).
Proof.
  revert b; induction l as [|y l IH]; intros b Hx; [by apply elem_of_nil in Hx |]. simpl.
  destruct (step b y) as [b1|] eqn:E; [| by rewrite fold_option_None].
  apply elem_of_cons in Hx as [->|Hx]; [exists b; eauto |]. by apply IH.
Qed.

Lemma scan_entry_inv fuel f dir out name out' :
  scan_entry fuel f dir out name = Some out' ->
  out' = out \/ exists c, package_file f dir name /\
    load_contract_file fuel f (Path.join dir name) = Some (Ok c) /\
    out' = <[cc_code_hash c := contract_meta c]> out.
Proof.
  unfold scan_entry. destruct (scanned f dir _) eqn:Es; [| intros [= <-]; by left].
  apply scanned_spec in Es.
  destruct (load_contract_file fuel f _) as [[c|e]|] eqn:El; try done; cbn; intros [= <-]; [| by left].
  right. by exists c.
Qed.

Lemma scan_entry_keeps fuel f dir out name out' h :
  is_Some (out !! h) -> scan_entry fuel f dir out name = Some out' -> is_Some (out' !! h).
Proof.
  intros Hh [-> | (c & _ & _ & ->)]%scan_entry_inv; [done |].
  destruct (decide (h = cc_code_hash c)) as [->|Hn]; [by rewrite lookup_insert_eq | by rewrite lookup_insert_ne].
Qed.
Lemma scan_dir_keeps fuel f dir out out' h :
  is_Some (out !! h) -> scan_dir fuel f out dir = Some out' -> is_Some (out' !! h).
Proof.
  intros Hh. unfold scan_dir. destruct (Fs.read_dir f dir) as [names|]; [| by intros [= <-]].
  apply (fold_option _ (fun out => is_Some (out !! h))); [| done].
  intros name b b' _. apply scan_entry_keeps.
Qed.

Lemma scan_entry_more fuel fuel' f dir out name out' :
  (fuel <= fuel')%nat -> scan_entry fuel f dir out name = Some out' -> scan_entry fuel' f dir out name = Some out'.
Proof.
  intros Hle. unfold scan_entry. destruct (scanned f dir _); [| done].
  destruct (load_contract_file fuel f _) as [r|] eqn:E; [| done]. by rewrite (load_more _ _ _ _ _ Hle E).
Qed.

Lemma load_catalog_more fuel fuel' f dirs out :
  (fuel <= fuel')%nat -> load_catalog fuel f dirs = Some out -> load_catalog fuel' f dirs = Some out.
Proof.
  intros Hle. unfold load_catalog. apply fold_option_steps. intros dir b b1 _. unfold scan_dir.
  destruct (Fs.read_dir f dir); [| done]. apply fold_option_steps. intros name b2 b3 _.
  by apply scan_entry_more.
Qed.

Lemma scan_entry_ends fuel f dir out name :
  is_Some (scan_entry fuel f dir out name) <->
  (package_file f dir name -> is_Some (load_contract_file fuel f (Path.join dir name))).
Proof.
  unfold scan_entry. rewrite <- scanned_spec. destruct (scanned f dir _); [| split; [done | by eexists]].
  destruct (load_contract_file fuel f _) as [r|]; cbn; split.
  - intros _ _. by eexists.
  - intros _. by eexists.
  - intros [x Hx]. discriminate Hx.
  - intros H. by destruct (H eq_refl).
Qed.

Lemma load_catalog_ends fuel f dirs :
  is_Some (load_catalog fuel f dirs) <->
  forall path, listed f dirs path -> is_Some (load_contract_file fuel f path).
Proof.
  unfold load_catalog. split.
  - intros [out Hcat] path (dir & names & name & Hdir & Hr & Hname & Hp & ->).
    eapply fold_option_each in Hcat as (b & b1 & Hscan); [| exact Hdir]. unfold scan_dir in Hscan.
    rewrite Hr in Hscan. eapply fold_option_each in Hscan as (b2 & H); [| exact Hname].
    by apply scan_entry_ends in H.
  - intros H. apply fold_option_ends. intros dir b Hdir. unfold scan_dir.
    destruct (Fs.read_dir f dir) as [names|] eqn:Er; [| by eexists].
    apply fold_option_ends. intros name b1 Hname. apply scan_entry_ends. intros Hp. apply H.
    by exists dir, names, name.
Qed.

#[local] Instance package_file_dec f dir name : Decision (package_file f dir name).
Proof.
  destruct (scanned f dir (Path.join dir name)) eqn:E; [left | right]; rewrite <- scanned_spec; congruence.
Defined.
(** The finitely many paths the scan visits. *)
Definition visited (f : Fs) (dirs : list bytes) : list bytes :=
  flat_map (fun dir => map (Path.join dir) (default [] (Fs.read_dir f dir))) dirs.
Lemma listed_elem f dirs path :
  Exists (fun dir => Exists (fun name => package_file f dir name /\ path = Path.join dir name)
                       (default [] (Fs.read_dir f dir))) dirs <-> listed f dirs path.
Proof.
  unfold listed. rewrite Exists_exists. setoid_rewrite Exists_exists. split.
  - intros (dir & Hdir & name & Hname & Hp & ->). destruct (Fs.read_dir f dir) as [names|] eqn:E;
      [| by apply elem_of_nil in Hname]. by exists dir, names, name.
  - intros (dir & names & name & Hdir & Hr & Hname & Hp & ->). exists dir. split; [done |].
    exists name. by rewrite Hr.
Qed.
#[local] Instance listed_dec f dirs path : Decision (listed f dirs path).
Proof.
  destruct (decide (Exists (fun dir => Exists (fun name => package_file f dir name /\ path = Path.join dir name)
    (default [] (Fs.read_dir f dir))) dirs)) as [H|H]; [left | right]; by rewrite <- listed_elem.
Defined.
Lemma listed_visited f dirs path : listed f dirs path -> path ∈ visited f dirs.
Proof.
  intros (dir & names & name & Hdir & Hr & Hname & _ & ->). unfold visited. apply elem_of_flat_map.
  exists dir. split; [done |]. rewrite Hr. by apply list_elem_of_fmap_2.
Qed.

(** Enough fuel for all of them, when the sources of each end. *)
Lemma listed_fuel f dirs :
  (forall path, listed f dirs path -> exists n, source_after f n path = None) ->
  exists fuel, forall path, listed f dirs path -> is_Some (load_contract_file fuel f path).
Proof.
  intros H.
  assert (forall l : list bytes, exists fuel, forall p, p ∈ l -> listed f dirs p -> is_Some (load_contract_file fuel f p)) as Hl.
  { induction l as [|p l [fuel IH]]; [exists O; intros p Hp; by apply elem_of_nil in Hp |].
    assert (forall m n q, (m <= n)%nat -> is_Some (load_contract_file m f q) ->
            is_Some (load_contract_file n f q)) as Hmono.
    { intros m n q Hm [r Hr]. exists r. by eapply load_more. }
    destruct (decide (listed f dirs p)) as [Hlp|Hno].
    - destruct (H p Hlp) as [n Hn]. exists (Nat.max n fuel). intros q [->|Hq]%elem_of_cons Hlq.
      + apply (Hmono n); [lia |]. rewrite <- not_eq_None_Some, load_fuel, Hn. by intros [? ?].
      + apply (Hmono fuel); [lia | auto].
    - exists fuel. intros q [->|Hq]%elem_of_cons; [done | auto]. }
  destruct (Hl (visited f dirs)) as [fuel Hf]. exists fuel. intros path Hp. apply Hf; [| done].
  by apply listed_visited.
Qed.

(** C29: A catalog holds the packages of its directories and nothing else.  Reading it
    ends exactly when the chain of sources of every package file in the directories
    ends (some fuel is enough, and more changes nothing).  When it has been read,
    every entry is the description of a package of a package file, under the keccak
    hash of that package's bytecode, and the bytecode of every package has an
    entry.  A package file has one of the four extensions; a raw source is one only
    if no manifest of its stem lies beside it. *)
Theorem catalog_sound f dirs :
  ((exists fuel, is_Some (load_catalog fuel f dirs)) <->
   (forall path, listed f dirs path -> exists n, source_after f n path = None)) /\
  (forall fuel out, load_catalog fuel f dirs = Some out ->
     (forall fuel', (fuel <= fuel')%nat -> load_catalog fuel' f dirs = Some out) /\
     (forall h m, out !! h = Some m ->
        exists c, packaged f dirs c /\ h = keccak256 (cc_wasm c) /\ m = contract_meta c) /\
     (forall c, packaged f dirs c -> is_Some (out !! keccak256 (cc_wasm c)))).
Proof.
  split.
  { split.
    - intros [fuel H] path Hp. exists fuel. apply (proj1 (load_catalog_ends fuel f dirs) H) in Hp.
      by rewrite <- not_eq_None_Some, load_fuel, <- eq_None_not_Some in Hp.
    - intros H. destruct (listed_fuel f dirs H) as [fuel Hf]. exists fuel. by apply load_catalog_ends. }
  intros fuel out Hcat. split; [by intros fuel' Hle; eapply load_catalog_more |].
  pose proof (proj1 (load_catalog_ends fuel f dirs) (ex_intro _ out Hcat)) as Hends.
  unfold load_catalog in Hcat. split.
  - revert Hcat. apply (fold_option _ (fun out => forall h m, out !! h = Some m -> exists c,
      packaged f dirs c /\ h = keccak256 (cc_wasm c) /\ m = contract_meta c)); [| done].
    intros dir b b' Hdir Hb. unfold scan_dir. destruct (Fs.read_dir f dir) as [names|] eqn:Er; [| by intros [= <-]].
    apply (fold_option _ (fun out => forall h m, out !! h = Some m -> exists c,
      packaged f dirs c /\ h = keccak256 (cc_wasm c) /\ m = contract_meta c)); [| done].
    intros name b1 b2 Hname Hb1 [-> | (c & Hs & Hl & ->)]%scan_entry_inv; [done |]. intros h m.
    destruct (decide (h = cc_code_hash c)) as [->|Hn]; [| rewrite lookup_insert_ne by done; apply Hb1].
    rewrite lookup_insert_eq. intros [= <-]. exists c. split; [| split; [by eapply load_code_hash | done]].
    exists (Path.join dir name). split; [by exists dir, names, name | by exists fuel].
  - intros c (path & Hlisted & Hloads). pose proof (Hends _ Hlisted) as [r Hr'].
    pose proof (loads_at _ _ _ _ _ Hr' Hloads) as ->.
    destruct Hlisted as (dir & names & name & Hdir & Hr & Hname & Hs%scanned_spec & ->). revert Hcat.
    apply (fold_option_hit _ (fun out => is_Some (out !! keccak256 (cc_wasm c))) dir); [done | |].
    + intros b b1. unfold scan_dir. rewrite Hr.
      apply (fold_option_hit _ (fun out => is_Some (out !! keccak256 (cc_wasm c))) name); [done | |].
      * intros b2 b3. unfold scan_entry. rewrite Hs, Hr'. cbn. intros [= <-].
        rewrite <- (load_code_hash _ _ _ _ Hr'), lookup_insert_eq. by eexists.
      * intros y b2 b3. apply scan_entry_keeps.
    + intros y b b1. apply scan_dir_keeps.
Qed.

(** ** Installing *)

Definition holds (f : Fs) (p content : bytes) : Prop := fs_files f !! Fs.resolve f p = Some content.
Definition same_file (f : Fs) (p q : bytes) : Prop := Fs.resolve f p = Fs.resolve f q.
(** What a copy of [raw] leaves in [dst]. *)
Definition copied (f : Fs) (src dst raw : bytes) : bytes :=
  if decide (Fs.resolve f src = Fs.resolve f dst) then [] else raw.

Lemma resolve_cwd f f' p : fs_cwd f' = fs_cwd f -> Fs.resolve f' p = Fs.resolve f p.
Proof. intros H. unfold Fs.resolve. by rewrite H. Qed.
Lemma copied_cwd f f' src dst raw : fs_cwd f' = fs_cwd f -> copied f' src dst raw = copied f src dst raw.
Proof. intros H. unfold copied. by rewrite !(resolve_cwd f f') by done. Qed.
Lemma mkdir_ok p f f' :
  Fs.create_dir_all p f = (f', Ok tt) -> fs_cwd f' = fs_cwd f /\ fs_files f' = fs_files f.
Proof. unfold Fs.create_dir_all. destruct (decide _); [done |]. by intros [= <-]. Qed.

(** A copy is the content of the source, or nothing when the two are one file. *)
Lemma copy_ok src dst f f' :
  Fs.copy src dst f = (f', Ok tt) ->
  fs_cwd f' = fs_cwd f /\ exists raw, holds f src raw /\
  fs_files f' = <[Fs.resolve f dst := copied f src dst raw]> (fs_files f).
Proof.
  unfold Fs.copy, Fs.read, holds. destruct (fs_files f !! Fs.resolve f src) as [raw|] eqn:E; [| done].
  simpl ok_or. cbn iota. unfold Fs.write. destruct (decide (_ \/ _)); [done |]. intros [= <-].
  split; [done |]. exists raw. split; [done |]. done.
Qed.

Lemma smap_err_ok {S E F A} (g : E -> F) (c : smonad S E A) s s' a :
  smap_err g c s = (s', Ok a) -> c s = (s', Ok a).
Proof. unfold smap_err. destruct (c s) as [s1 [a1|e]]; [| done]. by intros [= <- <-]. Qed.

(** The two files an installed manifest consists of. *)
Definition source_of (src rel : bytes) : bytes := Path.join (parent_or_dot src) rel.
Definition installed (dest_dir path : bytes) : bytes := Path.join dest_dir (default [] (Path.file_name path)).

(** C30: Installing a manifest that names an existing source copies two files and
    touches no other: the manifest and its source go under their own names into the
    target directory.  Where the package is installed into the directory it already
    lies in, each file is copied onto itself, and both are empty afterwards. *)
Theorem install_copies src dest_dir rel text raw man f f' :
  is_yaml (file_ext src) = true -> holds f src text -> yaml_manifest text = Some man ->
  mf_source man = Some rel -> holds f (source_of src rel) raw ->
  ~ same_file f (installed dest_dir src) (source_of src rel) ->
  ~ same_file f (installed dest_dir src) (installed dest_dir rel) ->
  install_contract_files src dest_dir f = (f', Ok tt) ->
  holds f' (installed dest_dir src) (copied f src (installed dest_dir src) text) /\
  holds f' (installed dest_dir rel) (copied f (source_of src rel) (installed dest_dir rel) raw) /\
  (forall p, ~ same_file f p (installed dest_dir src) -> ~ same_file f p (installed dest_dir rel) ->
     fs_files f' !! Fs.resolve f' p = fs_files f !! Fs.resolve f p).
Proof.
  intros Hy Hsrc Hman Hrel Hraw Hn1 Hn2 Hrun. apply sbind_ok in Hrun as ([] & f1 & Hm & Hrun).
  apply smap_err_ok, mkdir_ok in Hm as (Hc1 & Hf1). rewrite Hy, !sbind_get, !sbind_lift in Hrun.
  unfold holds in Hsrc, Hraw. unfold Fs.read_to_string, Fs.read in Hrun.
  rewrite (resolve_cwd f f1 src Hc1), Hf1, Hsrc in Hrun. cbn [ok_or rbind] in Hrun.
  destruct (utf8_ok text); [| done]. cbn [map_err] in Hrun.
  rewrite sbind_lift, Hman in Hrun.
  cbn [ok_or] in Hrun.
  apply sbind_ok in Hrun as ([] & f2 & H2 & Hrun). rewrite Hrel, sbind_get in Hrun.
  apply smap_err_ok, copy_ok in H2 as (Hc2 & text' & Ht & Hf2).
  assert (fs_cwd f2 = fs_cwd f) as Hc2f by congruence.
  fold (source_of src rel) (installed dest_dir src) (installed dest_dir rel) in *.
  pose proof (fun p => resolve_cwd f f1 p Hc1) as R1. pose proof (fun p => resolve_cwd f f2 p Hc2f) as R2.
  unfold holds, same_file in *. rewrite ?R1, ?Hf1 in *. rewrite (copied_cwd f f1) in Hf2 by done.
  assert (text' = text) as -> by congruence.
  assert (fs_files f2 !! Fs.resolve f2 (source_of src rel) = Some raw) as Hraw2.
  { rewrite Hf2, R2. by rewrite lookup_insert_ne. }
  unfold Fs.exists_, Fs.is_file in Hrun. rewrite Hraw2, bool_decide_eq_true_2 in Hrun by by eexists.
  cbn [orb] in Hrun. apply smap_err_ok, copy_ok in Hrun as (Hc3 & raw' & Hr & Hf3).
  unfold holds, same_file in *. assert (raw' = raw) as -> by congruence.
  pose proof (fun p => resolve_cwd f f' p (eq_trans Hc3 Hc2f)) as R3.
  rewrite Hf3, Hf2, !R3, !R2, (copied_cwd f f2) by done. split_and!.
  - rewrite lookup_insert_ne, lookup_insert_eq by done. done.
  - by rewrite lookup_insert_eq.
  - intros p H1 H2. rewrite R3. by rewrite !lookup_insert_ne by done.
Qed.
End Spec.

(** ** A project on disk *)

(** A manifest that is just the path of its source, and a WAT assembler that keeps
    its text. *)
#[export] Instance crates_toy : ContractCrates := {|
  yaml_manifest raw := Some (mkContractManifest (str "Tracker") default_schema [] (Some raw) None);
  wat_parse raw := Some raw |}.

Definition sample_fs : Fs :=
  mkFs []
    (list_to_map [
      ([str "contracts"; str "tracker.yaml"], str "tracker.wat");
      ([str "contracts"; str "tracker.wat"], str "(module)");
      ([str "loops"; str "self.yaml"], str "self.yaml");
      ([str "nested"; str "tracker.yaml"], str "src/tracker.wat");
      ([str "nested"; str "src"; str "tracker.wat"], str "(module)")])
    (list_to_set [[]; [str "contracts"]; [str "loops"]; [str "nested"]; [str "nested"; str "src"]; [str "data"]]).
Definition tracker : CompiledContract :=
  mkCompiledContract (str "Tracker") default_schema [] (str "contracts/tracker.wat") (str "(module)")
    (keccak256 (str "(module)")).

(** Installing into the data directory keeps the package loadable ... *)
Example install_loads :
  let '(f, r) := install_contract_files (str "contracts/tracker.yaml") (str "data/contracts") sample_fs in
  r = Ok tt /\
  load_contract_file 2 f (str "data/contracts/tracker.yaml") =
    Some (Ok (mkCompiledContract (str "Tracker") default_schema [] (str "data/contracts/tracker.wat")
                (str "(module)") (cc_code_hash tracker))).
Proof. vm_compute. done. Qed.
(** ... unless its source lies in a directory of its own: the manifest still names
    it there, but the copy does not. *)
Example install_flattens :
  let '(f, r) := install_contract_files (str "nested/tracker.yaml") (str "data/contracts") sample_fs in
  load_contract_file 2 sample_fs (str "nested/tracker.yaml") <> None /\ r = Ok tt /\
  Fs.exists_ f (str "data/contracts/tracker.wat") = true /\
  load_contract_file 2 f (str "data/contracts/tracker.yaml") =
    Some (Err (ContractError.Read (str "data/contracts/src/tracker.wat") NotFound)).
Proof. vm_compute. done. Qed.

Lemma contract_load_terminates_witness :
  is_Some (load_contract_file 2 sample_fs (str "contracts/tracker.yaml")) /\
  forall fuel, load_contract_file fuel sample_fs (str "loops/self.yaml") = None.
Proof.
  split.
  - apply (contract_load_terminates sample_fs). reflexivity.
  - apply (contract_load_terminates sample_fs (str "loops/self.yaml")). reflexivity.
Defined.

(** [contracts/tracker.wat] is not a package of its own: a manifest lies beside it. *)
Lemma catalog_sound_witness : exists out,
  load_catalog 2 sample_fs (catalog_dirs (str "data/contracts") None) = Some out /\
  (forall fuel, (2 <= fuel)%nat -> load_catalog fuel sample_fs (catalog_dirs (str "data/contracts") None) = Some out) /\
  exists c, packaged sample_fs (catalog_dirs (str "data/contracts") None) c /\
    keccak256 (str "(module)") = keccak256 (cc_wasm c) /\ contract_meta tracker = contract_meta c.
Proof.
  assert ((load_catalog 2 sample_fs (catalog_dirs (str "data/contracts") None) ≫=
    lookup (keccak256 (str "(module)"))) = Some (contract_meta tracker)) as H by (vm_compute; reflexivity).
  destruct (load_catalog 2 sample_fs (catalog_dirs (str "data/contracts") None)) as [out|] eqn:E; [| done].
  exists out. split; [done |].
  destruct (proj2 (catalog_sound sample_fs (catalog_dirs (str "data/contracts") None)) 2%nat out E) as (H1 & H2 & _).
  split; [exact H1 | by apply H2].
Defined.
Example raw_source_skipped :
  ~ package_file sample_fs (str "contracts") (str "tracker.wat") /\
  package_file sample_fs (str "contracts") (str "tracker.yaml").
Proof.
  split.
  - intros [_ H]. destruct (H (or_introl eq_refl)) as [H1 _]. vm_compute in H1. discriminate.
  - split; [by left | intros [H|H]; vm_compute in H; discriminate].
Qed.

(** [ivory-dev deploy] without a data directory installs a project's package into
    the project's own [contracts]: this empties it. *)
Lemma install_copies_witness : exists f',
  install_contract_files (str "contracts/tracker.yaml") (str "contracts") sample_fs = (f', Ok tt) /\
  holds f' (str "contracts/tracker.yaml") [] /\ holds f' (str "contracts/tracker.wat") [].
Proof.
  assert ((install_contract_files (str "contracts/tracker.yaml") (str "contracts") sample_fs).2 = Ok tt)
    as H by (vm_compute; reflexivity).
  destruct (install_contract_files _ _ _) as [f' r] eqn:E. cbn [snd] in H. subst r. exists f'. split; [done |].
  eapply (install_copies _ _ (str "tracker.wat") _ (str "(module)")) in E as (H1 & H2 & _);
    [split; [exact H1 | exact H2] | vm_compute; reflexivity .. | vm_compute; done | vm_compute; done].
Defined.
