(* ===== verification/DeployProps.v ===== *)
(** * Deploying a contract: theorems

    What [deploy_contract] and [ivory-dev] get from a node's endpoint, and what
    becomes of the transaction they submit. *)

From S2P Require Import Prelude Hex Text Uint UintFacts UintProps Hash Address Btree Bincode Core Trie State.
From S2P Require Import StateProps Crypto Vm Executor ExecutorProps TxPool Consensus Store StoreProps StoreSpec Apply ApplyProps.
From S2P Require Import Path Json Metrics Rpc Light RpcProps RpcServer RpcServerProps Contracts Deploy Dev.
#[local] Open Scope Z_scope.

(** ** Quantities *)

Lemma strip_prefix_app p s r : strip_prefix p s = Some r -> s = p ++ r.
Proof.
  revert s; induction p as [|c p IH]; intros s; simpl; [by intros [= ->] |].
  destruct s as [|d s]; [done |]. case_decide; [| done]. intros H1%IH. by subst.
Qed.

Lemma fmt_hex_bare n :
  u64_ok n -> strip_any [str "0x"] (fmt_hex n) = None /\ strip_any [str "0X"] (fmt_hex n) = None.
Proof.
  intros Hn. pose proof (parse_fmt_hex n Hn) as Hp.
  split; unfold strip_any; cbn [foldr];
    (destruct (strip_prefix _ (fmt_hex n)) as [r|] eqn:E; [| done]; apply strip_prefix_app in E;
     rewrite E in Hp; vm_compute in Hp; done).
Qed.

(** The client reads back every quantity the node writes, with both of its parsers. *)
Lemma hex_u64_qty n : u64_ok n -> hex_u64 (json_qty n) = Ok n /\ Dev.parse_qty (json_qty n) = Ok n.
Proof.
  intros Hn. destruct (fmt_hex_bare n Hn) as [Hx HX]. split.
  - unfold hex_u64, json_qty. cbn [as_str ok_or rbind].
    destruct (encode_qty_text n) as [->|[-> ->]]; [| reflexivity].
    change (trim_matches (str "0x") (str "0x" ++ fmt_hex n))
      with (trim_loop [str "0x"] (S (length (fmt_hex n))) (fmt_hex n)).
    unfold trim_matches. rewrite (trim_loop_id _ _ _ Hx), (trim_loop_id _ _ _ HX).
    pose proof (parse_fmt_hex n Hn) as Hp. destruct (fmt_hex n); [done |]. by rewrite Hp.
  - unfold Dev.parse_qty, json_qty. cbn [as_str ok_or rbind]. by rewrite parse_encode_qty.
Qed.

Section Spec.
Context {HC : HexCrate} {HL : HexLaws} {BC : BincodeCrate} {BL : BincodeLaws} {SC : Sha3Crate}.
Context {EC : Ed25519Crate} {EL : Ed25519Laws} {WC : WasmiCrate} {DC : DashMapCrate} {ET : ErrorTexts}.
Context {FT : FloatText} {SJ : SerdeJson} {CC : ContractCrates} {W : Type}.
Implicit Types (c : RpcContext W).

(** ** A node's endpoint, seen by a client *)

Definition endpoint (body : value) : smonad (RpcContext W) unit value := fun c =>
  let '(c, r) := http_jsonrpc (Some body) c in (c, Ok (response_value r)).

(** A call through the endpoint is a call of [handle]. *)
Lemma rpc_call_handle method params c :
  rpc_call endpoint method params c =
  match handle method params c with
  | (c', Ok v) => (c', Ok v)
  | (c', Err e) => (c', Err (DeployError.Rpc method (error_value (json_rpc_error e))))
  end.
Proof.
  unfold rpc_call, endpoint, http_jsonrpc.
  change (request_from_value (rpc_body method params))
    with (Some (mkJsonRpcRequest (str "2.0") method params (json_u64 1))).
  unfold sbind, smap_err, dispatch. cbn [jr_method jr_params jr_id].
  by destruct (handle method params c) as [c' [v|e]].
Qed.

(** What a client's query leaves alone: everything but the counters. *)
Definition same_but_metrics c c' : Prop := exists f, c' = on_metrics f c.

Lemma query_count c a :
  allowed c (str "eth_getTransactionCount") = true ->
  exists c', same_but_metrics c c' /\
  rpc_call endpoint (str "eth_getTransactionCount")
    (JArray [JString (Address.to_hex a); JString (str "latest")]) c =
  (c', Ok (json_qty (default 0 (acc_nonce <$> StateDB.get_account (ctx_state c) a)))).
Proof.
  intros Ha. rewrite rpc_call_handle. unfold handle. rewrite Ha. cbn [negb].
  change (dispatch_method (str "eth_getTransactionCount") ?p c) with (c, rpc_get_transaction_count c p).
  unfold rpc_get_transaction_count. change (JString (Address.to_hex a)) with (json_address a).
  rewrite parse_address_param. cbn. eexists. split; [by eexists | done].
Qed.

(** ** Submitting *)

Lemma deploy_gas_ok len : 0 <= len -> u64_ok (deploy_gas len).
Proof.
  intros Hl. unfold deploy_gas. apply saturating_add64_ok; [apply saturating_add64_ok |];
    try (unfold u64_ok; lia). unfold u64_ok. pose proof (Z.mod_pos_bound (16 * len) M64). lia.
Qed.

Lemma deploy_gas_exact len : 0 <= len -> 16 * len + 71000 < M64 -> deploy_gas len = 16 * len + 71000.
Proof.
  intros Hl Hm. unfold deploy_gas. rewrite Z.mod_small by lia. unfold saturating_add64, u64_max. lia.
Qed.

(** What the client pays for beyond the intrinsic gas of its CREATE. *)
Lemma create_intrinsic key n wasm :
  16 * Z.of_nat (length wasm) + 71000 < M64 ->
  compute_intrinsic_gas (create_tx key n wasm) gas_config_default = 21000 + 16 * Z.of_nat (length wasm).
Proof.
  intros Hm. unfold compute_intrinsic_gas, compute_intrinsic_gas_len.
  change (Z.of_nat (data_len (create_tx key n wasm))) with (Z.of_nat (length wasm)).
  unfold saturating_add64, saturating_mul64, u64_max in *. cbn. lia.
Qed.
Lemma create_gas key n wasm :
  16 * Z.of_nat (length wasm) + 71000 < M64 ->
  tx_gas (create_tx key n wasm) = compute_intrinsic_gas (create_tx key n wasm) gas_config_default + 50000.
Proof.
  intros Hm. rewrite create_intrinsic by done. change (tx_gas _) with (deploy_gas (Z.of_nat (length wasm))).
  rewrite deploy_gas_exact by lia. lia.
Qed.

Lemma create_tx_wf key n wasm : u64_ok n -> vec_ok wasm -> tx_wf (create_tx key n wasm).
Proof.
  intros Hn Hw. unfold tx_wf, create_tx, signed_tx, sign_transaction. cbn.
  split_and!; try done; try (repeat constructor; unfold u64_ok; lia). apply deploy_gas_ok. lia.
Qed.

(** The pool has room for a well-signed transaction, and expects its nonce. *)
Definition room (p : TransactionPool) (tx : Transaction) : Prop :=
  min_gas (config p) <= tx_gas tx /\
  TransactionPool.contains p (tx_hash tx) = false /\
  (size (pending p) < max_pending (config p))%nat /\
  (default O (per_sender p !! tx_from tx) < max_per_sender (config p))%nat /\
  TransactionPool.expected_nonce p (tx_from tx) = tx_nonce tx.
#[export] Instance room_dec p tx : Decision (room p tx) := _.

Lemma add_in_room tx o p :
  recover_sender tx = Ok (tx_from tx) ->
  if decide (room p tx)
  then exists p', TransactionPool.add_transaction tx o p = (p', Ok (tx_hash tx))
  else exists e, TransactionPool.add_transaction tx o p = (p, Err e).
Proof.
  intros Hr. unfold TransactionPool.add_transaction, TransactionPool.add_transaction_at. rewrite Hr.
  case_decide as H.
  - destruct H as (Hg & Hnew & Hp & Hs & Hn). rewrite (proj2 (Z.ltb_ge _ _)), Hnew by done.
    rewrite (proj2 (Nat.leb_gt _ _)), (proj2 (Nat.leb_gt _ _)) by done. rewrite Hn, Z.ltb_irrefl. by eexists.
  - destruct (tx_gas tx <? _) eqn:E1; [by eexists |].
    destruct (TransactionPool.contains _ _) eqn:E2; [by eexists |].
    destruct (_ <=? size _)%nat eqn:E3; [by eexists |]. destruct (_ <=? default _ _)%nat eqn:E4; [by eexists |].
    destruct (tx_nonce tx <? _) eqn:E5; [by eexists |]. destruct (_ <? tx_nonce tx) eqn:E6; [by eexists |].
    destruct H. apply Nat.leb_gt in E3, E4. zbool. split_and!; try done; lia.
Qed.

Lemma submit_raw tx c :
  allowed c (str "eth_sendRawTransaction") = true -> tx_wf tx ->
  rpc_call endpoint (str "eth_sendRawTransaction") (JArray [JString (raw_text tx)]) c =
  match TransactionPool.add_transaction tx TxPool.Local (ctx_pool c) with
  | (p, Ok hash) => (on_metrics (IvoryMetrics.rpc_request (str "eth_sendRawTransaction"))
      (ctx_emit (NewPendingTx hash) (notify tx (set_ctx_pool p c))), Ok (json_hash hash))
  | (p, Err e) =>
      let err := json_rpc_error (RpcError.InvalidParams (pool_error_display e)) in
      (on_metrics (fun m => IvoryMetrics.rpc_error (str "eth_sendRawTransaction") (je_code err)
         (IvoryMetrics.rpc_request (str "eth_sendRawTransaction") m)) (set_ctx_pool p c),
       Err (DeployError.Rpc (str "eth_sendRawTransaction") (error_value err)))
  end.
Proof.
  intros Ha Hw. rewrite rpc_call_handle. unfold handle. rewrite Ha. cbn [negb].
  change (dispatch_method (str "eth_sendRawTransaction") ?p c) with (send_raw_transaction p c).
  rewrite (send_raw_decoded _ _ tx).
  - by destruct (TransactionPool.add_transaction tx TxPool.Local (ctx_pool c)) as [p [h|e]].
  - unfold decode_hex, raw_text. rewrite decode_hex_text. simpl.
    by apply (deserialize_serialize (A := Transaction)).
Qed.

Lemma notify_ledger tx c : cx_ledger (notify tx c) = cx_ledger c /\ cx_events (notify tx c) = cx_events c.
Proof. unfold notify. by destruct (cx_on_tx c). Qed.

Context (sleep : RpcContext W -> RpcContext W).

(** C22: Deploying through a node's endpoint: the client reads the sender's nonce
    from the chain's state and submits a CREATE with it, whose gas limit is 50,000 above
    its intrinsic gas (below the range in which the sum saturates).  Exactly when the
    pool has room for it (its least gas is met, the hash is new, neither the pool nor
    the sender's share is full) and expects that nonce, the transaction is pending
    under the hash the client then waits for, it is announced, and neither chain nor
    state has changed.  Otherwise, as when the sender has another transaction pending
    and the pool expects a later nonce than the state shows, the deployment is refused
    with nothing but the endpoint's counters changed. *)
Theorem deploy_submits key wasm c n :
  let from := address_from_secret key in
  let tx := create_tx key n wasm in
  allowed c (str "eth_getTransactionCount") = true -> allowed c (str "eth_sendRawTransaction") = true ->
  default 0 (acc_nonce <$> StateDB.get_account (ctx_state c) from) = n -> u64_ok n -> vec_ok wasm ->
  (16 * Z.of_nat (length wasm) + 71000 < M64 -> tx_gas tx = compute_intrinsic_gas tx gas_config_default + 50000) /\
  if decide (room (ctx_pool c) tx)
  then exists c', submit_create endpoint sleep key wasm c = wait_create endpoint sleep (Hash.to_hex (tx_hash tx)) c' /\
         TransactionPool.get (ctx_pool c') (tx_hash tx) = Some tx /\
         ctx_store c' = ctx_store c /\ ctx_state c' = ctx_state c /\
         cx_events c' = cx_events c ++ [NewPendingTx (tx_hash tx)]
  else exists c' err, submit_create endpoint sleep key wasm c =
         (c', Err (DeployError.Rpc (str "eth_sendRawTransaction") err)) /\ same_but_metrics c c'.
Proof.
  intros from tx Ha1 Ha2 Hn Hok Hw. split; [apply create_gas |].
  destruct (query_count c from Ha1) as (c1 & [f Hc1] & E1).
  unfold submit_create. fold from. rewrite (sbind_run _ _ _ _ _ E1), Hn.
  destruct (hex_u64_qty n Hok) as [-> _]. rewrite sbind_lift. fold tx.
  assert (tx_wf tx) as Hwf by by apply create_tx_wf.
  pose proof (submit_raw tx c1 ltac:(by rewrite Hc1) Hwf) as E2.
  assert (ctx_pool c1 = ctx_pool c) as Hp by by rewrite Hc1. rewrite Hp in E2.
  pose proof (add_in_room tx TxPool.Local (ctx_pool c) (recover_signed _ key)) as Hadd.
  case_decide.
  - destruct Hadd as [p' Hadd]. rewrite Hadd in E2. rewrite (sbind_run _ _ _ _ _ E2).
    cbn [json_hash as_str ok_or]. rewrite sbind_lift. eexists. split; [done |].
    pose proof (add_cases tx TxPool.Local 0 (ctx_pool c)) as Hc. unfold TransactionPool.add_transaction in Hadd.
    rewrite Hadd in Hc. destruct Hc as (_ & _ & _ & _ & _ & _ & _ & Hp').
    destruct (notify_ledger tx (set_ctx_pool p' c1)) as [L1 L2].
    unfold ctx_pool, ctx_store, ctx_state, on_metrics, ctx_emit. cbn [cx_ledger cx_events].
    rewrite L1, L2. subst c1. cbn [set_ctx_pool cx_ledger cx_events lg_pool lg_store lg_live].
    rewrite Hp'. split_and!; try done. unfold TransactionPool.get. cbn. by rewrite lookup_insert_eq.
  - destruct Hadd as [e Hadd]. rewrite Hadd in E2. rewrite (sbind_run _ _ _ _ _ E2).
    eexists _, _. split; [done |]. rewrite <- Hp, set_ctx_pool_id, Hc1. eexists. apply on_metrics_comp.
Qed.

(** ** Waiting *)

Definition receipt_of (h : H256) c : RpcContext W * result value DeployError.t :=
  rpc_call endpoint (str "eth_getTransactionReceipt") (JArray [JString (Hash.to_hex h)]) c.
(** The node when the client asks for the receipt for the [i]-th time. *)
Definition at_poll (h : H256) (i : nat) c : RpcContext W :=
  Nat.iter i (fun c => sleep (receipt_of h c).1) c.

Lemma at_poll_succ h i c : at_poll h (S i) c = at_poll h i (sleep (receipt_of h c).1).
Proof. unfold at_poll. by rewrite Nat.iter_succ_r. Qed.

(** A CREATE in a block, with its receipt. *)
Definition created_in c (h : H256) (tx : Transaction) : Prop :=
  tx_to tx = None /\ exists loc b r,
    BlockStore.get_transaction (ctx_store c) h = Some (tx, loc) /\
    BlockStore.get_block (ctx_store c) (tl_block_hash loc) = Some b /\ receipts b !! tl_index loc = Some r.

Lemma parse_h256_param (h : H256) rest : parse_h256_at (JArray (JString (Hash.to_hex h) :: rest)) 0 = Ok h.
Proof. unfold parse_h256_at, parse_string_at. simpl. by rewrite hash_from_to_hex. Qed.

Lemma receipt_absent h c :
  BlockStore.get_transaction (ctx_store c) h = None -> exists e, (receipt_of h c).2 = Err e.
Proof.
  intros Hn. unfold receipt_of. rewrite rpc_call_handle. unfold handle.
  destruct (allowed c _); cbn [negb]; [| by eexists].
  change (dispatch_method (str "eth_getTransactionReceipt") ?p c) with (c, rpc_get_transaction_receipt c p).
  unfold rpc_get_transaction_receipt. rewrite parse_h256_param. cbn [rbind].
  rewrite Hn. by eexists.
Qed.

Lemma receipt_present h tx c :
  allowed c (str "eth_getTransactionReceipt") = true -> created_in c h tx ->
  exists v, (receipt_of h c).2 = Ok v /\ v <> JNull /\
    get (str "contractAddress") v = Some (json_address (Address.create (tx_from tx) (tx_nonce tx))).
Proof.
  intros Ha (Hto & loc & b & r & Ht & Hb & Hr). unfold receipt_of. rewrite rpc_call_handle. unfold handle.
  rewrite Ha. cbn [negb].
  change (dispatch_method (str "eth_getTransactionReceipt") ?p c) with (c, rpc_get_transaction_receipt c p).
  unfold rpc_get_transaction_receipt.
  rewrite parse_h256_param.
  cbn [rbind]. rewrite Ht. cbn [ok_or rbind]. rewrite Hb. cbn [ok_or rbind]. rewrite Hr. cbn [ok_or rbind].
  eexists. split; [done |]. split; [done |]. json_get. unfold is_create. by rewrite Hto.
Qed.

Lemma wait_loop_pending k i h c :
  (forall j, (j < i)%nat -> BlockStore.get_transaction (ctx_store (at_poll h j c)) h = None) ->
  wait_loop endpoint sleep (i + k) (Hash.to_hex h) c = wait_loop endpoint sleep k (Hash.to_hex h) (at_poll h i c).
Proof.
  revert c; induction i as [|i IH]; intros c Hj; [done |].
  destruct (receipt_absent h c (Hj 0%nat ltac:(lia))) as [e He].
  rewrite at_poll_succ, <- IH.
  - cbn [Nat.add wait_loop]. fold (receipt_of h c). destruct (receipt_of h c) as [c1 r]. cbn in He. by subst r.
  - intros j Hlt. rewrite <- at_poll_succ. apply Hj. lia.
Qed.

(** Waiting for a deployment ends.  It asks for the receipt at most forty times,
    sleeping in between: it reports the CREATE address of the sender and nonce at
    the first poll that finds the transaction in a canonical block with a receipt,
    whatever the receipt says of its success, and it gives up after forty polls that
    find none. *)
Theorem wait_create_ends h tx c :
  (forall i, allowed (at_poll h i c) (str "eth_getTransactionReceipt") = true) ->
  (forall i, (i < 40)%nat ->
     (forall j, (j < i)%nat -> BlockStore.get_transaction (ctx_store (at_poll h j c)) h = None) ->
     created_in (at_poll h i c) h tx ->
     (wait_create endpoint sleep (Hash.to_hex h) c).2 =
     Ok (Address.to_hex (Address.create (tx_from tx) (tx_nonce tx)))) /\
  ((forall j, (j < 40)%nat -> BlockStore.get_transaction (ctx_store (at_poll h j c)) h = None) ->
   wait_create endpoint sleep (Hash.to_hex h) c = (at_poll h 40 c, Err (DeployError.TimedOut (Hash.to_hex h)))).
Proof.
  intros Ha. unfold wait_create. split.
  - intros i Hi Hbefore Hin. replace 40%nat with (i + S (39 - i))%nat by lia.
    rewrite wait_loop_pending by done. destruct (receipt_present h tx _ (Ha i) Hin) as (v & Hv & Hn & Hg).
    cbn [wait_loop]. fold (receipt_of h (at_poll h i c)).
    destruct (receipt_of h (at_poll h i c)) as [c1 r]. cbn in Hv. subst r.
    destruct v; try done; cbn [snd]; by rewrite Hg.
  - intros Hnone. change 40%nat with (40 + 0)%nat at 1. by rewrite wait_loop_pending.
Qed.

(** ** The CREATE in a block *)

Lemma credit_code a v s : StateDB.get_code (credit a v s).1 = StateDB.get_code s.
Proof.
  unfold credit. rewrite sbind_get, sbind_lift. by destruct (ok_or _ _).
Qed.

Lemma apply_create tx s :
  tx_to tx = None ->
  match apply_value tx s with
  | (s', Ok _) => StateDB.get_code s' (Address.create (tx_from tx) (tx_nonce tx)) = tx_data tx
  | (_, Err e) => e = ExecutionError.Overflow
  end.
Proof.
  intros Hto. unfold apply_value. rewrite Hto. cbn zeta. rewrite sbind_get, sbind_lift.
  destruct (U256.checked_add _ _) as [b|]; [| done].
  unfold StateDB.get_code. cbn. by rewrite lookup_insert_eq.
Qed.

(** A CREATE runs no code: it can only fail on its balances, it uses the intrinsic
    gas, and its data becomes the code of the new account. *)
Lemma create_after_debit cfg tx ctx meter s :
  tx_to tx = None ->
  match after_debit cfg tx ctx meter s with
  | (s', Ok (out, _)) =>
      eo_gas_used out = GasMeter.gas_used meter /\
      StateDB.get_code s' (Address.create (tx_from tx) (tx_nonce tx)) = tx_data tx
  | (_, Err e) => e = ExecutionError.Overflow
  end.
Proof.
  intros Hto. pose proof (apply_create tx s Hto) as Hcode. unfold after_debit.
  destruct (apply_value tx s) as [s1 [[]|e]] eqn:E1; rewrite (sbind_run _ _ _ _ _ E1); [| done].
  assert (execute_call (call_input_from_tx tx) (remaining meter) s1 = (s1, Ok (call_result_empty true 0))) as E2.
  { unfold execute_call, call_input_from_tx, call_kind_from_tx, is_create. cbn. by rewrite Hto. }
  rewrite (sbind_run _ _ _ _ _ E2). cbn [cr_gas_used call_result_empty]. rewrite Z.ltb_irrefl, !sbind_lift.
  destruct (U256.checked_mul _ _) as [refund|]; cbn [ok_or]; [| done].
  rewrite <- Hcode. destruct (U256.is_zero refund); [done |].
  pose proof (credit_code (tx_from tx) refund s1) as Hc. unfold credit in *.
  rewrite sbind_get, sbind_lift in Hc. unfold sbind at 1. rewrite sbind_get, sbind_lift.
  destruct (U256.checked_add _ _); cbn [ok_or] in *; [| done]. split; [done |]. by rewrite <- Hc.
Qed.

Context {WL : WasmiLaws}.


(** C21: A deployment that reaches a block installs its contract: in a state where the
    sender has the transaction's nonce and at least its gas, and with room for that
    gas in the block, executing the CREATE the client submits succeeds.  The new
    account's code is the package's bytecode, the receipt records a success at the
    intrinsic cost of 21000 gas and 16 per byte, and the other 50000 are refunded. *)
Theorem deployed_code_installed key wasm n ctx s :
  let from := address_from_secret key in
  let gas := deploy_gas (Z.of_nat (length wasm)) in
  state_inv s -> supply s < M256 -> u64_ok (ctx_gas_used ctx) -> u64_ok n -> n < u64_max ->
  16 * Z.of_nat (length wasm) + 71000 < M64 ->
  nonce s from = n -> gas <= balance s from -> ctx_gas_used ctx + gas <= 30000000 ->
  exists s' out ctx',
    execute_transaction gas_config_default (create_tx key n wasm) ctx s = (s', Ok (out, ctx')) /\
    StateDB.get_code s' (Address.create from n) = wasm /\
    rc_status (eo_receipt out) = true /\
    eo_gas_used out = 21000 + 16 * Z.of_nat (length wasm) /\ eo_gas_refunded out = 50000.
Proof.
  intros from gas Hi Hsup Hctx Hn Hmax Hlen Hnonce Hbal Hblock.
  set (tx := create_tx key n wasm). set (len := Z.of_nat (length wasm)) in *.
  assert (0 <= len) as Hl by lia. unfold gas in *. rewrite deploy_gas_exact in Hbal, Hblock by done.
  assert (tx_wf tx) as Hw by (apply create_tx_wf; [done | unfold vec_ok; lia]).
  assert (tx_gas tx = 16 * len + 71000) as Hg by by apply deploy_gas_exact.
  assert (compute_intrinsic_gas tx gas_config_default = 21000 + 16 * len) as Hint by by apply create_intrinsic.
  assert (precheck gas_config_default tx ctx s = Ok tt) as Hpre.
  { unfold precheck, fee. change (u256_val (tx_gas_price tx)) with 1. change (u256_val (tx_value tx)) with 0.
    change (tx_from tx) with from. change (tx_nonce tx) with n. change (max_gas_per_block _) with 30000000.
    rewrite Hg, Hint, Hnonce, Z.eqb_refl. unfold saturating_add64, u64_max in *. cbn [negb].
    repeat first [rewrite (proj2 (Z.ltb_ge _ _)) by lia | rewrite (proj2 (Z.leb_gt _ _)) by lia]. done. }
  pose proof (execute_spec gas_config_default tx ctx s Hi Hw gas_config_default_wf Hctx Hsup) as Hs.
  rewrite Hpre in Hs. pose proof (execute_split gas_config_default tx ctx s Hi Hw) as Hrun. rewrite Hpre in Hrun.
  pose proof (create_after_debit gas_config_default tx ctx (start_meter gas_config_default tx) (debit tx s) eq_refl) as Hc.
  rewrite <- Hrun in Hc. destruct (execute_transaction _ _ _ _) as [s' [[out ctx']|e]].
  - destruct Hs as (_ & _ & Ho), Hc as [Hu Hcode]. destruct Ho as (_ & Href & Hrc & _).
    assert (eo_gas_used out = 21000 + 16 * len) as Hused.
    { rewrite Hu. unfold GasMeter.gas_used, start_meter. cbn [limit remaining].
      rewrite Hg, Hint. unfold saturating_sub64. lia. }
    exists s', out, ctx'. split_and!; [done | exact Hcode | by rewrite Hrc | done | lia].
  - destruct Hs as (_ & _ & msg & ->). done.
Qed.
End Spec.

(** ** Witnesses *)

Definition deploy_key : SecretKey := sample_sk.
Definition deploy_wasm : bytes := str "(module)".
Definition deploy_tx : Transaction := create_tx deploy_key 0 deploy_wasm.
Definition deployer : Address := address_from_secret deploy_key.

Lemma deploy_submits_witness :
  exists c', submit_create endpoint (fun c => c) deploy_key deploy_wasm (sample_context fork_ledger) =
    wait_create endpoint (fun c => c) (Hash.to_hex (tx_hash deploy_tx)) c' /\
  TransactionPool.get (ctx_pool c') (tx_hash deploy_tx) = Some deploy_tx.
Proof.
  assert (room (ctx_pool (sample_context fork_ledger)) deploy_tx) as Hr
    by (apply (bool_decide_eq_true_1 _); vm_compute; reflexivity).
  assert (default 0 (acc_nonce <$> StateDB.get_account (ctx_state (sample_context fork_ledger)) deployer) = 0) as Hs
    by (vm_compute; reflexivity).
  assert (u64_ok 0) as Hok by (unfold u64_ok; lia). assert (vec_ok deploy_wasm) as Hw by (vm_compute; reflexivity).
  pose proof (deploy_submits (fun c => c) deploy_key deploy_wasm (sample_context fork_ledger) 0 eq_refl eq_refl
    Hs Hok Hw) as [_ H]. cbv zeta in H.
  rewrite (decide_True _ _ Hr) in H. destruct H as (c' & H1 & H2 & _).
  exact (ex_intro _ c' (conj H1 H2)).
Defined.

(** A node whose next block, mined while the client sleeps, holds the CREATE. *)
Definition mined_block : Block :=
  mkBlock (header sample_block) [deploy_tx] [mkReceipt (tx_hash deploy_tx) 1 21128 false []].
Definition mined_store : BlockStore :=
  let s := BlockStore.new (sample_poa x01) in
  mkBlockStore {[block_hash mined_block := mined_block]} (by_number s) (bs_head s) (snapshots s)
    {[tx_hash deploy_tx := mkTxLocation (block_hash mined_block) 1 0]} (consensus s).
Definition mined_context : RpcContext (list Transaction) :=
  sample_context (mkLedger mined_store StateDB.new TransactionPool.new).
Definition mine (c : RpcContext (list Transaction)) : RpcContext (list Transaction) := mined_context.

Lemma mined_created : created_in mined_context (tx_hash deploy_tx) deploy_tx.
Proof.
  split; [done |]. exists (mkTxLocation (block_hash mined_block) 1 0), mined_block,
    (mkReceipt (tx_hash deploy_tx) 1 21128 false []).
  unfold BlockStore.get_transaction, BlockStore.get_block.
  change (by_hash (ctx_store mined_context)) with ({[block_hash mined_block := mined_block]} : gmap H256 Block).
  change (tx_index (ctx_store mined_context))
    with ({[tx_hash deploy_tx := mkTxLocation (block_hash mined_block) 1 0]} : gmap H256 TxLocation).
  rewrite lookup_singleton_eq. cbn [mbind option_bind tl_block_hash tl_index]. by rewrite lookup_singleton_eq.
Qed.

Lemma at_poll_mined h i c : at_poll mine h (S i) c = mined_context.
Proof. done. Qed.

(** Found at the second poll, with a receipt that says it failed; never found by a
    client of a node that mines nothing. *)
Lemma wait_create_ends_witness :
  (wait_create endpoint mine (Hash.to_hex (tx_hash deploy_tx)) (sample_context genesis_ledger)).2 =
    Ok (Address.to_hex (Address.create deployer 0)).
Proof.
  assert (BlockStore.get_transaction (ctx_store (sample_context genesis_ledger)) (tx_hash deploy_tx) = None)
    as Hnone by (vm_compute; reflexivity).
  apply (proj1 (wait_create_ends mine (tx_hash deploy_tx) deploy_tx (sample_context genesis_ledger)
    ltac:(intros [|i]; reflexivity)) 1%nat).
  - lia.
  - intros [|j] Hj; [exact Hnone | lia].
  - exact mined_created.
Defined.

Definition deployer_state : StateDB :=
  StateDB.set_account deployer (with_balance (U256.from_u64 1000000) account_new) StateDB.new.

Lemma deployed_code_installed_witness :
  exists s' out ctx',
    execute_transaction gas_config_default deploy_tx sample_ctx deployer_state = (s', Ok (out, ctx')) /\
    StateDB.get_code s' (Address.create deployer 0) = deploy_wasm /\ eo_gas_used out = 21128.
Proof.
  assert (u64_ok 0) as Hok by (unfold u64_ok; lia).
  assert (state_inv deployer_state) as Hi.
  { apply set_account_inv; [| apply new_inv]. split; [exact Hok | by apply u256_wf_mk]. }
  assert (supply deployer_state < M256) as H0 by (vm_compute; reflexivity).
  assert (nonce deployer_state (address_from_secret deploy_key) = 0) as Hn by (vm_compute; reflexivity).
  assert (deploy_gas (Z.of_nat (length deploy_wasm)) <= balance deployer_state (address_from_secret deploy_key))
    as Hb by (vm_compute; discriminate).
  assert (16 * Z.of_nat (length deploy_wasm) + 71000 < M64) as Hl by (vm_compute; reflexivity).
  assert (ctx_gas_used sample_ctx + deploy_gas (Z.of_nat (length deploy_wasm)) <= 30000000) as Hg
    by (vm_compute; discriminate).
  destruct (deployed_code_installed deploy_key deploy_wasm 0 sample_ctx deployer_state Hi H0 Hok Hok
    ltac:(vm_compute; reflexivity) Hl Hn Hb Hg)
    as (s' & out & ctx' & H1 & H2 & _ & H3 & _).
  exact (ex_intro _ s' (ex_intro _ out (ex_intro _ ctx' (conj H1 (conj H2 H3))))).
Defined.
