(* ===== verification/DevProps.v ===== *)
(** * [ivory-dev]: theorems

    Looking for the project a command runs in, and the file names of a data
    directory. *)

From S2P Require Import Prelude Hex Text Uint UintFacts Hash Address Bincode Core Crypto Path.
From S2P Require Import Contracts Deploy Dev ContractProps.
#[local] Open Scope Z_scope.

(** ** The parent is shorter *)

(** Trimming drops one byte at a time, or stops. *)
Lemma trim_right_ind (P : bytes -> Prop) :
  (forall r, Path.trim_right r = r -> (forall c r', r = c :: r' -> is_sep c = true -> r' = []) -> P r) ->
  (forall c r, Path.trim_right (c :: r) = Path.trim_right r -> P r -> P (c :: r)) -> forall r, P r.
Proof.
  intros Hstop Hstep r. induction r as [|c r IH]; [by apply Hstop |].
  destruct (decide (c = x2f)) as [->|H1].
  - destruct r as [|d r]; [apply Hstop; [done | by intros ? ? [= <- <-]] |]. by apply Hstep.
  - assert (forall c' r', c :: r = c' :: r' -> is_sep c' = true -> r' = []) as Hn.
    { intros c' r' [= <- <-]. unfold is_sep. by rewrite bool_decide_eq_true. }
    destruct (decide (c = x2e)) as [->|H2]; [| apply Hstop; [by destruct c | done]].
    destruct r as [|d r]; [by apply Hstop |].
    destruct (decide (d = x2f)) as [->|H3]; [by apply Hstep | apply Hstop; [by destruct d | done]].
Qed.

Lemma trim_right_le r : (length (Path.trim_right r) <= length r)%nat.
Proof.
  induction r as [r E H|c r E IH] using trim_right_ind; rewrite E; simpl; lia.
Qed.
(** Only a lone root still starts with a separator. *)
Lemma trim_right_sep r c r' : Path.trim_right r = c :: r' -> is_sep c = true -> r' = [].
Proof.
  induction r as [r E H|c0 r E IH] using trim_right_ind; rewrite E; [apply H | apply IH].
Qed.

Lemma drop_name_le r : (length (Path.drop_name r) <= length r)%nat.
Proof. induction r as [|c r IH]; [done |]. simpl. destruct (is_sep c); simpl; lia. Qed.

Lemma parent_shorter p q : Path.parent p = Some q -> (length q < length p)%nat.
Proof.
  unfold Path.parent. destruct (last (Path.components p)) as [c|] eqn:Ec; [| done].
  intros Hq. assert (c <> RootDir /\ q = rev (Path.trim_right (Path.drop_name (Path.trim_right (rev p)))))
    as [Hc ->] by (destruct c; [done | by injection Hq as <- ..]). clear Hq.
  rewrite length_rev, <- (length_rev p).
  pose proof (trim_right_le (Path.drop_name (Path.trim_right (rev p)))) as H1.
  pose proof (trim_right_le (rev p)) as H2.
  destruct (Path.trim_right (rev p)) as [|b r] eqn:Et.
  - cbn in *. destruct (rev p) as [|? ?] eqn:Ep; [| simpl; lia].
    apply (f_equal (@rev _)) in Ep. rewrite rev_involutive in Ep. subst p. vm_compute in Ec. done.
  - cbn [Path.drop_name] in *. destruct (is_sep b) eqn:Eb.
    + pose proof (trim_right_sep _ _ _ Et Eb) as ->.
      destruct (rev p) as [|x [|y r]] eqn:Ep; [done | | simpl in *; lia]. cbn in Et.
      apply (f_equal (@rev _)) in Ep. rewrite rev_involutive in Ep. subst p.
      assert (x = b) as -> by (destruct x; by injection Et).
      unfold is_sep in Eb. apply bool_decide_eq_true in Eb. subst b. vm_compute in Ec. destruct Hc. by injection Ec as <-.
    + pose proof (drop_name_le r). simpl in *. lia.
Qed.

(** ** Looking for the project *)

(** The [n]th directory above. *)
Fixpoint above (n : nat) (p : bytes) : option bytes :=
  match n with O => Some p | S n => Path.parent p ≫= above n end.
Definition has_toml (f : Fs) (p : bytes) : bool := Fs.is_file f (Path.join p (str "ivory.toml")).

Lemma find_loop_spec f fuel p :
  (length p < fuel)%nat ->
  exists r, find_loop fuel f p = Some r /\
  match r with
  | Some d => exists n, above n p = Some d /\ has_toml f d = true /\
                (forall m q, (m < n)%nat -> above m p = Some q -> has_toml f q = false)
  | None => forall m q, above m p = Some q -> has_toml f q = false
  end.
Proof.
  revert p; induction fuel as [|fuel IH]; intros p Hf; [lia |]. cbn [find_loop].
  fold (has_toml f p). destruct (has_toml f p) eqn:Et.
  { exists (Some p). split; [done |]. exists 0%nat. split_and!; [done | done | lia]. }
  unfold pop. destruct (Path.parent p) as [up|] eqn:Ep.
  - destruct (IH up) as (r & -> & Hr); [apply parent_shorter in Ep; lia |]. exists r. split; [done |].
    destruct r as [d|].
    + destruct Hr as (n & Hn & Hd & Hm). exists (S n). cbn [above]. rewrite Ep. split_and!; [done | done |].
      intros [|m] q Hlt; cbn [above]; [by intros [= <-] |]. rewrite Ep. apply Hm. lia.
    + intros [|m] q; cbn [above]; [by intros [= <-] |]. rewrite Ep. apply Hr.
  - exists None. split; [done |]. intros [|m] q; cbn [above]; [by intros [= <-] | by rewrite Ep].
Qed.

(** The search for a project ends, and finds the nearest one: the directory it
    returns is the start or a directory above it, holds an [ivory.toml], and no
    directory in between does; when it finds none, there is none above the start. *)
Theorem find_project_nearest f start :
  is_Some (find_loop (S (length start)) f start) /\
  match find_project f start with
  | Some d => exists n, above n start = Some d /\ has_toml f d = true /\
                (forall m q, (m < n)%nat -> above m start = Some q -> has_toml f q = false)
  | None => forall m q, above m start = Some q -> has_toml f q = false
  end.
Proof.
  destruct (find_loop_spec f (S (length start)) start ltac:(lia)) as (r & Er & Hr).
  unfold find_project. rewrite Er. by split; [eexists |].
Qed.

Example find_project_above :
  let f := mkFs [] (list_to_map [([str "work"; str "ivory.toml"], []); ([str "ivory.toml"], [])])
             (list_to_set [[]; [str "work"]; [str "work"; str "contracts"]]) in
  find_project f (str "/work/contracts") = Some (str "/work") /\ find_project f (str "/home") = Some (str "/").
Proof. vm_compute. done. Qed.
