(* ===== verification/DatadirProps.v ===== *)
(** * Data directories: theorems *)

From S2P Require Import Prelude Hex Text Uint UintFacts UintProps Hash Address Bincode Core Path.
From S2P Require Import Trie State StateProps Crypto Vm Executor Consensus Store StoreProps StoreSpec Config ConfigProps Datadir.
#[local] Open Scope Z_scope.

(** ** Writing under a directory *)

Lemma write_ok f p content :
  Fs.resolve f p ∉ fs_dirs f ->
  take (pred (length (Fs.resolve f p))) (Fs.resolve f p) ∈ fs_dirs f ->
  Fs.write p content f = (mkFs (fs_cwd f) (<[Fs.resolve f p := content]> (fs_files f)) (fs_dirs f), Ok tt).
Proof. intros H1 H2. unfold Fs.write. rewrite decide_False by tauto. done. Qed.

(** The directories a [create_dir_all] makes sure of. *)
Definition prefixes (q : list bytes) : gset (list bytes) :=
  list_to_set (map (fun n => take n q) (seq 0 (S (length q)))).
Lemma elem_of_prefixes d q : d ∈ prefixes q <-> exists n, d = take n q.
Proof.
  unfold prefixes. rewrite elem_of_list_to_set, list_elem_of_In, in_map_iff. split.
  - intros (n & <- & _). by exists n.
  - intros [n ->]. exists (Nat.min n (length q)). rewrite in_seq. split; [| lia].
    destruct (Nat.le_ge_cases n (length q)); [by rewrite Nat.min_l by done |].
    rewrite Nat.min_r by done. by rewrite !take_ge by lia.
Qed.

Lemma create_dir_all_ok f p :
  (forall n, fs_files f !! take n (Fs.resolve f p) = None) ->
  Fs.create_dir_all p f =
  (mkFs (fs_cwd f) (fs_files f) (prefixes (Fs.resolve f p) ∪ fs_dirs f), Ok tt).
Proof.
  intros H. unfold Fs.create_dir_all. rewrite decide_False; [done |].
  intros (d & Hd & [x Hx])%Exists_exists. apply list_elem_of_In, in_map_iff in Hd as (n & <- & _).
  by rewrite H in Hx.
Qed.

(** ** What initialising needs and leaves *)

Definition data_files : list bytes := [str "config.toml"; str "genesis.json"; str "validator.key"].
Definition data_dirs : list bytes := [str "chain"; str "contracts"].
Lemma data_plain n : n ∈ data_files ++ data_dirs -> plain n.
Proof.
  intros H. repeat (apply elem_of_cons in H as [->|H]; [by split; vm_compute |]). by apply not_elem_of_nil in H.
Qed.

Lemma names_differ e d : e ∈ data_files -> d ∈ data_dirs -> e <> d.
Proof.
  intros He Hd. repeat (apply elem_of_cons in He as [->|He]; [by intros <-; revert Hd; apply (bool_decide_unpack _); vm_compute |]).
  by apply not_elem_of_nil in He.
Qed.

(** No file is where a directory must go, and no directory where a file must go. *)
Record initialisable (f : Fs) (r : list bytes) : Prop := {
  ini_up : forall n, fs_files f !! take n r = None;
  ini_dirs : forall d, d ∈ data_dirs -> fs_files f !! (r ++ [d]) = None;
  ini_files : forall d, d ∈ data_files -> r ++ [d] ∉ fs_dirs f }.

(** The file system after initialising in [r] with three texts. *)
Definition initialised (f : Fs) (r : list bytes) (key genesis config : bytes) : Fs :=
  mkFs (fs_cwd f)
    (<[r ++ [str "config.toml"] := config]> (<[r ++ [str "genesis.json"] := genesis]>
      (<[r ++ [str "validator.key"] := key]> (fs_files f))))
    (prefixes (r ++ [str "contracts"]) ∪ (prefixes (r ++ [str "chain"]) ∪ (prefixes r ∪ fs_dirs f))).

Lemma snoc_not_take (r : list bytes) d n : r ++ [d] <> take n r.
Proof. intros E. apply (f_equal length) in E. rewrite length_app, length_take in E. simpl in E. lia. Qed.
Lemma take_snoc (r : list bytes) d n : take n (r ++ [d]) = take n r \/ take n (r ++ [d]) = r ++ [d].
Proof.
  destruct (Nat.le_gt_cases n (length r)); [left; by apply take_app_le | right; apply take_ge].
  rewrite length_app. simpl. lia.
Qed.
Lemma snoc_prefix (r : list bytes) d e : r ++ [d] ∈ prefixes (r ++ [e]) -> d = e.
Proof.
  intros [n E]%elem_of_prefixes. destruct (take_snoc r e n) as [E'|E']; rewrite E' in E.
  - by apply snoc_not_take in E.
  - by apply app_inv_head in E as [= ->].
Qed.
Lemma self_prefix (r : list bytes) : r ∈ prefixes r.
Proof. apply elem_of_prefixes. exists (length r). by rewrite take_ge. Qed.
Lemma take_pred_snoc (r : list bytes) d : take (pred (length (r ++ [d]))) (r ++ [d]) = r.
Proof. rewrite length_app. simpl. rewrite Nat.add_1_r. simpl. by rewrite take_app_le, take_ge by lia. Qed.

Ltac data_name := by apply (bool_decide_unpack _); vm_compute.

Section Spec.
Context {HC : HexCrate} {HL : HexLaws} {BC : BincodeCrate} {SC : Sha3Crate} {EC : Ed25519Crate} {EL : Ed25519Laws}.
Context {CT : ConfigText} {CL : ConfigTextLaws}.

Lemma resolve_data f root n : n ∈ data_files ++ data_dirs -> Fs.resolve f (Path.join root n) = Fs.resolve f root ++ [n].
Proof. intros H. by apply resolve_join, data_plain. Qed.

Lemma data_member n : n ∈ data_files -> n ∈ data_files ++ data_dirs.
Proof. intros H. apply elem_of_app. by left. Qed.

(** One file written under a root that is a directory. *)
Lemma write_data {E B} f root n content (k : unit -> smonad Fs E B) (g : IoError -> E) :
  n ∈ data_files -> Fs.resolve f root ∈ fs_dirs f -> Fs.resolve f root ++ [n] ∉ fs_dirs f ->
  sbind (smap_err g (Fs.write (Path.join root n) content)) k f =
  (k tt (mkFs (fs_cwd f) (<[Fs.resolve f root ++ [n] := content]> (fs_files f)) (fs_dirs f))).
Proof.
  intros Hn Hd Hf. pose proof (resolve_data f root n (data_member n Hn)) as Hr.
  pose proof (write_ok f (Path.join root n) content) as Hw. rewrite Hr, take_pred_snoc in Hw.
  unfold sbind, smap_err. by rewrite Hw.
Qed.
Lemma mkdir_step {B} f p (k : unit -> smonad Fs DatadirError.t B) :
  (forall n, fs_files f !! take n (Fs.resolve f p) = None) ->
  sbind (mkdir p) k f =
  (k tt (mkFs (fs_cwd f) (fs_files f) (prefixes (Fs.resolve f p) ∪ fs_dirs f))).
Proof. intros H. unfold sbind, mkdir, smap_err. by rewrite create_dir_all_ok. Qed.

Lemma init_run f root opts sk g config :
  init_genesis sk = Ok g -> config_text (init_config opts) = Some config ->
  initialisable f (Fs.resolve f root) ->
  init_datadir_with root opts sk f =
  (initialised f (Fs.resolve f root) (secret_key_text sk) (genesis_text g ++ [x0a]) config,
   Ok (data_paths root)).
Proof.
  intros Hg Hc [Hup Hdirs Hfiles]. set (r := Fs.resolve f root) in *.
  assert (forall d, d ∈ data_files -> r ++ [d] ∉ prefixes r ∪ fs_dirs f) as Hn.
  { intros d Hd [[n E]%elem_of_prefixes|H]%elem_of_union; [by apply snoc_not_take in E | by apply (Hfiles d)]. }
  assert (r ∈ prefixes r ∪ fs_dirs f) as Hr by (apply elem_of_union; left; apply self_prefix).
  assert (forall (m : gmap (list bytes) bytes) d, d ∈ data_dirs -> (forall q, (forall e, e ∈ data_files -> q <> r ++ [e]) ->
            m !! q = fs_files f !! q) -> forall n, m !! take n (r ++ [d]) = None) as Hm.
  { intros m d Hd Hsame n. rewrite Hsame.
    - destruct (take_snoc r d n) as [->| ->]; [apply Hup | by apply Hdirs].
    - intros e He E. destruct (take_snoc r d n) as [E'|E']; rewrite E' in E; [by symmetry in E; apply snoc_not_take in E |].
      apply app_inv_head in E as [= ->]. by apply (names_differ e e). }
  unfold init_datadir_with, write_secret_key, write_file. rewrite mkdir_step by apply Hup. fold r.
  cbn zeta. cbn [dp_validator_key dp_genesis dp_config dp_chain dp_contracts data_paths].
  rewrite write_data; [| data_name | exact Hr | apply Hn; data_name].
  rewrite Hg, sbind_lift. cbn [map_err].
  rewrite write_data; [| data_name | exact Hr | apply Hn; data_name].
  rewrite Hc, sbind_lift. cbn [ok_or].
  rewrite write_data; [| data_name | exact Hr | apply Hn; data_name].
  cbn [fs_cwd fs_files fs_dirs]. change (Fs.resolve (mkFs (fs_cwd f) ?a ?b) root) with r.
  assert (forall m s d, Fs.resolve (mkFs (fs_cwd f) m s) root = r) as Hroot by done.
  rewrite mkdir_step; rewrite resolve_data by data_name; cbn [fs_cwd fs_files fs_dirs];
    change (Fs.resolve (mkFs (fs_cwd f) ?a ?b) root) with r.
  2: { apply Hm; [data_name |]. intros q Hq. by rewrite !lookup_insert_ne by (intros E; eapply Hq; [| by rewrite E]; data_name). }
  rewrite mkdir_step; rewrite resolve_data by data_name; cbn [fs_cwd fs_files fs_dirs];
    change (Fs.resolve (mkFs (fs_cwd f) ?a ?b) root) with r.
  2: { apply Hm; [data_name |]. intros q Hq. by rewrite !lookup_insert_ne by (intros E; eapply Hq; [| by rewrite E]; data_name). }
  done.
Qed.

(** Hexadecimal text is UTF-8. *)
Lemma utf8_ascii s : Forall (fun c => byte_val c < 128) s -> utf8_ok s = true.
Proof.
  unfold utf8_ok. generalize (S (length s)) as n, (Nat.lt_succ_diag_r (length s)).
  intros n. revert s. induction n as [|n IH]; intros s Hn H; [lia |].
  destruct s as [|c s]; [done |]. apply Forall_cons in H as [Hc H]. cbn [utf8_valid].
  unfold in_range. pose proof (byte_val_range c).
  rewrite (proj2 (Z.leb_le 0 _)), (proj2 (Z.leb_le _ 127)) by lia. cbn. apply IH; [simpl in *; lia | done].
Qed.
Lemma hex_digit_ascii d : 0 <= d < 16 -> byte_val (hex_digit d) < 128.
Proof.
  intros Hd. assert (d ∈ [0;1;2;3;4;5;6;7;8;9;10;11;12;13;14;15]) as Hin by (rewrite !elem_of_cons; lia).
  repeat (apply elem_of_cons in Hin as [->|Hin]; [by vm_compute |]). by apply not_elem_of_nil in Hin.
Qed.
Lemma key_text_utf8 sk : utf8_ok (secret_key_text sk) = true.
Proof.
  apply utf8_ascii. unfold secret_key_text, SecretKey.to_hex, Hash.to_hex. apply Forall_app. split.
  { repeat constructor. }
  rewrite hex_encode_spec. unfold spec_encode. apply Forall_flat_map, Forall_forall. intros b _.
  pose proof (byte_val_range b). pose proof (Z.mod_pos_bound (byte_val b) 16).
  repeat constructor; apply hex_digit_ascii; [split; [apply Z.div_pos | apply Z.div_lt_upper_bound]; lia | lia].
Qed.

Lemma init_load f root opts sk :
  initialisable f (Fs.resolve f root) ->
  exists f' g,
    init_datadir_with root opts sk f = (f', Ok (data_paths root)) /\ init_genesis sk = Ok g /\
    load_datadir f' root =
      Ok (mkNodeFileConfig 1 (str "127.0.0.1:8545") (str "/ip4/127.0.0.1/tcp/0") (io_bootstrap opts) 2000 []
            (io_role opts) [] true 256 [], g, sk, data_paths root) /\
    initialisable f' (Fs.resolve f' root).
Proof.
  intros Hi. pose proof (init_genesis_file sk) as Hg. set (g := mkGenesisFile _ _ _ _ _) in Hg.
  destruct (config_text_parse (init_config opts)) as (config & Hc & Hu & Hparse); [by repeat split |].
  destruct (genesis_text_parse g) as (alloc & Ha & Hgp); [apply NoDup_singleton |].
  apply Permutation_singleton_r in Ha. subst alloc.
  eexists _, g. rewrite (init_run f root opts sk g config Hg Hc Hi). set (r := Fs.resolve f root) in *.
  split; [done |]. split; [done |]. set (f' := initialised _ _ _ _ _).
  assert (Fs.resolve f' root = r) as Hr by done. split.
  - unfold load_datadir, load_secret_key, Fs.read_to_string, Fs.read.
    cbn [dp_validator_key dp_genesis dp_config data_paths]. rewrite !(resolve_data f') by data_name. rewrite Hr.
    unfold f', initialised. cbn [fs_files]. rewrite lookup_insert_eq. cbn [ok_or rbind].
    rewrite Hu. cbn [map_err rbind]. rewrite Hparse. cbn [ok_or rbind].
    rewrite lookup_insert_ne by (intros E; by apply app_inj_2 in E as [_ [=]]). rewrite lookup_insert_eq. cbn [ok_or rbind].
    rewrite genesis_text_utf8. cbn [map_err rbind]. rewrite Hgp. cbn [ok_or rbind].
    rewrite !lookup_insert_ne by (intros E; by apply app_inj_2 in E as [_ [=]]). rewrite lookup_insert_eq. cbn [ok_or rbind].
    rewrite key_text_utf8. cbn [map_err rbind].
    by rewrite (proj1 (key_and_role_files sk Master)).
  - rewrite Hr. destruct Hi as [Hup Hdirs Hfiles]. unfold f', initialised. split; cbn [fs_files fs_dirs].
    + intros n. by rewrite !lookup_insert_ne by (intros E; by apply snoc_not_take in E).
    + intros d Hd. rewrite !lookup_insert_ne by (intros [= E]%app_inv_head; revert E; apply names_differ; [data_name | done]). auto.
    + intros d Hd Hin. repeat apply elem_of_union in Hin as [Hin|Hin]; [| | | by apply (Hfiles d)].
      * apply snoc_prefix in Hin. by apply (names_differ d (str "contracts")) in Hin; [| | data_name].
      * apply snoc_prefix in Hin. by apply (names_differ d (str "chain")) in Hin; [| | data_name].
      * apply elem_of_prefixes in Hin as [n E]. by apply snoc_not_take in E.
Qed.

(** C20: A data directory is read back as it was initialised: in any directory that can
    be initialised, whatever an earlier initialisation left there, [init_datadir_with]
    succeeds, and [load_datadir] then returns the default configuration with the
    given role and bootstrap peers, the genesis of the new key, and the new key
    itself.  The directory can be initialised again, and that replaces all three:
    nothing keeps an existing validator key. *)
Theorem init_then_load f root opts sk :
  initialisable f (Fs.resolve f root) ->
  exists f' g,
    init_datadir_with root opts sk f = (f', Ok (data_paths root)) /\ init_genesis sk = Ok g /\
    load_datadir f' root =
      Ok (mkNodeFileConfig 1 (str "127.0.0.1:8545") (str "/ip4/127.0.0.1/tcp/0") (io_bootstrap opts) 2000 []
            (io_role opts) [] true 256 [], g, sk, data_paths root) /\
    initialisable f' (Fs.resolve f' root).
Proof. apply init_load. Qed.
End Spec.

(** ** Witnesses *)

(** Texts of zeros and ones: the bits of a value's code. *)
Fixpoint bits_text (p : positive) : bytes :=
  match p with xH => [] | xO p => x30 :: bits_text p | xI p => x31 :: bits_text p end.
Fixpoint text_bits (s : bytes) : positive :=
  match s with x30 :: s => xO (text_bits s) | x31 :: s => xI (text_bits s) | _ => xH end.
Lemma text_bits_text p : text_bits (bits_text p) = p /\ text_bits (bits_text p ++ [x0a]) = p.
Proof. induction p as [p [H1 H2]|p [H1 H2]|]; simpl; by rewrite ?H1, ?H2. Qed.
Lemma bits_text_ascii p : Forall (fun c => byte_val c < 128) (bits_text p).
Proof. induction p; simpl; by constructor. Qed.

Definition config_fields (c : NodeFileConfig) :=
  (chain_id c, rpc_addr c, p2p_listen c, bootstrap c, block_interval_ms c, contracts_dir c,
   ServerRole.may_produce (role c), p2p_allowlist c, archive c, archive_keep c, rpc_read_addr c).
Definition fields_config x : NodeFileConfig :=
  let '(a, b, c, d, e, f, g, h, i, j, k) := x in
  mkNodeFileConfig a b c d e f (if (g : bool) then Master else Slave) h i j k.
Lemma fields_config_fields c : fields_config (config_fields c) = c.
Proof. by destruct c as [? ? ? ? ? ? []]. Qed.

Definition genesis_fields (g : GenesisFile) :=
  (gf_timestamp g, gf_gas_limit g, gv_address (gf_validator g), gv_public_key (gf_validator g), gf_extra_data g,
   gf_alloc g).
Definition fields_genesis x : GenesisFile :=
  let '(a, b, c, d, e, f) := x in mkGenesisFile a b (mkGenesisValidator c d) e f.
Lemma fields_genesis_fields g : fields_genesis (genesis_fields g) = g.
Proof. by destruct g as [? ? []]. Qed.

#[export] Instance config_toy : ConfigText := {|
  config_text c := if decide (toml_config c) then Some (bits_text (encode (config_fields c))) else None;
  parse_config s := fields_config <$> decode (text_bits s);
  genesis_text g := bits_text (encode (genesis_fields g));
  parse_genesis s := fields_genesis <$> decode (text_bits s) |}.
#[export] Instance config_toy_laws : ConfigTextLaws.
Proof.
  split; intros x; simpl.
  - intros Hx. exists (bits_text (encode (config_fields x))). rewrite decide_True by done. split; [done |].
    split; [apply utf8_ascii, bits_text_ascii |].
    rewrite (proj1 (text_bits_text _)), decode_encode. apply (f_equal Some), fields_config_fields.
  - apply utf8_ascii, Forall_app. split; [apply bits_text_ascii | by repeat constructor].
  - intros _. exists (gf_alloc x). split; [done |].
    rewrite (proj2 (text_bits_text _)), decode_encode. apply (f_equal Some).
    etransitivity; [apply fields_genesis_fields | by destruct x].
Qed.

Definition empty_fs : Fs := mkFs [] ∅ {[ [] ]}.
Lemma init_then_load_witness :
  exists f' g,
    init_datadir_with (str "./ivory-data") (mkInitOpts Slave [str "/dns4/master/tcp/4001"]) sample_sk empty_fs =
      (f', Ok (data_paths (str "./ivory-data"))) /\
    init_genesis sample_sk = Ok g.
Proof.
  assert (initialisable empty_fs (Fs.resolve empty_fs (str "./ivory-data"))) as Hi.
  { split; [intros n; apply lookup_empty | intros d _; apply lookup_empty |].
    intros d _ H. cbn [fs_dirs empty_fs] in H. apply elem_of_singleton, app_nil in H as [_ H]. done. }
  destruct (init_then_load empty_fs (str "./ivory-data") (mkInitOpts Slave [str "/dns4/master/tcp/4001"]) sample_sk Hi)
    as (f' & g & H1 & H2 & _).
  exact (ex_intro _ f' (ex_intro _ g (conj H1 H2))).
Defined.
