(* ===== verification/Cli.v ===== *)
(** * The command lines: [bin/ivory/src/main.rs], [tools/ivory-dev/src/main.rs],
      [tools/ivory-keygen]

    The parsed arguments are data ([clap] is left out), what a command prints is the
    list of its lines, and [main] composes the operations of the other files: [ivory init]
    is [init_datadir_with], [ivory run] is [load_datadir] followed by [run_node] on a
    [Host].  Waiting for the interrupt signal is left out: [ivory run] is the node it
    leaves running. *)

From S2P Require Import Prelude Hex Text Uint UintFacts Hash Address Bincode Core Path Json Trie State.
From S2P Require Import Crypto Vm Executor TxPool Consensus Store Producer Apply Persist Network Config.
From S2P Require Import Metrics Rpc Node NodeStart NodeAgree NodeRun Datadir Contracts Deploy Dev.
#[local] Open Scope Z_scope.

(** ** [tools/ivory-keygen] *)

Module Keygen.
Section Keygen.
Context {HC : HexCrate} {SC : Sha3Crate} {EC : Ed25519Crate}.

(** [generate_keypair]: [drawn] is what the operating system's generator gives. *)
Definition generate (drawn : H256) : SecretKey * PublicKey * Address := keypair_from_seed drawn.
Definition secret_to_hex (sk : SecretKey) : bytes := SecretKey.to_hex sk.
Definition main (drawn : H256) : list bytes :=
  let '(sk, pk, addr) := generate drawn in
  [str "address:    " ++ Address.to_hex addr;
   str "public_key: " ++ PublicKey.to_hex pk;
   str "secret_key: " ++ SecretKey.to_hex sk].
End Keygen.
End Keygen.

(** ** [bin/ivory] *)

Module Ivory.
Inductive Commands : Type := Init (role : bytes) (bootstrap : list bytes) | Run.
Record Cli : Type := mkCli { data_dir : bytes; command : Commands }.
(** The arguments' [default_value]s. *)
Definition default_data_dir : bytes := str "./ivory-data".
Definition default_role : bytes := str "master".

Inductive Error `{RocksDbCrate} : Type :=
| Role (e : ConfigError.t)
| Datadir (e : DatadirError.t)
| Running (e : RunError.t).

(** The machine: its files and the database in the chain directory. *)
Record Machine `{RocksDbCrate} : Type := mkMachine { mc_fs : Fs; mc_chain : rocks }.
Arguments mkMachine {_}.

Section Ivory.
Context {HC : HexCrate} {BC : BincodeCrate} {SC : Sha3Crate} {EC : Ed25519Crate} {WC : WasmiCrate}.
Context {DC : DashMapCrate} {ET : ErrorTexts} {LC : Libp2pCrate} {LH : Libp2pHost} {RC : RocksDbCrate}.
Context {CT : ConfigText}.

(** A command on the files alone. *)
Definition on_files {E A} (c : smonad Fs E A) : smonad Machine E A := fun m =>
  let '(f, r) := c (mc_fs m) in (mkMachine f (mc_chain m), r).

Definition init_lines (role : bytes) (paths : DataPaths) : list bytes :=
  [str "Initialized " ++ dp_root paths ++ str " (" ++ role ++ str " server)";
   str "  config:        " ++ dp_config paths;
   str "  genesis:       " ++ dp_genesis paths;
   str "  validator key: " ++ dp_validator_key paths;
   str "  chain db:      " ++ dp_chain paths;
   str "  contracts:     " ++ dp_contracts paths].

(** [Commands::Init]; [sk] is the key [init_datadir_with] draws. *)
Definition init (root role : bytes) (bootstrap : list bytes) (sk : SecretKey) :
    smonad Machine Error (list bytes) :=
  r <-! slift (map_err Role (ServerRole.parse role)) ;;
  paths <-! smap_err Datadir (on_files (init_datadir_with root (mkInitOpts r bootstrap) sk)) ;;
  sret (init_lines role paths).

(** [Commands::Run]; [lookup] is the catalog closure over the two contract directories. *)
Definition run (root : bytes) (lookup : bytes -> bytes -> H256 -> option ContractMeta) (host : Host) :
    smonad Machine Error RunningNode := fun m =>
  match load_datadir (mc_fs m) root with
  | Err e => (m, Err (Datadir e))
  | Ok (cfg, genesis, key, paths) =>
      let '(p, r) :=
        run_node cfg genesis key (lookup (dp_contracts paths) (contracts_dir cfg)) host
          (ChainPersist.open_with (mc_chain m) (archive cfg) (archive_keep cfg)) in
      (mkMachine (mc_fs m) (cp_db p), map_err Running r)
  end.

Definition main (cli : Cli) (sk : SecretKey) (lookup : bytes -> bytes -> H256 -> option ContractMeta) (host : Host) :
    smonad Machine Error (list bytes * option RunningNode) :=
  match command cli with
  | Init role bootstrap =>
      lines <-! init (data_dir cli) role bootstrap sk ;; sret (lines, None)
  | Run => node <-! run (data_dir cli) lookup host ;; sret ([], Some node)
  end.
End Ivory.
End Ivory.

(** ** [tools/ivory-dev] *)

Module DevCli.
Inductive Commands : Type :=
| New (dir : bytes)
| Deploy (path rpc chain key data_dir : option bytes)
| Status (rpc chain : option bytes)
| Faucet (to amount : bytes) (rpc chain key data_dir : option bytes).

Section DevCli.
Context {HC : HexCrate} {BC : BincodeCrate} {SC : Sha3Crate} {EC : Ed25519Crate}.
Context {CC : ContractCrates} {TC : TomlCrate}.
(** The templates compiled in. *)
Context (tracker_yaml tracker_wat readme : bytes).
(** The text of a JSON value and of a failed call. *)
Context (json_text : value -> bytes) (error_text : DeployError.t -> bytes).
Context {W : Type} (post : bytes -> value -> smonad W unit value) (sleep : W -> W).

Definition new_lines (dir : bytes) : list bytes :=
  [str "Created " ++ dir; str "  ivory.toml"; str "  contracts/tracker.yaml"].
(** [info.get(key).unwrap_or(&Value::Null)] *)
Definition info_field (key : bytes) (info : value) : value := default JNull (get key info).
Definition status_lines (s : bytes * value * result value DeployError.t) : list bytes :=
  let '(rpc_url, chain_id, info) := s in
  [str "rpc      " ++ rpc_url; str "chainId  " ++ json_text chain_id] ++
  match info with
  | Ok info =>
      [str "role     " ++ json_text (info_field (str "role") info);
       str "head     " ++ json_text (info_field (str "headNumber") info);
       str "peers    " ++ json_text (info_field (str "peers") info)]
  | Err e => [str "ivory_nodeInfo unavailable: " ++ error_text e]
  end.

(** What [main] prints itself; the lines of [deploy_contract] are left out.  [None] is
    the package loader running out of fuel. *)
Definition main (fuel : nat) (env : bytes -> option bytes) (cwd : bytes) (c : Commands) (f : Fs) (w : W) :
    option (Fs * W * result (list bytes) DevError.t) :=
  match c with
  | New dir =>
      let '(f, r) := new_project tracker_yaml tracker_wat readme dir f in
      Some (f, w, let? _ := r in Ok (new_lines dir))
  | Deploy path rpc chain key data_dir =>
      '(f, w, r) ← dev_deploy post sleep fuel env f cwd path rpc chain key data_dir w;
      Some (f, w, let? _ := r in Ok [])
  | Status rpc chain =>
      let '(w, r) := status post env f cwd rpc chain w in
      Some (f, w, let? s := r in Ok (status_lines s))
  | Faucet to amount rpc chain key data_dir =>
      let '(w, r) := faucet post env f cwd to amount rpc chain key data_dir w in
      Some (f, w, let? hash := r in Ok [json_text hash])
  end.
End DevCli.
End DevCli.
