(* ===== verification/CliProps.v ===== *)
(** * A server initialised and run from the command line *)

From S2P Require Import Prelude Hex Text Uint UintFacts UintProps Hash Address Bincode Core Path Json Trie State.
From S2P Require Import StateProps Crypto Vm Executor ExecutorProps TxPool Consensus Store StoreSpec Producer ProducerProps Apply Persist PersistProps PersistSpec.
From S2P Require Import Network Config ConfigProps Metrics Rpc RpcProps ApplyProps Node NodeProps NodeOrder NodeStart NodeAgree Sockets NodeRun.
From S2P Require Import Datadir DatadirProps Cli.
#[local] Open Scope Z_scope.

Section Server.
Context {HC : HexCrate} {HL : HexLaws} {BC : BincodeCrate} {BL : BincodeLaws} {SC : Sha3Crate}.
Context {EC : Ed25519Crate} {EL : Ed25519Laws} {WC : WasmiCrate} {WL : WasmiLaws} {DC : DashMapCrate}.
Context {ET : ErrorTexts} {LC : Libp2pCrate} {LH : Libp2pHost} {RC : RocksDbCrate} {RL : RocksDbLaws}.
Context {HI : HashMapIter} {HIL : HashMapIterLaws} {CT : ConfigText} {CL : ConfigTextLaws}.

(** A machine a server can be set up on: files the data directory fits in, and no
    chain database yet. *)
Record new_machine (m : Ivory.Machine) (root : bytes) : Prop := {
  nm_files : initialisable (Ivory.mc_fs m) (Fs.resolve (Ivory.mc_fs m) root);
  nm_healthy : healthy (Ivory.mc_chain m);
  nm_empty archive keep k : view (ChainPersist.open_with (Ivory.mc_chain m) archive keep) k = None }.

Lemma init_server m root role bootstrap sk r :
  new_machine m root -> ServerRole.parse role = Ok r ->
  exists m1 g,
    Ivory.init root role bootstrap sk m = (m1, Ok (Ivory.init_lines role (data_paths root))) /\
    init_genesis sk = Ok g /\ Ivory.mc_chain m1 = Ivory.mc_chain m /\
    load_datadir (Ivory.mc_fs m1) root =
      Ok (init_config (mkInitOpts r bootstrap), g, sk, data_paths root).
Proof.
  intros [Hf _ _] Hr. destruct (init_load _ root (mkInitOpts r bootstrap) sk Hf) as (f' & g & E & Hg & Hl & _).
  exists (Ivory.mkMachine f' (Ivory.mc_chain m)), g. split_and!; try done.
  unfold Ivory.init. rewrite Hr. cbn [map_err]. rewrite sbind_lift.
  unfold sbind, smap_err, Ivory.on_files. by rewrite E.
Qed.

Lemma is_ok_map_err {A E F} (f : E -> F) (r : result A E) : is_ok (map_err f r) = is_ok r.
Proof. by destruct r. Qed.

(** The written configuration asks for port 8545 and has no read-only address. *)
Lemma up_default opts host :
  (exists nc svc rpc p2p, node_up (init_config opts) host nc svc rpc p2p) <->
  exists nc h pid svc local p2p,
    node_network_config (init_config opts) = Ok nc /\ start nc = Ok (h, pid, svc) /\
    host_bind host [] (SocketV4 [127; 0; 0; 1] 8545) = Ok (Ok local) /\ host_listen host svc = Listening p2p.
Proof.
  assert (parse_socket_addr (rpc_addr (init_config opts)) = Some (SocketV4 [127; 0; 0; 1] 8545)) as Ep
    by (vm_compute; reflexivity).
  split.
  - intros (nc & svc & rpc & p2p & En & (h & pid & Es) & (asked & Ea & Eb & _) & Ew).
    rewrite Ep in Ea. injection Ea as <-. exists nc, h, pid, svc, rpc, p2p. by split_and!.
  - intros (nc & h & pid & svc & local & p2p & En & Es & Eb & Ew).
    exists nc, svc, local, p2p. split; [done |]. split; [by exists h, pid |]. split; [| done].
    exists (SocketV4 [127; 0; 0; 1] 8545). split; [exact Ep |]. split; [done | by left].
Qed.

(** C19: A server comes up from its two commands: on a machine without a chain database,
    [ivory init] with a role it knows prints the paths it wrote, and [ivory run] on
    the machine it leaves succeeds exactly when the chain directory opens, the network
    part of the written configuration parses and the swarm starts, port 8545 of
    127.0.0.1 can be bound and has a local address, and the swarm reports its listen
    address within ten seconds: the bootstrap addresses, which [init] does not look
    at, are only refused then.  The node is consistent, its head is the sealed genesis
    of the drawn key, it serves RPC at the address the machine gave it, and it
    produces blocks exactly when the role was a master's.  A role [init] does not know
    leaves the machine as it was. *)
Theorem init_then_run m root role bootstrap sk lookup host :
  new_machine m root ->
  match ServerRole.parse role with
  | Err e => Ivory.init root role bootstrap sk m = (m, Err (Ivory.Role e))
  | Ok r =>
      exists m1,
        Ivory.init root role bootstrap sk m = (m1, Ok (Ivory.init_lines role (data_paths root))) /\
        let out := (Ivory.run root lookup host m1).2 in
        (is_ok out = true <->
           host_open host = Ok tt /\
           exists nc h pid svc local p2p,
             node_network_config (init_config (mkInitOpts r bootstrap)) = Ok nc /\ start nc = Ok (h, pid, svc) /\
             host_bind host [] (SocketV4 [127; 0; 0; 1] 8545) = Ok (Ok local) /\
             host_listen host svc = Listening p2p) /\
        forall node, out = Ok node ->
          node_inv (rn_node node) /\
          bs_head (nd_store (rn_node node)) = Some (block_hash (init_block sk)) /\
          host_bind host [] (SocketV4 [127; 0; 0; 1] 8545) = Ok (Ok (rn_rpc_addr node)) /\
          (is_Some (rn_producer node) <-> r = Master)
  end.
Proof.
  intros Hm. destruct (ServerRole.parse role) as [r|e] eqn:Er; [| unfold Ivory.init; by rewrite Er].
  destruct (init_server m root role bootstrap sk r Hm Er) as (m1 & g & E & Hg & Hc & Hl).
  exists m1. split; [done |]. cbn zeta. unfold Ivory.run. rewrite Hl, Hc.
  set (cfg := init_config (mkInitOpts r bootstrap)). set (p := ChainPersist.open_with _ _ _).
  assert (fresh_db p) as Hp.
  { destruct Hm as [_ Hh He]. split; [done | cbn; lia | apply He]. }
  set (look := lookup _ _).
  pose proof (run_node_ok_iff sk g cfg sk look host p Hg Hp) as Hiff.
  destruct (run_node cfg g sk look host p) as [p' out] eqn:Erun. cbn [snd] in *.
  rewrite is_ok_map_err, Hiff. unfold cfg at 1. rewrite up_default. split; [done |].
  intros node Eo. destruct out as [x|e]; [| done]. injection Eo as ->.
  destruct (run_node_up sk g cfg sk look host p p' Hg Hp node Erun)
    as (_ & _ & nc & _ & _ & _ & (_ & _ & (asked & Ea & Eb & _) & _) & _).
  destruct (first_node_facts sk g cfg sk look host p p' node Hg Hp Erun) as (Hi & _ & Hhead & _ & _ & Hprod & _).
  injection Ea as <-. split_and!; try done. rewrite Hprod. change (Config.role cfg) with r. naive_solver.
Qed.
End Server.

(** ** Witness *)

Definition blank_machine : Ivory.Machine (H := memory_rocks) := Ivory.mkMachine (H := memory_rocks) empty_fs (∅ : gmap bytes bytes).
Definition no_lookup (_ _ : bytes) (_ : H256) : option ContractMeta := None.

Lemma blank_machine_new : new_machine (RC := memory_rocks) blank_machine (str "./ivory-data").
Proof.
  split.
  - split; [intros n; apply lookup_empty | intros d _; apply lookup_empty |].
    intros d _ H. cbn [Ivory.mc_fs blank_machine fs_dirs empty_fs] in H. by apply elem_of_singleton, app_nil in H as [_ H].
  - exact I.
  - intros archive keep k. unfold view. cbn. apply lookup_empty.
Qed.

(** A validator of its own, under the old name of the role. *)
Lemma init_then_run_witness :
  exists m1 node,
    Ivory.init (str "./ivory-data") (str " Validator ") [] sample_sk blank_machine =
      (m1, Ok (Ivory.init_lines (str " Validator ") (data_paths (str "./ivory-data")))) /\
    (Ivory.run (LC := memory_mesh) (str "./ivory-data") no_lookup quiet_host m1).2 = Ok node /\
    is_Some (rn_producer node) /\ rn_rpc_addr node = SocketV4 [127; 0; 0; 1] 8545.
Proof.
  pose proof (init_then_run (LC := memory_mesh) (RC := memory_rocks) blank_machine (str "./ivory-data") (str " Validator ")
    [] sample_sk no_lookup quiet_host blank_machine_new) as H.
  change (ServerRole.parse (str " Validator ")) with (@Ok ServerRole ConfigError.t Master) in H.
  destruct H as (m1 & E & [_ Hup] & Hn).
  assert (is_ok (Ivory.run (LC := memory_mesh) (str "./ivory-data") no_lookup quiet_host m1).2 = true) as Hok.
  { apply Hup. split; [reflexivity |]. do 6 eexists. split; [vm_compute; reflexivity |].
    split; [reflexivity |]. split; reflexivity. }
  destruct (Ivory.run (LC := memory_mesh) (str "./ivory-data") no_lookup quiet_host m1).2 as [node|e] eqn:Eo; [| discriminate Hok].
  destruct (Hn node eq_refl) as (_ & _ & Eb & Hp). exists m1, node.
  assert (rn_rpc_addr node = SocketV4 [127; 0; 0; 1] 8545) as Hr by (injection Eb as <-; reflexivity).
  exact (conj E (conj Eo (conj (proj2 Hp eq_refl) Hr))).
Defined.
