(* ===== verification/Testing.v ===== *)
(** * Unit tests as definitions

    The [...Tests] files translate the repository's unit tests: a test is a boolean
    computed by the definitions it exercises, under the name of the Rust function, and a
    suite is the list of them.  [assert_eq!] is [==], [assert_ne!] is [!=] and an
    [unwrap] that would panic makes the test false.  Suites that compare digests
    take Keccak-256 ([sha3_reference]); the long ones take [sha3_checksum], which is
    quicker to evaluate and tells the values of the tests apart. *)

From S2P Require Import Prelude Hash.
#[local] Open Scope Z_scope.

Declare Scope test_scope.
Delimit Scope test_scope with test.
Notation "a == b" := (bool_decide (a = b)) (at level 70, no associativity) : test_scope.
Notation "a != b" := (negb (bool_decide (a = b))) (at level 70, no associativity) : test_scope.

(** [let x = r.unwrap();] *)
Notation "'let!' x ':=' r 'in' k" := (match r with Ok x => k | Err _ => false end)
  (at level 200, x pattern, k at level 200) : test_scope.
Notation "'let!!' x ':=' r 'in' k" := (match r with Some x => k | None => false end)
  (at level 200, x pattern, k at level 200) : test_scope.

Definition is_err {A E} (r : result A E) : bool := negb (is_ok r).
Definition is_some {A} (o : option A) : bool := match o with Some _ => true | None => false end.
Definition is_none {A} (o : option A) : bool := negb (is_some o).
Definition passes (suite : list bool) : bool := forallb (fun b => b) suite.

(** Six bytes of checksum, where an address takes them from. *)
Definition checksum (bs : bytes) : H256 :=
  fit 32 (replicate 12 x00 ++
          be_bytes 6 (foldl (fun acc b => Z.land (65599 * acc + byte_val b + 1) 281474976710655) 7 bs)).
Definition sha3_checksum : Sha3Crate := {| keccak_digest := checksum |}.
