(* ===== verification/PrimitiveTests.v ===== *)
(** * The unit tests of [crates/ivory-primitives] *)

From S2P Require Import Prelude Testing Hex Text Uint UintFacts Hash Address Impls Keccak.
#[local] Open Scope Z_scope.
#[local] Open Scope test_scope.
#[local] Existing Instance sha3_reference | 0.

(** ** [uint.rs] *)

Module UintTests.
Definition n (v : Z) : U256 := U256Impls.from_u64 v.

Definition test_u256_zero : bool := let u := U256.zero in U256.is_zero u && (u == U256.ZERO).
Definition test_u256_one : bool := let u := U256.one in negb (U256.is_zero u) && (U256.low_u64 u == 1).
Definition test_u256_from_u64 : bool := U256.low_u64 (n 12345) == 12345.
Definition test_u256_from_u128 : bool :=
  let v := Z.shiftl 1 100 in U256.low_u128 (U256Impls.from_u128 v) == v.
Definition test_u256_add : bool :=
  let!! c := U256.checked_add (n 100) (n 200) in U256.low_u64 c == 300.
Definition test_u256_add_overflow : bool := is_none (U256.checked_add U256.MAX U256.ONE).
Definition test_u256_sub : bool :=
  let!! c := U256.checked_sub (n 300) (n 100) in U256.low_u64 c == 200.
Definition test_u256_sub_underflow : bool := is_none (U256.checked_sub (n 100) (n 200)).
Definition test_u256_mul : bool :=
  let!! c := U256.checked_mul (n 100) (n 200) in U256.low_u64 c == 20000.
Definition test_u256_mul_overflow : bool := is_none (U256.checked_mul U256.MAX (n 2)).
Definition test_u256_div : bool :=
  let!! c := U256.checked_div (n 1000) (n 3) in U256.low_u64 c == 333.
Definition test_u256_div_by_zero : bool := is_none (U256.checked_div (n 100) U256.ZERO).
Definition test_u256_rem : bool :=
  let!! c := U256.checked_rem (n 1000) (n 3) in U256.low_u64 c == 1.
Definition test_u256_ord : bool :=
  let a := n 100 in let b := n 200 in U256.ltb a b && U256.gtb b a && (a == a).
Definition test_u256_shift_left : bool :=
  let b := U256.shl U256.ONE 64 in (U256.limb b 0 == 0) && (U256.limb b 1 == 1).
Definition test_u256_shift_right : bool :=
  let a := mkU256 [0; 1; 0; 0] in
  let b := U256.shr a 64 in (U256.limb b 0 == 1) && (U256.limb b 1 == 0).
Definition test_u256_from_hex : bool :=
  (let! u := U256.from_hex (str "0x100") in U256.low_u64 u == 256) &&
  (let! u := U256.from_hex (str "0xff") in U256.low_u64 u == 255).
Definition test_u256_to_hex : bool :=
  (U256.to_hex (n 255) == str "0xff") && (U256.to_hex U256.ZERO == str "0x0").
Definition test_u256_bytes_roundtrip : bool :=
  let! original := U256.from_hex (str "0x0102030405060708090a0b0c0d0e0f101112131415161718191a1b1c1d1e1f20") in
  let bytes := U256.to_be_bytes original in
  let decoded := U256.from_be_bytes bytes in
  original == decoded.
Definition test_u256_bits : bool :=
  (U256.bits U256.ZERO == 0) && (U256.bits U256.ONE == 1) && (U256.bits (U256.shl U256.ONE 255) == 256).

Definition suite : list bool :=
  [test_u256_zero; test_u256_one; test_u256_from_u64; test_u256_from_u128; test_u256_add;
   test_u256_add_overflow; test_u256_sub; test_u256_sub_underflow; test_u256_mul; test_u256_mul_overflow;
   test_u256_div; test_u256_div_by_zero; test_u256_rem; test_u256_ord; test_u256_shift_left;
   test_u256_shift_right; test_u256_from_hex; test_u256_to_hex; test_u256_bytes_roundtrip; test_u256_bits].
Example uint_suite : passes suite = true.
Proof. vm_compute. reflexivity. Qed.
End UintTests.

(** ** [hash.rs] *)

Module HashTests.
Definition at_ {n} (h : Hash n) (i : nat) : option byte := HashImpls.index i h.
Definition hex_1_to_32 : bytes := str "0x0102030405060708090a0b0c0d0e0f101112131415161718191a1b1c1d1e1f20".
Definition starts_with (prefix s : bytes) : bool := is_some (strip_prefix prefix s).
Definition ends_with (suffix s : bytes) : bool := is_some (strip_prefix (rev suffix) (rev s)).
Fixpoint contains (part s : bytes) : bool :=
  starts_with part s || match s with [] => false | _ :: s => contains part s end.

Definition test_h256_zero : bool := let h : H256 := HashImpls.zero in Hash.is_zero h && (h == H256.ZERO).
Definition test_h256_from_hex : bool :=
  let! h := Hash.from_hex (n := 32) hex_1_to_32 in
  (at_ h 0 == Some x01) && (at_ h 31 == Some x20) && negb (Hash.is_zero h).
Definition test_h256_from_hex_no_prefix : bool :=
  let! h := Hash.from_hex (n := 32) (str "0102030405060708090a0b0c0d0e0f101112131415161718191a1b1c1d1e1f20") in
  at_ h 0 == Some x01.
Definition test_h256_from_hex_invalid : bool :=
  is_err (Hash.from_hex (n := 32) (str "0x123")) && is_err (Hash.from_hex (n := 32) (str "0xgg")).
Definition test_h256_display : bool :=
  let! h := Hash.from_hex (n := 32) hex_1_to_32 in
  let display := Hash.fmt_display h in
  starts_with (str "0x01020304") display && contains [xe2; x80; xa6] display
  && ends_with (str "1d1e1f20") display.
Definition test_h256_to_hex_roundtrip : bool :=
  let! h := Hash.from_hex (n := 32) hex_1_to_32 in hex_1_to_32 == Hash.to_hex h.
Definition test_h256_from_str : bool :=
  let! h := Hash.from_str (n := 32) hex_1_to_32 in at_ h 0 == Some x01.
Definition test_h256_xor : bool :=
  let! a := Hash.from_hex (n := 32) (str "0xffffffffffffffffffffffffffffffffffffffffffffffffffffffffffffffff") in
  let! b := Hash.from_hex (n := 32) (str "0x0f0f0f0f0f0f0f0f0f0f0f0f0f0f0f0f0f0f0f0f0f0f0f0f0f0f0f0f0f0f0f0f") in
  at_ (Hash.xor a b) 0 == Some xf0.
Definition test_h256_leading_zeros : bool :=
  (Hash.leading_zeros H256.ZERO == 256) &&
  (let! h := Hash.from_hex (n := 32) (str "0x0100000000000000000000000000000000000000000000000000000000000000") in
   Hash.leading_zeros h == 7).
Definition test_h256_ord : bool :=
  let! a := Hash.from_hex (n := 32) (str "0x0000000000000000000000000000000000000000000000000000000000000001") in
  let! b := Hash.from_hex (n := 32) (str "0x0000000000000000000000000000000000000000000000000000000000000002") in
  HashImpls.partial_cmp a b == Some Lt.
Definition test_h160_size : bool :=
  (HashImpls.SIZE (n := 20) == 20) && (length (HashImpls.as_bytes (Hash.ZERO : H160)) == 20%nat).
Definition test_h256_from_u64 : bool :=
  let h : H256 := Hash.from_u64 255 in (at_ h 31 == Some xff) && (at_ h 30 == Some x00).
(** JSON is the human-readable form, the quotes around the string left out. *)
Definition test_h256_serde_json : bool :=
  let! original := Hash.from_hex (n := 32) hex_1_to_32 in
  let json := Hash.serialize true original in
  contains (str "0x0102030405060708") json &&
  (let!! decoded := Hash.deserialize (n := 32) true json in original == decoded).
Definition test_h256_serde_bincode : bool :=
  let! original := Hash.from_hex (n := 32) hex_1_to_32 in
  let encoded := Hash.serialize false original in
  (length encoded == 32%nat) &&
  (let!! decoded := Hash.deserialize (n := 32) false encoded in original == decoded).

Definition suite : list bool :=
  [test_h256_zero; test_h256_from_hex; test_h256_from_hex_no_prefix; test_h256_from_hex_invalid;
   test_h256_display; test_h256_to_hex_roundtrip; test_h256_from_str; test_h256_xor; test_h256_leading_zeros;
   test_h256_ord; test_h160_size; test_h256_from_u64; test_h256_serde_json; test_h256_serde_bincode].
Example hash_suite : passes suite = true.
Proof. vm_compute. reflexivity. Qed.
End HashTests.

(** ** [address.rs], [signature.rs] and [keccak.rs] *)

Module AddressTests.
Definition mixed : bytes := str "0x742d35Cc6634C0532925a3b844Bc9e7595f5aB21".
Definition lower : bytes := str "0x742d35cc6634c0532925a3b844bc9e7595f5ab21".
Definition first_is_74 (a : Address) : bool := head (Address.as_bytes a) == Some x74.

Definition test_address_zero : bool :=
  let addr := AddressImpls.zero in Address.is_zero addr && (addr == Address.ZERO).
Definition test_address_from_hex : bool :=
  let! addr := Address.from_hex mixed in negb (Address.is_zero addr) && first_is_74 addr.
Definition test_address_from_hex_lowercase : bool :=
  let! addr := Address.from_hex lower in negb (Address.is_zero addr).
Definition test_address_display : bool :=
  let! addr := Address.from_hex mixed in
  let display := AddressImpls.fmt_display addr in
  HashTests.starts_with (str "0x") display && (length display == 42%nat).
Definition test_address_from_h256 : bool :=
  let! h := Hash.from_hex (n := 32) (str "0x000000000000000000000000742d35cc6634c0532925a3b844bc9e7595f5ab21") in
  first_is_74 (Address.from_h256 h).
Definition test_address_to_h256 : bool :=
  let! addr := Address.from_hex mixed in
  let h := Address.to_h256 addr in
  forallb (fun i => HashImpls.index i h == Some x00) (seq 0 12) &&
  (HashImpls.index_range 12 32 h == Some (Address.as_bytes addr)).
Definition test_address_roundtrip : bool :=
  let! addr := Address.from_hex lower in lower == Address.to_hex addr.
Definition test_address_parse : bool :=
  let! addr := Address.from_str lower in negb (Address.is_zero addr).
Definition test_address_create : bool :=
  let! sender := Address.from_hex lower in
  let addr1 := Address.create sender 0 in
  let addr2 := Address.create sender 1 in
  (addr1 != addr2) && negb (Address.is_zero addr1).
Definition test_eip55_checksum : bool :=
  let! addr := Address.from_hex (str "0x5aaeb6053f3e94c9b9a09f33669435e7ef1beaed") in
  Address.to_hex_checksummed addr == str "0x5aAeb6053F3E94C9b9A09f33669435E7Ef1BeAed".
Definition test_eip55_published_fixture : bool :=
  let! addr := Address.from_hex (str "0xfb6916095ca1df60bb79ce92ce3ea74c37c5d359") in
  Address.to_hex_checksummed addr == str "0xfB6916095ca1df60bB79Ce92cE3Ea74c37c5d359".
Definition test_address_create2 : bool :=
  let! sender := Address.from_hex lower in
  let salt := H256.ZERO in
  let code_hash := keccak256 (str "ivory-create2") in
  let a := Address.create2 sender salt code_hash in
  let b := Address.create2 sender (Hash.from_bytes (replicate 32 x01)) code_hash in
  (a != b) && negb (Address.is_zero a).
Definition test_address_serde : bool :=
  let! original := Address.from_hex lower in
  let!! decoded := AddressImpls.deserialize true (AddressImpls.serialize true original) in
  original == decoded.

Definition test_signature_zero : bool :=
  let sig := SignatureImpls.zero in Signature.is_zero sig && (sig == Signature.ZERO).
Definition test_public_key_zero : bool :=
  let pk := PublicKeyImpls.zero in PublicKey.is_zero pk && (pk == PublicKey.ZERO).
Definition test_secret_key_debug : bool :=
  SecretKeyImpls.fmt_debug (SecretKey.from_bytes (replicate 32 x01)) == str "SecretKey([REDACTED])".

Definition empty_input_matches_ethereum : bool :=
  Hash.to_hex (keccak256 []) == str "0xc5d2460186f7233c927e7db2dcc703c0e500b653ca82273b7bfad8045d85a470".

Definition suite : list bool :=
  [test_address_zero; test_address_from_hex; test_address_from_hex_lowercase; test_address_display;
   test_address_from_h256; test_address_to_h256; test_address_roundtrip; test_address_parse;
   test_address_create; test_eip55_checksum; test_eip55_published_fixture; test_address_create2;
   test_address_serde; test_signature_zero; test_public_key_zero; test_secret_key_debug;
   empty_input_matches_ethereum].
Example address_suite : passes suite = true.
Proof. vm_compute. reflexivity. Qed.
End AddressTests.
