(* ===== verification/CoreTests.v ===== *)
(** * The unit tests of [crates/ivory-core] and [crates/ivory-crypto]

    The digest is Keccak-256 ([sha3_reference]) and the encoding the documented bincode
    format; Ed25519 is the instance [ed25519_toy].  The round trips through derived JSON
    forms are left out: [serde_json] is not modelled for these types. *)

From S2P Require Import Prelude Testing Hex Text Uint UintFacts Hash Address Impls Bincode Core Crypto Keccak.
#[local] Open Scope Z_scope.
#[local] Open Scope test_scope.
#[local] Existing Instance sha3_reference | 0.

Definition filled {n} (b : byte) : Hash n := Hash.from_bytes (replicate n b).
Definition addr (b : byte) : Address := Address.from_bytes (replicate 20 b).

(** ** [account.rs] *)

Module AccountTests.
Definition new_account_is_empty : bool :=
  let account := account_new in
  (acc_nonce account == 0) && U256.is_zero (acc_balance account) && (acc_code_hash account == H256.ZERO)
  && (acc_storage_root account == H256.ZERO) && account_is_empty account.
Definition nonce_makes_account_non_empty : bool :=
  negb (account_is_empty (mkAccount 1 U256.ZERO H256.ZERO H256.ZERO)).
Definition balance_makes_account_non_empty : bool :=
  negb (account_is_empty (mkAccount 0 (U256Impls.from_u64 1) H256.ZERO H256.ZERO)).
Definition code_hash_makes_account_non_empty : bool :=
  negb (account_is_empty (mkAccount 0 U256.ZERO (filled x01) H256.ZERO)).
Definition storage_root_makes_account_non_empty : bool :=
  negb (account_is_empty (mkAccount 0 U256.ZERO H256.ZERO (filled x02))).

Definition suite : list bool :=
  [new_account_is_empty; nonce_makes_account_non_empty; balance_makes_account_non_empty;
   code_hash_makes_account_non_empty; storage_root_makes_account_non_empty].
Example account_suite : passes suite = true.
Proof. vm_compute. reflexivity. Qed.
End AccountTests.

(** ** [block.rs] *)

Module BlockTests.
Definition test_header (gas_limit gas_used : Z) : BlockHeader :=
  let '(tx_root, rx_root) := empty_list_roots in
  mkBlockHeader 1 H256.ZERO 1700000000 Address.ZERO gas_limit gas_used H256.ZERO tx_root rx_root U256.ZERO [].
Definition test_tx (to : option Address) : Transaction :=
  mkTransaction (addr x01) to (U256Impls.from_u64 10) [xaa; xbb] (U256Impls.from_u64 1) 21000 0
    Signature.ZERO PublicKey.ZERO.
Definition with_nonce (n : Z) (t : Transaction) : Transaction :=
  mkTransaction (tx_from t) (tx_to t) (tx_value t) (tx_data t) (tx_gas_price t) (tx_gas t) n
    (tx_signature t) (tx_public_key t).
Definition with_signature (s : Signature) (t : Transaction) : Transaction :=
  mkTransaction (tx_from t) (tx_to t) (tx_value t) (tx_data t) (tx_gas_price t) (tx_gas t) (tx_nonce t)
    s (tx_public_key t).
Definition with_number (n : Z) (h : BlockHeader) : BlockHeader :=
  mkBlockHeader n (parent_hash h) (timestamp h) (miner h) (gas_limit h) (gas_used h) (state_root h)
    (transactions_root h) (receipts_root h) (difficulty h) (extra_data h).
Definition with_roots (tx_root rx_root : H256) (h : BlockHeader) : BlockHeader :=
  mkBlockHeader (number h) (parent_hash h) (timestamp h) (miner h) (gas_limit h) (gas_used h) (state_root h)
    tx_root rx_root (difficulty h) (extra_data h).
Definition empty_block : Block := mkBlock (test_header 30000000 0) [] [].

Definition empty_block_validates : bool := is_ok (validate empty_block).
Definition validate_passes_when_gas_used_equals_limit : bool :=
  is_ok (validate (mkBlock (test_header 21000 21000) [] [])).
Definition validate_fails_when_gas_exceeds_limit : bool :=
  validate (mkBlock (test_header 21000 21001) [] []) == Err GasExceeded.
Definition header_hash_is_deterministic : bool :=
  let header := test_header 30000000 0 in
  (header_hash header == header_hash header) && (header_hash header != H256.ZERO).
Definition block_hash_matches_header_hash : bool :=
  let block := empty_block in block_hash block == header_hash (header block).
Definition different_headers_have_different_hashes : bool :=
  let a := test_header 30000000 0 in let b := with_number 2 a in header_hash a != header_hash b.
Definition contract_creation_tx_has_no_recipient : bool :=
  let tx := test_tx None in is_none (tx_to tx) && is_create tx.
Definition call_tx_is_not_create : bool := let tx := test_tx (Some (addr x09)) in negb (is_create tx).
Definition data_len_matches_payload : bool := let tx := test_tx None in data_len tx == 2%nat.
Definition tx_hash_is_deterministic : bool :=
  let tx := test_tx (Some Address.ZERO) in (tx_hash tx == tx_hash tx) && (tx_hash tx != H256.ZERO).
Definition tx_hash_changes_with_nonce : bool :=
  let a := test_tx (Some Address.ZERO) in let b := with_nonce 1 a in tx_hash a != tx_hash b.
Definition signing_hash_ignores_signature : bool :=
  let a := test_tx (Some Address.ZERO) in
  let b := with_signature (Signature.from_bytes (replicate 64 x01)) a in
  (signing_hash a == signing_hash b) && (tx_hash a != tx_hash b).
Definition log_equality : bool :=
  let log := mkLog Address.ZERO [H256.ZERO] [] in log == log.
Definition receipt_equality : bool :=
  let receipt := mkReceipt H256.ZERO 0 0 false [] in receipt == receipt.
Definition bincode_header_roundtrip : bool :=
  let original := test_header 1000 500 in
  let bytes := serialize original in
  let!! decoded := deserialize (A := BlockHeader) bytes in decoded == original.
Definition bincode_transaction_roundtrip : bool :=
  let original := test_tx (Some Address.ZERO) in
  let bytes := serialize original in
  let!! decoded := deserialize (A := Transaction) bytes in decoded == original.
Definition empty_list_roots_are_nonzero : bool :=
  let '(tx, rx) := empty_list_roots in
  (tx != H256.ZERO) && (rx != H256.ZERO) && (tx == list_root (A := Transaction) [])
  && (rx == list_root (A := Receipt) []).
Definition list_root_order_sensitive : bool :=
  let a := test_tx (Some (addr x01)) in
  let b := with_nonce 1 (test_tx (Some (addr x02))) in
  list_root [a; b] != list_root [b; a].
Definition validate_rejects_wrong_tx_root : bool :=
  let block := mkBlock (with_roots H256.ZERO (receipts_root (header empty_block)) (header empty_block)) [] [] in
  validate block == Err InvalidTransactionsRoot.
Definition validate_rejects_wrong_receipt_root : bool :=
  let block := mkBlock (with_roots (transactions_root (header empty_block)) H256.ZERO (header empty_block)) [] [] in
  validate block == Err InvalidReceiptsRoot.
Definition validate_rejects_count_mismatch : bool :=
  let txs := [test_tx None] in
  let block := mkBlock (with_roots (list_root txs) (receipts_root (header empty_block)) (header empty_block)) txs [] in
  validate block == Err TxReceiptCountMismatch.
Definition validate_accepts_matching_body_roots : bool :=
  let tx := test_tx None in
  let receipt := mkReceipt (tx_hash tx) 1 21000 true [] in
  let header := with_roots (list_root [tx]) (list_root [receipt]) (test_header 30000000 21000) in
  is_ok (validate (mkBlock header [tx] [receipt])).

Definition suite : list bool :=
  [empty_block_validates; validate_passes_when_gas_used_equals_limit; validate_fails_when_gas_exceeds_limit;
   header_hash_is_deterministic; block_hash_matches_header_hash; different_headers_have_different_hashes;
   contract_creation_tx_has_no_recipient; call_tx_is_not_create; data_len_matches_payload;
   tx_hash_is_deterministic; tx_hash_changes_with_nonce; signing_hash_ignores_signature; log_equality;
   receipt_equality; bincode_header_roundtrip; bincode_transaction_roundtrip; empty_list_roots_are_nonzero;
   list_root_order_sensitive; validate_rejects_wrong_tx_root; validate_rejects_wrong_receipt_root;
   validate_rejects_count_mismatch; validate_accepts_matching_body_roots].
Example block_suite : passes suite = true.
Proof. vm_compute. reflexivity. Qed.
End BlockTests.

(** ** [quant.rs] *)

Module QuantTests.
Definition sample : QuantEnvelope :=
  mkQuantEnvelope QUANT_SCHEMA_VERSION (str "dec-1") (str "app.v1")
    [mkQuantMetric (str "score") (str "0.82")] (Some (filled x09)) (Some (str "bafyexample")).
Definition roundtrip : bool :=
  let original := sample in
  let encoded := quant_encode original in
  (take 4 encoded == QUANT_MAGIC) && (let! decoded := quant_decode encoded in decoded == original).
Definition rejects_bad_magic : bool := is_err (quant_decode (str "NOPE")).
Definition rejects_empty_decision_id : bool :=
  let env := mkQuantEnvelope (version sample) [] (schema sample) (metrics sample) (content_hash sample)
               (cid sample) in
  is_err (quant_decode (quant_encode env)).
Definition bincode_layout_matches_python_codec : bool :=
  let env := mkQuantEnvelope QUANT_SCHEMA_VERSION (str "d") (str "s") [] None None in
  let expected := QUANT_MAGIC ++ le_bytes 2 1 ++ le_bytes 8 1 ++ str "d" ++ le_bytes 8 1 ++ str "s" ++
                  le_bytes 8 0 ++ [x00] ++ [x00] in
  quant_encode env == expected.

Definition suite : list bool :=
  [roundtrip; rejects_bad_magic; rejects_empty_decision_id; bincode_layout_matches_python_codec].
Example quant_suite : passes suite = true.
Proof. vm_compute. reflexivity. Qed.
End QuantTests.

(** ** [ivory-crypto/src/lib.rs] *)

Module CryptoTests.
(** [bytes[i] ^= mask] on the bytes of a signature. *)
Definition mangle (i : nat) (mask : Z) (s : Signature) : Signature :=
  Signature.from_bytes (alter (fun b => byte_of_Z (Z.lxor (byte_val b) mask)) i (SignatureImpls.to_bytes s)).
Definition ten : U256 := U256Impls.from_u64 10.

Definition sign_verify_roundtrip : bool :=
  let '(sk, pk, _) := keypair_from_byte x01 in
  let msg := str "ivory-v1" in
  is_ok (verify_sig msg (sign msg sk) pk).
Definition verify_rejects_wrong_key : bool :=
  let '(sk, _, _) := keypair_from_byte x01 in
  let '(_, pk2, _) := keypair_from_byte x02 in
  let sig := sign (str "msg") sk in
  verify_sig (str "msg") sig pk2 == Err InvalidSignature.
Definition verify_rejects_mangled_signature : bool :=
  let '(sk, pk, _) := keypair_from_byte x01 in
  let sig := mangle 0 255 (sign (str "msg") sk) in
  verify_sig (str "msg") sig pk == Err InvalidSignature.
Definition address_is_deterministic : bool :=
  let '(_, pk, addr) := keypair_from_byte x07 in
  (address_from_public_key pk == addr) && ((keypair_from_byte x07).2 == addr) && (addr != Address.ZERO).
Definition signed_transfer_recovers_sender : bool :=
  let '(sk, pk, from) := keypair_from_byte x03 in
  let to := (keypair_from_byte x04).2 in
  let tx := signed_transfer sk to 0 ten 21000 in
  (tx_from tx == from) && (tx_public_key tx == pk) && (let! sender := recover_sender tx in sender == from).
Definition recover_rejects_wrong_from : bool :=
  let '(sk, _, _) := keypair_from_byte x03 in
  let to := (keypair_from_byte x04).2 in
  let t := signed_transfer sk to 0 ten 21000 in
  let tx := mkTransaction (addr x09) (tx_to t) (tx_value t) (tx_data t) (tx_gas_price t) (tx_gas t)
              (tx_nonce t) (tx_signature t) (tx_public_key t) in
  recover_sender tx == Err KeyMismatch.
Definition recover_rejects_bad_signature : bool :=
  let '(sk, _, _) := keypair_from_byte x03 in
  let to := (keypair_from_byte x04).2 in
  let t := signed_transfer sk to 0 ten 21000 in
  let tx := BlockTests.with_signature (mangle 1 1 (tx_signature t)) t in
  recover_sender tx == Err InvalidSignature.
Definition signing_hash_excludes_signature : bool :=
  let '(sk, _, _) := keypair_from_byte x01 in
  let to := (keypair_from_byte x02).2 in
  let tx := signed_transfer sk to 0 (U256Impls.from_u64 1) 21000 in
  let unsigned := mkTransaction (tx_from tx) (tx_to tx) (tx_value tx) BytesImpls.new (tx_gas_price tx) (tx_gas tx)
                    (tx_nonce tx) SignatureImpls.zero PublicKeyImpls.zero in
  (signing_hash tx == signing_hash unsigned) && (tx_hash tx != signing_hash tx).
Definition secret_from_bytes_roundtrip : bool :=
  let '(sk, pk, _) := keypair_from_byte x08 in
  let! sk2 := secret_from_bytes (Hash.from_bytes (SecretKeyImpls.to_bytes sk)) in
  public_key_from_secret sk2 == pk.

Definition suite : list bool :=
  [sign_verify_roundtrip; verify_rejects_wrong_key; verify_rejects_mangled_signature; address_is_deterministic;
   signed_transfer_recovers_sender; recover_rejects_wrong_from; recover_rejects_bad_signature;
   signing_hash_excludes_signature; secret_from_bytes_roundtrip].
Example crypto_suite : passes suite = true.
Proof. vm_compute. reflexivity. Qed.
End CryptoTests.
