(* ===== verification/StateTests.v ===== *)
(** * The unit tests of [crates/ivory-state]

    The handle of a [StateDB] is shared; here it is the state that is passed on, so
    the two tests of handles shared between clones and threads have nothing to run. *)

From S2P Require Import Prelude Testing Hex Text Uint UintFacts Hash Address Impls Bincode Core Trie State.
From S2P Require Import CoreTests.
#[local] Open Scope Z_scope.
#[local] Open Scope test_scope.
#[local] Existing Instance sha3_checksum | 0.

Module StateTests.
Definition slot (byte : byte) : H256 := filled byte.
Definition n (v : Z) : U256 := U256Impls.from_u64 v.
Definition nonce_account (k : Z) : Account := with_nonce k account_new.
Definition balance_account (v : Z) : Account := with_balance (n v) account_new.
Definition nonce_of (db : StateDB) (a : Address) : option Z := acc_nonce <$> StateDB.get_account db a.
Definition balance_of (db : StateDB) (a : Address) : option U256 := acc_balance <$> StateDB.get_account db a.

Definition missing_account_is_none : bool :=
  let db := StateDB.new in is_none (StateDB.get_account db (addr x01)).
Definition set_and_get_account_roundtrip : bool :=
  let account := with_balance (n 42) (nonce_account 3) in
  let db := StateDB.set_account (addr x01) account StateDB.new in
  StateDB.get_account db (addr x01) == Some account.
Definition accounts_are_isolated_by_address : bool :=
  let a := nonce_account 1 in
  let b := nonce_account 2 in
  let db := StateDB.set_account (addr x01) a StateDB.new in
  let db := StateDB.set_account (addr x02) b db in
  (StateDB.get_account db (addr x01) == Some a) && (StateDB.get_account db (addr x02) == Some b).
Definition missing_storage_is_zero : bool :=
  let db := StateDB.new in StateDB.get_storage db (addr x01) (slot x01) == U256.ZERO.
Definition set_and_get_storage_roundtrip : bool :=
  let db := StateDB.set_storage (addr x01) (slot x01) (n 99) StateDB.new in
  StateDB.get_storage db (addr x01) (slot x01) == n 99.
Definition storage_overwrite : bool :=
  let db := StateDB.set_storage (addr x01) (slot x01) (n 1) StateDB.new in
  let db := StateDB.set_storage (addr x01) (slot x01) (n 2) db in
  StateDB.get_storage db (addr x01) (slot x01) == n 2.
Definition storage_slots_are_isolated : bool :=
  let db := StateDB.set_storage (addr x01) (slot x01) (n 10) StateDB.new in
  let db := StateDB.set_storage (addr x01) (slot x02) (n 20) db in
  let db := StateDB.set_storage (addr x02) (slot x01) (n 30) db in
  (StateDB.get_storage db (addr x01) (slot x01) == n 10) &&
  (StateDB.get_storage db (addr x01) (slot x02) == n 20) &&
  (StateDB.get_storage db (addr x02) (slot x01) == n 30).
Definition empty_root_is_empty_trie_not_placeholder : bool :=
  let db := StateDB.new in
  ((StateDB.root_hash db).2 == empty_root) && ((StateDB.root_hash db).2 != H256.ZERO).
Definition root_changes_on_account_and_storage : bool :=
  let '(db, empty) := StateDB.root_hash StateDB.new in
  let db := StateDB.set_account (addr x01) (balance_account 1) db in
  let '(db, with_acc) := StateDB.root_hash db in
  let db := StateDB.set_storage (addr x01) (slot x01) (n 7) db in
  (with_acc != empty) && ((StateDB.root_hash db).2 != with_acc) &&
  (let!! acc := StateDB.get_account db (addr x01) in acc_storage_root acc != H256.ZERO).
Definition fork_is_isolated : bool :=
  let db := StateDB.set_account (addr x01) (nonce_account 1) StateDB.new in
  let snap := StateDB.fork db in
  let db := StateDB.set_account (addr x01) (nonce_account 9) db in
  (nonce_of snap (addr x01) == Some 1) && (nonce_of db (addr x01) == Some 9).
Definition reset_from_overwrites_live_handle : bool :=
  let snap := StateDB.set_account (addr x01) (balance_account 5) StateDB.new in
  let live := StateDB.reset_from StateDB.new snap in
  let snap := StateDB.set_account (addr x01) (balance_account 1) snap in
  (balance_of live (addr x01) == Some (n 5)) && (balance_of snap (addr x01) == Some (n 1)).
Definition account_proof_verifies : bool :=
  let db := StateDB.set_account (addr x01) (balance_account 9) StateDB.new in
  let '(db, proof) := StateDB.account_proof db (addr x01) in
  let '(db, root) := StateDB.root_hash db in
  let '(db, missing) := StateDB.account_proof db (addr x09) in
  (proof_root proof == root) &&
  (let! value := verify (proof_root proof) (Address.as_bytes (addr x01)) (proof_nodes proof) in
   let!! value := value in
   let!! decoded := deserialize (A := Account) value in
   acc_balance decoded == n 9) &&
  is_none (proof_value missing) &&
  (let! value := verify (proof_root missing) (Address.as_bytes (addr x09)) (proof_nodes missing) in
   is_none value).
Definition snapshot_roundtrip : bool :=
  let db := StateDB.set_account (addr x01) (nonce_account 4) StateDB.new in
  let db := StateDB.set_storage (addr x01) (slot x01) (n 3) db in
  let db := StateDB.set_code (addr x01) [x01; x02] db in
  let restored := StateDB.from_snapshot (StateDB.to_snapshot db) in
  (nonce_of restored (addr x01) == Some 4) && (StateDB.get_storage restored (addr x01) (slot x01) == n 3) &&
  (StateDB.get_code restored (addr x01) == [x01; x02]).

Definition suite : list bool :=
  [missing_account_is_none; set_and_get_account_roundtrip; accounts_are_isolated_by_address;
   missing_storage_is_zero; set_and_get_storage_roundtrip; storage_overwrite; storage_slots_are_isolated;
   empty_root_is_empty_trie_not_placeholder; root_changes_on_account_and_storage; fork_is_isolated;
   reset_from_overwrites_live_handle; account_proof_verifies; snapshot_roundtrip].
Example state_suite : passes suite = true.
Proof. vm_compute. reflexivity. Qed.
End StateTests.

Module TrieTests.
Definition empty_pairs_use_empty_root : bool :=
  (patricia_root [] == empty_root) && (empty_root != H256.ZERO).
Definition order_independent : bool :=
  let a := (str "addr-aaaa", str "one") in
  let b := (str "addr-bbbb", str "two") in
  patricia_root [a; b] == patricia_root [b; a].
Definition last_duplicate_wins : bool :=
  let k := str "same" in
  let first := (k, str "old") in
  let second := (k, str "new") in
  patricia_root [first; second] == patricia_root [second].
Definition single_leaf_differs_from_empty : bool :=
  let root := patricia_root [(str "k", str "v")] in root != empty_root.
Definition prove_and_verify_present_and_absent : bool :=
  let pairs := [(str "addr-aaaa", str "one"); (str "addr-bbbb", str "two")] in
  let present := prove pairs (str "addr-aaaa") in
  let absent := prove pairs (str "addr-cccc") in
  let flip b := byte_of_Z (Z.lxor (byte_val b) 255) in
  let bad := alter (alter flip 0%nat) 0%nat (proof_nodes present) in
  (proof_value present == Some (str "one")) &&
  (verify (proof_root present) (str "addr-aaaa") (proof_nodes present) == Ok (proof_value present)) &&
  is_none (proof_value absent) &&
  (verify (proof_root absent) (str "addr-cccc") (proof_nodes absent) == Ok None) &&
  (verify (proof_root present) (str "addr-aaaa") (proof_nodes absent) == Err Incomplete) &&
  (verify (proof_root present) (str "addr-aaaa") bad == Err HashMismatch).

Definition suite : list bool :=
  [empty_pairs_use_empty_root; order_independent; last_duplicate_wins; single_leaf_differs_from_empty;
   prove_and_verify_present_and_absent].
Example trie_suite : passes suite = true.
Proof. vm_compute. reflexivity. Qed.
End TrieTests.
