(* ===== verification/ExecutionTests.v ===== *)
(** * The unit tests of [crates/ivory-executor] and [crates/ivory-vm]

    The modules the tests write as WebAssembly text are programs of the instance
    [test_modules], named by their first byte: each guest makes the host calls of the
    module's [call] export, and leaves one unit of fuel less per instruction. *)

From S2P Require Import Prelude Testing Hex Text Uint UintFacts Hash Address Impls Bincode Core Trie State.
From S2P Require Import Vm Executor CoreTests StateTests.
#[local] Open Scope Z_scope.
#[local] Open Scope test_scope.

(** ** The modules of the tests *)

Definition ANSWER : bytes := [x61].
Definition OTHER_EXPORT : bytes := [x62].
Definition VOID : bytes := [x63].
Definition UNREACHABLE : bytes := [x64].
Definition GET_3 : bytes := [x65].
Definition SET_1_GET : bytes := [x66].
Definition SET_0_7 : bytes := [x67].
Definition PARAM : bytes := [x68].
Definition UNKNOWN_IMPORT : bytes := [x69].
Definition LOG_7 : bytes := [x6a].
Definition FIRST_BYTE : bytes := [x6b].
Definition SET_2_55 : bytes := [x6c].
Definition RETURN_1 : bytes := [x6d].
Definition RETURN_2 : bytes := [x6e].

Definition test_modules : WasmiCrate := {|
  wasm_module := bytes;
  wasm_instance := bytes;
  module_new wasm := match wasm with
    | [] | x00 :: _ => Err (str "unexpected end or bad magic")
    | _ => Ok wasm
    end;
  instantiate_start m fuel :=
    if decide (m = UNKNOWN_IMPORT) then GTrap (str "cannot find definition for import env::nope")
    else GReturn fuel m;
  get_call m :=
    if decide (m = OTHER_EXPORT) then None
    else if decide (m = PARAM) then Some CallOther
    else if decide (m ∈ [VOID; SET_0_7; LOG_7; SET_2_55]) then Some CallUnit else Some CallI32;
  call_typed m fuel :=
    let finish {R} (k : Z) (r : R) := GReturn (Z.max 0 (fuel - k)) r in
    if decide (m = ANSWER) then finish 1 42
    else if decide (m = RETURN_1) then finish 1 1
    else if decide (m = RETURN_2) then finish 1 2
    else if decide (m = UNREACHABLE) then GTrap (str "unreachable")
    else if decide (m = GET_3) then GStorageGet 3 (fun v => finish 3 (as_i32 v))
    else if decide (m = SET_1_GET) then GStorageSet 1 99 (GStorageGet 1 (fun v => finish 6 (as_i32 v)))
    else if decide (m = SET_0_7) then GStorageSet 0 7 (finish 3 0)
    else if decide (m = SET_2_55) then GStorageSet 2 55 (finish 3 0)
    else if decide (m = LOG_7) then GEmitLog 7 (finish 2 0)
    else if decide (m = FIRST_BYTE) then GCalldataAt 0 (fun v => finish 2 v)
    else finish 0 0 |}.
#[local] Existing Instance test_modules | 0.

Definition last_byte (b : byte) : H256 := Hash.from_bytes (replicate 31 x00 ++ [b]).

(** ** [gas.rs] *)

Module GasTests.
Definition tx_with_data (data : bytes) (gas : Z) : Transaction :=
  mkTransaction (addr x01) (Some (addr x02)) U256.ZERO data U256.ONE gas 0 Signature.ZERO PublicKey.ZERO.
Definition out_of_gas {A} (r : result A ExecutionError.t) : bool :=
  match r with Err e => e == ExecutionError.OutOfGas | Ok _ => false end.

Definition intrinsic_base_only : bool :=
  compute_intrinsic_gas (tx_with_data [] 21000) gas_config_default == 21000.
Definition intrinsic_includes_data : bool :=
  compute_intrinsic_gas (tx_with_data [xaa; xbb] 30000) gas_config_default == 21000 + 32.
Definition meter_rejects_intrinsic_above_limit : bool := out_of_gas (GasMeter.new 21000 21001).
Definition meter_used_and_refund : bool :=
  (let! meter := GasMeter.new 21032 21032 in
   (GasMeter.gas_used meter == 21032) && (GasMeter.refund_gas meter == 0)) &&
  (let! meter := GasMeter.new 30000 21000 in
   (GasMeter.gas_used meter == 21000) && (GasMeter.refund_gas meter == 9000)).
Definition meter_spend_reduces_remaining : bool :=
  let! meter := GasMeter.new 30000 21000 in
  let! meter := GasMeter.spend meter 1000 in
  (GasMeter.gas_used meter == 22000) && (GasMeter.refund_gas meter == 8000) &&
  out_of_gas (GasMeter.spend meter 8001).

Definition suite : list bool :=
  [intrinsic_base_only; intrinsic_includes_data; meter_rejects_intrinsic_above_limit; meter_used_and_refund;
   meter_spend_reduces_remaining].
Example gas_suite : passes suite = true.
Proof. vm_compute. reflexivity. Qed.
End GasTests.

(** ** [ivory-vm/src/lib.rs] *)

Module VmTests.
Definition here : Address := addr x07.
(** [WasmVm::new().execute(wasm, &state, addr(), gas, input)] *)
Definition execute (wasm : bytes) (state : StateDB) (gas : Z) (input : bytes) : StateDB * result VmOutput VmError :=
  vm_execute wasm here gas input state.
Definition returns (wasm : bytes) (v : option Z) : bool :=
  let! out := (execute wasm StateDB.new 0 []).2 in vm_success out && (vm_return_value out == v).

Definition call_returns_42 : bool := returns ANSWER (Some 42).
Definition invalid_wasm_errors : bool :=
  match (execute [x00; x01; x02] StateDB.new 0 []).2 with Err (InvalidModule _) => true | _ => false end.
Definition empty_bytes_invalid : bool :=
  match (execute [] StateDB.new 0 []).2 with Err (InvalidModule _) => true | _ => false end.
Definition missing_call_export_succeeds : bool := returns OTHER_EXPORT None.
Definition call_void_export : bool := returns VOID None.
Definition trap_unreachable : bool :=
  match (execute UNREACHABLE StateDB.new 0 []).2 with Err (Trap _) => true | _ => false end.
Definition storage_get_default_zero : bool :=
  let! out := (execute GET_3 StateDB.new 0 []).2 in vm_return_value out == Some 0.
Definition storage_set_then_get : bool :=
  let '(state, r) := execute SET_1_GET StateDB.new 0 [] in
  let! out := r in
  (vm_return_value out == Some 99) &&
  (StateDB.get_storage state here (last_byte x01) == U256Impls.from_u64 99).
Definition storage_isolated_by_address : bool :=
  let '(state, r) := execute SET_0_7 StateDB.new 0 [] in
  let! _ := r in
  let other := addr x08 in
  (StateDB.get_storage state other H256.ZERO == U256.ZERO) &&
  (StateDB.get_storage state here H256.ZERO == U256Impls.from_u64 7).
Definition wrong_call_type : bool :=
  match (execute PARAM StateDB.new 0 []).2 with Err (Export _) => true | _ => false end.
Definition missing_host_import_fails_instantiate : bool :=
  match (execute UNKNOWN_IMPORT StateDB.new 0 []).2 with Err (Instantiate _) => true | _ => false end.
Definition emit_log_records_topic : bool :=
  let! out := (execute LOG_7 StateDB.new 50000 []).2 in
  match vm_logs out with
  | [log] => (log_address log == here) && (head (log_topics log) == Some (last_byte x07))
  | _ => false
  end && (vm_gas_left out <? 50000).
Definition calldata_first_byte : bool :=
  let! out := (execute FIRST_BYTE StateDB.new 0 [x2a; x00]).2 in vm_return_value out == Some 42.

Definition suite : list bool :=
  [call_returns_42; invalid_wasm_errors; empty_bytes_invalid; missing_call_export_succeeds; call_void_export;
   trap_unreachable; storage_get_default_zero; storage_set_then_get; storage_isolated_by_address;
   wrong_call_type; missing_host_import_fails_instantiate; emit_log_records_topic; calldata_first_byte].
Example vm_suite : passes suite = true.
Proof. vm_compute. reflexivity. Qed.
End VmTests.

(** ** [executor.rs] *)

Module ExecutorTests.
Definition n (v : Z) : U256 := U256Impls.from_u64 v.
Definition funded (nonce balance : Z) : Account := with_balance (n balance) (with_nonce nonce account_new).
Definition transfer_tx (from to : Address) (nonce value gas price : Z) : Transaction :=
  mkTransaction from (Some to) (n value) [] (n price) gas nonce Signature.ZERO PublicKey.ZERO.
Definition create_tx (from : Address) (nonce value gas : Z) : Transaction :=
  mkTransaction from None (n value) [x00] (n 1) gas nonce Signature.ZERO PublicKey.ZERO.
Definition with_data (data : bytes) (t : Transaction) : Transaction :=
  mkTransaction (tx_from t) (tx_to t) (tx_value t) data (tx_gas_price t) (tx_gas t) (tx_nonce t)
    (tx_signature t) (tx_public_key t).
Definition state_with (a : Address) (acc : Account) : StateDB := StateDB.set_account a acc StateDB.new.
Definition run := execute_transaction gas_config_default.
Definition ctx0 : ExecutionContext := context_new 1 0.
(** [assert_eq!(exec.execute_transaction(..), Err(e))] *)
Definition fails {A} (r : StateDB * result A ExecutionError.t) (e : ExecutionError.t) : bool :=
  match r.2 with Err e' => e' == e | Ok _ => false end.
(** A second transaction in the context the first one left. *)
Definition run2 (tx1 tx2 : Transaction) (state : StateDB) : StateDB * result (ExecutionOutcome * ExecutionContext) ExecutionError.t :=
  match run tx1 ctx0 state with
  | (state, Ok (_, ctx)) => run tx2 ctx state
  | (state, Err e) => (state, Err e)
  end.
Definition balance_of := StateTests.balance_of.
Definition nonce_of := StateTests.nonce_of.

Definition happy_path_transfer : bool :=
  let from := addr x01 in
  let to := addr x02 in
  let tx := transfer_tx from to 0 100 21000 2 in
  let '(state, r) := run tx (context_new 1 1700000000) (state_with from (funded 0 1000000)) in
  let! (out, ctx) := r in
  (rc_tx_hash (eo_receipt out) == tx_hash tx) && rc_status (eo_receipt out) && (eo_gas_used out == 21000) &&
  (eo_gas_refunded out == 0) && cr_success (eo_call out) &&
  match call_kind_from_tx tx with Call => true | Create => false end &&
  (nonce_of state from == Some 1) && (balance_of state from == Some (n (1000000 - 42100))) &&
  (balance_of state to == Some (n 100)) && (ctx_gas_used ctx == 21000).
Definition nonce_mismatch : bool :=
  fails (run (transfer_tx (addr x01) (addr x02) 0 1 21000 1) ctx0 (state_with (addr x01) (funded 5 1000000)))
    (ExecutionError.NonceMismatch 5 0).
Definition insufficient_balance : bool :=
  fails (run (transfer_tx (addr x01) (addr x02) 0 1 21000 1) ctx0 (state_with (addr x01) (funded 0 10)))
    ExecutionError.InsufficientBalance.
Definition out_of_gas_intrinsic : bool :=
  let tx := with_data [x01; x02; x03] (transfer_tx (addr x01) (addr x02) 0 0 21000 1) in
  fails (run tx ctx0 (state_with (addr x01) (funded 0 1000000))) ExecutionError.OutOfGas.
Definition overflow_on_gas_cost : bool :=
  let tx := mkTransaction (addr x01) (Some (addr x02)) U256.ZERO [] U256.MAX 21000 0 Signature.ZERO PublicKey.ZERO in
  fails (run tx ctx0 (state_with (addr x01) (with_balance U256.MAX account_new))) ExecutionError.Overflow.
Definition missing_sender_empty_account_fails_balance : bool :=
  fails (run (transfer_tx (addr x01) (addr x02) 0 1 21000 1) ctx0 StateDB.new) ExecutionError.InsufficientBalance.
Definition funded_then_execute : bool :=
  let! (out, _) := (run (transfer_tx (addr x01) (addr x02) 0 50 21000 1) (context_new 3 0)
                      (state_with (addr x01) (funded 0 500000))).2 in
  rc_block_number (eo_receipt out) == 3.
Definition create_path_credits_created_account : bool :=
  let from := addr x01 in
  let tx := create_tx from 0 100 21016 in
  let '(state, r) := run tx ctx0 (state_with from (funded 0 1000000)) in
  let! (out, _) := r in
  let created := Address.create from 0 in
  is_create tx && match call_kind_from_tx tx with Create => true | Call => false end &&
  rc_status (eo_receipt out) && (eo_gas_used out == 21016) && (nonce_of state from == Some 1) &&
  (balance_of state from == Some (n (1000000 - 21016 - 100))) &&
  (let!! acc := StateDB.get_account state created in
   (acc_balance acc == n 100) && (acc_code_hash acc != H256.ZERO)) &&
  (StateDB.get_code state created == [x00]).
Definition gas_refund_restores_unused : bool :=
  let from := addr x01 in
  let '(state, r) := run (transfer_tx from (addr x02) 0 0 30000 3) ctx0 (state_with from (funded 0 1000000)) in
  let! (out, _) := r in
  (eo_gas_used out == 21000) && (eo_gas_refunded out == 9000) &&
  (balance_of state from == Some (n (1000000 - 63000))).
Definition cumulative_gas_increases : bool :=
  let from := addr x01 in
  let! (_, ctx) := (run2 (transfer_tx from (addr x02) 0 0 21000 1) (transfer_tx from (addr x02) 1 0 21000 1)
                      (state_with from (funded 0 10000000))).2 in
  ctx_gas_used ctx == 42000.
Definition block_gas_limit_exceeded : bool :=
  let cfg := mkGasConfig 21000 16 21000 in
  let ctx := mkExecutionContext 1 0 1 Address.ZERO in
  fails (execute_transaction cfg (transfer_tx (addr x01) (addr x02) 0 0 21000 1) ctx
           (state_with (addr x01) (funded 0 u64_max)))
    ExecutionError.BlockGasLimitExceeded.
Definition credits_missing_recipient : bool :=
  let to := addr x02 in
  let '(state, r) := run (transfer_tx (addr x01) to 0 7 21000 1) ctx0 (state_with (addr x01) (funded 0 1000000)) in
  let! _ := r in (balance_of state to == Some (n 7)) && (nonce_of state to == Some 0).
Definition outcome_receipt_fields : bool :=
  let! (out, _) := (run (transfer_tx (addr x01) (addr x02) 0 1 21000 1) (context_new 9 123)
                      (state_with (addr x01) (funded 0 1000000))).2 in
  (rc_gas_used (eo_receipt out) == eo_gas_used out) && (cr_logs (eo_call out) == []) &&
  (length (rc_logs (eo_receipt out)) == 0%nat).
Definition with_gas_config_custom_intrinsic : bool :=
  let cfg := mkGasConfig 10 1 30000000 in
  let! (out, _) := (execute_transaction cfg (transfer_tx (addr x01) (addr x02) 0 0 10 1) ctx0
                      (state_with (addr x01) (funded 0 1000000))).2 in
  eo_gas_used out == 10.
Definition nonce_increments_across_txs : bool :=
  let '(state, r) := run2 (transfer_tx (addr x01) (addr x02) 0 1 21000 1) (transfer_tx (addr x01) (addr x02) 1 1 21000 1)
                       (state_with (addr x01) (funded 0 10000000)) in
  let! _ := r in nonce_of state (addr x01) == Some 2.
Definition second_tx_wrong_nonce_fails : bool :=
  match (run2 (transfer_tx (addr x01) (addr x02) 0 1 21000 1) (transfer_tx (addr x01) (addr x02) 0 1 21000 1)
           (state_with (addr x01) (funded 0 10000000))).2 with
  | Err (ExecutionError.NonceMismatch _ _) => true
  | _ => false
  end.
Definition zero_value_call : bool :=
  let '(state, r) := run (transfer_tx (addr x01) (addr x02) 0 0 21000 1) ctx0 (state_with (addr x01) (funded 0 1000000)) in
  let! _ := r in balance_of state (addr x02) == Some U256.ZERO.
Definition call_input_from_tx : bool :=
  let input := Executor.call_input_from_tx (transfer_tx (addr x01) (addr x02) 0 5 21000 1) in
  match ci_kind input with Call => true | Create => false end && (ci_to input == Some (addr x02)) &&
  (ci_value input == n 5).
Definition execute_call_stub_succeeds : bool :=
  let tx := create_tx (addr x01) 0 0 21016 in
  let! out := (execute_call (Executor.call_input_from_tx tx) 0 StateDB.new).2 in
  cr_success out && (cr_logs out == []).
Definition equal_balance_exact_cost : bool :=
  let '(state, r) := run (transfer_tx (addr x01) (addr x02) 0 0 21000 1) ctx0 (state_with (addr x01) (funded 0 21000)) in
  let! _ := r in balance_of state (addr x01) == Some U256.ZERO.
Definition one_wei_short_fails : bool :=
  fails (run (transfer_tx (addr x01) (addr x02) 0 0 21000 1) ctx0 (state_with (addr x01) (funded 0 20999)))
    ExecutionError.InsufficientBalance.
Definition overflow_value_plus_gas : bool :=
  let tx := mkTransaction (addr x01) (Some (addr x02)) U256.MAX [] U256.ONE 21000 0 Signature.ZERO PublicKey.ZERO in
  fails (run tx ctx0 (state_with (addr x01) (with_balance U256.MAX account_new))) ExecutionError.Overflow.
Definition data_gas_refund_when_limit_higher : bool :=
  let tx := with_data [x01; x02] (transfer_tx (addr x01) (addr x02) 0 0 21032 1) in
  let! (out, _) := (run tx ctx0 (state_with (addr x01) (funded 0 1000000))).2 in
  (eo_gas_used out == 21032) && (eo_gas_refunded out == 0).
Definition context_default_beneficiary_zero : bool :=
  let ctx := context_new 0 0 in Address.is_zero (ctx_beneficiary ctx) && (ctx_gas_used ctx == 0).
Definition wasm_contract_call_sets_storage : bool :=
  let state := StateDB.set_code (addr x02) SET_2_55 (state_with (addr x01) (funded 0 1000000)) in
  let '(state, r) := run (transfer_tx (addr x01) (addr x02) 0 0 100000 1) ctx0 state in
  let! (out, _) := r in
  rc_status (eo_receipt out) && (StateDB.get_storage state (addr x02) (last_byte x02) == n 55).
Definition invalid_contract_wasm_is_vm_error : bool :=
  let state := StateDB.set_code (addr x02) [x00; x01; x02] (state_with (addr x01) (funded 0 1000000)) in
  match (run (transfer_tx (addr x01) (addr x02) 0 0 21000 1) ctx0 state).2 with
  | Err (ExecutionError.Vm _) => true
  | _ => false
  end.
Definition simulate_transfer_does_not_touch_live : bool :=
  let from := addr x01 in
  let to := addr x02 in
  let live := state_with from (funded 0 1000000) in
  let '(fork, r) := simulate gas_config_default (mkSimulateRequest from (Some to) (n 100) [] 21000) (StateDB.fork live) in
  let! out := r in
  cr_success (so_call out) && (cr_output (so_call out) == []) && (so_gas_used out == 21000) &&
  (balance_of live from == Some (n 1000000)) && is_none (StateDB.get_account live to) &&
  (balance_of fork to == Some (n 100)) && (nonce_of fork from == Some 0).
Definition simulate_wasm_returns_padded_i32 : bool :=
  let live := StateDB.set_code (addr x02) ANSWER StateDB.new in
  let before := StateDB.get_storage live (addr x02) H256.ZERO in
  let! out := (simulate gas_config_default (mkSimulateRequest (addr x01) (Some (addr x02)) U256.ZERO [] 100000)
                 (StateDB.fork live)).2 in
  (cr_output (so_call out) == output_from_i32 42) &&
  (StateDB.get_storage live (addr x02) H256.ZERO == before) && (21000 <=? so_gas_used out).
Definition simulate_insufficient_value : bool :=
  fails (simulate gas_config_default (mkSimulateRequest (addr x01) (Some (addr x02)) (n 11) [] 21000)
           (state_with (addr x01) (funded 0 10)))
    ExecutionError.InsufficientBalance.

Definition suite : list bool :=
  [happy_path_transfer; nonce_mismatch; insufficient_balance; out_of_gas_intrinsic; overflow_on_gas_cost;
   missing_sender_empty_account_fails_balance; funded_then_execute; create_path_credits_created_account;
   gas_refund_restores_unused; cumulative_gas_increases; block_gas_limit_exceeded; credits_missing_recipient;
   outcome_receipt_fields; with_gas_config_custom_intrinsic; nonce_increments_across_txs;
   second_tx_wrong_nonce_fails; zero_value_call; call_input_from_tx; execute_call_stub_succeeds;
   equal_balance_exact_cost; one_wei_short_fails; overflow_value_plus_gas; data_gas_refund_when_limit_higher;
   context_default_beneficiary_zero; wasm_contract_call_sets_storage; invalid_contract_wasm_is_vm_error;
   simulate_transfer_does_not_touch_live; simulate_wasm_returns_padded_i32; simulate_insufficient_value].
Example executor_suite : passes suite = true.
Proof. vm_compute. reflexivity. Qed.
End ExecutorTests.
