(* ===== verification/ChainTests.v ===== *)
(** * The unit tests of [crates/ivory-consensus] and [crates/ivory-txpool]

    The digest is [sha3_checksum] and Ed25519 the instance [ed25519_toy]. *)

From S2P Require Import Prelude Testing Hex Text Uint UintFacts Hash Address Impls Bincode Core Crypto.
From S2P Require Import TxPool Consensus CoreTests.
#[local] Open Scope Z_scope.
#[local] Open Scope test_scope.
#[local] Existing Instance sha3_checksum | 0.

Definition sk (b : byte) : SecretKey := (keypair_from_byte b).1.1.
Definition addr_of (b : byte) : Address := (keypair_from_byte b).2.
Definition n (v : Z) : U256 := U256Impls.from_u64 v.
(** [assert_eq!(r, Err(e))] *)
Definition fails {A E} `{EqDecision E} (r : result A E) (e : E) : bool :=
  match r with Err e' => e' == e | Ok _ => false end.

(** ** [seal.rs] *)

Module SealTests.
Definition header : BlockHeader :=
  mkBlockHeader 1 H256.ZERO 10 Address.ZERO 30000000 0 H256.ZERO H256.ZERO H256.ZERO U256.ZERO [].
Definition is_zero (b : byte) : bool := byte_val b =? 0.

Definition encode_one_seal_is_64_bytes : bool :=
  let! bytes := encode_seals 1 in (length bytes == 64%nat) && forallb is_zero bytes.
Definition encode_three_seals_is_192_bytes : bool :=
  let! bytes := encode_seals 3 in
  (length bytes == 192%nat) && (let! count := seal_count bytes in count == 3%nat).
Definition encode_zero_is_invalid : bool :=
  fails (encode_seals 0) ConsensusError.InvalidSeal && fails (encode_signatures []) ConsensusError.InvalidSeal.
Definition decode_roundtrip : bool :=
  let! encoded := encode_seals 2 in
  let! seals := decode_seals encoded in
  (length seals == 2%nat) && forallb Signature.is_zero seals.
Definition decode_empty_is_invalid : bool := fails (decode_seals []) ConsensusError.InvalidSeal.
Definition decode_odd_length_is_invalid : bool :=
  fails (decode_seals (replicate 63 x00)) ConsensusError.InvalidSeal.
Definition verify_seal_ok : bool :=
  let! extra := encode_seals 2 in is_ok (verify_seal extra 2) && is_ok (verify_seal extra 1).
Definition verify_seal_too_few : bool :=
  let! extra := encode_seals 1 in fails (verify_seal extra 2) (ConsensusError.InsufficientSeals 2 1).
Definition verify_required_zero_is_invalid : bool :=
  let! extra := encode_seals 1 in fails (verify_seal extra 0) ConsensusError.InvalidSeal.
Definition seal_hash_ignores_extra_data : bool :=
  let b := header in
  let! extra := encode_seals 1 in
  let a := with_extra extra header in
  (seal_hash a == seal_hash b) && (header_hash a != header_hash b).

Definition suite : list bool :=
  [encode_one_seal_is_64_bytes; encode_three_seals_is_192_bytes; encode_zero_is_invalid; decode_roundtrip;
   decode_empty_is_invalid; decode_odd_length_is_invalid; verify_seal_ok; verify_seal_too_few;
   verify_required_zero_is_invalid; seal_hash_ignores_extra_data].
Example seal_suite : passes suite = true.
Proof. vm_compute. reflexivity. Qed.
End SealTests.

(** ** [poa.rs] *)

Module PoaTests.
Definition val (b : byte) : Validator := validator_from_secret (sk b).
Definition header (miner : Address) (ts : Z) (extra : bytes) : BlockHeader :=
  mkBlockHeader 1 H256.ZERO ts miner 30000000 0 H256.ZERO H256.ZERO H256.ZERO U256.ZERO extra.
Definition seal_as (poa : PoAConfig) (b : byte) (h : BlockHeader) : result BlockHeader ConsensusError.t :=
  poa_seal_header poa h (addr_of b) (sk b).
Definition signed_header (miner_seed : byte) (ts : Z) : result BlockHeader ConsensusError.t :=
  let? poa := poa_from_secret (sk miner_seed) in seal_as poa miner_seed (header (addr_of miner_seed) ts []).

Definition single_validator_is_member : bool :=
  let! poa := poa_from_secret (sk x01) in
  poa_is_validator poa (addr_of x01) && negb (poa_is_validator poa (addr_of x02)) &&
  (required_signatures poa == 1%nat) && (v_address <$> head (validators poa) == Some (addr_of x01)).
Definition empty_validator_set_rejected : bool :=
  fails (poa_new (mkPoAConfig [] 1)) ConsensusError.EmptyValidatorSet.
Definition zero_required_signatures_rejected : bool :=
  fails (poa_new (mkPoAConfig [val x01] 0)) ConsensusError.InvalidSeal.
Definition seal_header_writes_extra_data : bool :=
  let! poa := poa_from_secret (sk x01) in
  let! h := seal_as poa x01 (header Address.ZERO 10 []) in
  (miner h == addr_of x01) && (length (extra_data h) == 64%nat) && is_ok (poa_validate_header poa h None).
Definition seal_header_rejects_non_validator : bool :=
  let! poa := poa_from_secret (sk x01) in
  fails (seal_as poa x09 (header (addr_of x01) 10 [])) ConsensusError.NotValidator.
Definition seal_header_rejects_key_mismatch : bool :=
  let! poa := poa_from_secret (sk x01) in
  fails (poa_seal_header poa (header (addr_of x01) 10 []) (addr_of x01) (sk x02)) ConsensusError.NotValidator.
Definition validate_rejects_unknown_miner : bool :=
  let! poa := poa_from_secret (sk x01) in
  let! h := signed_header x02 10 in
  fails (poa_validate_header poa h None) ConsensusError.NotValidator.
Definition rejects_extra (extra : bytes) : bool :=
  let! poa := poa_from_secret (sk x01) in
  fails (poa_validate_header poa (header (addr_of x01) 10 extra) None) ConsensusError.InvalidSeal.
Definition validate_rejects_short_extra_data : bool := rejects_extra (replicate 32 x00).
Definition validate_rejects_empty_extra_data : bool := rejects_extra [].
Definition validate_rejects_placeholder_zeros : bool :=
  let! extra := encode_seals 1 in rejects_extra extra.
(** A child sealed at [ts] under a parent of time 100. *)
Definition child_at (ts : Z) : result unit ConsensusError.t :=
  let? poa := poa_from_secret (sk x01) in
  let? parent := signed_header x01 100 in
  let? child := seal_as poa x01 (header (addr_of x01) ts []) in
  poa_validate_header poa child (Some parent).
Definition timestamp_must_not_go_backwards : bool := fails (child_at 99) ConsensusError.InvalidTimestamp.
Definition timestamp_equal_to_parent_ok : bool := is_ok (child_at 100).
Definition timestamp_after_parent_ok : bool := is_ok (child_at 101).
Definition two_required_signatures : bool :=
  let! poa := poa_new (mkPoAConfig [val x01; val x02] 2) in
  let h := header (addr_of x01) 10 [] in
  let hash := seal_hash h in
  let s1 := sign (hash_bytes hash) (sk x01) in
  let s2 := sign (hash_bytes hash) (sk x02) in
  let! extra := encode_signatures [s1; s2] in
  let! short := seal_as poa x01 (header (addr_of x01) 10 []) in
  is_ok (poa_validate_header poa (with_extra extra h) None) &&
  fails (poa_validate_header poa short None) (ConsensusError.InsufficientSeals 2 1).
Definition two_validators_either_may_mine : bool :=
  let! poa := poa_new (mkPoAConfig [val x01; val x02] 1) in
  let! h1 := seal_as poa x01 (header (addr_of x01) 1 []) in
  let! h2 := seal_as poa x02 (header (addr_of x02) 1 []) in
  is_ok (poa_validate_header poa h1 None) && is_ok (poa_validate_header poa h2 None) &&
  poa_is_validator poa (addr_of x01) && poa_is_validator poa (addr_of x02) &&
  negb (poa_is_validator poa (addr_of x03)).
Definition config_single_helper : bool :=
  let cfg := poa_single (validator_from_secret (sk x07)) in
  (length (validators cfg) == 1%nat) && (required_signatures cfg == 1%nat) &&
  (v_address <$> head (validators cfg) == Some (addr_of x07)).

Definition suite : list bool :=
  [single_validator_is_member; empty_validator_set_rejected; zero_required_signatures_rejected;
   seal_header_writes_extra_data; seal_header_rejects_non_validator; seal_header_rejects_key_mismatch;
   validate_rejects_unknown_miner; validate_rejects_short_extra_data; validate_rejects_empty_extra_data;
   validate_rejects_placeholder_zeros; timestamp_must_not_go_backwards; timestamp_equal_to_parent_ok;
   timestamp_after_parent_ok; two_required_signatures; two_validators_either_may_mine; config_single_helper].
Example poa_suite : passes suite = true.
Proof. vm_compute. reflexivity. Qed.
End PoaTests.

(** ** [pool.rs] *)

Module PoolTests.
Import TransactionPool.
Definition tx_with_value (from_seed : byte) (nonce gas value : Z) : Transaction :=
  signed_tx (sk from_seed) (Some (addr_of x09)) nonce (n value) gas (n 1) [].
Definition tx (from_seed : byte) (nonce gas : Z) : Transaction := tx_with_value from_seed nonce gas 1.
Definition default_tx (from_seed : byte) (nonce : Z) : Transaction := tx from_seed nonce 21000.

Definition PoolResult : Type := TransactionPool * result H256 TxPoolError.t.
Definition add (t : Transaction) (p : TransactionPool) : PoolResult := add_transaction t Local p.
(** [pool.add_transaction(t, TxOrigin::Local).unwrap();] and then the rest of the test. *)
Definition added (t : Transaction) (p : TransactionPool) (k : TransactionPool -> bool) : bool :=
  let '(p, r) := add t p in is_ok r && k p.

Definition accepts_nonce_zero_then_one : bool :=
  let a := addr_of x01 in
  let '(pool, r) := add (default_tx x01 0) TransactionPool.new in
  let! hash := r in
  (hash == tx_hash (default_tx x01 0)) && (expected_nonce pool a == 1) &&
  added (default_tx x01 1) pool (fun pool => (expected_nonce pool a == 2) && (pending_count pool == 2%nat)).
Definition rejects_duplicate_hash : bool :=
  let t := default_tx x01 0 in
  added t TransactionPool.new (fun pool => fails (add_transaction t Remote pool).2 TxPoolError.AlreadyKnown).
Definition rejects_nonce_too_low : bool :=
  let a := addr_of x01 in
  added (default_tx x01 0) TransactionPool.new (fun pool =>
    let '(pool, r) := add (tx_with_value x01 0 21000 2) pool in
    fails r (TxPoolError.NonceTooLow 1 0) && (expected_nonce pool a == 1)).
Definition rejects_nonce_gap : bool :=
  fails (add (default_tx x01 2) TransactionPool.new).2 (TxPoolError.NonceGap 0 2).
Definition senders_are_independent : bool :=
  added (default_tx x01 0) TransactionPool.new (fun pool =>
  added (default_tx x02 0) pool (fun pool =>
    (pending_count pool == 2%nat) && (expected_nonce pool (addr_of x01) == 1)
    && (expected_nonce pool (addr_of x02) == 1))).
Definition get_pending_respects_max : bool :=
  added (default_tx x01 0) TransactionPool.new (fun pool =>
  added (default_tx x01 1) pool (fun pool =>
    (length (get_pending pool 1) == 1%nat) && (length (get_pending pool 10) == 2%nat)
    && (get_pending pool 0 == []))).
Definition get_pending_entries_include_origin : bool :=
  let '(pool, r) := add_transaction_at (default_tx x01 0) Remote 42 TransactionPool.new in
  is_ok r &&
  match get_pending_entries pool 1 with
  | [entry] => match pt_origin entry with Remote => true | Local => false end && (pt_added_at_ms entry == 42)
  | _ => false
  end.
Definition remove_drops_pending_not_nonce : bool :=
  let a := addr_of x01 in
  let t := default_tx x01 0 in
  let '(pool, r) := add t TransactionPool.new in
  let! hash := r in
  let '(pool, removed) := remove pool hash in
  let!! removed := removed in
  (pt_hash removed == hash) && (pending_count pool == 0%nat) && (expected_nonce pool a == 1)
  && negb (contains pool hash) && fails (add (default_tx x01 0) pool).2 (TxPoolError.NonceTooLow 1 0).
Definition remove_missing_is_none : bool := is_none (remove TransactionPool.new H256.ZERO).2.
Definition contains_after_add : bool :=
  let t := default_tx x01 0 in
  let hash := tx_hash t in
  negb (contains TransactionPool.new hash) &&
  added t TransactionPool.new (fun pool => contains pool hash && is_some (get pool hash)).
Definition rejects_gas_below_minimum : bool :=
  fails (add (tx x01 0 20999) TransactionPool.new).2 (TxPoolError.GasLimitTooLow 21000 20999).
Definition rejects_when_pool_full : bool :=
  added (default_tx x01 0) (with_config pool_config_tiny) (fun pool =>
  added (default_tx x02 0) pool (fun pool =>
    fails (add (default_tx x03 0) pool).2 TxPoolError.PoolFull)).
Definition rejects_when_sender_limit_reached : bool :=
  added (default_tx x01 0) (with_config pool_config_tiny) (fun pool =>
    fails (add (default_tx x01 1) pool).2 TxPoolError.SenderLimitReached).
Definition stats_track_pending_and_senders : bool :=
  added (default_tx x01 0) TransactionPool.new (fun pool =>
  added (default_tx x02 0) pool (fun pool =>
    (stats_pending (stats pool) == 2%nat) && (stats_senders (stats pool) == 2%nat))).
Definition clear_resets_nonces : bool :=
  let a := addr_of x01 in
  added (default_tx x01 0) TransactionPool.new (fun pool =>
    let pool := clear pool in
    (pending_count pool == 0%nat) && (expected_nonce pool a == 0) && is_ok (add (default_tx x01 0) pool).2).
Definition clear_pending_keeps_nonce_tracker : bool :=
  let a := addr_of x01 in
  added (default_tx x01 0) TransactionPool.new (fun pool =>
    let pool := clear_pending pool in (pending_count pool == 0%nat) && (expected_nonce pool a == 1)).
Definition rejects_invalid_signature : bool :=
  let t := default_tx x01 0 in
  let t := BlockTests.with_signature (CryptoTests.mangle 0 255 (tx_signature t)) t in
  fails (recover_sender t) Crypto.InvalidSignature &&
  fails (add t TransactionPool.new).2 TxPoolError.InvalidSignature.
Definition rejects_key_mismatch : bool :=
  let from a t := mkTransaction a (tx_to t) (tx_value t) (tx_data t) (tx_gas_price t) (tx_gas t) (tx_nonce t)
                    (tx_signature t) (tx_public_key t) in
  let t := sign_transaction (from (addr_of x02) (default_tx x01 0)) (sk x01) in
  fails (add (from (addr_of x02) t) TransactionPool.new).2 TxPoolError.InvalidSignature.

Definition suite : list bool :=
  [accepts_nonce_zero_then_one; rejects_duplicate_hash; rejects_nonce_too_low; rejects_nonce_gap;
   senders_are_independent; get_pending_respects_max; get_pending_entries_include_origin;
   remove_drops_pending_not_nonce; remove_missing_is_none; contains_after_add; rejects_gas_below_minimum;
   rejects_when_pool_full; rejects_when_sender_limit_reached; stats_track_pending_and_senders;
   clear_resets_nonces; clear_pending_keeps_nonce_tracker; rejects_invalid_signature; rejects_key_mismatch].
Example pool_suite : passes suite = true.
Proof. vm_compute. reflexivity. Qed.
End PoolTests.
