(* ===== verification/LedgerTests.v ===== *)
(** * The tests of [crates/ivory-chain] and of [bin/ivory/src/persist.rs]

    Their unit tests, and the integration tests [ivory-chain/tests/pool_produce.rs] and
    [ivory-executor/tests/pool_execute.rs].

    The digest is [sha3_checksum], Ed25519 the instance [ed25519_toy], the database
    [memory_rocks].  Opening a database again is going on with its contents. *)

From S2P Require Import Prelude Testing Hex Text Uint UintFacts Hash Address Impls Bincode Core Trie State Crypto.
From S2P Require Import Vm Executor TxPool Consensus CoreTests StateTests ExecutionTests ChainTests Store Producer Apply Persist.
#[local] Open Scope Z_scope.
#[local] Open Scope test_scope.
#[local] Existing Instance sha3_checksum | 0.
#[local] Existing Instance test_modules | 0.

(** [let x = call.unwrap();] on a shared object, which is then the object [s]. *)
Definition unwrap {S E A} (m : smonad S E A) (s : S) (k : A -> S -> bool) : bool :=
  match m s with (s, Ok a) => k a s | (_, Err _) => false end.
(** [assert_eq!(call, Err(e))] *)
Definition refuses {S E A} `{EqDecision E} (m : smonad S E A) (s : S) (e : E) : bool := fails (m s).2 e.

(** The header of the tests, before it is sealed. *)
Definition plain_header (number : Z) (parent : H256) (ts : Z) (miner : Address) (root : H256) : BlockHeader :=
  let '(tx_root, rx_root) := empty_list_roots in
  mkBlockHeader number parent ts miner 30000000 0 root tx_root rx_root U256.ZERO [].
Definition funded (balance : Z) : Account := with_balance (n balance) account_new.

(** ** [store.rs] *)

Module StoreTests.
Import BlockStore.
Definition miner_sk : SecretKey := sk x01.
Definition miner : Address := addr_of x01.
Definition poa : PoAConfig := poa_single (validator_from_secret miner_sk).
Definition sealed_header (number : Z) (parent : H256) (ts : Z) : BlockHeader :=
  let h := plain_header number parent ts miner H256.ZERO in
  match poa_seal_header poa h miner miner_sk with Ok h => h | Err _ => h end.
Definition blk (number : Z) (parent : H256) (ts : Z) : Block := mkBlock (sealed_header number parent ts) [] [].
Definition genesis : Block := blk 0 H256.ZERO 1.
(** [let h0 = store.insert_genesis(genesis()).unwrap().hash;] *)
Definition with_genesis (k : H256 -> BlockStore -> bool) : bool :=
  unwrap (insert_genesis genesis) (new poa) (fun o store => k (io_hash o) store).
(** [let h = store.insert_block(b).unwrap().hash;] *)
Definition inserted (b : Block) (store : BlockStore) (k : H256 -> BlockStore -> bool) : bool :=
  unwrap (insert_block b) store (fun o store => k (io_hash o) store).
Definition hash_at (store : BlockStore) (number : Z) : option H256 := block_hash <$> get_block_by_number store number.
Definition reseal (f : BlockHeader -> BlockHeader) (b : Block) : Block :=
  let h := f (header b) in
  mkBlock (match poa_seal_header poa h miner miner_sk with Ok h => h | Err _ => h end) [] [].
Definition with_number (number : Z) (h : BlockHeader) : BlockHeader :=
  mkBlockHeader number (parent_hash h) (timestamp h) (Core.miner h) (gas_limit h) (gas_used h) (state_root h)
    (transactions_root h) (receipts_root h) (difficulty h) (extra_data h).
Definition with_parent (parent : H256) (h : BlockHeader) : BlockHeader :=
  mkBlockHeader (number h) parent (timestamp h) (Core.miner h) (gas_limit h) (gas_used h) (state_root h)
    (transactions_root h) (receipts_root h) (difficulty h) (extra_data h).

Definition insert_genesis_sets_head : bool :=
  with_genesis (fun hash store =>
    (bs_head store == Some hash) && (block_hash <$> head_block store == Some hash)
    && (hash_at store 0 == Some hash) && (get_block store hash == Some genesis)).
Definition genesis_wrong_number_rejected : bool :=
  refuses (insert_genesis (reseal (with_number 1) genesis)) (new poa) ChainError.InvalidGenesis.
Definition genesis_non_zero_parent_rejected : bool :=
  refuses (insert_genesis (reseal (with_parent (Hash.from_bytes (replicate 32 x09))) genesis)) (new poa)
    ChainError.InvalidGenesis.
Definition linear_chain_three_blocks : bool :=
  with_genesis (fun h0 store =>
  inserted (blk 1 h0 2) store (fun h1 store =>
  inserted (blk 2 h1 3) store (fun h2 store =>
    (bs_head store == Some h2) && (hash_at store 0 == Some h0) && (hash_at store 1 == Some h1)
    && (hash_at store 2 == Some h2)))).
Definition duplicate_hash_rejected : bool :=
  with_genesis (fun _ store => refuses (insert_genesis genesis) store ChainError.DuplicateBlock).
Definition unknown_parent_rejected : bool :=
  with_genesis (fun _ store =>
    refuses (insert_block (blk 1 (Hash.from_bytes (replicate 32 x03)) 2)) store ChainError.UnknownParent).
Definition wrong_number_rejected : bool :=
  with_genesis (fun h0 store =>
    refuses (insert_block (blk 2 h0 2)) store (ChainError.InvalidBlockNumber 1 2)).
Definition insert_block_zero_routes_to_genesis : bool :=
  inserted genesis (new poa) (fun hash store => bs_head store == Some hash).
Definition fork_longer_branch_becomes_head : bool :=
  with_genesis (fun h0 store =>
  inserted (blk 1 h0 10) store (fun ha1 store =>
  inserted (blk 1 h0 11) store (fun hb1 store =>
  inserted (blk 2 hb1 12) store (fun hb2 store =>
    (ha1 != hb1) && (bs_head store == Some hb2) && (hash_at store 1 == Some hb1)
    && (hash_at store 2 == Some hb2))))).
Definition equal_height_prefers_smaller_hash : bool :=
  with_genesis (fun h0 store =>
  let a := blk 1 h0 10 in
  let b := blk 1 h0 11 in
  let ha := block_hash a in
  let hb := block_hash b in
  let '(first, second, smaller) := if hash_ltb ha hb then (a, b, ha) else (b, a, hb) in
  inserted first store (fun _ store =>
  inserted second store (fun _ store =>
    (bs_head store == Some smaller) && (hash_at store 1 == Some smaller)))).
Definition missing_get_is_none : bool :=
  let store := new poa in
  is_none (get_block store H256.ZERO) && is_none (get_block_by_number store 0) && is_none (bs_head store)
  && is_none (state_at store H256.ZERO).
Definition record_state_snapshot : bool :=
  with_genesis (fun hash store => is_some (state_at (record_state hash StateDB.new store) hash)).
Definition insert_reports_reorg_ancestor : bool :=
  with_genesis (fun h0 store =>
  unwrap (insert_block (blk 1 h0 10)) store (fun a1 store =>
  unwrap (insert_block (blk 1 h0 11)) store (fun b1 store =>
  let '(head1, other1) := if bs_head store == Some (io_hash a1) then (a1, b1) else (b1, a1) in
  unwrap (insert_block (blk 2 (io_hash other1) 12)) store (fun taller _ =>
    io_head_changed taller && (io_old_head taller == Some (io_hash head1))
    && (io_new_head taller == io_hash taller) && (io_ancestor taller == h0))))).
(** The block is inserted and its post-state recorded. *)
Definition recorded (b : Block) (store : BlockStore) (k : H256 -> BlockStore -> bool) : bool :=
  inserted b store (fun h store => k h (record_state h StateDB.new store)).
Definition prune_snapshots_drops_side_fork : bool :=
  recorded genesis (new poa) (fun h0 store =>
  recorded (blk 1 h0 10) store (fun a1 store =>
  recorded (blk 1 h0 11) store (fun b1 store =>
  let '(taller_parent, loser) := if bs_head store == Some a1 then (b1, a1) else (a1, b1) in
  recorded (blk 2 taller_parent 12) store (fun h2 store =>
  let store := prune_snapshots store in
    is_some (state_at store h2) && is_none (state_at store loser))))).
Definition prune_snapshots_keep_drops_old_canonical_snapshot : bool :=
  recorded genesis (new poa) (fun h0 store =>
  recorded (blk 1 h0 2) store (fun h1 store =>
  recorded (blk 2 h1 3) store (fun h2 store =>
  let store := prune_snapshots_keep 1 store in
    is_none (state_at store h0) && is_some (state_at store h2)))).
Definition insert_header_indexes_without_body : bool :=
  with_genesis (fun h0 store =>
  let header := sealed_header 1 h0 4 in
  let hash := header_hash header in
  unwrap (insert_header header) store (fun _ store =>
    let!! got := get_block store hash in
    (transactions got == []) && (bs_head store == Some hash))).
Definition extra_data_without_seal_rejected : bool :=
  is_err (insert_genesis (mkBlock (with_extra [] (header genesis)) [] []) (new poa)).2.
Definition encode_seals_used_by_store_path : bool :=
  let! extra := encode_seals 1 in length extra == 64%nat.

Definition suite : list bool :=
  [insert_genesis_sets_head; genesis_wrong_number_rejected; genesis_non_zero_parent_rejected;
   linear_chain_three_blocks; duplicate_hash_rejected; unknown_parent_rejected; wrong_number_rejected;
   insert_block_zero_routes_to_genesis; fork_longer_branch_becomes_head; equal_height_prefers_smaller_hash;
   missing_get_is_none; record_state_snapshot; insert_reports_reorg_ancestor; prune_snapshots_drops_side_fork;
   prune_snapshots_keep_drops_old_canonical_snapshot; insert_header_indexes_without_body;
   extra_data_without_seal_rejected; encode_seals_used_by_store_path].
Example store_suite : passes suite = true.
Proof. vm_compute. reflexivity. Qed.
End StoreTests.

(** ** [producer.rs] *)

Module ProducerTests.
Import TransactionPool.
Definition miner_sk : SecretKey := sk x09.
Definition miner : Address := addr_of x09.
Definition poa : PoAConfig := poa_single (validator_from_secret miner_sk).
(** The sealed genesis over a state with root [root]. *)
Definition genesis_over (root : H256) : Block :=
  let h := plain_header 0 H256.ZERO 1 miner root in
  mkBlock (match poa_seal_header poa h miner miner_sk with Ok h => h | Err _ => h end) [] [].
Definition genesis_block : Block := genesis_over H256.ZERO.
Definition transfer (from_seed to_seed : byte) (nonce : Z) : Transaction :=
  signed_transfer (sk from_seed) (addr_of to_seed) nonce (n 10) 21000.
Definition params (parent : Block) (pool : TransactionPool) (miner : Address) (miner_key : SecretKey) (ts : Z) :
    ProduceParams :=
  mkProduceParams parent pool gas_config_default poa miner miner_key ts 8.
Definition produce (parent : Block) (pool : TransactionPool) : smonad StateDB ChainError.t Block :=
  produce_block producer_new (params parent pool miner miner_sk 2).
Definition rich : StateDB := StateDB.set_account (addr_of x01) (funded 1000000) StateDB.new.
Definition nonce_of (state : StateDB) (a : Address) : option Z := acc_nonce <$> StateDB.get_account state a.
Definition balance_of (state : StateDB) (a : Address) : option U256 := acc_balance <$> StateDB.get_account state a.

Definition produce_empty_block : bool :=
  let parent := genesis_block in
  unwrap (produce parent TransactionPool.new) StateDB.new (fun block _ =>
    let h := header block in
    (number h == 1) && (parent_hash h == block_hash parent) && (transactions block == []) && (gas_used h == 0)
    && is_ok (poa_validate_header poa h (Some (header parent)))).
Definition produce_rejects_non_validator_miner : bool :=
  match (produce_block producer_new (params genesis_block TransactionPool.new (addr_of x03) (sk x03) 2) StateDB.new).2
  with Err (ChainError.Consensus _) => true | _ => false end.
Definition produce_includes_two_transfers : bool :=
  PoolTests.added (transfer x01 x02 0) TransactionPool.new (fun pool =>
  PoolTests.added (transfer x01 x02 1) pool (fun pool =>
  unwrap (produce genesis_block pool) rich (fun block state =>
    (length (transactions block) == 2%nat) && (length (receipts block) == 2%nat)
    && (gas_used (header block) == 42000) && (nonce_of state (addr_of x01) == Some 2)
    && (balance_of state (addr_of x02) == Some (n 20))))).
Definition produce_skips_invalid_tx : bool :=
  let expensive := signed_tx (sk x01) (Some (addr_of x02)) 1 (n (2 ^ 64 - 1)) 21000 U256.ONE [] in
  PoolTests.added (transfer x01 x02 0) TransactionPool.new (fun pool =>
  PoolTests.added expensive pool (fun pool =>
  unwrap (produce genesis_block pool) rich (fun block state =>
    (length (transactions block) == 1%nat) && (nonce_of state (addr_of x01) == Some 1)))).
Definition with_gas_limit : bool := bp_gas_limit (Producer.with_gas_limit 1000) == 1000.
Definition produce_then_insert : bool :=
  unwrap (BlockStore.insert_genesis genesis_block) (BlockStore.new poa) (fun _ store =>
  PoolTests.added (transfer x01 x02 0) TransactionPool.new (fun pool =>
  unwrap (produce genesis_block pool) rich (fun block state =>
  unwrap (BlockStore.insert_block block) store (fun o store =>
    let hash := io_hash o in
    (block_hash block != H256.ZERO) && (tx_hash <$> head (transactions block) != Some H256.ZERO)
    && (difficulty (header block) == U256.ZERO) && (bs_head store == Some hash)
    && is_some (BlockStore.state_at (BlockStore.record_state hash state store) hash))))).
Definition reject_produced_then_mutated_body : bool :=
  unwrap (BlockStore.insert_genesis genesis_block) (BlockStore.new poa) (fun _ store =>
  PoolTests.added (transfer x01 x02 0) TransactionPool.new (fun pool =>
  unwrap (produce genesis_block pool) rich (fun block _ =>
    let block := mkBlock (header block) (<[0%nat := transfer x01 x03 0]> (transactions block)) (receipts block) in
    refuses (BlockStore.insert_block block) store (ChainError.Block InvalidTransactionsRoot)))).

Definition suite : list bool :=
  [produce_empty_block; produce_rejects_non_validator_miner; produce_includes_two_transfers;
   produce_skips_invalid_tx; with_gas_limit; produce_then_insert; reject_produced_then_mutated_body].
Example producer_suite : passes suite = true.
Proof. vm_compute. reflexivity. Qed.
End ProducerTests.

(** ** [apply.rs] *)

Module ApplyTests.
Import ProducerTests.
Definition produce (parent : Block) (parent_state : StateDB) (tx : option Transaction) (ts : Z) :
    result Block ChainError.t :=
  let pool := match tx with
              | Some tx => (PoolTests.add tx TransactionPool.new).1
              | None => TransactionPool.new
              end in
  (produce_block producer_new (params parent pool miner miner_sk ts) parent_state).2.
Definition genesis : Block := genesis_over (StateDB.root_hash rich).2.
(** The store holds the genesis and its state, which is also the live one; the pool is empty. *)
Definition setup (k : Ledger -> bool) : bool :=
  unwrap (BlockStore.insert_genesis genesis) (BlockStore.new poa) (fun _ store =>
    let store := BlockStore.record_state (block_hash genesis) (StateDB.fork rich) store in
    k (mkLedger store (StateDB.fork rich) TransactionPool.new)).
(** A block on [parent], built over the state the store keeps for it. *)
Definition produced_on (l : Ledger) (parent : Block) (tx : option Transaction) (ts : Z) (k : Block -> bool) : bool :=
  let!! state := BlockStore.state_at (lg_store l) (block_hash parent) in
  let! block := produce parent state tx ts in k block.

Definition reorg_restores_balances : bool :=
  setup (fun l =>
  produced_on l genesis (Some (transfer x01 x02 0)) 10 (fun block_a =>
  produced_on l genesis (Some (transfer x01 x03 0)) 11 (fun block_b =>
  unwrap (import_and_apply block_a) l (fun _ l =>
  unwrap (import_and_apply block_b) l (fun _ l =>
  produced_on l block_b None 12 (fun block_b2 =>
  unwrap (import_and_apply block_b2) l (fun _ l =>
    (bs_head (lg_store l) == Some (block_hash block_b2))
    && (balance_of (lg_live l) (addr_of x03) == Some (n 10))
    && match balance_of (lg_live l) (addr_of x02) with Some b => U256.is_zero b | None => true end
    && (nonce_of (lg_live l) (addr_of x01) == Some 1)))))))).
Definition bad_state_root_rejected : bool :=
  setup (fun l =>
  produced_on l genesis (Some (transfer x01 x02 0)) 10 (fun block =>
    let h := header block in
    let h := mkBlockHeader (number h) (parent_hash h) (timestamp h) (Core.miner h) (gas_limit h) (gas_used h)
               (Hash.from_bytes (replicate 32 x11)) (transactions_root h) (receipts_root h) (difficulty h)
               (extra_data h) in
    let! h := poa_seal_header poa h miner miner_sk in
    let '(l, r) := import_and_apply (mkBlock h (transactions block) (receipts block)) l in
    fails r ChainError.InvalidStateRoot && (balance_of (lg_live l) (addr_of x01) == Some (n 1000000)))).

Definition suite : list bool := [reorg_restores_balances; bad_state_root_rejected].
Example apply_suite : passes suite = true.
Proof. vm_compute. reflexivity. Qed.
End ApplyTests.

(** ** [ivory-chain/tests/pool_produce.rs] and [ivory-executor/tests/pool_execute.rs] *)

Module PipelineTests.
Import ProducerTests.
Definition removed (txs : list Transaction) (pool : TransactionPool) : TransactionPool :=
  foldl (fun pool t => (TransactionPool.remove pool (tx_hash t)).1) pool txs.
Definition two_transfers (k : TransactionPool -> bool) : bool :=
  PoolTests.added (transfer x01 x02 0) TransactionPool.new (fun pool =>
  PoolTests.added (transfer x01 x02 1) pool k).
Definition pool_produce_insert : bool :=
  unwrap (BlockStore.insert_genesis genesis_block) (BlockStore.new poa) (fun _ store =>
  two_transfers (fun pool =>
  unwrap (produce genesis_block pool) rich (fun block state =>
  unwrap (BlockStore.insert_block block) store (fun o store =>
    (length (transactions block) == 2%nat)
    && (TransactionPool.pending_count (removed (transactions block) pool) == 0%nat)
    && (bs_head store == Some (io_hash o))
    && ((fun b => length (transactions b)) <$> BlockStore.get_block_by_number store 1 == Some 2%nat)
    && (nonce_of state (addr_of x01) == Some 2) && (balance_of state (addr_of x02) == Some (n 20)))))).
(** The loop over the pending transactions, which the test sorts by nonce. *)
Definition pool_pending_then_execute : bool :=
  two_transfers (fun pool =>
    let pending := TransactionPool.get_pending pool 8 in
    let ordered := sort_txs pending in
  unwrap (execute_block gas_config_default ordered (context_new 1 0)) rich (fun ctx state =>
    (TransactionPool.pending_count pool == 2%nat) && (length pending == 2%nat)
    && (TransactionPool.pending_count (removed ordered pool) == 0%nat)
    && (nonce_of state (addr_of x01) == Some 2) && (balance_of state (addr_of x02) == Some (n 20))
    && (ctx_gas_used ctx == 42000))).

Definition suite : list bool := [pool_produce_insert; pool_pending_then_execute].
Example pipeline_suite : passes suite = true.
Proof. vm_compute. reflexivity. Qed.
End PipelineTests.

(** ** [persist.rs] *)

Module PersistTests.
Import ChainPersist.
Definition sealed_genesis (ts : Z) : Block := StoreTests.blk 0 H256.ZERO ts.
Definition poa : PoAConfig := StoreTests.poa.
Definition sealed_child (parent : Block) (number ts : Z) : Block := StoreTests.blk number (block_hash parent) ts.
Definition empty_db : rocks := (∅ : gmap bytes bytes).
(** A store holding [genesis], and a fresh database with its canonical chain. *)
Definition persisted (genesis : Block) (k : ChainPersist -> bool) : bool :=
  unwrap (BlockStore.insert_genesis genesis) (BlockStore.new poa) (fun _ store =>
  unwrap (persist_canonical store genesis) (open empty_db) (fun _ persist => k persist)).
Definition reopen (persist : ChainPersist) : ChainPersist := open (cp_db persist).

Definition empty_db_loads_none : bool :=
  unwrap (load_into (open empty_db) (sealed_genesis 1)) (BlockStore.new poa) (fun loaded _ => loaded == None).
Definition persist_and_reload_genesis : bool :=
  let g := sealed_genesis 1 in
  persisted g (fun persist =>
  unwrap (load_into (reopen persist) g) (BlockStore.new poa) (fun loaded store2 =>
    (loaded == Some 0) && (bs_head store2 == Some (block_hash g)))).
Definition persist_writes_patricia_nodes : bool :=
  let g := sealed_genesis 1 in
  unwrap (BlockStore.insert_genesis g) (BlockStore.new poa) (fun _ store =>
    let state := StateDB.set_account (addr_of x02) (funded 7) StateDB.new in
    let store := BlockStore.record_state (block_hash g) (StateDB.fork state) store in
  unwrap (persist_canonical store g) (open empty_db) (fun _ persist =>
    let '(_, nodes) := StateDB.trie_nodes state in
    negb (nodes == []) &&
    forallb (fun e => let! found := get_trie_node persist e.1 in found == Some e.2) nodes)).
(** The two sibling blocks pay different accounts; the second branch grows and wins. *)
Definition replayed (blocks : list Block) (state : StateDB) (k : StateDB -> bool) : bool :=
  foldr (fun block k state =>
    let ctx := context_new (number (header block)) (timestamp (header block)) in
    unwrap (execute_block gas_config_default (transactions block) ctx) state (fun _ state => k state)) k blocks state.
Definition persist_reorg_reload_matches_replay : bool :=
  let from := addr_of x01 in
  let to_a := addr_of x02 in
  let to_b := addr_of x03 in
  ApplyTests.setup (fun l =>
  ApplyTests.produced_on l ApplyTests.genesis (Some (ProducerTests.transfer x01 x02 0)) 10 (fun block_a =>
  ApplyTests.produced_on l ApplyTests.genesis (Some (ProducerTests.transfer x01 x03 0)) 11 (fun block_b =>
  unwrap (import_and_apply block_a) l (fun _ l =>
  unwrap (import_and_apply block_b) l (fun _ l =>
  ApplyTests.produced_on l block_b None 12 (fun block_b2 =>
  unwrap (import_and_apply block_b2) l (fun _ l =>
  unwrap (persist_canonical (lg_store l) block_b2) (open empty_db) (fun _ persist =>
  unwrap (load_into (reopen persist) ApplyTests.genesis) (BlockStore.new ProducerTests.poa) (fun _ store2 =>
    let!! head := BlockStore.head_block store2 in
    let!! blocks := mapM (BlockStore.get_block_by_number store2) (seqZ 1 (number (header head))) in
    replayed blocks ProducerTests.rich (fun replay =>
      let balance_of := ProducerTests.balance_of in
      (balance_of replay to_b == balance_of (lg_live l) to_b)
      && (ProducerTests.nonce_of replay from == ProducerTests.nonce_of (lg_live l) from)
      && match balance_of replay to_a with Some b => U256.is_zero b | None => true end)))))))))).
Definition load_refuses_bad_transactions_root : bool :=
  let g := sealed_genesis 1 in
  persisted g (fun persist =>
    let t := signed_transfer (sk x02) (addr_of x03) 0 (n 1) 21000 in
    let bad := mkBlock (header g) (transactions g ++ [t]) (receipts g) in
    let bytes := serialize bad in
    let db := (RocksDbBackend.put (x62 :: hash_bytes (block_hash g)) bytes (cp_db persist)).1 in
    is_err (load_into (open db) g (BlockStore.new poa)).2).
Definition genesis_mismatch_errors : bool :=
  persisted (sealed_genesis 1) (fun persist =>
    is_err (load_into (reopen persist) (sealed_genesis 99) (BlockStore.new poa)).2).
Definition persist_drops_old_bodies_when_not_archive : bool :=
  let g := sealed_genesis 1 in
  let b1 := sealed_child g 1 2 in
  let b2 := sealed_child b1 2 3 in
  unwrap (BlockStore.insert_genesis g) (BlockStore.new poa) (fun _ store =>
  unwrap (BlockStore.insert_block b1) store (fun _ store =>
  unwrap (BlockStore.insert_block b2) store (fun _ store =>
    let mid := StateDB.set_account (addr_of x02) (funded 4) StateDB.new in
    let store := BlockStore.record_state (block_hash b1) (StateDB.fork mid) store in
    let store := BlockStore.record_state (block_hash b2) StateDB.new store in
  unwrap (persist_canonical store b2) (open_with empty_db false 1) (fun _ persist =>
  unwrap (load_into persist g) (BlockStore.new poa) (fun _ store2 =>
    (let! block := get_block persist (block_hash b1) in is_none block)
    && (let! header := get_header persist (block_hash b1) in is_some header)
    && (block_hash <$> BlockStore.head_block store2 == Some (block_hash b2))
    && (transactions <$> BlockStore.get_block store2 (block_hash b1) == Some [])
    && is_some (BlockStore.state_at store2 (block_hash b2))
    && (let!! state := BlockStore.state_at store2 (block_hash b1) in
        ProducerTests.balance_of state (addr_of x02) == Some (n 4))))))).

Definition suite : list bool :=
  [empty_db_loads_none; persist_and_reload_genesis; persist_writes_patricia_nodes;
   persist_reorg_reload_matches_replay; load_refuses_bad_transactions_root; genesis_mismatch_errors;
   persist_drops_old_bodies_when_not_archive].
Example persist_suite : passes suite = true.
Proof. vm_compute. reflexivity. Qed.
End PersistTests.
