(* ===== verification/RpcTests.v ===== *)
(** * The integration tests of [crates/ivory-rpc/tests/rpc_methods.rs]

    A handler is its context; [json!] is [object], [JArray] and the scalars.  The digest
    is [sha3_checksum], Ed25519 the instance [ed25519_toy], the modules those of
    [ExecutionTests]. *)

From S2P Require Import Prelude Testing Hex Text Uint UintFacts Hash Address Impls Bincode Core Trie State Crypto.
From S2P Require Import Vm Executor TxPool Consensus CoreTests StateTests ExecutionTests ChainTests Store.
From S2P Require Import Apply Json Metrics Rpc LedgerTests.
#[local] Open Scope Z_scope.
#[local] Open Scope test_scope.
#[local] Existing Instance sha3_checksum | 0.
#[local] Existing Instance test_modules | 0.

Module RpcMethodTests.
Import ProducerTests.
Definition no_error_texts : ErrorTexts := {|
  hex_error_text _ := []; bincode_error_text _ := []; serde_json_error_text _ := [] |}.
#[local] Existing Instance no_error_texts | 0.

(** The gossip hook of the tests pushes the hash it sees. *)
Definition Ctx : Type := RpcContext (list H256).
Definition genesis : Block := genesis_block.
Definition handler_with_genesis (state : StateDB) (k : Ctx -> bool) : bool :=
  unwrap (BlockStore.insert_genesis genesis) (BlockStore.new poa) (fun _ store =>
    k (rpc_context_new (mkLedger store state TransactionPool.new) 1 [])).
Definition empty_handler : Ctx :=
  rpc_context_new (mkLedger (BlockStore.new poa) StateDB.new TransactionPool.new) 99 [].
(** The store of the handler gains a block or a recorded state; the live state is replaced. *)
Definition set_store (store : BlockStore) (c : Ctx) : Ctx :=
  let l := cx_ledger c in
  mkRpcContext (mkLedger store (lg_live l) (lg_pool l)) (cx_chain_id c) (cx_on_tx c) (cx_world c) (cx_role c)
    (cx_address c) (cx_peer_id c) (cx_peers c) (cx_bootstrap c) (cx_contract_lookup c) (cx_events c)
    (cx_metrics c) (cx_allow_methods c).
Definition insert (b : Block) (c : Ctx) (k : Ctx -> bool) : bool :=
  unwrap (BlockStore.insert_block b) (ctx_store c) (fun _ store => k (set_store store c)).
Definition record (b : Block) (s : StateDB) (c : Ctx) : Ctx :=
  set_store (BlockStore.record_state (block_hash b) s (ctx_store c)) c.

Definition ask (c : Ctx) (method : String.string) (params : list value) : result value RpcError.t :=
  (handle (str method) (JArray params) c).2.
Arguments ask c method%_string_scope params.
Definition text (v : value) (s : bytes) : bool := as_str v == Some s.
Definition answers (c : Ctx) (method : String.string) (params : list value) (s : bytes) : bool :=
  let! v := ask c method params in text v s.
Arguments answers c method%_string_scope params s.
Definition invalid (r : result value RpcError.t) : bool :=
  match r with Err (RpcError.InvalidParams _) => true | _ => false end.
Definition unknown (r : result value RpcError.t) : bool :=
  match r with Err (RpcError.MethodNotFound _) => true | _ => false end.
(** [v["key"]], which is [null] when there is no such member. *)
Definition at_ (v : value) (key : String.string) : value := default JNull (get (str key) v).
Arguments at_ v key%_string_scope.
Definition member_is (v : value) (key : String.string) (s : bytes) : bool := text (at_ v key) s.
Arguments member_is v key%_string_scope s.
Definition count (v : value) (k : nat) : bool :=
  match as_array v with Some l => length l == k | None => false end.
Definition is_int (v : value) (k : Z) : bool := as_u64 v == Some k.
Definition is_bool (v : value) (b : bool) : bool := match v with JBool b' => Bool.eqb b' b | _ => false end.
Definition s (x : String.string) : value := JString (str x).
Arguments s x%_string_scope.
Definition LATEST : value := s "latest".
Definition hex_addr (b : byte) : value := JString (Address.to_hex (addr_of b)).
Definition hex_n (v : Z) : bytes := U256.to_hex (n v).
Definition raw (t : Transaction) : value := JString (str "0x" ++ hex_encode (serialize t)).
Definition pay : Transaction := signed_transfer (sk x01) (addr_of x02) 0 (n 1) 21000.
Definition ends (suffix : String.string) (v : value) : bool :=
  match as_str v with
  | Some t => let suffix := str suffix in drop (length t - length suffix) t == suffix
  | None => false
  end.
Arguments ends suffix%_string_scope v.

(** ** Chain, accounts and code *)

Definition chain_id : bool := answers empty_handler "eth_chainId" [] (str "0x63").
Definition transaction_count_missing_account_is_zero : bool :=
  handler_with_genesis StateDB.new (fun h => answers h "eth_getTransactionCount" [hex_addr x03; LATEST] (str "0x0")).
Definition chain_id_ignores_params : bool := is_ok (ask empty_handler "eth_chainId" [s "x"]).
Definition block_number_missing_genesis : bool :=
  fails (ask empty_handler "eth_blockNumber" []) RpcError.BlockNotFound.
Definition block_number_genesis_is_zero : bool :=
  handler_with_genesis StateDB.new (fun h => answers h "eth_blockNumber" [] (str "0x0")).
Definition get_balance_missing_account_is_zero : bool :=
  handler_with_genesis StateDB.new (fun h => answers h "eth_getBalance" [hex_addr x01; LATEST] (U256.to_hex U256.ZERO)).
Definition get_balance_funded : bool :=
  handler_with_genesis (StateDB.set_account (addr_of x01) (funded 42) StateDB.new) (fun h =>
    answers h "eth_getBalance" [hex_addr x01; LATEST] (hex_n 42)).
Definition get_balance_bad_address : bool :=
  handler_with_genesis StateDB.new (fun h => invalid (ask h "eth_getBalance" [s "0xzz"; LATEST])).
Definition get_balance_missing_params : bool :=
  handler_with_genesis StateDB.new (fun h => invalid (ask h "eth_getBalance" [])).
Definition get_balance_not_array : bool :=
  handler_with_genesis StateDB.new (fun h =>
    invalid (handle (str "eth_getBalance") (object [(str "addr", s "x")]) h).2).
Definition get_code_empty : bool :=
  handler_with_genesis StateDB.new (fun h => answers h "eth_getCode" [hex_addr x01; LATEST] (str "0x")).
Definition get_code_set : bool :=
  handler_with_genesis (StateDB.set_code (addr_of x01) [xaa; xbb] StateDB.new) (fun h =>
    answers h "eth_getCode" [hex_addr x01; LATEST] (str "0xaabb")).
Definition get_storage_at_zero : bool :=
  handler_with_genesis StateDB.new (fun h =>
    answers h "eth_getStorageAt" [hex_addr x01; json_hash H256.ZERO; LATEST] (U256.to_hex U256.ZERO)).
Definition get_storage_at_value : bool :=
  let slot := Hash.from_bytes (replicate 32 x03) in
  handler_with_genesis (StateDB.set_storage (addr_of x01) slot (n 7) StateDB.new) (fun h =>
    answers h "eth_getStorageAt" [hex_addr x01; json_hash slot; LATEST] (hex_n 7)).
Definition get_storage_missing_slot_param : bool :=
  handler_with_genesis StateDB.new (fun h => invalid (ask h "eth_getStorageAt" [hex_addr x01])).

(** ** Blocks *)

(** [h.handle("eth_getBlockByNumber", json!([id, false]))] is the genesis block. *)
Definition genesis_at (id : value) : bool :=
  handler_with_genesis StateDB.new (fun h =>
    let! v := ask h "eth_getBlockByNumber" [id; JBool false] in member_is v "number" (str "0x0")).
Definition get_block_by_number_latest : bool :=
  handler_with_genesis StateDB.new (fun h =>
    let! v := ask h "eth_getBlockByNumber" [LATEST; JBool false] in
    let!! head := BlockStore.head_block (ctx_store h) in
    member_is v "number" (str "0x0") && member_is v "hash" (Hash.to_hex (block_hash head))).
Definition get_block_by_number_earliest : bool := genesis_at (s "earliest").
Definition get_block_by_number_hex : bool := genesis_at (s "0x0").
Definition get_block_by_number_int : bool := genesis_at (json_u64 0).
Definition get_block_by_number_pending_alias : bool :=
  handler_with_genesis StateDB.new (fun h => is_ok (ask h "eth_getBlockByNumber" [s "pending"; JBool false])).
Definition get_block_by_number_missing : bool :=
  handler_with_genesis StateDB.new (fun h =>
    fails (ask h "eth_getBlockByNumber" [s "0x99"; JBool false]) RpcError.BlockNotFound).
Definition get_block_by_number_bad_id : bool :=
  handler_with_genesis StateDB.new (fun h => invalid (ask h "eth_getBlockByNumber" [s "nope"; JBool false])).
Definition get_block_by_number_missing_params : bool :=
  handler_with_genesis StateDB.new (fun h => invalid (ask h "eth_getBlockByNumber" [])).
Definition get_block_by_hash : bool :=
  handler_with_genesis StateDB.new (fun h =>
    let!! head := bs_head (ctx_store h) in
    let! v := ask h "eth_getBlockByHash" [json_hash head; JBool false] in member_is v "number" (str "0x0")).
Definition get_block_by_hash_missing : bool :=
  handler_with_genesis StateDB.new (fun h =>
    fails (ask h "eth_getBlockByHash" [json_hash (Hash.from_bytes (replicate 32 x01) : H256)]) RpcError.BlockNotFound).
Definition get_block_by_hash_bad : bool :=
  handler_with_genesis StateDB.new (fun h => invalid (ask h "eth_getBlockByHash" [s "0x1"])).
Definition ivory_get_header_by_number : bool :=
  handler_with_genesis StateDB.new (fun h =>
    let! hdr := ask h "ivory_getHeaderByNumber" [s "0x0"] in
    is_some (get (str "transactionsRoot") hdr) && is_none (get (str "transactions") hdr)).

(** ** Transactions and receipts *)

Definition send_raw_and_get_pending_tx : bool :=
  handler_with_genesis StateDB.new (fun h =>
    let hash := tx_hash pay in
    let '(h, r) := handle (str "eth_sendRawTransaction") (JArray [raw pay]) h in
    let! v := r in
    let! got := ask h "eth_getTransactionByHash" [json_hash hash] in
    text v (Hash.to_hex hash) && TransactionPool.contains (ctx_pool h) hash
    && member_is got "hash" (Hash.to_hex hash) && is_null (at_ got "blockHash")).
Definition send_raw_invokes_gossip_hook : bool :=
  handler_with_genesis StateDB.new (fun h =>
    let h := with_gossip (fun tx seen => seen ++ [tx_hash tx]) h in
    unwrap (handle (str "eth_sendRawTransaction") (JArray [raw pay])) h (fun _ h => cx_world h == [tx_hash pay])).
Definition send_raw_bad_hex : bool :=
  handler_with_genesis StateDB.new (fun h => invalid (ask h "eth_sendRawTransaction" [s "0xzz"])).
Definition send_raw_bad_payload : bool :=
  handler_with_genesis StateDB.new (fun h => invalid (ask h "eth_sendRawTransaction" [s "0xabcd"])).
Definition send_raw_invalid_signature : bool :=
  handler_with_genesis StateDB.new (fun h =>
    let t := BlockTests.with_signature (CryptoTests.mangle 0 255 (tx_signature pay)) pay in
    invalid (ask h "eth_sendRawTransaction" [raw t])).
Definition send_raw_missing_params : bool :=
  handler_with_genesis StateDB.new (fun h => invalid (ask h "eth_sendRawTransaction" [])).
Definition get_transaction_missing : bool :=
  handler_with_genesis StateDB.new (fun h =>
    fails (ask h "eth_getTransactionByHash" [json_hash H256.ZERO]) RpcError.TransactionNotFound).
Definition get_receipt_missing : bool :=
  handler_with_genesis StateDB.new (fun h =>
    fails (ask h "eth_getTransactionReceipt" [json_hash H256.ZERO]) RpcError.TransactionNotFound).
(** The sealed block 1 on the genesis with these transactions and receipts. *)
Definition block_one (used : Z) (txs : list Transaction) (rcs : list Receipt) : Block :=
  let h := mkBlockHeader 1 (block_hash genesis) 2 miner 30000000 used H256.ZERO (list_root txs) (list_root rcs)
             U256.ZERO [] in
  mkBlock (match poa_seal_header poa h miner miner_sk with Ok h => h | Err _ => h end) txs rcs.
Definition get_tx_and_receipt_from_block : bool :=
  let hash := tx_hash pay in
  handler_with_genesis StateDB.new (fun h =>
  insert (block_one 21000 [pay] [mkReceipt hash 1 21000 true []]) h (fun h =>
    let! got := ask h "eth_getTransactionByHash" [json_hash hash] in
    let! rec := ask h "eth_getTransactionReceipt" [json_hash hash] in
    member_is got "blockNumber" (str "0x1") && member_is rec "status" (str "0x1")
    && member_is rec "gasUsed" (str "0x5208") && count (at_ rec "logs") 0
    && is_null (at_ rec "contractAddress"))).
Definition send_raw_quant_envelope_roundtrip : bool :=
  let env := mkQuantEnvelope QUANT_SCHEMA_VERSION (str "d-1") (str "app.v1")
               [mkQuantMetric (str "score") (str "1")] None None in
  let data := quant_encode env in
  let gas := saturating_add64 21000 (16 * Z.of_nat (length data)) in
  let t := signed_tx (sk x01) (Some (addr_of x02)) 0 U256.ZERO gas U256.ONE data in
  handler_with_genesis StateDB.new (fun h =>
  unwrap (handle (str "eth_sendRawTransaction") (JArray [raw t])) h (fun _ h =>
    let! got := ask h "eth_getTransactionByHash" [json_hash (tx_hash t)] in
    let!! input := as_str (at_ got "input") in
    let!! bytes := hex_decode (drop 2 input) in
    let! decoded := quant_decode bytes in
    (decision_id decoded == str "d-1") && (Core.schema decoded == str "app.v1"))).

(** ** The node and its contracts *)

Definition node_info_defaults_to_follower : bool :=
  handler_with_genesis StateDB.new (fun h =>
    let! info := ask h "ivory_nodeInfo" [] in
    member_is info "role" (str "follower") && member_is info "chainId" (str "0x1")
    && is_int (at_ info "pending") 0 && is_int (at_ info "peers") 0
    && member_is info "headNumber" (str "0x0") && member_is info "headHash" (Hash.to_hex (block_hash genesis))
    && count (at_ info "bootstrap") 0).
Definition node_info_pending_and_producer_role : bool :=
  let peer := str "/ip4/127.0.0.1/tcp/9000" in
  unwrap (BlockStore.insert_genesis genesis) (BlockStore.new poa) (fun _ store =>
    let c : Ctx := rpc_context_new (mkLedger store StateDB.new TransactionPool.new) 7 [] in
    let h := with_node_info Producer miner (str "peer-test") 2 [peer] c in
  unwrap (handle (str "eth_sendRawTransaction") (JArray [raw pay])) h (fun _ h =>
    let! info := ask h "ivory_nodeInfo" [] in
    member_is info "role" (str "producer") && member_is info "address" (Address.to_hex miner)
    && member_is info "chainId" (str "0x7") && member_is info "peerId" (str "peer-test")
    && is_int (at_ info "peers") 2 && is_int (at_ info "pending") 1
    && match as_array (at_ info "bootstrap") with Some [p] => text p peer | _ => false end)).
Definition list_contracts_empty_without_creates : bool :=
  handler_with_genesis StateDB.new (fun h => let! v := ask h "ivory_listContracts" [] in count v 0).
(** The deployment of [code] in block 1, with its first row in the list. *)
Definition deployed (code : bytes) (lookup : Ctx -> Ctx) (k : Transaction -> Address -> value -> bool) : bool :=
  let t := signed_tx (sk x01) None 0 U256.ZERO 100000 U256.ONE code in
  let addr := Address.create (tx_from t) (tx_nonce t) in
  handler_with_genesis (StateDB.set_code addr code StateDB.new) (fun h =>
  insert (block_one 50000 [t] [mkReceipt (tx_hash t) 1 50000 true []]) h (fun h =>
    let! list := ask (lookup h) "ivory_listContracts" [] in
    match as_array list with Some [row] => k t addr row | _ => false end)).
Definition list_contracts_after_create : bool :=
  deployed [xaa; xbb; xcc] (fun h => h) (fun t addr row =>
    member_is row "address" (Address.to_hex addr) && is_int (at_ row "codeSize") 3
    && member_is row "blockNumber" (str "0x1") && member_is row "transactionHash" (Hash.to_hex (tx_hash t))
    && is_bool (at_ row "registered") false).
Definition list_contracts_matches_file_catalog : bool :=
  let code := [x11; x22] in
  let hash_code := keccak256 code in
  let meta := mkContractMeta (str "tracker") (str "app.v1") (str "contracts/tracker.yaml") (str "marker") in
  deployed code (with_contract_lookup (fun h => if decide (h = hash_code) then Some meta else None))
    (fun _ _ row => member_is row "name" (str "tracker") && member_is row "schema" (str "app.v1")
                    && is_bool (at_ row "registered") true).
Definition method_not_found : bool := unknown (ask empty_handler "eth_foo" []).
Definition eth_subscribe_http_is_websocket_only : bool :=
  match ask empty_handler "eth_subscribe" [s "newHeads"] with Err (RpcError.Server _) => true | _ => false end.
Definition eth_send_transaction_not_found : bool := unknown (ask empty_handler "eth_sendTransaction" []).
Definition eth_fee_history_not_found : bool := unknown (ask empty_handler "eth_feeHistory" []).

(** ** Calls, estimates, logs and proofs *)

Definition rich : StateDB := ProducerTests.rich.
Definition to_member (b : byte) : bytes * value := (str "to", hex_addr b).
Definition from_member : bytes * value := (str "from", hex_addr x01).
Definition gas_member (gas : bytes) : bytes * value := (str "gas", JString gas).
(** [eth_call] of the account of [b] at [tag]. *)
Definition call_at (h : Ctx) (b : byte) (tag : value) : result value RpcError.t :=
  ask h "eth_call" [object [to_member b]; tag].
Definition is_word (suffix : bytes) (v : value) : bool :=
  match as_str v with
  | Some t => (take 2 t == str "0x") && (length t == 66%nat) && (drop (66 - length suffix) t == suffix)
  | None => false
  end.
Definition eth_call_eoa_does_not_mutate_live : bool :=
  handler_with_genesis rich (fun h =>
    let call := object [from_member; to_member x02; (str "value", s "0x64"); gas_member (str "0x5208")] in
    let '(h, r) := handle (str "eth_call") (JArray [call]) h in
    let! out := r in
    text out (str "0x") && (balance_of (ctx_state h) (addr_of x01) == Some (n 1000000))
    && is_none (StateDB.get_account (ctx_state h) (addr_of x02))).
Definition eth_call_wasm_returns_padded_i32 : bool :=
  handler_with_genesis (StateDB.set_code (addr_of x03) ANSWER StateDB.new) (fun h =>
    let! out := call_at h x03 LATEST in is_word (str "2a") out).
Definition estimate_at_least (state : StateDB) (request : list (bytes * value)) (low : Z) : bool :=
  handler_with_genesis state (fun h =>
    let! out := ask h "eth_estimateGas" [object request] in
    let!! qty := as_str out in
    let!! v := parse_hex_u64 (drop 2 qty) in low <=? v).
Definition eth_estimate_gas_create_includes_data_cost : bool :=
  estimate_at_least StateDB.new
    [from_member; (str "to", JNull); (str "data", s "0x01020304"); gas_member (str "0x186a0")] (21000 + 4 * 16).
Definition eth_estimate_gas_transfer_at_least_intrinsic : bool :=
  estimate_at_least rich [from_member; to_member x02; (str "value", s "0x1"); gas_member (str "0x186a0")] 21000.
Definition eth_estimate_gas_create_covers_intrinsic_and_data : bool :=
  estimate_at_least rich
    [from_member; (str "data", s "0xaaaaaaaaaaaaaaaaaaaa"); gas_member (str "0x186a0")] (21000 + 16 * 10).
Definition sealed_child (parent : Block) (number ts : Z) : Block :=
  let h := plain_header number (block_hash parent) ts miner H256.ZERO in
  mkBlock (match poa_seal_header poa h miner miner_sk with Ok h => h | Err _ => h end) [] [].
Definition eth_call_historical_uses_state_at_snapshot : bool :=
  let block := sealed_child genesis 1 2 in
  handler_with_genesis StateDB.new (fun h =>
  insert block h (fun h =>
    let h := record block (StateDB.set_code (addr_of x03) ANSWER StateDB.new) h in
    let! historic := call_at h x03 (s "0x1") in
    let! latest := call_at h x03 LATEST in
    is_word (str "2a") historic && text latest (str "0x"))).
Definition eth_call_unknown_block_tag_number : bool :=
  handler_with_genesis StateDB.new (fun h => fails (call_at h x02 (s "0x1")) RpcError.BlockNotFound).
Definition eth_call_missing_tx_object : bool := invalid (ask empty_handler "eth_call" []).
Definition eth_call_historical_uses_state_at : bool :=
  handler_with_genesis (StateDB.set_code (addr_of x03) RETURN_2 StateDB.new) (fun h =>
    let h := record genesis (StateDB.set_code (addr_of x03) RETURN_1 StateDB.new) h in
    let! hist_out := call_at h x03 (s "0x0") in
    let! live_out := call_at h x03 LATEST in
    ends "01" hist_out && ends "02" live_out).
Definition eth_call_calldata_first_byte : bool :=
  handler_with_genesis (StateDB.set_code (addr_of x04) FIRST_BYTE StateDB.new) (fun h =>
    let! out := ask h "eth_call" [object [to_member x04; (str "data", s "0x2a")]; LATEST] in ends "2a" out).
Definition eth_get_logs_filters_address_and_caps_range : bool :=
  let receipt := mkReceipt (tx_hash pay) 1 21000 true [mkLog (addr_of x05) [] []] in
  handler_with_genesis StateDB.new (fun h =>
  insert (block_one 21000 [pay] [receipt]) h (fun h =>
    let from_block := (str "fromBlock", s "0x0") in
    let! logs := ask h "eth_getLogs" [object [from_block; (str "toBlock", LATEST); (str "address", hex_addr x05)]] in
    count logs 1 && is_err (ask h "eth_getLogs" [object [from_block; (str "toBlock", s "0x3e9")]]))).
Definition state_of (balance nonce : Z) (code : byte) (slot : H256) (v : Z) : StateDB :=
  let acc := with_balance (n balance) (with_nonce nonce account_new) in
  let db := StateDB.set_account (addr_of x01) acc StateDB.new in
  StateDB.set_storage (addr_of x01) slot (n v) (StateDB.set_code (addr_of x01) [code] db).
Definition historical_balance_code_storage_nonce_use_state_at : bool :=
  let slot := Hash.from_bytes (replicate 32 x04) in
  let child := sealed_child genesis 1 2 in
  handler_with_genesis (state_of 99 9 x33 slot 1) (fun h =>
  let h := record genesis (state_of 10 1 x11 slot 3) h in
  insert child h (fun h =>
    let h := record child (state_of 50 2 x22 slot 8) h in
    let hex := hex_addr x01 in
    answers h "eth_getBalance" [hex; LATEST] (hex_n 99) && answers h "eth_getBalance" [hex; s "0x0"] (hex_n 10)
    && answers h "eth_getBalance" [hex; s "0x1"] (hex_n 50)
    && answers h "eth_getTransactionCount" [hex; s "0x0"] (str "0x1")
    && answers h "eth_getCode" [hex; s "0x1"] (str "0x22")
    && answers h "eth_getStorageAt" [hex; json_hash slot; s "0x0"] (hex_n 3))).
Definition eth_get_proof_walks_account_and_storage : bool :=
  let slot := Hash.from_bytes (replicate 32 x05) in
  let addr := addr_of x01 in
  let state := StateDB.set_storage addr slot (n 11) (StateDB.set_account addr (funded 7) StateDB.new) in
  handler_with_genesis state (fun h =>
    let! out := ask h "eth_getProof" [JString (Address.to_hex addr); JArray [json_hash slot]; LATEST] in
    let!! nodes := as_array (at_ out "accountProof") in
    let!! encoded := mapM (fun node => x ← as_str node; hex_decode (drop 2 x)) nodes in
    let! value := verify (StateDB.root_hash state).2 (Address.as_bytes addr) encoded in
    let!! value := value in
    let!! decoded := deserialize (A := Account) value in
    member_is out "address" (Address.to_hex addr) && member_is out "balance" (hex_n 7)
    && negb (length nodes == 0%nat) && (acc_balance decoded == n 7) && count (at_ out "storageProof") 1).

(** ** Error codes *)

Definition unknown_method_maps_jsonrpc_code : bool :=
  je_code (json_rpc_error (RpcError.MethodNotFound (str "x"))) == -32601.
Definition invalid_params_maps_jsonrpc_code : bool :=
  je_code (json_rpc_error (RpcError.InvalidParams (str "x"))) == -32602.
Definition block_not_found_maps_custom_code : bool := je_code (json_rpc_error RpcError.BlockNotFound) == -32001.
Definition tx_not_found_maps_custom_code : bool := je_code (json_rpc_error RpcError.TransactionNotFound) == -32000.
Definition parse_error_code : bool := je_code parse_error == -32700.
Definition invalid_request_code : bool := je_code invalid_request == -32600.

(** ** The suites *)

Definition account_suite : list bool :=
  [chain_id; transaction_count_missing_account_is_zero; chain_id_ignores_params; block_number_missing_genesis;
   block_number_genesis_is_zero; get_balance_missing_account_is_zero; get_balance_funded;
   get_balance_bad_address; get_balance_missing_params; get_balance_not_array; get_code_empty; get_code_set;
   get_storage_at_zero; get_storage_at_value; get_storage_missing_slot_param].
Definition block_suite : list bool :=
  [get_block_by_number_latest; get_block_by_number_earliest; get_block_by_number_hex; get_block_by_number_int;
   get_block_by_number_pending_alias; get_block_by_number_missing; get_block_by_number_bad_id;
   get_block_by_number_missing_params; get_block_by_hash; get_block_by_hash_missing; get_block_by_hash_bad;
   ivory_get_header_by_number].
Definition transaction_suite : list bool :=
  [send_raw_and_get_pending_tx; send_raw_invokes_gossip_hook; send_raw_bad_hex; send_raw_bad_payload;
   send_raw_invalid_signature; send_raw_missing_params; get_transaction_missing; get_receipt_missing;
   get_tx_and_receipt_from_block; send_raw_quant_envelope_roundtrip].
Definition node_suite : list bool :=
  [node_info_defaults_to_follower; node_info_pending_and_producer_role; list_contracts_empty_without_creates;
   list_contracts_after_create; list_contracts_matches_file_catalog; method_not_found;
   eth_subscribe_http_is_websocket_only; eth_send_transaction_not_found; eth_fee_history_not_found;
   unknown_method_maps_jsonrpc_code; invalid_params_maps_jsonrpc_code; block_not_found_maps_custom_code;
   tx_not_found_maps_custom_code; parse_error_code; invalid_request_code].
Definition query_suite : list bool :=
  [eth_call_eoa_does_not_mutate_live; eth_call_wasm_returns_padded_i32;
   eth_estimate_gas_create_includes_data_cost; eth_call_historical_uses_state_at_snapshot;
   eth_estimate_gas_transfer_at_least_intrinsic; eth_call_unknown_block_tag_number; eth_call_missing_tx_object;
   eth_call_historical_uses_state_at; eth_estimate_gas_create_covers_intrinsic_and_data;
   eth_call_calldata_first_byte; eth_get_logs_filters_address_and_caps_range;
   historical_balance_code_storage_nonce_use_state_at; eth_get_proof_walks_account_and_storage].
Example rpc_account_suite : passes account_suite = true.
Proof. vm_compute. reflexivity. Qed.
Example rpc_block_suite : passes block_suite = true.
Proof. vm_compute. reflexivity. Qed.
Example rpc_transaction_suite : passes transaction_suite = true.
Proof. vm_compute. reflexivity. Qed.
Example rpc_node_suite : passes node_suite = true.
Proof. vm_compute. reflexivity. Qed.
Example rpc_query_suite : passes query_suite = true.
Proof. vm_compute. reflexivity. Qed.
End RpcMethodTests.
