(* ===== verification/HttpTests.v ===== *)
(** * The integration tests of [crates/ivory-rpc/tests/http.rs]

    A request goes to [serve], a socket is [run_socket] over the frames it receives.  The
    JSON text of a value is [print_json]; the frames of the tests are the texts [frame k]
    that parse to the requests they stand for. *)

From S2P Require Import Prelude Testing Hex Text Uint UintFacts Hash Address Impls Bincode Core Trie State Crypto.
From S2P Require Import Vm Executor TxPool Consensus CoreTests StateTests ExecutionTests ChainTests Store.
From S2P Require Import Apply Json Metrics Rpc RpcServer LedgerTests RpcTests.
#[local] Open Scope Z_scope.
#[local] Open Scope test_scope.
#[local] Existing Instance sha3_checksum | 0.
#[local] Existing Instance test_modules | 0.

Module HttpTests.
Import RpcMethodTests.
#[local] Existing Instance no_error_texts | 0.

(** [serde_json::to_string] on values without floats and without characters to escape. *)
Definition quoted (t : bytes) : bytes := [x22] ++ t ++ [x22].
Fixpoint separated (parts : list bytes) : bytes :=
  match parts with [] => [] | [p] => p | p :: ps => p ++ [x2c] ++ separated ps end.
Fixpoint print_json (v : value) : bytes :=
  match v with
  | JNull => str "null"
  | JBool b => if b then str "true" else str "false"
  | JNumber (PosInt k) => fmt_dec k
  | JNumber (NegInt k) => str "-" ++ fmt_dec (- k)
  | JNumber (Float _) => str "0.0"
  | JString t => quoted t
  | JArray l => [x5b] ++ separated (map print_json l) ++ [x5d]
  | JObject o => [x7b] ++ separated (map (fun '(k, v) => quoted k ++ [x3a] ++ print_json v) o) ++ [x7d]
  end.
Definition request (method : String.string) (params : list value) : JsonRpcRequest :=
  mkJsonRpcRequest (str "2.0") (str method) (JArray params) (json_u64 1).
Arguments request method%_string_scope params.
Definition frame (r : JsonRpcRequest) : bytes :=
  print_json (object [(str "jsonrpc", JString (jr_jsonrpc r)); (str "method", JString (jr_method r));
                      (str "params", jr_params r); (str "id", jr_id r)]).
Definition requests : list JsonRpcRequest :=
  [request "eth_subscribe" [s "newHeads"]; request "eth_subscribe" [s "newPendingTransactions"];
   request "eth_subscribe" [s "logs"; object [(str "address", hex_addr x03)]];
   request "eth_subscribe" [s "syncing"]; request "eth_unsubscribe" [s "0x1"]].
Definition test_json : SerdeJson := {|
  request_from_str t := head (List.filter (fun r => bool_decide (frame r = t)) requests);
  response_to_string r := print_json (response_value r);
  value_to_string := print_json |}.
#[local] Existing Instance test_json | 0.
Definition no_floats : FloatText := {| fmt_f64 _ := str "0" |}.
#[local] Existing Instance no_floats | 0.

(** ** HTTP *)

Definition served (token : option bytes) (r : HttpRequest) (k : HttpReply -> bool) : bool :=
  handler_with_genesis StateDB.new (fun h => k (serve token r h).2).
Definition request_body (r : JsonRpcRequest) : value :=
  object [(str "jsonrpc", JString (jr_jsonrpc r)); (str "method", JString (jr_method r));
          (str "params", jr_params r); (str "id", jr_id r)].
Definition post_rpc (r : JsonRpcRequest) (k : JsonRpcResponse -> bool) : bool :=
  served None (mkHttpRequest Post (str "/") None (Some (request_body r))) (fun reply =>
    match reply with JsonReply resp => k resp | _ => false end).
Definition error_code (resp : JsonRpcResponse) : option Z := je_code <$> rs_error resp.
Definition http_chain_id : bool :=
  post_rpc (request "eth_chainId" []) (fun resp =>
    (match rs_result resp with Some v => text v (str "0x1") | None => false end) && is_none (rs_error resp)).
Definition http_malformed_body : bool :=
  served None (mkHttpRequest Post (str "/") None None) (fun reply =>
    match reply with JsonReply resp => error_code resp == Some (-32700) | _ => false end).
Definition http_method_not_found : bool :=
  post_rpc (request "eth_foo" []) (fun resp => error_code resp == Some (-32601)).
Definition http_get (token : option bytes) (path : String.string) (auth : option bytes) (k : HttpReply -> bool) : bool :=
  served token (mkHttpRequest Get (str path) auth None) k.
Arguments http_get token path%_string_scope auth k.
Definition is_panel (reply : HttpReply) : bool := match reply with PanelHtml => true | _ => false end.
Definition http_serves_panel : bool := http_get None "/ui" None is_panel.
Definition http_livez_readyz : bool :=
  http_get None "/livez" None (fun reply => match reply with Live => true | _ => false end)
  && http_get None "/readyz" None (fun reply => match reply with Ready => true | _ => false end).
Fixpoint contains (needle t : bytes) : bool :=
  match t with
  | [] => bool_decide (needle = [])
  | _ :: t' => bool_decide (take (length needle) t = needle) || contains needle t'
  end.
Definition http_metrics_has_head_after_genesis : bool :=
  http_get None "/metrics" None (fun reply =>
    match reply with MetricsText body => contains (str "ivory_head_number") body | _ => false end).
Definition SECRET : bytes := str "s3cret".
Definition BEARER : bytes := str "Bearer s3cret".
Definition is_unauthorized (reply : HttpReply) : bool := match reply with Unauthorized => true | _ => false end.
Definition rpc_token_rejects_without_bearer : bool :=
  http_get (Some SECRET) "/ui" None is_unauthorized
  && http_get (Some SECRET) "/livez" None (fun reply => match reply with Live => true | _ => false end).
Definition rpc_token_accepts_bearer : bool := http_get (Some SECRET) "/ui" (Some BEARER) is_panel.
Definition post_status (auth : option bytes) (k : HttpReply -> bool) : bool :=
  served (Some SECRET) (mkHttpRequest Post (str "/") auth (Some (request_body (request "eth_chainId" [])))) k.
Definition rpc_token_rejects_post_without_bearer : bool := post_status None is_unauthorized.
Definition rpc_token_accepts_post_with_bearer : bool :=
  post_status (Some BEARER) (fun reply => match reply with JsonReply _ => true | _ => false end).
Definition http_subscribe_is_rejected : bool :=
  post_rpc (request "eth_subscribe" [s "newHeads"]) (fun resp =>
    let!! e := rs_error resp in contains (str "websocket") (to_ascii_lowercase (je_message e))).

(** ** WebSocket *)

(** What the socket sends for these inputs, the reply to the first one apart. *)
Definition socket (inputs : list WsInput) (h : Ctx) : list bytes :=
  omap (fun o => match o with SendText t => Some t | SendPong _ => None end) (run_socket inputs (ws_start h)).2.
Definition reply (v : value) : bytes := print_json (response_value (response_success (json_u64 1) v)).
Definition note (result : value) : bytes := print_json (note_value (str "0x1") result).
Definition ws_subscribe_new_heads_and_unsubscribe : bool :=
  handler_with_genesis StateDB.new (fun h =>
    let head := EventReceived (new_head genesis) in
    let sent := socket [TextFrame (frame (request "eth_subscribe" [s "newHeads"])); head;
                        TextFrame (frame (request "eth_unsubscribe" [s "0x1"])); head] h in
    member_is (head_json (new_head genesis)) "hash" (Hash.to_hex (block_hash genesis)) &&
    (sent == [reply (s "0x1"); note (head_json (new_head genesis)); reply (JBool true)])).
Definition ws_subscribe_pending_tx : bool :=
  let hash : H256 := Hash.from_bytes (replicate 32 xab) in
  socket [TextFrame (frame (request "eth_subscribe" [s "newPendingTransactions"]));
          EventReceived (NewPendingTx hash)] empty_handler
  == [reply (s "0x1"); note (json_hash hash)].
Definition ws_subscribe_logs_filters_address : bool :=
  let addr := addr_of x03 in
  let block_hash : H256 := Hash.from_bytes (replicate 32 x11) in
  let logs := [mkLog (addr_of x04) [] []; mkLog addr [] [x2a]] in
  socket [TextFrame (frame (request "eth_subscribe" [s "logs"; object [(str "address", hex_addr x03)]]));
          EventReceived (NewLogs logs 1 block_hash)] empty_handler
  == [reply (s "0x1"); note (logs_json [mkLog addr [] [x2a]] None 1 block_hash)].
Definition ws_unknown_subscribe_topic_is_invalid_params : bool :=
  let failure := response_error (json_u64 1) (invalid_params (str "unknown subscription syncing")) in
  (je_code (invalid_params []) == -32602) &&
  (socket [TextFrame (frame (request "eth_subscribe" [s "syncing"]))] empty_handler
   == [print_json (response_value failure)]).

Definition suite : list bool :=
  [http_chain_id; http_malformed_body; http_method_not_found; http_serves_panel; http_livez_readyz;
   http_metrics_has_head_after_genesis; rpc_token_rejects_without_bearer; rpc_token_accepts_bearer;
   rpc_token_rejects_post_without_bearer; rpc_token_accepts_post_with_bearer; http_subscribe_is_rejected;
   ws_subscribe_new_heads_and_unsubscribe; ws_subscribe_pending_tx; ws_subscribe_logs_filters_address;
   ws_unknown_subscribe_topic_is_invalid_params].
Example http_suite : passes suite = true.
Proof. vm_compute. reflexivity. Qed.
End HttpTests.
