(* ===== verification/ToolTests.v ===== *)
(** * The unit tests of the network codec, the storage backend and the command line tools

    [crates/ivory-network/src/codec.rs], [crates/ivory-storage/src/backend.rs] and the
    [lib.rs] of [tools/ivory-light] and [tools/ivory-dev].  The digest is [sha3_checksum],
    Ed25519 the instance [ed25519_toy]; a TOML text is the two values on two lines. *)

From S2P Require Import Prelude Testing Hex Text Uint UintFacts Hash Address Impls Bincode Core Crypto.
From S2P Require Import ChainTests LedgerTests Persist Network Path Json Light Dev.
#[local] Open Scope Z_scope.
#[local] Open Scope test_scope.
#[local] Existing Instance sha3_checksum | 0.

(** ** [codec.rs] *)

Module CodecTests.
#[export] Instance message_eq_dec : EqDecision NetworkMessage.t.
Proof. solve_decision. Defined.
Definition empty_block : Block :=
  mkBlock (mkBlockHeader 0 H256.ZERO 1 Address.ZERO 1 0 H256.ZERO H256.ZERO H256.ZERO U256.ZERO []) [] [].
Definition tx : Transaction := signed_transfer (sk x01) (addr_of x02) 0 (n 1) 21000.
Definition roundtrip (msg : NetworkMessage.t) : bool :=
  let! bytes := encode msg in
  let! decoded := decode bytes in decoded == msg.

Definition roundtrip_block : bool := roundtrip (NetworkMessage.Block empty_block).
Definition roundtrip_transaction : bool := roundtrip (NetworkMessage.Transaction tx).
Definition roundtrip_get_block : bool := roundtrip (NetworkMessage.GetBlock (Hash.from_bytes (replicate 32 x07))).
Definition roundtrip_get_block_and_block_with_txs : bool :=
  roundtrip (NetworkMessage.GetBlock (Hash.from_bytes (replicate 32 x09)))
  && roundtrip (NetworkMessage.Block (mkBlock (header empty_block) (transactions empty_block ++ [tx]) [])).
Definition decode_garbage_is_invalid : bool :=
  match decode [xff; x00; x01] with Err NetworkError.InvalidMessage => true | _ => false end.
Definition roundtrip_header_and_get_header : bool :=
  let header := header empty_block in
  roundtrip (NetworkMessage.Header header) && roundtrip (NetworkMessage.GetHeader (header_hash header)).
Definition decode_empty_is_invalid : bool :=
  match decode [] with Err NetworkError.InvalidMessage => true | _ => false end.
Definition roundtrip_get_block_and_block_with_tx : bool :=
  let receipt := mkReceipt (tx_hash tx) 1 21000 true [] in
  let header := mkBlockHeader 1 H256.ZERO 2 Address.ZERO 30000000 21000 H256.ZERO (list_root [tx])
                  (list_root [receipt]) U256.ZERO [] in
  roundtrip (NetworkMessage.GetBlock (Hash.from_bytes (replicate 32 x09)))
  && roundtrip (NetworkMessage.Block (mkBlock header [tx] [receipt])).

Definition suite : list bool :=
  [roundtrip_block; roundtrip_transaction; roundtrip_get_block; roundtrip_get_block_and_block_with_txs;
   decode_garbage_is_invalid; roundtrip_header_and_get_header; decode_empty_is_invalid;
   roundtrip_get_block_and_block_with_tx].
Example codec_suite : passes suite = true.
Proof. vm_compute. reflexivity. Qed.
End CodecTests.

(** ** [backend.rs] *)

Module BackendTests.
Import RocksDbBackend.
Definition open_temp : rocks := (∅ : gmap bytes bytes).
Definition reads (db : rocks) (key : bytes) (v : option bytes) : bool :=
  let! found := get db key in found == v.
Definition put_get_roundtrip : bool :=
  unwrap (put (str "key") (str "value")) open_temp (fun _ db => reads db (str "key") (Some (str "value"))).
Definition missing_key_returns_none : bool := reads open_temp (str "missing") None.
Definition delete_then_get_returns_none : bool :=
  unwrap (put (str "key") (str "value")) open_temp (fun _ db =>
  unwrap (delete (str "key")) db (fun _ db => reads db (str "key") None)).
Definition overwrite_value : bool :=
  unwrap (put (str "key") (str "one")) open_temp (fun _ db =>
  unwrap (put (str "key") (str "two")) db (fun _ db => reads db (str "key") (Some (str "two")))).
Definition flush_succeeds : bool :=
  unwrap (put (str "key") (str "value")) open_temp (fun _ db =>
  unwrap flush db (fun _ db => reads db (str "key") (Some (str "value")))).

Definition suite : list bool :=
  [put_get_roundtrip; missing_key_returns_none; delete_then_get_returns_none; overwrite_value; flush_succeeds].
Example backend_suite : passes suite = true.
Proof. vm_compute. reflexivity. Qed.
End BackendTests.

(** ** [tools/ivory-light/src/lib.rs] *)

Module LightTests.
Definition header (number : Z) (parent : H256) (extra : bytes) : BlockHeader :=
  let '(tx_root, rx_root) := empty_list_roots in
  mkBlockHeader number parent (number + 1) Address.ZERO 30000000 0 H256.ZERO tx_root rx_root U256.ZERO extra.
Definition verify_header_link_accepts_child : bool :=
  let parent := header 0 H256.ZERO [x01] in
  is_ok (verify_header_link parent (header 1 (header_hash parent) [x02])).
Definition verify_header_link_rejects_bad_parent_number_and_seal : bool :=
  let parent := header 0 H256.ZERO [x01] in
  fails (verify_header_link parent (header 1 (Hash.from_bytes (replicate 32 x09)) [x02])) LightError.ParentMismatch
  && fails (verify_header_link parent (header 3 (header_hash parent) [x02])) LightError.NumberMismatch
  && fails (verify_header_link parent (header 1 (header_hash parent) [])) LightError.MissingSeal.
Definition header_from_rpc_roundtrip : bool :=
  let '(tx_root, rx_root) := empty_list_roots in
  let h := header 2 (Hash.from_bytes (replicate 32 x03)) [xaa; xbb] in
  let v := object
    [(str "number", JString (str "0x2")); (str "hash", JString (Hash.to_hex (header_hash h)));
     (str "parentHash", JString (Hash.to_hex (parent_hash h))); (str "miner", JString (Address.to_hex (miner h)));
     (str "timestamp", JString (str "0x3"));
     (str "gasLimit", JString (str "0x" ++ fmt_hex (gas_limit h))); (str "gasUsed", JString (str "0x0"));
     (str "stateRoot", JString (Hash.to_hex (state_root h)));
     (str "transactionsRoot", JString (Hash.to_hex tx_root)); (str "receiptsRoot", JString (Hash.to_hex rx_root));
     (str "difficulty", JString (U256.to_hex U256.ZERO)); (str "extraData", JString (str "0xaabb"))] in
  let! decoded := header_from_rpc v in
  (decoded == h) && is_ok (verify_rpc_hash decoded v).

Definition suite : list bool :=
  [verify_header_link_accepts_child; verify_header_link_rejects_bad_parent_number_and_seal;
   header_from_rpc_roundtrip].
Example light_suite : passes suite = true.
Proof. vm_compute. reflexivity. Qed.
End LightTests.

(** ** [tools/ivory-dev/src/lib.rs] *)

Module DevTests.
Fixpoint split_line (acc s : bytes) : option (bytes * bytes) :=
  match s with
  | [] => None
  | c :: s => if decide (c = x0a) then Some (rev acc, s) else split_line (c :: acc) s
  end.
Definition two_lines : TomlCrate := {|
  toml_dev_config cfg := dc_rpc cfg ++ [x0a] ++ dc_key cfg;
  parse_dev_config text := '(rpc, key) ← split_line [] text; Some (mkDevConfig rpc key) |}.
#[local] Existing Instance two_lines | 0.
Definition no_env (_ : bytes) : option bytes := None.
Definition tmp : Fs := mkFs [] ∅ {[ []; [str "tmp"] ]}.

Definition new_project_writes_toml_and_contracts : bool :=
  let root := Path.join (str "/tmp") (str "app") in
  unwrap (new_project (str "name: tracker") (str "(module)") (str "# Ivory project") root) tmp (fun _ fs =>
    Fs.exists_ fs (Path.join root (str "ivory.toml"))
    && Fs.exists_ fs (Path.join root (str "contracts/tracker.yaml"))
    && Fs.exists_ fs (Path.join root (str "contracts/tracker.wat"))
    && (let! cfg := load_dev_config fs root in dc_rpc cfg == str "http://127.0.0.1:8545")).
Definition resolve_rpc_local_default : bool :=
  let! url := resolve_rpc no_env None (Some Local) (mkDevConfig (str "http://127.0.0.1:8545") []) in
  url == str "http://127.0.0.1:8545".
Definition resolve_rpc_flag_wins : bool :=
  let! url := resolve_rpc no_env (Some (str "http://flag:1")) (Some Local) (mkDevConfig (str "http://old") []) in
  url == str "http://flag:1".
Definition public_chain_requires_env : bool :=
  match resolve_rpc no_env None (Some Public) dev_config_default with
  | Err DevError.PublicUnset => true
  | _ => false
  end.

Definition suite : list bool :=
  [new_project_writes_toml_and_contracts; resolve_rpc_local_default; resolve_rpc_flag_wins;
   public_chain_requires_env].
Example dev_suite : passes suite = true.
Proof. vm_compute. reflexivity. Qed.
End DevTests.
