(* ===== verification/NodeTests.v ===== *)
(** * The smoke tests of [bin/ivory/tests] and the gossip tests of [ivory-network/tests]

    A data directory is initialised in an empty file system, loaded, and the node run:
    waiting for the producer is one turn of its task ([tick]), and what two nodes send
    each other is [exchange]: the commands one has queued are published, heard by the
    other's network task and handled by its import task.  The digest is [sha3_checksum],
    Ed25519 the instance [ed25519_toy], the network [memory_mesh], the database
    [memory_rocks]. *)

From Stdlib Require Import Floats.SpecFloat.
From S2P Require Import Prelude Testing Hex Text Uint UintFacts Hash Address Impls Bincode Core Trie State Crypto.
From S2P Require Import Vm Executor TxPool Consensus CoreTests StateTests ExecutionTests ChainTests Store.
From S2P Require Import Apply Persist Network Config Path Json Metrics Rpc LedgerTests RpcTests Node NodeRun Datadir.
From S2P Require Import DatadirProps.
#[local] Open Scope Z_scope.
#[local] Open Scope test_scope.
#[local] Existing Instance sha3_checksum | 0.
#[local] Existing Instance test_modules | 0.

(** ** [node_smoke.rs] and [two_node.rs] *)

Module SmokeTests.
Import RpcMethodTests.
#[local] Existing Instance no_error_texts | 0.
Definition key : SecretKey := sk x05.
Definition dir : bytes := str "/node".
Definition db (cfg : NodeFileConfig) (contents : rocks) : ChainPersist :=
  ChainPersist.open_with contents (archive cfg) (archive_keep cfg).
(** [init_datadir] and [load_datadir] of an empty directory. *)
Definition initialised (sk : SecretKey) (k : Fs -> NodeFileConfig -> GenesisFile -> SecretKey -> bool) : bool :=
  unwrap (init_datadir dir sk) empty_fs (fun _ fs =>
    let! (cfg, genesis, key, paths) := load_datadir fs dir in k fs cfg genesis key).
Definition started (cfg : NodeFileConfig) (g : GenesisFile) (key : SecretKey) (contents : rocks)
    (k : RunningNode -> bool) : bool :=
  let! r := (run_node cfg g key (fun _ => None) quiet_host (db cfg contents)).2 in k r.
Definition fresh : rocks := (∅ : gmap bytes bytes).
(** A turn of the producer task, when there is one. *)
Definition turn (r : RunningNode) : Node :=
  match rn_producer r with Some t => tick t (S754_zero false) (rn_node r) | None => rn_node r end.
Definition with_role (role : ServerRole) (c : NodeFileConfig) : NodeFileConfig :=
  mkNodeFileConfig (Config.chain_id c) (rpc_addr c) (p2p_listen c) (bootstrap c) (block_interval_ms c) (contracts_dir c)
    role (p2p_allowlist c) (archive c) (archive_keep c) (rpc_read_addr c).
Definition with_node (n : Node) (r : RunningNode) : RunningNode := mkRunningNode n (rn_service r) (rn_producer r) (rn_rpc_addr r) (rn_p2p_addr r).
Definition transfer : Transaction := signed_transfer key (addr_of x02) 0 (n 1) 21000.
(** [node.pool.add_transaction(tx, TxOrigin::Local).unwrap();] *)
Definition submitted (t : Transaction) (r : RunningNode) (k : RunningNode -> bool) : bool :=
  let '(pool, res) := TransactionPool.add_transaction t Local (lg_pool (nd_ledger (rn_node r))) in
  is_ok res && k (with_node (on_ctx (set_ctx_pool pool) (rn_node r)) r).
Definition head_number (node : Node) : option Z :=
  (fun b => number (header b)) <$> BlockStore.head_block (lg_store (nd_ledger node)).
Definition balance_is (node : Node) (who : value) (v : bytes) : bool :=
  let! bal := (rpc_call (str "eth_getBalance") (JArray [who; LATEST]) node).2 in text bal v.

Definition init_writes_files : bool :=
  unwrap (init_datadir dir key) empty_fs (fun paths fs =>
    Fs.exists_ fs (dp_config paths) && Fs.exists_ fs (dp_genesis paths) && Fs.exists_ fs (dp_validator_key paths)
    && Fs.exists_ fs (dp_chain paths) && Fs.exists_ fs (dp_contracts paths)).
Definition run_produces_signed_transfer : bool :=
  initialised key (fun _ cfg genesis key =>
  started cfg genesis key fresh (fun r =>
  submitted transfer r (fun r =>
    let node := turn r in
    let!! block := BlockStore.get_block_by_number (lg_store (nd_ledger node)) 1 in
    let! v := (rpc_call (str "eth_blockNumber") (JArray []) node).2 in
    (transactions block != []) && negb (text v (str "0x0"))))).
Definition restart_reloads_persisted_blocks : bool :=
  initialised key (fun _ cfg genesis key =>
  started cfg genesis key fresh (fun r =>
  submitted transfer r (fun r =>
    let node := turn r in
    (head_number node == Some 1) &&
    started cfg genesis key (cp_db (nd_persist node)) (fun r2 =>
      (head_number (rn_node r2) == Some 1) && balance_is (rn_node r2) (hex_addr x02) (hex_n 1))))).
Definition slave_role_does_not_produce : bool :=
  initialised key (fun _ cfg genesis key =>
  started (with_role Slave cfg) genesis key fresh (fun r =>
  submitted transfer r (fun r => head_number (turn r) == Some 0))).

(** What [a] has queued reaches [b] and is handled there; the queue is then empty. *)
Definition exchange (a b : RunningNode) : RunningNode * RunningNode :=
  let wire := foldl (fun sw c => (handle_command c sw).1) ([] : Swarm) (nh_queue (cx_world (nd_ctx (rn_node a)))) in
  let heard := foldl deliver (rn_service b) wire in
  let events := drop (length (ns_events (rn_service b))) (ns_events heard) in
  let drained c := set_ctx_world (mkNetworkHandle [] false (nh_peers (cx_world c))) c in
  (with_node (on_ctx drained (rn_node a)) a,
   mkRunningNode (foldl (fun n e => handle_event e n) (rn_node b) events) heard (rn_producer b) (rn_rpc_addr b) (rn_p2p_addr b)).
Definition follower_imports_transfer_and_matches_balance : bool :=
  initialised key (fun _ cfg_a genesis_a key_a =>
  initialised (sk x06) (fun _ cfg_b _ key_b =>
  started cfg_a genesis_a key_a fresh (fun node_a =>
  started (with_role Slave cfg_b) genesis_a key_b fresh (fun node_b =>
    let '(sent, r) := rpc_call (str "eth_sendRawTransaction") (JArray [raw transfer]) (rn_node node_a) in
    let node_a := with_node sent node_a in
    let '(node_a, node_b) := exchange node_a node_b in
    let '(node_a, node_b) := exchange (with_node (turn node_a) node_a) node_b in
    is_ok r && (head_number (rn_node node_b) == Some 1) && balance_is (rn_node node_b) (hex_addr x02) (hex_n 1)
    && (bs_head (lg_store (nd_ledger (rn_node node_a))) == bs_head (lg_store (nd_ledger (rn_node node_b)))))))).

Definition suite : list bool :=
  [init_writes_files; run_produces_signed_transfer; restart_reloads_persisted_blocks;
   slave_role_does_not_produce; follower_imports_transfer_and_matches_balance].
Example smoke_suite : passes suite = true.
Proof. vm_compute. reflexivity. Qed.
End SmokeTests.

(** ** [ivory-network/tests/gossip.rs] *)

Module GossipTests.
Definition empty_block (number : Z) : Block :=
  mkBlock (mkBlockHeader number H256.ZERO (number + 1) Address.ZERO 1 0 H256.ZERO H256.ZERO H256.ZERO U256.ZERO []) [] [].
Definition tx : Transaction := signed_transfer (sk x01) (addr_of x02) 0 (n 1) 21000.
(** [start(NetworkConfig { allowlist, .. })]; the listen address is reported. *)
Definition started (allowlist : list nat) (k : NetworkHandle -> NetService -> bool) : bool :=
  let!! config := network_config_default in
  let! (handle, _, service) := start (mkNetworkConfig (nc_listen config) [] allowlist) in
  k handle (handle_swarm_event (NewListenAddr (nc_listen config)) service).
(** What [send] queues, published, as it is heard by the peer [service]. *)
Definition gossiped (send : smonad NetworkHandle NetworkError.t unit) (k : NetService -> bool) : bool :=
  started [] (fun a _ =>
  started [] (fun _ rb =>
    let rb := handle_swarm_event (ConnectionEstablished 1%nat) rb in
    unwrap send a (fun _ a =>
      let wire := foldl (fun sw c => (handle_command c sw).1) ([] : Swarm) (nh_queue a) in
      k (foldl deliver rb wire)))).
Definition hears (p : NetworkEvent -> bool) (s : NetService) : bool := existsb p (ns_events s).
Definition hears_block (hash : H256) : NetService -> bool :=
  hears (fun e => match e with BlockReceived b => block_hash b == hash | _ => false end).
Definition hears_header (hash : H256) : NetService -> bool :=
  hears (fun e => match e with HeaderReceived h => header_hash h == hash | _ => false end).

Definition gossip_transaction : bool :=
  gossiped (broadcast_transaction tx)
    (hears (fun e => match e with TxReceived t => tx_hash t == tx_hash tx | _ => false end)).
Definition gossip_block : bool :=
  let block := empty_block 3 in gossiped (broadcast_block block) (hears_block (block_hash block)).
Definition gossip_header_then_block : bool :=
  let block := empty_block 3 in
  let hash := block_hash block in
  gossiped (broadcast_block block) (fun rb => hears_header hash rb && hears_block hash rb).
Definition sync_get_header_request : bool :=
  let hash : H256 := Hash.from_bytes (replicate 32 x2b) in
  gossiped (request_header hash)
    (hears (fun e => match e with HeaderRequest h => h == hash | _ => false end)).
Definition sync_get_block_request : bool :=
  let hash : H256 := Hash.from_bytes (replicate 32 x2a) in
  gossiped (request_block hash)
    (hears (fun e => match e with BlockRequest h => h == hash | _ => false end)).
Definition peer_disconnect : bool :=
  started [] (fun a ra =>
    let ra := handle_swarm_event (ConnectionEstablished 1%nat) ra in
    let ra := handle_swarm_event (ConnectionClosed 1%nat) ra in
    hears (fun e => match e with PeerDisconnected p => p == 1%nat | _ => false end) ra
    && (ns_peers ra == 0) && is_ok (broadcast_block (empty_block 0) a).2).
Definition codec_used_by_integration_path : bool :=
  let! bytes := encode (NetworkMessage.GetBlock H256.ZERO) in is_ok (decode bytes).
Definition broadcast_without_peers_does_not_fail : bool :=
  started [] (fun handle _ =>
  unwrap (broadcast_block (empty_block 1)) handle (fun _ handle =>
  unwrap (broadcast_transaction tx) handle (fun _ handle =>
    is_ok (request_block H256.ZERO handle).2))).
Definition allowlist_accepts_listed_peer_and_denies_third : bool :=
  started [2%nat] (fun _ ra =>
    let ra := handle_swarm_event (ConnectionEstablished 2%nat) ra in
    let rc := handle_swarm_event (ConnectionEstablished 3%nat) ra in
    (ns_peers ra == 1) && (ns_peers rc == 1)
    && negb (hears (fun e => match e with PeerConnected p => p == 3%nat | _ => false end) rc)).

Definition suite : list bool :=
  [gossip_transaction; gossip_block; gossip_header_then_block; sync_get_header_request; sync_get_block_request;
   peer_disconnect; codec_used_by_integration_path; broadcast_without_peers_does_not_fail;
   allowlist_accepts_listed_peer_and_denies_third].
Example gossip_suite : passes suite = true.
Proof. vm_compute. reflexivity. Qed.
End GossipTests.
